(* ===== verification/_CoqProject ===== *)
-Q . S2P
Prelude.v
Ring.v
Bits.v
Mmio.v
Gpio.v
I2c.v
Irq.v
CStr.v
Glob.v
CType.v
NumConv.v
Shell.v
ShellSplit.v
ShellExec.v
ShellEdit.v
Env.v
EnvSpec.v
EnvTable.v
Environment.v
Ecc.v
Console.v
Format.v
FormatSpec.v
Scan.v
Mem.v
UsbStorage.v
Devfs.v
Fat.v
FatTable.v
FatChain.v
FatRead.v
FatDir.v
FatLookup.v
FatPath.v
Files.v
FatMount.v
FatFiles.v
Symbols.v
Elf.v
ElfSpec.v
LoadPath.v
Heap.v
HeapInv.v
HeapOps.v
HeapSpec.v
HeapRealloc.v
RtList.v
Kernel.v
KernelInv.v
Sched.v
ThreadOps.v
Lifecycle.v
Ipc.v
IpcInv.v
Mailbox.v
System.v
Demo.v
KernelSpec.v
IpcSpec.v
ThreadMemory.v
