(* ===== verification/Prelude.v ===== *)
(** * luojiOS for the Loongson 1C: a verification library

    luojiOS is a boot monitor and small operating system for the Loongson 1C, a MIPS32
    processor without hardware protection: a preemptive thread kernel derived from
    RT-Thread, a heap, a serial console with a shell, an environment of variables kept in
    the boot flash, and drivers.  This library models the parts that are the program's own
    and proves what makes them correct.  Paths are those below [src/].

    ** The parts and how they interact

    The clock interrupt enters through the dispatcher ([lib/ls1c_irq.c]) into
    [sys_tick_handler] ([lib/ls1c_sys_tick.c]), which charges the running thread and fires
    timers; these, and the calls of threads, move threads between the ready queues, the
    timer list and the waiting lists of semaphores and mailboxes, and [rt_schedule] picks
    the next one ([os/thread.c]).  Threads take their records and stacks from the heap
    ([os/mem.c]), which is itself guarded by a semaphore, and the idle thread gives them
    back.  The serial interrupt fills the receive buffer ([os/getchar.c]) from which the
    shell ([os/shell.c]) edits and runs command lines; commands format and scan text
    ([libc/]) and set variables ([os/env.c]) that survive in a flash sector.

    Files are reached from above through a table of open files ([os/filesys/filesys.c]),
    which hands a name to the file system that claims it; the FAT file system
    ([os/filesys/fatfs.c]) finds the file on a raw device ([os/filesys/devfs.c]), which
    cuts reads of any bytes into blocks for the USB disk ([os/hardware/usb_storage.c]).  The
    monitor loads programs through these calls ([os/filesys/loadelf.c], [load.c]) and keeps
    a table of their symbols.

    ** The files

    - Prelude.v: machine integers at their width, memory fields as functions, the lemmas
      and tactics ([zlia], [simpl_fupd]) that all files share.
    - Ring.v: the part of an array that a ring buffer has in use; shared by the mailboxes
      and the console.
    - Bits.v: [__rt_ffs] ([os/thread.c]), [ffs] and [fls] ([libc/]).
    - Mmio.v, Gpio.v: registers with a log of writes ([lib/ls1c_public.c]), pins and their
      alternative functions ([lib/ls1c_gpio.c], [lib/ls1c_pin.c]).
    - I2c.v: the I2C master on two pins ([lib/ls1c_simulate_i2c.c]), against a decoder of
      what is on the bus.
    - Irq.v: interrupt registers, handler table and dispatch ([lib/ls1c_irq.c]).
    - CStr.v, CType.v, NumConv.v: strings, character classes and conversions between
      numbers and text ([libc/], [os/common_fun.c]).
    - Format.v, FormatSpec.v, Scan.v: [vsprintf] and [vsscanf] without the floating-point
      conversions ([libc/vsprintf.c], [libc/str_fmt.c], [libc/scanf.c]).
    - Shell.v, ShellSplit.v, ShellExec.v, ShellEdit.v: the line editor, the splitting of a
      line into arguments and the running of a command ([os/shell.c]).
    - Env.v, EnvSpec.v, EnvTable.v, Environment.v: the environment in memory and in flash
      ([os/env.c]).
    - Ecc.v: the error correction of NAND flash ([os/hardware/nand/nand_ecc.c]).
    - Console.v: the receive path of the console ([os/getchar.c], [os/common_fun.c]).
    - Mem.v: [memcpy], [memmove], [memset], [memcmp] byte by byte ([libc/], [os/mem.c]).
    - Glob.v: prefixes and patterns of names ([strbequ], [strposn], [strpat] of
      [os/common_fun.c]).
    - UsbStorage.v: reading blocks of a USB disk through command blocks
      ([os/hardware/usb_storage.c]); the transport is the interface [UsbTransport], and
      [ScsiDisk] says that a disk behind it obeys READ(10) and TEST UNIT READY.
    - Devfs.v: raw devices ([os/filesys/devfs.c]), and the interface [RawDevice] with the
      promises [RawDisk] that the file system is proved against; an instance is the layer
      over a USB disk.
    - Fat.v, FatTable.v, FatChain.v, FatRead.v: entries of the table, chains of clusters and
      the buffered reading of a file ([os/filesys/fatfs.c]).
    - FatDir.v, FatLookup.v, FatPath.v: entries of directories, short and long names, and
      the search of a path, against the directories as lists of entries.
    - Files.v: the table of open files and the calls on it ([os/filesys/filesys.c]); a file
      system is the record [FileSystem] of its operations.
    - FatMount.v, FatFiles.v: mounting, opening and closing on a FAT volume, and the whole
      way of a file from [open] to [close].
    - Symbols.v: the symbol table ([os/filesys/loadelf.c]).
    - Elf.v, ElfSpec.v: the loader of executables ([os/filesys/loadelf.c]) over any calls on
      files (the record [FileCalls]), proved against the interface [ByteFile].
    - LoadPath.v: [do_loadelf] ([os/filesys/load.c]) over any file system that opens the
      name as a file of bytes (the interface [Program]); a volume held in memory and, under
      the assumptions of [file_by_path], a FAT volume are instances.
    - Heap.v, HeapInv.v, HeapOps.v, HeapSpec.v, HeapRealloc.v: the heap ([os/mem.c]).
    - RtList.v: the intrusive lists of the kernel, pointer by pointer.
    - Kernel.v, KernelInv.v, Sched.v, ThreadOps.v: threads, ready queues, scheduler,
      timers and the tick ([os/thread.c], [os/os.c], [lib/ls1c_sys_tick.c]).
    - Lifecycle.v: creation and end of threads, with the allocator as the interface
      [Allocator]; ThreadMemory.v: the laws of that interface ([AllocatorLaws]), their
      proof for the heap, and the ownership of memory by threads.
    - Ipc.v, IpcInv.v, Mailbox.v: semaphores and mailboxes.
    - System.v, Demo.v: the kernel as a transition system, and a concrete small system.
    - KernelSpec.v, IpcSpec.v: the theorems on the kernel.

    ** State and operations

    A routine of the source has a definition of the same name.  The kernel's memory is a
    record of total functions from addresses to fields and of the file-level variables; a
    routine is a function on it.  A call that may switch threads returns which switch it
    makes, and the code behind the switch is a second definition, which runs when the
    thread runs again (Ipc.v).  Results that C leaves undefined, such as accesses outside
    of a buffer or through a null pointer, are [None], or an outcome of their own;
    theorems therefore also say that these do not occur, or when they do.  A loop whose
    end is not plain from its form has fuel.

    ** What is shown

    - Kernel: an invariant that ties lists, thread records and ready group together holds
      in every state reachable by executions that keep the rules of [kstep] (System.v), and
      the calls come back there ([reachable_safe]).  The rules that the kernel itself does
      not check matter: above all, a thread may sleep, exit or wait only while another one
      is ready.  The scheduler runs the first thread of
      the highest priority and is first-in first-out among equals; ticks wake exactly the
      expired threads, a sleeper wakes after its time, threads of one priority take turns.
    - Semaphores and mailboxes refine a counter with a queue of waiters and a bounded
      queue of messages, on every branch of every call.
    - Heap: the chain of headers is a list of segments; [malloc], [free], [realloc] and
      [malloc_align] are changes of that list that keep the other blocks and the contents.
      [malloc] of 0 bytes, or of more than the heap holds, keeps the semaphore, and so does a
      creation of a thread with such a stack, which never comes back.  Together with the
      kernel: every thread owns its record and its stack, and they are
      freed exactly once.
    - Text: what is written in a base is read back; [vsprintf] means its format; [sscanf]
      reads what [sprintf] wrote, but stores nothing for a negative number; the shell is an editor on a text, and splits a line into
      the tokens that it has.
    - Environment: a variable that is set survives a reset, whatever the flash holds
      beside it, and whatever [getenv], which ends without a [return] for a variable that
      is not set, leaves in the result register; setting succeeds exactly when the text
      fits.
    - Devices: the receive buffer is a queue that drops the oldest character; an enabled
      interrupt reaches its handler; an I2C transfer is the start, bits and stop it should
      be; the error correction mends one wrong bit and is not fooled by two.

    - Files: on a FAT volume with 12, 16 or 32-bit entries, [open] of a path, any sequence
      of [read] and [lseek], and [close] behave as a list of bytes with a position
      ([file_by_path]), as long as the block of the file's buffer, which [fat_init] frees,
      is not used for anything else; below it, reading returns the bytes of the clusters in the order of
      the chain, a path is resolved as the directories say, the chain is followed to its
      end and no further, and a disk of blocks is read as bytes.  Patterns of names match
      what they say.
    - Programs: [load_elf] leaves in memory exactly the segments of the file, with zeros
      behind them, and refuses other files by their header and its table; the symbol table is
      a finite map; and a program is opened by its path, loaded and closed again over any
      file system that keeps the promises of an open file ([load_by_path]).

    Several theorems state what the code does where that is not what it means to do: the
    heap's semaphore is kept by early returns, the idle thread alone hangs the timer list,
    lines of eighty characters make the shell fault, a text that does not fit overruns the
    buffer of the environment, one [open] that finds no file makes its slot unusable
    ([failed_open_blocks]), a chain of clusters that lies in the freed buffer is overwritten
    by the first sector read ([entries_in_the_buffer]), a circle of clusters is followed for ever, and a file whose size
    exceeds its chain is read for ever.

    ** Bounds and fuel

    The heap's loops are given more fuel than there are blocks; the theorems ask only for
    that, and [heap_fuel] (ThreadMemory.v) is such a bound.  The timer check is stated for
    all large enough fuel ([eventually], System.v) with the length of the timer list as a
    sufficient amount; that the check can also never end is itself a theorem.  The loops
    over a format or an input have its length as fuel, those over the flash sector the
    sector's size, which the proofs show to be enough.  The following of a chain of clusters
    has a bound as fuel, and the theorems hold for every chain not longer than it; that
    there is no result for any fuel when the chain has no end is a theorem too.  [fat_read]
    has the length that is read, the search of a path its length, the loop over the segments
    of a program their number.  Sizes are bounded only where the
    source's integers are: heaps below 4 GB, strings below 2 GB, lines below 80 characters,
    64 variables, disks below 2^30 sectors, files below 2 GB, and long names of at most nine
    parts, which is what the array for them holds.

    ** Not modelled

    Third-party code kept with the program: the lwIP stack and PPP, the vendor's Ethernet
    driver, the MTD layer for NAND except the error correction, the USB host controller, the
    detection of USB disks and the bulk transport, zlib, libm and with it the floating-point
    conversions of the formatter.  Assembly: start-up, caches, exception vectors and the
    register half of the context switch, which appears as the outcome of [rt_schedule].
    Device drivers that only move words between registers (frame buffer, SPI, CAN, PWM,
    hardware I2C, UART set-up, clocks), the network and flash file systems, the commands that
    run a loaded program, and demonstrations.  Of printing only the formatting; what commands print is
    left out, also the listing of a directory, which [fat_findfile] prints for a path that
    ends in a slash.  The SPI flash appears as an interface ([Sector], Env.v).  In the
    loader the branch for the kernel debugger (KFLAG), which no caller asks for, is left out,
    and what is read of a compressed file is a parameter.  In the file
    system the allocations succeed.  The buffer of an open file is a block that [fat_init]
    has freed and that [fat_read] goes on using: what the block holds at each read is the
    parameter [freed], and where the entries of the chain, which are allocated after the
    [free], lie from the start of the block is the parameter [place] (FatMount.v).  A sector
    that is read overwrites those entries that lie where it is put ([clobber_file], Fat.v). *)

From stdpp Require Export base tactics list gmap fin_maps.
From Stdlib Require Export ZArith Lia Btauto.

#[global] Open Scope Z_scope.

(** ** Machine integers

    The target is the o32 MIPS ABI of the ls232 tool chain: [char] is a signed
    8-bit integer, [short] 16 bits, [int], [long] and pointers 32 bits.  A value
    is kept as the mathematical integer it denotes and every operation that can
    leave the range writes its wrap-around out with one of these casts. *)

Definition u8 (x : Z) : Z := x mod 2 ^ 8.
Definition u16 (x : Z) : Z := x mod 2 ^ 16.
Definition u32 (x : Z) : Z := x mod 2 ^ 32.
Definition s8 (x : Z) : Z := (x + 2 ^ 7) mod 2 ^ 8 - 2 ^ 7.
Definition s32 (x : Z) : Z := (x + 2 ^ 31) mod 2 ^ 32 - 2 ^ 31.

(** [~x] on 8 and 32 bits. *)
Definition not8 (x : Z) : Z := u8 (Z.lnot x).
Definition not32 (x : Z) : Z := u32 (Z.lnot x).

Declare Scope c_scope.
Delimit Scope c_scope with C.
Notation "a +u b" := (u32 (a + b)) (at level 50, left associativity) : c_scope.
Notation "a -u b" := (u32 (a - b)) (at level 50, left associativity) : c_scope.
Notation "a *u b" := (u32 (a * b)) (at level 40, left associativity) : c_scope.
Open Scope c_scope.

(** Arithmetic that mentions [/] or [mod] by a numeral. *)
Ltac zlia := repeat match goal with
  | x := _ |- _ => subst x
  end; unfold u8, u16, u32, s8, s32 in *;
  Z.div_mod_to_equations; lia.

Lemma u32_small (x : Z) : 0 <= x < 2 ^ 32 -> u32 x = x.
Proof. apply Z.mod_small. Qed.

Lemma u16_small (x : Z) : 0 <= x < 2 ^ 16 -> u16 x = x.
Proof. apply Z.mod_small. Qed.

Lemma u8_small (x : Z) : 0 <= x < 2 ^ 8 -> u8 x = x.
Proof. apply Z.mod_small. Qed.

Lemma u32_range (x : Z) : 0 <= u32 x < 2 ^ 32.
Proof. by apply Z.mod_pos_bound. Qed.

Lemma u16_range (x : Z) : 0 <= u16 x < 2 ^ 16.
Proof. by apply Z.mod_pos_bound. Qed.

Lemma u8_range (x : Z) : 0 <= u8 x < 2 ^ 8.
Proof. by apply Z.mod_pos_bound. Qed.

Lemma s32_small (x : Z) : - 2 ^ 31 <= x < 2 ^ 31 -> s32 x = x.
Proof. intros. unfold s32. rewrite Z.mod_small; lia. Qed.

Lemma s8_small (x : Z) : - 2 ^ 7 <= x < 2 ^ 7 -> s8 x = x.
Proof. intros. unfold s8. rewrite Z.mod_small; lia. Qed.

(** ** Memory fields as functions

    A field of every object of one C type is a total function from the object to
    the field's value: memory always holds something. *)

Definition fupd `{EqDecision K} {V} (f : K -> V) (k : K) (v : V) : K -> V :=
  fun x => if decide (x = k) then v else f x.

Section Fupd.
Context `{EqDecision K} {V : Type}.
Implicit Types (f : K -> V) (k x : K) (v : V).

Lemma fupd_eq f k v : fupd f k v k = v.
Proof. unfold fupd. by rewrite decide_True. Qed.

Lemma fupd_ne f k v x : x <> k -> fupd f k v x = f x.
Proof. intros. unfold fupd. by rewrite decide_False. Qed.

Lemma fupd_eq' f k v x : x = k -> fupd f k v x = v.
Proof. intros ->. apply fupd_eq. Qed.
End Fupd.

(** Rewrites every update whose key is decided by the context. *)
Ltac simpl_fupd := repeat first
  [ rewrite fupd_eq
  | rewrite fupd_ne by (first [congruence | lia])
  | rewrite fupd_eq' by (first [congruence | lia]) ].

(** ** Lists *)

(** Array read at an index of a C integer type, with the value [d] where the
    source never reads. *)
Definition znth {A} (d : A) (l : list A) (i : Z) : A :=
  default d (l !! Z.to_nat i).

(** The last [n] elements. *)
Definition lastn {A} (n : nat) (l : list A) : list A := drop (length l - n) l.

Lemma elem_of_filter_ne `{EqDecision A} (x y : A) (l : list A) :
  y ∈ filter (.≠ x) l <-> y ≠ x /\ y ∈ l.
Proof. rewrite list_elem_of_filter. done. Qed.

Lemma filter_ne_notin `{EqDecision A} (x : A) (l : list A) :
  x ∉ l -> filter (.≠ x) l = l.
Proof.
  induction l as [|y l IH]; [done|]. rewrite not_elem_of_cons. intros [Hne Hni].
  rewrite filter_cons_True by congruence. by rewrite IH.
Qed.

Lemma filter_ne_split `{EqDecision A} (x : A) (l1 l2 : list A) :
  NoDup (l1 ++ x :: l2) -> filter (.≠ x) (l1 ++ x :: l2) = l1 ++ l2.
Proof.
  intros (Hd1 & Hd & Hd2)%NoDup_app. apply NoDup_cons in Hd2 as [Hx Hd2].
  rewrite filter_app, filter_cons_False by (intros H; by apply H).
  rewrite !filter_ne_notin; [done| done |]. set_solver.
Qed.

Lemma filter_ext_in {A} (P1 P2 : A -> Prop) `{D1 : !forall x, Decision (P1 x), D2 : !forall x, Decision (P2 x)}
  (l : list A) : (forall x, x ∈ l -> P1 x <-> P2 x) -> filter P1 l = filter P2 l.
Proof.
  induction l as [|x l IH]; [done|]. intros H. rewrite !filter_cons, IH by set_solver.
  destruct (decide (P1 x)), (decide (P2 x)); try done; exfalso; set_solver.
Qed.

(** Deciding a statement about every index of a small range. *)
Lemma range_check (n : Z) (f : Z -> bool) :
  forallb f (seqZ 0 n) = true -> forall v, 0 <= v < n -> f v = true.
Proof.
  intros H v Hv. rewrite forallb_forall in H. apply H.
  apply list_elem_of_In, elem_of_seqZ. lia.
Qed.

Lemma range_check2 (n m : Z) (f : Z -> Z -> bool) :
  forallb (fun i => forallb (f i) (seqZ 0 m)) (seqZ 0 n) = true ->
  forall i j, 0 <= i < n -> 0 <= j < m -> f i j = true.
Proof. intros H i j Hi Hj. exact (range_check m (f i) (range_check n _ H i Hi) j Hj). Qed.

(** ** Small sets *)

Lemma sing_diff (t : Z) : ∅ = {[t]} ∖ {[t]} :> gset Z.
Proof. set_solver. Qed.

Lemma pair_diff (a b : Z) : a ≠ b -> {[a]} = ({[a]} ∪ {[b]}) ∖ {[b]} :> gset Z.
Proof. set_solver. Qed.

Lemma add_diff (Y : gset Z) (t : Z) : t ∉ Y -> Y = (Y ∪ {[t]}) ∖ {[t]}.
Proof. set_solver. Qed.

Lemma sing_in (t : Z) : t ∈ ({[t]} : gset Z).
Proof. set_solver. Qed.

Lemma union_in_r (X : gset Z) (t : Z) : t ∈ X ∪ {[t]}.
Proof. set_solver. Qed.

Lemma union_sub_l (X : gset Z) (t : Z) : X ⊆ X ∪ {[t]}.
Proof. set_solver. Qed.

Lemma empty_sub (X : gset Z) : ∅ ⊆ X.
Proof. set_solver. Qed.

(** Goals on the sets of threads and timers in transit; the context of these
    goals is large, so the search looks at the goal only. *)
Ltac sets := solve
  [ reflexivity | apply sing_in | apply union_in_r | apply union_sub_l | apply empty_sub
  | assumption | apply not_elem_of_empty ].

(** ** Bits *)

(** [b] is the least index of a set bit of [v]. *)
Definition first_set (v b : Z) : Prop :=
  0 <= b /\ Z.testbit v b = true /\ forall i, 0 <= i < b -> Z.testbit v i = false.

Definition first_setb (v b : Z) : bool :=
  (0 <=? b) && Z.testbit v b && forallb (fun i => negb (Z.testbit v i)) (seqZ 0 b).

Lemma first_setb_spec (v b : Z) : first_setb v b = true -> first_set v b.
Proof.
  unfold first_setb. rewrite !andb_true_iff, Z.leb_le. intros [[H1 H2] H3].
  split_and!; [done..|]. intros i Hi. apply negb_true_iff.
  by apply (range_check b (fun i => negb (Z.testbit v i))).
Qed.

Lemma first_set_unique (v b b' : Z) : first_set v b -> first_set v b' -> b = b'.
Proof.
  intros (H1 & H2 & H3) (H1' & H2' & H3'). destruct (Z.lt_trichotomy b b') as [?|[?|?]]; [|done|].
  - rewrite H3' in H2; [done|lia].
  - rewrite H3 in H2'; [done|lia].
Qed.

Lemma testbit_0xff (i : Z) : 0 <= i -> Z.testbit 0xff i = (i <? 8).
Proof.
  intros. change 0xff with (Z.ones 8). rewrite Z.testbit_ones by lia.
  rewrite (proj2 (Z.leb_le 0 i)) by lia. done.
Qed.

Lemma land_0xff (x : Z) : Z.land x 0xff = u8 x.
Proof. change 0xff with (Z.ones 8). by rewrite Z.land_ones. Qed.

Lemma testbit_u32 (x i : Z) : 0 <= i < 32 -> Z.testbit (u32 x) i = Z.testbit x i.
Proof. intros. unfold u32. apply Z.mod_pow2_bits_low; lia. Qed.

Lemma testbit_u32_high (x i : Z) : 32 <= i -> Z.testbit (u32 x) i = false.
Proof. intros. unfold u32. apply Z.mod_pow2_bits_high; lia. Qed.

Lemma testbit_s32 (x i : Z) : 0 <= i < 32 -> Z.testbit (s32 x) i = Z.testbit x i.
Proof.
  intros. rewrite <- (testbit_u32 (s32 x)), <- (testbit_u32 x) by done. f_equal. zlia.
Qed.

(** A number that fits in [n] bits is determined by them. *)
Lemma bits_below (n a : Z) : 0 <= n -> 0 <= a < 2 ^ n ->
  forall i, n <= i -> Z.testbit a i = false.
Proof.
  intros Hn Ha i Hi. rewrite <- (Z.mod_small a (2 ^ n)) by done.
  apply Z.mod_pow2_bits_high; lia.
Qed.

(** Clearing the low [k] bits. *)
Lemma land_not_pow2 (k x : Z) : 0 <= k -> 0 <= x < 2 ^ 32 -> Z.land x (not32 (2 ^ k - 1)) = x - x mod 2 ^ k.
Proof.
  intros Hk Hx. replace (2 ^ k - 1) with (Z.ones k) by (rewrite Z.ones_equiv; lia).
  transitivity (Z.ldiff x (Z.ones k)).
  - apply Z.bits_inj'. intros i Hi. rewrite Z.land_spec, Z.ldiff_spec. unfold not32.
    destruct (Z.ltb_spec i 32); [rewrite testbit_u32 by lia; by rewrite Z.lnot_spec|].
    rewrite (bits_below 32 x) by lia. done.
  - rewrite Z.ldiff_ones_r by lia. rewrite Z.shiftl_mul_pow2, Z.shiftr_div_pow2 by lia.
    pose proof (Z.div_mod x (2 ^ k)). lia.
Qed.

(** [x & (1 << k)] tests a bit. *)
Lemma land_bit_test (x k : Z) : 0 <= k -> negb (Z.land x (2 ^ k) =? 0) = Z.testbit x k.
Proof.
  intros Hk. assert (Z.land x (2 ^ k) = if Z.testbit x k then 2 ^ k else 0) as ->.
  { apply Z.bits_inj'. intros i Hi. rewrite Z.land_spec, Z.pow2_bits_eqb by lia.
    destruct (Z.eqb_spec k i) as [->|Hne]; [rewrite andb_true_r|rewrite andb_false_r]; destruct (Z.testbit x _) eqn:E;
      rewrite ?Z.bits_0, ?Z.pow2_bits_true, ?Z.pow2_bits_false by lia; done. }
  destruct (Z.testbit x k); [|done]. pose proof (Z.pow_pos_nonneg 2 k). by destruct (2 ^ k) eqn:E; try lia.
Qed.

Lemma land_pow2 (k x : Z) : 0 <= k -> Z.land x (2 ^ k - 1) = x mod 2 ^ k.
Proof. intros Hk. replace (2 ^ k - 1) with (Z.ones k) by (rewrite Z.ones_equiv; lia). by apply Z.land_ones. Qed.

Lemma bits_inj_below (n a b : Z) : 0 <= n -> 0 <= a < 2 ^ n -> 0 <= b < 2 ^ n ->
  (forall i, 0 <= i < n -> Z.testbit a i = Z.testbit b i) -> a = b.
Proof.
  intros Hn Ha Hb H. apply Z.bits_inj'. intros i Hi.
  destruct (decide (i < n)); [apply H; lia|].
  by rewrite !(bits_below n) by lia.
Qed.

Lemma bits_range (n a : Z) : 0 <= n ->
  0 <= a /\ (forall i, n <= i -> Z.testbit a i = false) -> 0 <= a < 2 ^ n.
Proof.
  intros Hn [Ha H]. split; [done|].
  assert (a = a mod 2 ^ n) as ->; [|by apply Z.mod_pos_bound; lia].
  apply Z.bits_inj'. intros i Hi. destruct (decide (i < n)).
  - by rewrite Z.mod_pow2_bits_low by lia.
  - rewrite Z.mod_pow2_bits_high by lia. apply H. lia.
Qed.

Create HintDb luoji.
Create Rewrite HintDb luoji_rw.
#[export] Hint Resolve u32_range u16_range u8_range : luoji.
#[export] Hint Rewrite @fupd_eq : luoji_rw.
