(* ===== verification/Ring.v ===== *)
(** * Ring buffers
    The part of an array that a ring buffer has in use, oldest element first: what the
    mailboxes and the console's receive buffer share. *)

From S2P Require Import Prelude.

Lemma znth_insert {A} (d v : A) (l : list A) (i j : Z) :
  0 <= i < Z.of_nat (length l) -> 0 <= j ->
  znth d (<[Z.to_nat i := v]> l) j = if i =? j then v else znth d l j.
Proof.
  intros Hi Hj. unfold znth. destruct (Z.eqb_spec i j) as [->|Hne].
  - by rewrite list_lookup_insert_eq by lia.
  - by rewrite list_lookup_insert_ne by lia.
Qed.

(** Two places of the ring less than a turn apart are different. *)
Lemma mod_distinct (size out i j : Z) : 0 < size ->
  0 <= i < size -> 0 <= j < size -> (out + i) mod size = (out + j) mod size -> i = j.
Proof.
  intros Hs Hi Hj E. assert (Ed : (i - j) mod size = 0).
  { replace (i - j) with ((out + i) - (out + j)) by lia.
    rewrite Zminus_mod, E, Z.sub_diag. by apply Z.mod_0_l; lia. }
  apply Z.mod_divide in Ed as [q Eq]; [|lia].
  destruct (Z.lt_trichotomy q 0) as [?|[->|?]]; [nia|lia|nia].
Qed.

(** The [n] elements from index [out] on. *)
Definition ring_slice (buf : list Z) (size out n : Z) : list Z :=
  map (fun i => znth 0 buf ((out + i) mod size)) (seqZ 0 n).

Lemma slice_length (buf : list Z) (size out n : Z) : 0 <= n -> Z.of_nat (length (ring_slice buf size out n)) = n.
Proof. intros. unfold ring_slice. rewrite length_map, length_seqZ. lia. Qed.

(** Storing behind the last element. *)
Lemma slice_push (buf : list Z) (size out n v : Z) :
  Z.of_nat (length buf) = size -> 0 < size -> 0 <= n < size ->
  ring_slice (<[Z.to_nat ((out + n) mod size) := v]> buf) size out (n + 1) = ring_slice buf size out n ++ [v].
Proof.
  intros Hl Hs Hn. assert (Hin : 0 <= (out + n) mod size < size) by (apply Z.mod_pos_bound; lia).
  unfold ring_slice. replace (n + 1) with (Z.of_nat (Z.to_nat n + 1)) by lia.
  rewrite Nat2Z.inj_add, Z2Nat.id by lia. rewrite seqZ_app by lia. rewrite map_app. f_equal.
  - apply map_ext_in. intros i Hi%list_elem_of_In%elem_of_seqZ.
    rewrite znth_insert by (try lia; apply Z.mod_pos_bound; lia).
    destruct (Z.eqb_spec ((out + n) mod size) ((out + i) mod size)) as [E|]; [|done].
    apply mod_distinct in E; lia.
  - simpl. rewrite znth_insert by (try lia; apply Z.mod_pos_bound; lia). by rewrite Z.eqb_refl.
Qed.

(** Moving past the first element. *)
Lemma slice_pop (buf : list Z) (size out n : Z) : 0 < size -> 0 <= out < size -> 0 < n ->
  ring_slice buf size out n = znth 0 buf out :: ring_slice buf size ((out + 1) mod size) (n - 1).
Proof.
  intros Hs Ho Hn. unfold ring_slice. rewrite seqZ_cons by lia. cbn [map].
  rewrite Z.add_0_r, (Z.mod_small out) by lia. f_equal.
  replace (seqZ (Z.succ 0) (Z.pred n)) with (map (Z.add 1) (seqZ 0 (n - 1))).
  2: { rewrite <- (fmap_add_seqZ 1 0). f_equal. }
  rewrite map_map. apply map_ext_in. intros i _.
  f_equal. rewrite Zplus_mod_idemp_l. f_equal. lia.
Qed.

(** The index after [i], by the test that the code makes. *)
Lemma slice_next (size i : Z) : 0 <= i < size -> (if i + 1 >=? size then 0 else i + 1) = (i + 1) mod size.
Proof.
  intros Hi. destruct (Z.geb_spec (i + 1) size).
  - replace (i + 1) with size by lia. by rewrite Z.mod_same by lia.
  - by rewrite Z.mod_small by lia.
Qed.
