(* ===== verification/Bits.v ===== *)
(** * Bit scanning

    The three bit-scan routines of the program: [__rt_ffs] (os/thread.c), the
    table-driven one the scheduler uses on its ready bitmap, [ffs] (libc/ffs.c),
    the one the interrupt dispatcher uses, and [fls] (libc/fls.c).  All are
    related to the first set bit of a 32-bit word. *)

From S2P Require Import Prelude.

(** ** The code *)

Definition __lowest_bit_bitmap : list Z :=
  [
      0; 0; 1; 0; 2; 0; 1; 0; 3; 0; 1; 0; 2; 0; 1; 0;
      4; 0; 1; 0; 2; 0; 1; 0; 3; 0; 1; 0; 2; 0; 1; 0;
      5; 0; 1; 0; 2; 0; 1; 0; 3; 0; 1; 0; 2; 0; 1; 0;
      4; 0; 1; 0; 2; 0; 1; 0; 3; 0; 1; 0; 2; 0; 1; 0;
      6; 0; 1; 0; 2; 0; 1; 0; 3; 0; 1; 0; 2; 0; 1; 0;
      4; 0; 1; 0; 2; 0; 1; 0; 3; 0; 1; 0; 2; 0; 1; 0;
      5; 0; 1; 0; 2; 0; 1; 0; 3; 0; 1; 0; 2; 0; 1; 0;
      4; 0; 1; 0; 2; 0; 1; 0; 3; 0; 1; 0; 2; 0; 1; 0;
      7; 0; 1; 0; 2; 0; 1; 0; 3; 0; 1; 0; 2; 0; 1; 0;
      4; 0; 1; 0; 2; 0; 1; 0; 3; 0; 1; 0; 2; 0; 1; 0;
      5; 0; 1; 0; 2; 0; 1; 0; 3; 0; 1; 0; 2; 0; 1; 0;
      4; 0; 1; 0; 2; 0; 1; 0; 3; 0; 1; 0; 2; 0; 1; 0;
      6; 0; 1; 0; 2; 0; 1; 0; 3; 0; 1; 0; 2; 0; 1; 0;
      4; 0; 1; 0; 2; 0; 1; 0; 3; 0; 1; 0; 2; 0; 1; 0;
      5; 0; 1; 0; 2; 0; 1; 0; 3; 0; 1; 0; 2; 0; 1; 0;
      4; 0; 1; 0; 2; 0; 1; 0; 3; 0; 1; 0; 2; 0; 1; 0 ].

(** [int __rt_ffs(int value)]; [value] is a signed 32-bit integer and
    [0xff000000] an unsigned constant. *)
Definition __rt_ffs (value : Z) : Z :=
  if value =? 0 then 0
  else if negb (Z.land value 0xff =? 0) then
    znth 0 __lowest_bit_bitmap (Z.land value 0xff) + 1
  else if negb (Z.land value 0xff00 =? 0) then
    znth 0 __lowest_bit_bitmap (Z.shiftr (Z.land value 0xff00) 8) + 9
  else if negb (Z.land value 0xff0000 =? 0) then
    znth 0 __lowest_bit_bitmap (Z.shiftr (Z.land value 0xff0000) 16) + 17
  else
    znth 0 __lowest_bit_bitmap (Z.shiftr (Z.land (u32 value) 0xff000000) 24) + 25.

(** [for (bit = 1; !(mask & 1); bit++) mask >>= 1;] with [fuel] iterations. *)
Fixpoint ffs_loop (fuel : nat) (mask bit : Z) : option Z :=
  if negb (Z.land mask 1 =? 0) then Some bit
  else match fuel with
       | O => None
       | S fuel => ffs_loop fuel (Z.shiftr mask 1) (bit + 1)
       end.

(** [int ffs(int mask)]: 31 iterations are enough. *)
Definition ffs (mask : Z) : option Z :=
  if mask =? 0 then Some 0 else ffs_loop 31 mask 1.

(** [int fls(int x)] shifts [x] left until its top bit is set. *)
Definition fls_step (m s : Z) (xr : Z * Z) : Z * Z :=
  let '(x, r) := xr in
  if Z.land (u32 x) m =? 0 then (s32 (Z.shiftl x s), r - s) else (x, r).

Definition fls (x : Z) : Z :=
  if x =? 0 then 0
  else snd (fls_step 0x80000000 1 (fls_step 0xc0000000 2
             (fls_step 0xf0000000 4 (fls_step 0xff000000 8
               (fls_step 0xffff0000 16 (x, 32)))))).

(** ** The table *)

Lemma lowest_bit_bitmap_spec (v : Z) : 0 < v < 256 ->
  first_set v (znth 0 __lowest_bit_bitmap v) /\ znth 0 __lowest_bit_bitmap v < 8.
Proof.
  intros Hv.
  assert (H : (v =? 0) || first_setb v (znth 0 __lowest_bit_bitmap v)
                          && (znth 0 __lowest_bit_bitmap v <? 8) = true).
  { apply (range_check 256 (fun v => (v =? 0) ||
      first_setb v (znth 0 __lowest_bit_bitmap v)
      && (znth 0 __lowest_bit_bitmap v <? 8))); [by vm_compute|lia]. }
  apply orb_true_iff in H as [H|H]; [lia|].
  apply andb_true_iff in H as [H ?]. split; [by apply first_setb_spec|lia].
Qed.

(** The byte of [g] at bit [k], when everything below it is clear. *)
Lemma first_set_byte (g k w : Z) :
  0 <= k -> w = Z.land (Z.shiftr g k) 0xff -> w ≠ 0 ->
  (forall i, 0 <= i < k -> Z.testbit g i = false) ->
  first_set g (znth 0 __lowest_bit_bitmap w + k).
Proof.
  intros Hk Ew Hw Hlow. assert (0 <= w < 256) by (rewrite Ew, land_0xff; apply u8_range).
  destruct (lowest_bit_bitmap_spec w) as [(H0 & H1 & H2) H8]; [lia|].
  assert (Hbit : forall i, 0 <= i < 8 -> Z.testbit w i = Z.testbit g (i + k)).
  { intros i Hi. rewrite Ew, Z.land_spec, Z.shiftr_spec, testbit_0xff by lia.
    rewrite (proj2 (Z.ltb_lt i 8)) by lia. apply andb_true_r. }
  split_and!; [lia| |].
  - rewrite <- Hbit by lia. done.
  - intros i Hi. destruct (decide (i < k)); [apply Hlow; lia|].
    replace i with ((i - k) + k) by lia. rewrite <- Hbit by lia. apply H2. lia.
Qed.

Lemma land_byte_shift (g k : Z) : 0 <= k ->
  Z.shiftr (Z.land g (Z.shiftl 0xff k)) k = Z.land (Z.shiftr g k) 0xff.
Proof.
  intros. rewrite Z.shiftr_land, Z.shiftr_shiftl_l by lia.
  by rewrite Z.sub_diag, Z.shiftl_0_r.
Qed.

Lemma land_byte_zero (g k i : Z) : 0 <= k -> k <= i < k + 8 ->
  Z.land g (Z.shiftl 0xff k) = 0 -> Z.testbit g i = false.
Proof.
  intros Hk Hi H. apply (f_equal (fun x => Z.testbit x i)) in H.
  rewrite Z.land_spec, Z.shiftl_spec, testbit_0xff, Z.bits_0 in H by lia.
  rewrite (proj2 (Z.ltb_lt (i - k) 8)) in H by lia. by rewrite andb_true_r in H.
Qed.

Lemma land_byte_nonzero (g k : Z) : 0 <= k ->
  Z.land g (Z.shiftl 0xff k) ≠ 0 -> Z.land (Z.shiftr g k) 0xff ≠ 0.
Proof.
  intros Hk H E. apply H. apply Z.bits_inj'. intros i Hi. rewrite Z.bits_0.
  destruct (decide (k <= i < k + 8)) as [Hr|Hr].
  - rewrite Z.land_spec. apply (f_equal (fun x => Z.testbit x (i - k))) in E.
    rewrite Z.land_spec, Z.shiftr_spec, testbit_0xff, Z.bits_0 in E by lia.
    rewrite Z.shiftl_spec, testbit_0xff by lia.
    rewrite (proj2 (Z.ltb_lt (i - k) 8)) in E |- * by lia.
    by replace (i - k + k) with i in E by lia.
  - rewrite Z.land_spec, Z.shiftl_spec by lia. destruct (decide (i < k)).
    + rewrite (Z.testbit_neg_r 0xff) by lia. apply andb_false_r.
    + rewrite testbit_0xff, (proj2 (Z.ltb_ge (i - k) 8)) by lia. apply andb_false_r.
Qed.

(** ** Correctness *)

(** One branch of [__rt_ffs]: the byte at bit [k] is the lowest nonzero one. *)
Lemma first_set_branch (v k c : Z) : 0 <= k <= 24 -> c = k + 1 ->
  Z.land (Z.shiftr v k) 0xff ≠ 0 -> (forall i, 0 <= i < k -> Z.testbit v i = false) ->
  first_set v (znth 0 __lowest_bit_bitmap (Z.land (Z.shiftr v k) 0xff) + c - 1) /\
  1 <= znth 0 __lowest_bit_bitmap (Z.land (Z.shiftr v k) 0xff) + c <= 32.
Proof.
  intros Hk -> Hnz Hlow.
  assert (Hb : 0 < Z.land (Z.shiftr v k) 0xff < 256).
  { rewrite land_0xff in *. pose proof (u8_range (Z.shiftr v k)). lia. }
  destruct (lowest_bit_bitmap_spec _ Hb) as [[? _] ?].
  pose proof (first_set_byte v k _ (proj1 Hk) eq_refl Hnz Hlow).
  rewrite Z.add_assoc, Z.add_simpl_r. split; [done|lia].
Qed.

(** Clearing one more byte. *)
Lemma low_bits_extend (v k : Z) : 0 <= k -> Z.land v (Z.shiftl 0xff k) = 0 ->
  (forall i, 0 <= i < k -> Z.testbit v i = false) ->
  forall i, 0 <= i < k + 8 -> Z.testbit v i = false.
Proof.
  intros Hk Hz Hlow i Hi. destruct (decide (i < k)); [apply Hlow; lia|].
  apply (land_byte_zero v k); [lia..|done].
Qed.

(** The last branch masks an unsigned operand; only the top byte is left. *)
Lemma top_byte (v : Z) : - 2 ^ 31 <= v < 2 ^ 31 -> v ≠ 0 ->
  (forall i, 0 <= i < 24 -> Z.testbit v i = false) ->
  Z.land (Z.shiftr (u32 v) 24) 0xff = Z.land (Z.shiftr v 24) 0xff /\
  Z.land (Z.shiftr v 24) 0xff ≠ 0.
Proof.
  intros Hv Hnz Hlow.
  assert (E : Z.land (Z.shiftr (u32 v) 24) 0xff = Z.land (Z.shiftr v 24) 0xff).
  { rewrite !land_0xff, !Z.shiftr_div_pow2 by lia. zlia. }
  split; [done|]. rewrite <- E, land_0xff, Z.shiftr_div_pow2 by lia. intros E24.
  assert (u32 v < 2 ^ 24) by zlia. pose proof (u32_range v).
  apply Hnz. enough (u32 v = 0) by zlia.
  apply (bits_inj_below 24); [lia..|]. intros i Hi.
  rewrite testbit_u32, Z.bits_0 by lia. by apply Hlow.
Qed.

Lemma first_set_value (v : Z) : - 2 ^ 31 <= v < 2 ^ 31 -> v ≠ 0 ->
  first_set v (__rt_ffs v - 1) /\ 1 <= __rt_ffs v <= 32.
Proof.
  intros Hv Hnz. unfold __rt_ffs. rewrite (proj2 (Z.eqb_neq v 0)) by done.
  change 0xff00 with (Z.shiftl 0xff 8). change 0xff0000 with (Z.shiftl 0xff 16).
  change 0xff000000 with (Z.shiftl 0xff 24).
  replace (Z.land v 0xff) with (Z.shiftr (Z.land v (Z.shiftl 0xff 0)) 0)
    by (by rewrite Z.shiftl_0_r, Z.shiftr_0_r).
  rewrite !land_byte_shift by lia.
  destruct (Z.eqb_spec (Z.land (Z.shiftr v 0) 0xff) 0) as [E0|E0]; cbn [negb];
    [|apply first_set_branch; [lia..|done|lia]].
  rewrite Z.shiftr_0_r in E0.
  assert (H0 : forall i, 0 <= i < 8 -> Z.testbit v i = false)
    by (apply (low_bits_extend v 0); [lia|by rewrite Z.shiftl_0_r|lia]).
  destruct (Z.eqb_spec (Z.land v (Z.shiftl 0xff 8)) 0) as [E8|E8]; cbn [negb];
    [|apply first_set_branch; [lia..|by apply land_byte_nonzero|done]].
  pose proof (low_bits_extend v 8 ltac:(lia) E8 H0) as H8.
  destruct (Z.eqb_spec (Z.land v (Z.shiftl 0xff 16)) 0) as [E16|E16]; cbn [negb];
    [|apply first_set_branch; [lia..|by apply land_byte_nonzero|done]].
  pose proof (low_bits_extend v 16 ltac:(lia) E16 H8) as H16.
  destruct (top_byte v Hv Hnz H16) as [-> ?]. by apply first_set_branch; [lia..| |].
Qed.

Lemma ffs_loop_spec (fuel : nat) (mask bit b : Z) :
  first_set mask b -> b <= Z.of_nat fuel -> ffs_loop fuel mask bit = Some (bit + b).
Proof.
  assert (Hl : forall m, Z.land m 1 = Z.b2z (Z.testbit m 0)).
  { intros m. change 1 with (Z.ones 1) at 1. rewrite Z.land_ones by lia.
    rewrite Z.bit0_mod. done. }
  revert mask bit b. induction fuel as [|fuel IH]; intros mask bit b (H0 & H1 & H2) Hb;
    simpl; rewrite Hl; destruct (decide (b = 0)) as [->|Hne].
  - rewrite H1. simpl. f_equal. lia.
  - lia.
  - rewrite H1. simpl. f_equal. lia.
  - rewrite H2 by lia. simpl. rewrite (IH _ _ (b - 1)); [f_equal; lia| |lia].
    split_and!; [lia| |].
    + rewrite Z.shiftr_spec by lia. by replace (b - 1 + 1) with b by lia.
    + intros i Hi. rewrite Z.shiftr_spec by lia. apply H2. lia.
Qed.

(** [ffs] and the scheduler's table-driven scan agree on every [int]. *)
Lemma ffs_rt_ffs (v : Z) : - 2 ^ 31 <= v < 2 ^ 31 -> ffs v = Some (__rt_ffs v).
Proof.
  intros Hv. unfold ffs. destruct (Z.eqb_spec v 0) as [->|Hnz]; [done|].
  destruct (first_set_value v Hv Hnz) as [Hf ?].
  rewrite (ffs_loop_spec _ _ _ _ Hf) by lia. f_equal. lia.
Qed.

(** ** The ready bitmap: an unsigned word passed as an [int] *)

Lemma rt_ffs_group (g : Z) : 0 < g < 2 ^ 32 ->
  first_set g (__rt_ffs (s32 g) - 1) /\ 0 <= __rt_ffs (s32 g) - 1 < 32.
Proof.
  intros Hg. destruct (first_set_value (s32 g)) as [(H0 & H1 & H2) ?]; [zlia..|].
  split; [|lia]. split_and!; [done| |].
  - by rewrite <- testbit_s32 by lia.
  - intros i Hi. rewrite <- testbit_s32 by lia. by apply H2.
Qed.

(** ** [fls] *)

(** The top [s] bits of a word are clear exactly when it is below [2^(32-s)]. *)
Lemma top_bits_clear (w s : Z) : 0 <= w < 2 ^ 32 -> 0 < s < 32 ->
  Z.land w (Z.shiftl (Z.ones s) (32 - s)) = 0 <-> w < 2 ^ (32 - s).
Proof.
  intros Hw Hs. split.
  - intros H. destruct (Z.lt_ge_cases w (2 ^ (32 - s))) as [?|Hge]; [done|exfalso].
    pose proof (Z.log2_le_mono _ _ Hge) as Hl. rewrite Z.log2_pow2 in Hl by lia.
    assert (Z.log2 w < 32) by (apply Z.log2_lt_pow2; lia).
    assert (0 < 2 ^ (32 - s)) by lia.
    assert (Hb : Z.testbit w (Z.log2 w) = true) by (apply Z.bit_log2; lia).
    apply (f_equal (fun x => Z.testbit x (Z.log2 w))) in H.
    rewrite Z.land_spec, Z.shiftl_spec, Z.testbit_ones, Hb, Z.bits_0 in H by lia.
    rewrite (proj2 (Z.leb_le 0 _)), (proj2 (Z.ltb_lt _ s)) in H by lia. done.
  - intros Hlt. apply Z.bits_inj'. intros i Hi. rewrite Z.land_spec, Z.bits_0.
    destruct (decide (i < 32 - s)).
    + rewrite Z.shiftl_spec_low by lia. apply andb_false_r.
    + rewrite (bits_below (32 - s) w) by lia. done.
Qed.

(** What a step keeps: [r] counts the shifts still to be undone. *)
Definition fls_inv (x0 lo : Z) (xr : Z * Z) : Prop :=
  2 ^ lo <= u32 (fst xr) /\ Z.log2 (u32 (fst xr)) + snd xr = Z.log2 x0 + 32.

(** Shifting a word whose top [s] bits are clear loses nothing. *)
Lemma u32_shift (x s : Z) : 0 < s < 32 -> u32 x < 2 ^ (32 - s) ->
  u32 (s32 (Z.shiftl x s)) = u32 x * 2 ^ s.
Proof.
  intros Hs Hx. pose proof (u32_range x). rewrite Z.shiftl_mul_pow2 by lia.
  transitivity (u32 (x * 2 ^ s)); [generalize (x * 2 ^ s); intros; zlia|].
  assert (E : 2 ^ 32 = 2 ^ (32 - s) * 2 ^ s)
    by (rewrite <- Z.pow_add_r by lia; f_equal; lia).
  assert (0 < 2 ^ s) by (apply Z.pow_pos_nonneg; lia).
  rewrite <- (u32_small (u32 x * 2 ^ s)) by nia.
  unfold u32. by rewrite Z.mul_mod_idemp_l.
Qed.

Lemma fls_step_inv (x0 m s : Z) (xr : Z * Z) :
  0 < s <= 16 -> m = Z.shiftl (Z.ones s) (32 - s) ->
  fls_inv x0 (32 - 2 * s) xr -> fls_inv x0 (32 - s) (fls_step m s xr).
Proof.
  intros Hs -> [Hlo Hr]. destruct xr as [x r]. unfold fls_step; cbn [fst snd] in *.
  pose proof (u32_range x) as Hx.
  assert (0 < 2 ^ (32 - 2 * s)) by (apply Z.pow_pos_nonneg; lia).
  pose proof (top_bits_clear (u32 x) s Hx ltac:(lia)) as Ht.
  destruct (Z.eqb_spec (Z.land (u32 x) (Z.shiftl (Z.ones s) (32 - s))) 0) as [E|E];
    split; cbn [fst snd]; [| |lia|done].
  - apply Ht in E. rewrite u32_shift by lia.
    replace (2 ^ (32 - s)) with (2 ^ (32 - 2 * s) * 2 ^ s)
      by (rewrite <- Z.pow_add_r by lia; f_equal; lia). nia.
  - apply Ht in E. rewrite u32_shift by lia. rewrite Z.log2_mul_pow2 by lia. lia.
Qed.

Lemma fls_value (x : Z) : 0 < u32 x -> - 2 ^ 31 <= x < 2 ^ 31 ->
  fls x = Z.log2 (u32 x) + 1.
Proof.
  intros Hx Hr. unfold fls. rewrite (proj2 (Z.eqb_neq x 0)) by (intros ->; done).
  assert (H0 : fls_inv (u32 x) (32 - 2 * 16) (x, 32)) by (split; simpl; lia).
  apply (fls_step_inv _ 0xffff0000) in H0; [|lia|done].
  apply (fls_step_inv _ 0xff000000 8) in H0; [|lia|done].
  apply (fls_step_inv _ 0xf0000000 4) in H0; [|lia|done].
  apply (fls_step_inv _ 0xc0000000 2) in H0; [|lia|done].
  apply (fls_step_inv _ 0x80000000 1) in H0; [|lia|done].
  set (xr := fls_step _ _ _) in *. destruct H0 as [Hlo Hl].
  assert (Z.log2 (u32 (fst xr)) = 31); [|lia].
  pose proof (u32_range (fst xr)). apply Z.log2_unique; lia.
Qed.

(** ** Properties *)

(** The scheduler's table-driven bit scan returns one plus the index of the
    lowest set bit of the 32-bit ready bitmap, for every nonzero bitmap. *)
Lemma rt_ffs_lowest (g : Z) : 0 < g < 2 ^ 32 ->
  1 <= __rt_ffs (s32 g) <= 32 /\
  Z.testbit g (__rt_ffs (s32 g) - 1) = true /\
  (forall i, 0 <= i < __rt_ffs (s32 g) - 1 -> Z.testbit g i = false).
Proof. intros Hg. destruct (rt_ffs_group g Hg) as [(_ & ? & ?) ?]. split_and!; [lia..|done|done]. Qed.

(** the loop of [ffs] terminates on every [int] and computes what the
    scheduler's table computes; [fls] computes the index of the highest set bit. *)
Theorem ffs_fls_spec (x : Z) : - 2 ^ 31 <= x < 2 ^ 31 ->
  ffs x = Some (__rt_ffs x) /\ (x ≠ 0 -> fls x = Z.log2 (u32 x) + 1).
Proof.
  intros Hx. split; [by apply ffs_rt_ffs|]. intros Hnz. apply fls_value; [zlia|done].
Qed.

Lemma ffs_fls_spec_witness :
  - 2 ^ 31 <= - 2 ^ 31 < 2 ^ 31 /\ ffs (- 2 ^ 31) = Some 32 /\ fls (- 2 ^ 31) = 32.
Proof.
  assert (H : - 2 ^ 31 <= - 2 ^ 31 < 2 ^ 31) by lia.
  split; [done|]. split.
  - exact (proj1 (ffs_fls_spec _ H)).
  - exact (proj2 (ffs_fls_spec _ H) ltac:(done)).
Defined.
