(* ===== verification/Mmio.v ===== *)
(** * Memory-mapped registers (lib/ls1c_public.c)
    The peripherals as the registers at their addresses.  A register that follows the
    outside world is read from a list of its values; every write is recorded, since
    what the hardware does is a matter of the sequence of writes.  An access through a
    null pointer has no result. *)

From S2P Require Import Prelude Bits.

(** [inputs]: what the reads of the input registers return, one after another. *)
Record world := World {
  regs : Z -> Z;
  inputs : list Z;
  writes : list (Z * Z) }.

Definition M (A : Type) : Type := world -> option (A * world).

Definition ret {A} (x : A) : M A := fun w => Some (x, w).
Definition bind {A B} (m : M A) (f : A -> M B) : M B :=
  fun w => match m w with Some (x, w) => f x w | None => None end.

Declare Scope mmio_scope.
Delimit Scope mmio_scope with mmio.
Notation "x <-- m ;; k" := (bind m (fun x => k)) (at level 100, m at next level, right associativity) : mmio_scope.
Notation "m ;;; k" := (bind m (fun _ => k)) (at level 100, right associativity) : mmio_scope.
#[global] Open Scope mmio_scope.

(** The registers that the hardware changes: the levels of the GPIO pins. *)
Definition is_input (a : Z) : bool := (0xbfd010e0 <=? a) && (a <=? 0xbfd010ec).

Definition mmio_read (a : Z) : M Z := fun w =>
  if a =? 0 then None
  else if is_input a then Some (default 0 (head (inputs w)), World (regs w) (tail (inputs w)) (writes w))
  else Some (regs w a, w).

Definition mmio_write (a v : Z) : M unit := fun w =>
  if a =? 0 then None else Some (tt, World (fupd (regs w) a v) (inputs w) (writes w ++ [(a, v)])).

Definition reg_set_one_bit (reg bit : Z) : M unit :=
  let mask := u32 (Z.shiftl 1 bit) in
  temp <-- mmio_read reg ;;
  mmio_write reg (Z.lor temp mask).

Definition reg_clr_one_bit (reg bit : Z) : M unit :=
  let mask := u32 (Z.shiftl 1 bit) in
  temp <-- mmio_read reg ;;
  mmio_write reg (Z.land temp (not32 mask)).

Definition reg_get_bit (reg bit : Z) : M Z :=
  temp <-- mmio_read reg ;;
  ret (Z.land (Z.shiftr temp bit) 1).

Definition reg_write_8 (data addr : Z) : M unit := mmio_write addr (u8 data).
Definition reg_read_8 (addr : Z) : M Z := v <-- mmio_read addr ;; ret (u8 v).
Definition reg_write_32 (data addr : Z) : M unit := mmio_write addr (u32 data).
Definition reg_read_32 (addr : Z) : M Z := mmio_read addr.

(** ** Bits of a register *)

Definition set_bit (x i : Z) : Z := Z.lor x (2 ^ i).
Definition clr_bit (x i : Z) : Z := Z.land x (not32 (2 ^ i)).

Lemma mask_pow (i : Z) : 0 <= i < 32 -> u32 (Z.shiftl 1 i) = 2 ^ i.
Proof. intros Hi. rewrite Z.shiftl_1_l. apply u32_small. split; [lia|]. apply Z.pow_lt_mono_r; lia. Qed.

Lemma set_bit_spec (x i j : Z) : 0 <= i < 32 -> 0 <= j -> Z.testbit (set_bit x i) j = (i =? j) || Z.testbit x j.
Proof. intros Hi Hj. unfold set_bit. rewrite Z.lor_spec, Z.pow2_bits_eqb, orb_comm by lia. done. Qed.

Lemma clr_bit_spec (x i j : Z) : 0 <= i < 32 -> 0 <= j < 32 -> Z.testbit (clr_bit x i) j = negb (i =? j) && Z.testbit x j.
Proof.
  intros Hi Hj. unfold clr_bit, not32, u32. rewrite Z.land_spec, Z.mod_pow2_bits_low, Z.lnot_spec, Z.pow2_bits_eqb by lia.
  apply andb_comm.
Qed.

Lemma set_bit_range (x i : Z) : 0 <= x < 2 ^ 32 -> 0 <= i < 32 -> 0 <= set_bit x i < 2 ^ 32.
Proof.
  intros Hx Hi. unfold set_bit. split; [apply Z.lor_nonneg; lia|].
  pose proof (Z.pow_lt_mono_r 2 i 32 ltac:(lia) ltac:(lia) ltac:(lia)).
  destruct (Z.eq_dec (Z.lor x (2 ^ i)) 0) as [->|Hne]; [lia|].
  apply Z.log2_lt_pow2; [pose proof (Z.lor_nonneg x (2 ^ i)); lia|]. rewrite Z.log2_lor by lia.
  apply Z.max_lub_lt; [|rewrite Z.log2_pow2; lia].
  destruct (Z.eq_dec x 0) as [->|]; [simpl; lia|]. apply Z.log2_lt_pow2; lia.
Qed.

Lemma clr_bit_range (x i : Z) : 0 <= x < 2 ^ 32 -> 0 <= clr_bit x i < 2 ^ 32.
Proof.
  intros _. unfold clr_bit, not32, u32. rewrite <- Z.land_ones, Z.land_assoc, Z.land_ones by lia.
  apply Z.mod_pos_bound. lia.
Qed.

(** ** The two ways to change a bit *)

Definition after_write (a v : Z) (w : world) : world := World (fupd (regs w) a v) (inputs w) (writes w ++ [(a, v)]).

Lemma reg_set_one_bit_eq (a i : Z) (w : world) : a <> 0 -> is_input a = false -> 0 <= i < 32 ->
  reg_set_one_bit a i w = Some (tt, after_write a (set_bit (regs w a) i) w).
Proof.
  intros Ha Hin Hi. unfold reg_set_one_bit, bind, mmio_read, mmio_write. rewrite Hin, !(proj2 (Z.eqb_neq a 0)) by done.
  by rewrite mask_pow.
Qed.

Lemma reg_clr_one_bit_eq (a i : Z) (w : world) : a <> 0 -> is_input a = false -> 0 <= i < 32 ->
  reg_clr_one_bit a i w = Some (tt, after_write a (clr_bit (regs w a) i) w).
Proof.
  intros Ha Hin Hi. unfold reg_clr_one_bit, bind, mmio_read, mmio_write. rewrite Hin, !(proj2 (Z.eqb_neq a 0)) by done.
  by rewrite mask_pow.
Qed.

Lemma reg_get_bit_eq (a i : Z) (w : world) : a <> 0 -> is_input a = true -> 0 <= i ->
  reg_get_bit a i w = Some (Z.b2z (Z.testbit (default 0 (head (inputs w))) i), World (regs w) (tail (inputs w)) (writes w)).
Proof.
  intros Ha Hin Hi. unfold reg_get_bit, bind, mmio_read. rewrite Hin, !(proj2 (Z.eqb_neq a 0)) by done. unfold ret.
  change 1 with (Z.ones 1). rewrite Z.land_ones, Z.testbit_spec', Z.shiftr_div_pow2 by lia. done.
Qed.
