(* ===== verification/Gpio.v ===== *)
(** * General-purpose pins (lib/ls1c_gpio.c, lib/ls1c_pin.c)
    128 pins in four ports of 32, each with a bit in the registers of its port that say
    what it is used for, its direction and its level. *)

From S2P Require Import Prelude Bits Mmio.

Definition GPIO_GET_PORT (gpio : Z) : Z := gpio / 32.
Definition GPIO_GET_PIN (gpio : Z) : Z := gpio mod 32.

Inductive gpio_mode_t := gpio_mode_output | gpio_mode_input.
Inductive gpio_level_t := gpio_level_low | gpio_level_high.
Inductive gpio_irq_type_t :=
  | IRQ_TYPE_EDGE_RISING | IRQ_TYPE_EDGE_FALLING | IRQ_TYPE_EDGE_BOTH | IRQ_TYPE_LEVEL_HIGH | IRQ_TYPE_LEVEL_LOW
  | IRQ_TYPE_LEVEL_MASK.
Inductive pin_purpose_t := PIN_PURPOSE_GPIO | PIN_PURPOSE_OTHER.
Inductive pin_remap_t :=
  | PIN_REMAP_FIRST | PIN_REMAP_SECOND | PIN_REMAP_THIRD | PIN_REMAP_FOURTH | PIN_REMAP_FIFTH | PIN_REMAP_DEFAULT.

#[global] Instance pin_remap_t_eq : EqDecision pin_remap_t.
Proof. solve_decision. Defined.

Definition LS1C_GPIO_CFG0 : Z := 0xbfd010c0.
Definition LS1C_GPIO_CFG1 : Z := 0xbfd010c4.
Definition LS1C_GPIO_CFG2 : Z := 0xbfd010c8.
Definition LS1C_GPIO_CFG3 : Z := 0xbfd010cc.
Definition LS1C_GPIO_EN0 : Z := 0xbfd010d0.
Definition LS1C_GPIO_EN1 : Z := 0xbfd010d4.
Definition LS1C_GPIO_EN2 : Z := 0xbfd010d8.
Definition LS1C_GPIO_EN3 : Z := 0xbfd010dc.
Definition LS1C_GPIO_IN0 : Z := 0xbfd010e0.
Definition LS1C_GPIO_IN1 : Z := 0xbfd010e4.
Definition LS1C_GPIO_IN2 : Z := 0xbfd010e8.
Definition LS1C_GPIO_IN3 : Z := 0xbfd010ec.
Definition LS1C_GPIO_OUT0 : Z := 0xbfd010f0.
Definition LS1C_GPIO_OUT1 : Z := 0xbfd010f4.
Definition LS1C_GPIO_OUT2 : Z := 0xbfd010f8.
Definition LS1C_GPIO_OUT3 : Z := 0xbfd010fc.
Definition LS1C_CBUS_FIRST0 : Z := 0xbfd011c0.
Definition LS1C_INT2_POL : Z := 0xbfd01080.
Definition LS1C_INT2_EDGE : Z := 0xbfd01084.
Definition LS1C_INT3_POL : Z := 0xbfd01098.
Definition LS1C_INT3_EDGE : Z := 0xbfd0109c.
Definition LS1C_INT4_POL : Z := 0xbfd010b0.
Definition LS1C_INT4_EDGE : Z := 0xbfd010b4.

Definition gpio_get_cfg_reg (gpio : Z) : Z :=
  let port := GPIO_GET_PORT gpio in
  if port =? 0 then LS1C_GPIO_CFG0
  else if port =? 1 then LS1C_GPIO_CFG1
  else if port =? 2 then LS1C_GPIO_CFG2
  else if port =? 3 then LS1C_GPIO_CFG3
  else 0.

Definition gpio_get_en_reg (gpio : Z) : Z :=
  let port := GPIO_GET_PORT gpio in
  if port =? 0 then LS1C_GPIO_EN0
  else if port =? 1 then LS1C_GPIO_EN1
  else if port =? 2 then LS1C_GPIO_EN2
  else if port =? 3 then LS1C_GPIO_EN3
  else 0.

Definition pin_set_purpose (gpio : Z) (purpose : pin_purpose_t) : M unit :=
  let pin := GPIO_GET_PIN gpio in
  let gpio_cfgx := gpio_get_cfg_reg gpio in
  match purpose with
  | PIN_PURPOSE_GPIO => reg_set_one_bit gpio_cfgx pin
  | PIN_PURPOSE_OTHER => reg_clr_one_bit gpio_cfgx pin
  end.

Definition gpio_init (gpio : Z) (mode : gpio_mode_t) : M unit :=
  let pin := GPIO_GET_PIN gpio in
  pin_set_purpose gpio PIN_PURPOSE_GPIO ;;;
  let gpio_enx := gpio_get_en_reg gpio in
  match mode with
  | gpio_mode_output => reg_clr_one_bit gpio_enx pin
  | gpio_mode_input => reg_set_one_bit gpio_enx pin
  end.

Definition gpio_set (gpio : Z) (level : gpio_level_t) : M unit :=
  let port := GPIO_GET_PORT gpio in
  let pin := GPIO_GET_PIN gpio in
  let output gpio_outx :=
    match level with
    | gpio_level_low => reg_clr_one_bit gpio_outx pin
    | gpio_level_high => reg_set_one_bit gpio_outx pin
    end in
  if port =? 0 then output LS1C_GPIO_OUT0
  else if port =? 1 then output LS1C_GPIO_OUT1
  else if port =? 2 then output LS1C_GPIO_OUT2
  else if port =? 3 then output LS1C_GPIO_OUT3
  else ret tt.

Definition gpio_get (gpio : Z) : M Z :=
  let port := GPIO_GET_PORT gpio in
  let pin := GPIO_GET_PIN gpio in
  if port =? 0 then reg_get_bit LS1C_GPIO_IN0 pin
  else if port =? 1 then reg_get_bit LS1C_GPIO_IN1 pin
  else if port =? 2 then reg_get_bit LS1C_GPIO_IN2 pin
  else if port =? 3 then reg_get_bit LS1C_GPIO_IN3 pin
  else ret 0.

(** [*reg |= 1 << pin] and [*reg &= ~(1 << pin)] are what the two routines on registers
    do. *)
Definition gpio_set_irq_type (gpio : Z) (type : gpio_irq_type_t) : M unit :=
  let port := GPIO_GET_PORT gpio in
  let pin := GPIO_GET_PIN gpio in
  let '(int_pol, int_edge) :=
    if port =? 0 then (LS1C_INT2_POL, LS1C_INT2_EDGE)
    else if port =? 1 then (LS1C_INT3_POL, LS1C_INT3_EDGE)
    else if port =? 2 then (LS1C_INT4_POL, LS1C_INT4_EDGE)
    else (0, 0) in
  match type with
  | IRQ_TYPE_EDGE_RISING => reg_set_one_bit int_pol pin ;;; reg_set_one_bit int_edge pin
  | IRQ_TYPE_EDGE_FALLING => reg_clr_one_bit int_pol pin ;;; reg_set_one_bit int_edge pin
  | IRQ_TYPE_LEVEL_HIGH => reg_set_one_bit int_pol pin ;;; reg_clr_one_bit int_edge pin
  | IRQ_TYPE_LEVEL_LOW => reg_clr_one_bit int_pol pin ;;; reg_clr_one_bit int_edge pin
  | _ => ret tt
  end.

(** ** Alternative functions *)

(** [for (i = 0; i <= 4; i++)]: the five selections of a pin. *)
Fixpoint clear_remaps (n : nat) (i port pin : Z) : M unit :=
  match n with
  | O => ret tt
  | S n =>
      let reg := LS1C_CBUS_FIRST0 + port * 0x04 + i * 0x10 in
      reg_clr_one_bit reg pin ;;;
      clear_remaps n (i + 1) port pin
  end.

(** [LS1C_CBUS_FIRST0] to [LS1C_CBUS_FIFTH3]. *)
Definition cbus_regs (port : Z) : list Z :=
  if port =? 0 then [0xbfd011c0; 0xbfd011d0; 0xbfd011e0; 0xbfd011f0; 0xbfd01200]
  else if port =? 1 then [0xbfd011c4; 0xbfd011d4; 0xbfd011e4; 0xbfd011f4; 0xbfd01204]
  else if port =? 2 then [0xbfd011c8; 0xbfd011d8; 0xbfd011e8; 0xbfd011f8; 0xbfd01208]
  else [0xbfd011cc; 0xbfd011dc; 0xbfd011ec; 0xbfd011fc; 0xbfd0120c].

Definition remap_index (remap : pin_remap_t) : Z :=
  match remap with
  | PIN_REMAP_FIRST => 0 | PIN_REMAP_SECOND => 1 | PIN_REMAP_THIRD => 2 | PIN_REMAP_FOURTH => 3
  | PIN_REMAP_FIFTH => 4 | PIN_REMAP_DEFAULT => 5
  end.

Definition pin_set_remap (gpio : Z) (remap : pin_remap_t) : M unit :=
  let port := GPIO_GET_PORT gpio in
  let pin := GPIO_GET_PIN gpio in
  clear_remaps 5 0 port pin ;;;
  match remap with
  | PIN_REMAP_DEFAULT => ret tt
  | _ => if (0 <=? port) && (port <=? 3) then reg_set_one_bit (znth 0 (cbus_regs port) (remap_index remap)) pin else ret tt
  end.

(** ** A pin's state *)

(** The register of [base] for the pin's port. *)
Definition port_reg (base gpio : Z) : Z := base + 4 * GPIO_GET_PORT gpio.

Definition valid (gpio : Z) : Prop := 0 <= gpio < 128.

Lemma valid_port (gpio : Z) : valid gpio -> 0 <= GPIO_GET_PORT gpio <= 3 /\ 0 <= GPIO_GET_PIN gpio < 32.
Proof. unfold valid, GPIO_GET_PORT, GPIO_GET_PIN. intros H. zlia. Qed.

(** The bit of a pin in a register of its port. *)
Definition pin_bit (base gpio : Z) (r : Z -> Z) : bool := Z.testbit (r (port_reg base gpio)) (GPIO_GET_PIN gpio).

Lemma port_value (gpio : Z) : valid gpio ->
  GPIO_GET_PORT gpio = 0 \/ GPIO_GET_PORT gpio = 1 \/ GPIO_GET_PORT gpio = 2 \/ GPIO_GET_PORT gpio = 3.
Proof. intros Hv. pose proof (valid_port gpio Hv). lia. Qed.

(** The registers of the four ports follow one another. *)
Lemma gpio_regs (gpio : Z) : valid gpio ->
  gpio_get_cfg_reg gpio = port_reg LS1C_GPIO_CFG0 gpio /\ gpio_get_en_reg gpio = port_reg LS1C_GPIO_EN0 gpio /\
  (forall level, gpio_set gpio level = match level with
     | gpio_level_low => reg_clr_one_bit (port_reg LS1C_GPIO_OUT0 gpio) (GPIO_GET_PIN gpio)
     | gpio_level_high => reg_set_one_bit (port_reg LS1C_GPIO_OUT0 gpio) (GPIO_GET_PIN gpio)
     end) /\
  gpio_get gpio = reg_get_bit (port_reg LS1C_GPIO_IN0 gpio) (GPIO_GET_PIN gpio).
Proof.
  intros Hv. unfold gpio_get_cfg_reg, gpio_get_en_reg, gpio_set, gpio_get, port_reg.
  destruct (port_value gpio Hv) as [E|[E|[E|E]]]; rewrite E; (split; [done|]); (split; [done|]); (split; [|done]); by intros [].
Qed.

(** One bit of a register of a pin's port. *)
Definition change_bit (base gpio : Z) (v : bool) (w : world) : world :=
  let a := port_reg base gpio in
  after_write a (if v then set_bit (regs w a) (GPIO_GET_PIN gpio) else clr_bit (regs w a) (GPIO_GET_PIN gpio)) w.

(** The [k]th selection of alternative functions. *)
Definition cbus_base (k : Z) : Z := LS1C_CBUS_FIRST0 + k * 0x10.

Definition base_ok (base : Z) : Prop :=
  base = LS1C_GPIO_CFG0 \/ base = LS1C_GPIO_EN0 \/ base = LS1C_GPIO_OUT0 \/ exists k, 0 <= k < 5 /\ base = cbus_base k.

Ltac unfold_bases := unfold base_ok, port_reg, cbus_base, is_input, LS1C_GPIO_CFG0, LS1C_GPIO_EN0, LS1C_GPIO_OUT0, LS1C_CBUS_FIRST0 in *.

Lemma base_reg (base gpio : Z) : base_ok base -> valid gpio -> port_reg base gpio <> 0 /\ is_input (port_reg base gpio) = false.
Proof.
  intros Hb Hv. pose proof (valid_port gpio Hv). unfold_bases. split.
  - destruct Hb as [->|[->|[->|(k & Hk & ->)]]]; lia.
  - apply andb_false_iff. rewrite !Z.leb_gt. destruct Hb as [->|[->|[->|(k & Hk & ->)]]]; lia.
Qed.

Lemma set_bit_at (base gpio : Z) (w : world) : base_ok base -> valid gpio ->
  reg_set_one_bit (port_reg base gpio) (GPIO_GET_PIN gpio) w = Some (tt, change_bit base gpio true w).
Proof. intros Hb Hv. destruct (base_reg base gpio Hb Hv). apply reg_set_one_bit_eq; [done|done|by apply valid_port]. Qed.

Lemma clr_bit_at (base gpio : Z) (w : world) : base_ok base -> valid gpio ->
  reg_clr_one_bit (port_reg base gpio) (GPIO_GET_PIN gpio) w = Some (tt, change_bit base gpio false w).
Proof. intros Hb Hv. destruct (base_reg base gpio Hb Hv). apply reg_clr_one_bit_eq; [done|done|by apply valid_port]. Qed.

Lemma gpio_set_eq (gpio : Z) (level : gpio_level_t) (w : world) : valid gpio ->
  gpio_set gpio level w =
    Some (tt, change_bit LS1C_GPIO_OUT0 gpio (match level with gpio_level_high => true | gpio_level_low => false end) w).
Proof.
  intros Hv. destruct (gpio_regs gpio Hv) as (_ & _ & -> & _). destruct level; [apply clr_bit_at|apply set_bit_at]; try done; by right; right; left.
Qed.

Lemma gpio_init_eq (gpio : Z) (mode : gpio_mode_t) (w : world) : valid gpio ->
  gpio_init gpio mode w = Some (tt,
    change_bit LS1C_GPIO_EN0 gpio (match mode with gpio_mode_input => true | gpio_mode_output => false end)
      (change_bit LS1C_GPIO_CFG0 gpio true w)).
Proof.
  intros Hv. destruct (gpio_regs gpio Hv) as (E1 & E2 & _). unfold gpio_init, pin_set_purpose, bind. rewrite E1, E2.
  rewrite set_bit_at by (done || by left). destruct mode; [apply clr_bit_at|apply set_bit_at]; try done; by right; left.
Qed.

Lemma pin_bit_change (base gpio base' gpio' : Z) (v : bool) (w : world) :
  base_ok base -> base_ok base' -> valid gpio -> valid gpio' ->
  pin_bit base' gpio' (regs (change_bit base gpio v w)) =
    if decide (base' = base /\ gpio' = gpio) then v else pin_bit base' gpio' (regs w).
Proof.
  intros Hb Hb' Hv Hv'. destruct (valid_port gpio Hv) as [Hp Hi], (valid_port gpio' Hv') as [Hp' Hi'].
  unfold pin_bit, change_bit, after_write. cbn [regs].
  destruct (decide (port_reg base' gpio' = port_reg base gpio)) as [E|E].
  - assert (base' = base /\ GPIO_GET_PORT gpio' = GPIO_GET_PORT gpio) as [-> Ep].
    { unfold_bases. destruct Hb as [->|[->|[->|(k & Hk & ->)]]], Hb' as [->|[->|[->|(k' & Hk' & ->)]]]; lia. }
    rewrite E, fupd_eq. destruct v; [rewrite set_bit_spec by lia|rewrite clr_bit_spec by lia].
    + destruct (Z.eqb_spec (GPIO_GET_PIN gpio) (GPIO_GET_PIN gpio')) as [Ei|Ei].
      * rewrite decide_True; [done|]. split; [done|]. unfold GPIO_GET_PORT, GPIO_GET_PIN in *. zlia.
      * rewrite decide_False; [done|]. intros [_ ->]. done.
    + destruct (Z.eqb_spec (GPIO_GET_PIN gpio) (GPIO_GET_PIN gpio')) as [Ei|Ei].
      * rewrite decide_True; [done|]. split; [done|]. unfold GPIO_GET_PORT, GPIO_GET_PIN in *. zlia.
      * rewrite decide_False; [done|]. intros [_ ->]. done.
  - rewrite fupd_ne by done. rewrite decide_False; [done|]. intros [-> ->]. done.
Qed.

(** ** Alternative functions *)

Lemma cbus_ok (k : Z) : 0 <= k < 5 -> base_ok (cbus_base k).
Proof. intros Hk. right; right; right. by exists k. Qed.

Lemma cbus_inj (k k' : Z) : cbus_base k = cbus_base k' -> k = k'.
Proof. unfold cbus_base. lia. Qed.

Lemma cbus_regs_at (gpio k : Z) : valid gpio -> 0 <= k < 5 -> znth 0 (cbus_regs (GPIO_GET_PORT gpio)) k = port_reg (cbus_base k) gpio.
Proof.
  intros Hv Hk. unfold port_reg, cbus_regs. assert (k = 0 \/ k = 1 \/ k = 2 \/ k = 3 \/ k = 4) as Hc by lia.
  destruct (port_value gpio Hv) as [E|[E|[E|E]]]; rewrite E; destruct Hc as [->|[->|[->|[->| ->]]]]; done.
Qed.

Lemma clear_remaps_spec (gpio : Z) (n : nat) (i : Z) (w : world) : valid gpio -> 0 <= i -> i + Z.of_nat n <= 5 ->
  exists w', clear_remaps n i (GPIO_GET_PORT gpio) (GPIO_GET_PIN gpio) w = Some (tt, w') /\
    (forall k, i <= k < i + Z.of_nat n -> pin_bit (cbus_base k) gpio (regs w') = false) /\
    (forall base gpio', base_ok base -> valid gpio' ->
      gpio' <> gpio \/ (forall k, i <= k < i + Z.of_nat n -> base <> cbus_base k) ->
      pin_bit base gpio' (regs w') = pin_bit base gpio' (regs w)).
Proof.
  intros Hv. revert i w. induction n as [|n IH]; intros i w Hi Hn.
  { exists w. split; [done|]. split; [lia|done]. }
  cbn [clear_remaps]. unfold bind.
  replace (LS1C_CBUS_FIRST0 + GPIO_GET_PORT gpio * 4 + i * 16) with (port_reg (cbus_base i) gpio)
    by (unfold port_reg, cbus_base; lia).
  assert (base_ok (cbus_base i)) as Hi5 by (apply cbus_ok; lia). rewrite clr_bit_at by done.
  destruct (IH (i + 1) (change_bit (cbus_base i) gpio false w)) as (w' & E & H1 & H2); [lia..|]. exists w'. split; [done|]. split.
  - intros k Hk. destruct (decide (k = i)) as [->|Hne]; [|apply H1; lia].
    rewrite H2; [|done|done|right; intros k Hk' E'%cbus_inj; lia]. rewrite pin_bit_change by done. by rewrite decide_True.
  - intros base gpio' Hb Hv' Hout. rewrite H2; [|done|done|destruct Hout as [|Hout]; [by left|right; intros k Hk; apply Hout; lia]].
    rewrite pin_bit_change by done. rewrite decide_False; [done|]. intros [-> ->]. destruct Hout as [|Hout]; [done|].
    apply (Hout i); [lia|done].
Qed.

(** Of the five selections of a pin exactly the chosen one is on (none for the default),
    and no other pin is affected. *)
Lemma pin_set_remap_spec (gpio : Z) (remap : pin_remap_t) (w : world) : valid gpio ->
  exists w', pin_set_remap gpio remap w = Some (tt, w') /\
    (forall k, 0 <= k < 5 -> pin_bit (cbus_base k) gpio (regs w') = bool_decide (k = remap_index remap)) /\
    (forall base gpio', base_ok base -> valid gpio' ->
      gpio' <> gpio \/ (forall k, 0 <= k < 5 -> base <> cbus_base k) ->
      pin_bit base gpio' (regs w') = pin_bit base gpio' (regs w)).
Proof.
  intros Hv. destruct (clear_remaps_spec gpio 5 0 w Hv) as (w1 & E1 & H1 & H2); [lia..|]. unfold pin_set_remap, bind. rewrite E1.
  destruct (decide (remap = PIN_REMAP_DEFAULT)) as [->|Hne].
  { exists w1. split; [done|]. split; [|done]. intros k Hk. rewrite H1 by done. rewrite bool_decide_eq_false_2; [done|]. cbn. lia. }
  assert (0 <= remap_index remap < 5) as Hr by (destruct remap; cbn; lia || done).
  exists (change_bit (cbus_base (remap_index remap)) gpio true w1). split_and!.
  - destruct (valid_port gpio Hv) as [Hp _].
    destruct (Z.leb_spec 0 (GPIO_GET_PORT gpio)), (Z.leb_spec (GPIO_GET_PORT gpio) 3); try lia.
    destruct remap; try done; cbn [andb]; rewrite cbus_regs_at by done; apply set_bit_at; (done || by apply cbus_ok).
  - intros k Hk. rewrite pin_bit_change by (done || by apply cbus_ok). rewrite H1 by done.
    destruct (decide (k = remap_index remap)) as [->|Hnk].
    + by rewrite decide_True, bool_decide_eq_true_2 by done.
    + rewrite decide_False by (intros [E%cbus_inj _]; done). by rewrite bool_decide_eq_false_2.
  - intros base gpio' Hb Hv' Hout. rewrite pin_bit_change by (done || by apply cbus_ok). rewrite decide_False; [by apply H2|].
    intros [-> ->]. destruct Hout as [|Hout]; [done|]. by apply (Hout (remap_index remap)).
Qed.
