(* ===== verification/I2c.v ===== *)
(** * I2C on two pins (lib/ls1c_simulate_i2c.c, lib/ls1c_delay.c)
    The master of an I2C bus in software: every operation is a sequence of changes of
    the pins for the clock (SCL) and the data (SDA).  What appears on the bus is read
    off the recorded writes by a decoder that knows nothing of the driver, and a
    transfer is shown to be the symbols it is meant to be. *)

From S2P Require Import Prelude Bits Mmio Gpio.

Record simulate_i2c_t := I2cInfo {
  scl_gpio : Z;
  sda_gpio : Z;
  delay_time : Z }.

(** ** Delays *)

(** [for (tmp = count_max; tmp > 0; tmp--) nop] *)
Fixpoint spin (tmp : nat) : M unit :=
  match tmp with
  | O => ret tt
  | S tmp => ret tt ;;; spin tmp
  end.

Definition delay_count (n : Z) : Z :=
  let count_1us := Z.quot (Z.quot 252000000 1000000) 84 in
  let count_max := s32 (n * count_1us) in
  if n <=? 10 then Z.quot count_max 3
  else if n <=? 100 then count_max - Z.quot count_max 5
  else count_max - Z.quot count_max 10.

Definition delay_us (n : Z) : M unit := spin (Z.to_nat (delay_count n)).

(** ** The lines *)

Definition simulate_i2c_config_scl_out (i : simulate_i2c_t) : M unit := gpio_init (scl_gpio i) gpio_mode_output.
Definition simulate_i2c_config_sda_out (i : simulate_i2c_t) : M unit := gpio_init (sda_gpio i) gpio_mode_output.
Definition simulate_i2c_config_sda_in (i : simulate_i2c_t) : M unit := gpio_init (sda_gpio i) gpio_mode_input.
Definition simulate_i2c_scl_out_high (i : simulate_i2c_t) : M unit := gpio_set (scl_gpio i) gpio_level_high.
Definition simulate_i2c_scl_out_low (i : simulate_i2c_t) : M unit := gpio_set (scl_gpio i) gpio_level_low.
Definition simulate_i2c_sda_out_high (i : simulate_i2c_t) : M unit := gpio_set (sda_gpio i) gpio_level_high.
Definition simulate_i2c_sda_out_low (i : simulate_i2c_t) : M unit := gpio_set (sda_gpio i) gpio_level_low.
Definition simulate_i2c_sda_in (i : simulate_i2c_t) : M Z := gpio_get (sda_gpio i).

(** ** The operations *)

Definition simulate_i2c_init (i : simulate_i2c_t) : M unit :=
  simulate_i2c_config_scl_out i ;;;
  simulate_i2c_scl_out_high i.

Definition simulate_i2c_start (i : simulate_i2c_t) : M unit :=
  simulate_i2c_config_sda_out i ;;;
  simulate_i2c_scl_out_high i ;;;
  delay_us (delay_time i) ;;;
  simulate_i2c_sda_out_high i ;;;
  delay_us (s32 (2 * delay_time i)) ;;;
  simulate_i2c_sda_out_low i ;;;
  delay_us (delay_time i) ;;;
  simulate_i2c_scl_out_low i ;;;
  delay_us (delay_time i).

Definition simulate_i2c_stop (i : simulate_i2c_t) : M unit :=
  simulate_i2c_config_sda_out i ;;;
  simulate_i2c_scl_out_low i ;;;
  delay_us (delay_time i) ;;;
  simulate_i2c_sda_out_low i ;;;
  delay_us (delay_time i) ;;;
  simulate_i2c_scl_out_high i ;;;
  delay_us (delay_time i) ;;;
  simulate_i2c_sda_out_high i ;;;
  delay_us (s32 (2 * delay_time i)).

Definition simulate_i2c_send_ack (i : simulate_i2c_t) : M unit :=
  simulate_i2c_config_sda_out i ;;;
  simulate_i2c_sda_out_low i ;;;
  delay_us (delay_time i) ;;;
  simulate_i2c_scl_out_high i ;;;
  delay_us (delay_time i) ;;;
  simulate_i2c_scl_out_low i ;;;
  delay_us (delay_time i).

Definition simulate_i2c_send_no_ack (i : simulate_i2c_t) : M unit :=
  simulate_i2c_config_sda_out i ;;;
  simulate_i2c_sda_out_high i ;;;
  delay_us (delay_time i) ;;;
  simulate_i2c_scl_out_high i ;;;
  delay_us (delay_time i) ;;;
  simulate_i2c_scl_out_low i ;;;
  delay_us (delay_time i).

Definition simulate_i2c_read_ack (i : simulate_i2c_t) : M Z :=
  simulate_i2c_config_sda_in i ;;;
  delay_us (delay_time i) ;;;
  simulate_i2c_scl_out_high i ;;;
  delay_us (delay_time i) ;;;
  ack <-- simulate_i2c_sda_in i ;;
  simulate_i2c_scl_out_low i ;;;
  delay_us (delay_time i) ;;;
  ret ack.

(** The [n] iterations of the loop that are left. *)
Fixpoint read_bits (n : nat) (i : simulate_i2c_t) (data : Z) : M Z :=
  match n with
  | O => ret data
  | S n =>
      delay_us (delay_time i) ;;;
      simulate_i2c_scl_out_high i ;;;
      delay_us (delay_time i) ;;;
      let data := u8 (Z.shiftl data 1) in
      level <-- simulate_i2c_sda_in i ;;
      let data := if level =? 1 then Z.lor data 0x01 else data in
      simulate_i2c_scl_out_low i ;;;
      read_bits n i data
  end.

Definition simulate_i2c_read_byte (i : simulate_i2c_t) : M Z :=
  simulate_i2c_config_sda_in i ;;;
  read_bits 8 i 0.

Fixpoint write_bits (n : nat) (i : simulate_i2c_t) (data : Z) : M unit :=
  match n with
  | O => ret tt
  | S n =>
      delay_us (delay_time i) ;;;
      (if negb (Z.land data 0x80 =? 0) then simulate_i2c_sda_out_high i else simulate_i2c_sda_out_low i) ;;;
      delay_us (delay_time i) ;;;
      simulate_i2c_scl_out_high i ;;;
      delay_us (delay_time i) ;;;
      simulate_i2c_scl_out_low i ;;;
      write_bits n i (u8 (Z.shiftl data 1))
  end.

Definition simulate_i2c_write_byte (i : simulate_i2c_t) (data : Z) : M unit :=
  simulate_i2c_config_sda_out i ;;;
  write_bits 8 i data ;;;
  delay_us (delay_time i).

(** ** What is on the bus *)

(** A pin drives its line low or high, or leaves it alone: it is an input, or is not used
    as a general-purpose pin. *)
Inductive line := Low | High | Released.

Definition driven (cfg en out : bool) : line := if cfg && negb en then if out then High else Low else Released.

Definition line_of (gpio : Z) (r : Z -> Z) : line :=
  driven (pin_bit LS1C_GPIO_CFG0 gpio r) (pin_bit LS1C_GPIO_EN0 gpio r) (pin_bit LS1C_GPIO_OUT0 gpio r).

(** The pull-up of the bus makes a line high that nobody drives. *)
Definition is_high (l : line) : bool := match l with Low => false | _ => true end.

(** [Free]: a clock pulse for a bit that is the slave's to send. *)
Inductive symbol := Start | Stop | Bit (b : bool) | Free.

Definition bit_symbol (l : line) : symbol := match l with Low => Bit false | High => Bit true | Released => Free end.

(** [pending]: the data line at the last rise of the clock, if nothing else has happened since. *)
Record decoder := Decoder { pending : option line; symbols : list symbol }.

Definition emit (s : symbol) (d : decoder) : decoder := Decoder None (symbols d ++ [s]).

(** A change of the lines from (clock [c], data [l]) to ([c'], [l']): data that falls or
    rises under a high clock starts or stops a transfer; a whole clock pulse is a bit. *)
Definition edge (c c' : bool) (l l' : line) (d : decoder) : decoder :=
  match c, c' with
  | false, false => d
  | false, true => Decoder (Some l') (symbols d)
  | true, false => match pending d with Some l => emit (bit_symbol l) d | None => d end
  | true, true =>
      match is_high l, is_high l' with
      | true, false => emit Start d
      | false, true => emit Stop d
      | _, _ => d
      end
  end.

Definition observe (i : simulate_i2c_t) (s : (Z -> Z) * decoder) (wr : Z * Z) : (Z -> Z) * decoder :=
  let r := fst s in
  let r' := fupd r (fst wr) (snd wr) in
  (r', edge (is_high (line_of (scl_gpio i) r)) (is_high (line_of (scl_gpio i) r'))
            (line_of (sda_gpio i) r) (line_of (sda_gpio i) r') (snd s)).

(** The symbols that a sequence of writes puts on the bus. *)
Definition on_bus (i : simulate_i2c_t) (r : Z -> Z) (ws : list (Z * Z)) : list symbol :=
  symbols (snd (fold_left (observe i) ws (r, Decoder None []))).

(** ** The pins as four switches
    Once the clock pin is an output, what the driver changes is the level of the clock
    and, of the data pin, its use, its direction and its level. *)

Record pins := Pins { p_scl : bool; p_cfg : bool; p_en : bool; p_out : bool }.
Inductive wire := SclOut | SdaCfg | SdaEn | SdaOut.

Definition set_wire (wr : wire) (v : bool) (p : pins) : pins :=
  match wr with
  | SclOut => Pins v (p_cfg p) (p_en p) (p_out p)
  | SdaCfg => Pins (p_scl p) v (p_en p) (p_out p)
  | SdaEn => Pins (p_scl p) (p_cfg p) v (p_out p)
  | SdaOut => Pins (p_scl p) (p_cfg p) (p_en p) v
  end.

Definition p_data (p : pins) : line := driven (p_cfg p) (p_en p) (p_out p).

Definition observed : Type := pins * decoder.

Definition drive (wr : wire) (v : bool) (s : observed) : observed :=
  let p' := set_wire wr v (fst s) in
  (p', edge (p_scl (fst s)) (p_scl p') (p_data (fst s)) (p_data p') (snd s)).

Definition wire_base (wr : wire) : Z :=
  match wr with SdaCfg => LS1C_GPIO_CFG0 | SdaEn => LS1C_GPIO_EN0 | _ => LS1C_GPIO_OUT0 end.
Definition wire_gpio (i : simulate_i2c_t) (wr : wire) : Z :=
  match wr with SclOut => scl_gpio i | _ => sda_gpio i end.

Section I2c.
Context (i : simulate_i2c_t).
Context (Hscl : valid (scl_gpio i)) (Hsda : valid (sda_gpio i)) (Hne : scl_gpio i <> sda_gpio i).
Context (w0 : world).

(** The registers of [w] hold [p]. *)
Definition pins_at (w : world) (p : pins) : Prop :=
  pin_bit LS1C_GPIO_CFG0 (scl_gpio i) (regs w) = true /\
  pin_bit LS1C_GPIO_EN0 (scl_gpio i) (regs w) = false /\
  pin_bit LS1C_GPIO_OUT0 (scl_gpio i) (regs w) = p_scl p /\
  pin_bit LS1C_GPIO_CFG0 (sda_gpio i) (regs w) = p_cfg p /\
  pin_bit LS1C_GPIO_EN0 (sda_gpio i) (regs w) = p_en p /\
  pin_bit LS1C_GPIO_OUT0 (sda_gpio i) (regs w) = p_out p.

Lemma pins_lines (w : world) (p : pins) : pins_at w p ->
  is_high (line_of (scl_gpio i) (regs w)) = p_scl p /\ line_of (sda_gpio i) (regs w) = p_data p.
Proof. intros (H1 & H2 & H3 & H4 & H5 & H6). unfold line_of, p_data. rewrite H1, H2, H3, H4, H5, H6. by destruct (p_scl p). Qed.

Lemma pins_change (wr : wire) (v : bool) (w : world) (p : pins) : pins_at w p ->
  pins_at (change_bit (wire_base wr) (wire_gpio i wr) v w) (set_wire wr v p).
Proof.
  assert (base_ok (wire_base wr) /\ valid (wire_gpio i wr)) as [Hb Hv] by (unfold base_ok; destruct wr; cbn; tauto).
  intros (H1 & H2 & H3 & H4 & H5 & H6). unfold pins_at. rewrite !pin_bit_change by (unfold base_ok; tauto).
  rewrite H1, H2, H3, H4, H5, H6.
  destruct wr; cbn -[decide]; split_and!; case_decide as Hd; try done;
    first [destruct Hd as [E1 E2]; first [discriminate E1 | congruence] | by destruct Hd].
Qed.

(** The registers of [w] hold the pins of [s], and the writes since [w0] decode to the
    symbols of [s]. *)
Definition at_state (w : world) (s : observed) : Prop :=
  pins_at w (fst s) /\
  exists ws, writes w = writes w0 ++ ws /\ fold_left (observe i) ws (regs w0, Decoder None []) = (regs w, snd s).

Lemma drive_at (wr : wire) (v : bool) (w : world) (s : observed) :
  at_state w s -> at_state (change_bit (wire_base wr) (wire_gpio i wr) v w) (drive wr v s).
Proof.
  intros (Hp & ws & Hws & Hf). pose proof (pins_change wr v w _ Hp) as Hp'. split; [done|].
  destruct (pins_lines _ _ Hp) as [E1 E2], (pins_lines _ _ Hp') as [E1' E2'].
  unfold change_bit in *. set (x := if v then _ else _) in *.
  exists (ws ++ [(port_reg (wire_base wr) (wire_gpio i wr), x)]). cbn in E1', E2' |- *.
  rewrite fold_left_app, Hf, Hws, app_assoc. split; [done|]. unfold observe. cbn. by rewrite E1, E2, E1', E2'.
Qed.

(** ** What a routine does to the pins and what it returns
    From [s], [m] drives the pins to [s'], and takes its result from the inputs as [g]. *)
Definition does {A} (m : M A) (s s' : observed) (g : list Z -> A * list Z) : Prop :=
  forall w, at_state w s ->
    exists w', m w = Some (fst (g (inputs w)), w') /\ at_state w' s' /\ inputs w' = snd (g (inputs w)).

Definition returns {A} (x : A) (ins : list Z) : A * list Z := (x, ins).
Definition then_ {A B} (g : list Z -> A * list Z) (k : A -> list Z -> B * list Z) (ins : list Z) : B * list Z :=
  let (x, ins) := g ins in k x ins.

Lemma does_ret {A} (x : A) (s : observed) : does (ret x) s s (returns x).
Proof. intros w H. by exists w. Qed.

Lemma does_bind {A B} (m : M A) (k : A -> M B) s s1 s2 g g' : does m s s1 g -> (forall x, does (k x) s1 s2 (g' x)) ->
  does (bind m k) s s2 (then_ g g').
Proof.
  intros Hm Hk w H. destruct (Hm w H) as (w1 & E1 & H1 & Hi1). unfold bind, then_. rewrite E1.
  destruct (Hk (fst (g (inputs w))) w1 H1) as (w2 & E2 & H2 & Hi2). exists w2. rewrite E2, Hi2, Hi1.
  by destruct (g (inputs w)).
Qed.

Lemma does_conv {A} (m : M A) s s1 s2 g g' : does m s s1 g -> s1 = s2 -> (forall ins, g ins = g' ins) -> does m s s2 g'.
Proof. intros Hm <- Hg w H. destruct (Hm w H) as (w' & E & H' & Hi). exists w'. by rewrite <- Hg. Qed.

Lemma does_delay (n : Z) (s : observed) : does (delay_us n) s s (returns tt).
Proof.
  intros w H. exists w. split_and!; [|done|done]. unfold delay_us.
  induction (Z.to_nat (delay_count n)) as [|tmp IH]; [done|]. exact IH.
Qed.

Lemma does_level (wr : wire) (level : gpio_level_t) (s : observed) : wire_base wr = LS1C_GPIO_OUT0 ->
  does (gpio_set (wire_gpio i wr) level) s
    (drive wr (match level with gpio_level_high => true | gpio_level_low => false end) s) (returns tt).
Proof.
  intros Hb w H. eexists. split_and!; [apply gpio_set_eq; by destruct wr| |done].
  rewrite <- Hb. by apply drive_at.
Qed.

Lemma does_scl (level : gpio_level_t) (s : observed) :
  does (gpio_set (scl_gpio i) level) s
    (drive SclOut (match level with gpio_level_high => true | gpio_level_low => false end) s) (returns tt).
Proof. by apply (does_level SclOut). Qed.

Lemma does_sda (level : gpio_level_t) (s : observed) :
  does (gpio_set (sda_gpio i) level) s
    (drive SdaOut (match level with gpio_level_high => true | gpio_level_low => false end) s) (returns tt).
Proof. by apply (does_level SdaOut). Qed.

Lemma does_config (mode : gpio_mode_t) (s : observed) :
  does (gpio_init (sda_gpio i) mode) s
    (drive SdaEn (match mode with gpio_mode_input => true | gpio_mode_output => false end) (drive SdaCfg true s))
    (returns tt).
Proof.
  intros w H. eexists. split_and!; [by apply gpio_init_eq| |done]. apply (drive_at SdaEn). by apply (drive_at SdaCfg).
Qed.

(** The level of the data line: the next value of the inputs of its port. *)
Definition sampled (x : Z) : bool := Z.testbit x (GPIO_GET_PIN (sda_gpio i)).
Definition read_level (ins : list Z) : Z * list Z := (Z.b2z (sampled (default 0 (head ins))), tail ins).

Lemma does_read (s : observed) : does (gpio_get (sda_gpio i)) s s read_level.
Proof.
  intros w H. destruct (gpio_regs _ Hsda) as (_ & _ & _ & ->). eexists. split_and!.
  - apply reg_get_bit_eq; [| |apply (valid_port _ Hsda)]; unfold port_reg;
      destruct (port_value _ Hsda) as [E|[E|[E|E]]]; rewrite E; by vm_compute.
  - exact H.
  - done.
Qed.
End I2c.

Create HintDb i2c.
#[export] Hint Resolve does_ret does_delay does_scl does_sda does_config does_read : i2c.
#[export] Hint Unfold simulate_i2c_config_scl_out simulate_i2c_config_sda_out simulate_i2c_config_sda_in
  simulate_i2c_scl_out_high simulate_i2c_scl_out_low simulate_i2c_sda_out_high simulate_i2c_sda_out_low simulate_i2c_sda_in
  simulate_i2c_start simulate_i2c_stop simulate_i2c_send_ack simulate_i2c_send_no_ack simulate_i2c_read_ack : i2c.

(** Follows a routine statement by statement, to a last statement that [last] does. *)
Ltac i2c_run tac := autounfold with i2c;
  eapply does_conv; [repeat (eapply does_bind; [solve [eauto 2 with i2c]|intros ?; cbv beta]); tac | | ].
Ltac i2c_steps := i2c_run ltac:(first [apply does_delay | apply does_ret]).

(** ** Transfers *)

(** What a master does between the start and the stop of a transfer. *)
Inductive op := WriteByte (data : Z) | ReadByte | ReadAck | SendAck | SendNack | Restart.

Definition run_op (i : simulate_i2c_t) (o : op) : M (option Z) :=
  match o with
  | WriteByte data => simulate_i2c_write_byte i data ;;; ret None
  | ReadByte => data <-- simulate_i2c_read_byte i ;; ret (Some data)
  | ReadAck => ack <-- simulate_i2c_read_ack i ;; ret (Some ack)
  | SendAck => simulate_i2c_send_ack i ;;; ret None
  | SendNack => simulate_i2c_send_no_ack i ;;; ret None
  | Restart => simulate_i2c_start i ;;; ret None
  end.

Fixpoint run_ops (i : simulate_i2c_t) (ops : list op) : M (list (option Z)) :=
  match ops with
  | [] => ret []
  | o :: ops => x <-- run_op i o ;; xs <-- run_ops i ops ;; ret (x :: xs)
  end.

Definition transfer (i : simulate_i2c_t) (ops : list op) : M (list (option Z)) :=
  simulate_i2c_start i ;;;
  xs <-- run_ops i ops ;;
  simulate_i2c_stop i ;;;
  ret xs.

(** The bits of a byte, the most significant first, and the byte of a list of bits. *)
Definition byte_bits (data : Z) : list bool := map (fun k => Z.testbit data k) [7; 6; 5; 4; 3; 2; 1; 0].
Definition of_bits (bs : list bool) : Z := fold_left (fun x (b : bool) => 2 * x + Z.b2z b) bs 0.

(** The level that the data pin is left with. *)
Definition level_after (o : op) (level : bool) : bool :=
  match o with
  | WriteByte data => Z.odd data
  | ReadByte | ReadAck => level
  | SendAck | Restart => false
  | SendNack => true
  end.

(** What an operation is on the bus.  A start in the middle of a transfer raises the clock
    before the data: when the pin was left low, that ends the transfer before the next
    one is started. *)
Definition op_symbols (o : op) (level : bool) : list symbol :=
  match o with
  | WriteByte data => map Bit (byte_bits data)
  | ReadByte => repeat Free 8
  | ReadAck => [Free]
  | SendAck => [Bit false]
  | SendNack => [Bit true]
  | Restart => if level then [Start] else [Stop; Start]
  end.

Fixpoint ops_symbols (ops : list op) (level : bool) : list symbol :=
  match ops with
  | [] => []
  | o :: ops => op_symbols o level ++ ops_symbols ops (level_after o level)
  end.

(** The results, from the levels of the data line at the clock pulses. *)
Definition op_result (o : op) (levels : list bool) : option Z * list bool :=
  match o with
  | ReadByte => (Some (of_bits (firstn 8 levels)), skipn 8 levels)
  | ReadAck => (Some (of_bits (firstn 1 levels)), skipn 1 levels)
  | _ => (None, levels)
  end.

Fixpoint ops_results (ops : list op) (levels : list bool) : list (option Z) :=
  match ops with
  | [] => []
  | o :: ops => let (x, levels) := op_result o levels in x :: ops_results ops levels
  end.

(** How many levels the operations read. *)
Definition op_reads (o : op) : nat := match o with ReadByte => 8 | ReadAck => 1 | _ => 0 end.
Definition ops_reads (ops : list op) : nat := fold_right (fun o n => op_reads o + n)%nat 0%nat ops.

Definition op_ok (o : op) : Prop := match o with WriteByte data => 0 <= data < 256 | _ => True end.

(** The clock pin is a general-purpose output at the high level, and the data pin has the
    high level whenever it is one. *)
Definition idle (i : simulate_i2c_t) (w : world) : Prop :=
  line_of (scl_gpio i) (regs w) = High /\ pin_bit LS1C_GPIO_OUT0 (sda_gpio i) (regs w) = true.

Section Transfer.
Context (i : simulate_i2c_t).
Context (Hscl : valid (scl_gpio i)) (Hsda : valid (sda_gpio i)) (Hne : scl_gpio i <> sda_gpio i).
Context (w0 : world).
Local Abbreviation does := (does i w0).

(** In the middle of a transfer: the clock is low. *)
Definition held (en level : bool) (l : list symbol) : observed := (Pins false true en level, Decoder None l).

Lemma config_held (mode : gpio_mode_t) (en level : bool) (l : list symbol) :
  does (gpio_init (sda_gpio i) mode) (held en level l)
    (held (match mode with gpio_mode_input => true | gpio_mode_output => false end) level l) (returns tt).
Proof. i2c_run ltac:(by apply does_config); [|done]. by destruct mode, en, level. Qed.

Lemma start_idle (cfg en : bool) (l : list symbol) :
  does (simulate_i2c_start i) (Pins true cfg en true, Decoder None l) (held false false (l ++ [Start])) (returns tt).
Proof. i2c_steps; [|done]. by destruct cfg, en. Qed.

Lemma start_held (en level : bool) (l : list symbol) :
  does (simulate_i2c_start i) (held en level l) (held false false (l ++ op_symbols Restart level)) (returns tt).
Proof. i2c_steps; [|done]. destruct level; [by destruct en|]. cbn [op_symbols]. rewrite (app_assoc l [Stop] [Start] : l ++ [Stop; Start] = _). by destruct en. Qed.

Lemma stop_held (en level : bool) (l : list symbol) :
  does (simulate_i2c_stop i) (held en level l) (Pins true true false true, Decoder None (l ++ [Stop])) (returns tt).
Proof. i2c_steps; [|done]. by destruct en, level. Qed.

Lemma send_ack_held (en level : bool) (l : list symbol) :
  does (simulate_i2c_send_ack i) (held en level l) (held false false (l ++ [Bit false])) (returns tt).
Proof. i2c_steps; [|done]. by destruct en, level. Qed.

Lemma send_no_ack_held (en level : bool) (l : list symbol) :
  does (simulate_i2c_send_no_ack i) (held en level l) (held false true (l ++ [Bit true])) (returns tt).
Proof. i2c_steps; [|done]. by destruct en, level. Qed.

Lemma read_ack_held (en level : bool) (l : list symbol) :
  does (simulate_i2c_read_ack i) (held en level l) (held true level (l ++ [Free])) (read_level i).
Proof. i2c_steps; [|done]. by destruct en, level. Qed.

(** ** Bytes *)

(** The next [n] levels, shifted into a byte. *)
Fixpoint read_n (n : nat) (x : Z) (ins : list Z) : Z * list Z :=
  match n with
  | O => (x, ins)
  | S n => read_n n (u8 (2 * x + Z.b2z (sampled i (default 0 (head ins))))) (tail ins)
  end.

Lemma shift_in (x : Z) (b : bool) :
  (if Z.b2z b =? 1 then Z.lor (u8 (Z.shiftl x 1)) 0x01 else u8 (Z.shiftl x 1)) = u8 (2 * x + Z.b2z b).
Proof.
  rewrite Z.shiftl_mul_pow2 by lia. destruct b;
    [change (Z.b2z true =? 1) with true|change (Z.b2z false =? 1) with false]; cbv iota; [|unfold u8; f_equal; cbn; lia].
  cbn [Z.b2z]. unfold u8. replace ((x * 2 ^ 1) mod 2 ^ 8) with (2 * (x mod 2 ^ 7)) by zlia.
  replace ((2 * x + 1) mod 2 ^ 8) with (2 * (x mod 2 ^ 7) + 1) by zlia.
  assert (0 <= x mod 2 ^ 7) by zlia. by destruct (x mod 2 ^ 7).
Qed.

Lemma read_bits_held (n : nat) (x : Z) (en level : bool) (l : list symbol) :
  does (read_bits n i x) (held true level l) (held true level (l ++ repeat Free n)) (read_n n x).
Proof.
  revert x l. induction n as [|n IH]; intros x l; cbn [read_bits repeat].
  { eapply does_conv; [apply does_ret|by rewrite app_nil_r|done]. }
  rewrite (app_assoc l [Free] (repeat Free n) : l ++ Free :: repeat Free n = _).
  i2c_run ltac:(apply IH); [by destruct en, level|]. intros ins. unfold then_, returns, read_level. cbn [read_n].
  by rewrite shift_in.
Qed.

Lemma read_byte_held (en level : bool) (l : list symbol) :
  does (simulate_i2c_read_byte i) (held en level l) (held true level (l ++ repeat Free 8)) (read_n 8 0).
Proof.
  eapply does_conv; [eapply does_bind; [apply config_held|intros ?; apply (read_bits_held 8 0 true level l)]|done|done].
Qed.

(** The top bits of a byte that is shifted to the left. *)
Fixpoint top_bits (n : nat) (x : Z) : list bool :=
  match n with
  | O => []
  | S n => Z.testbit x 7 :: top_bits n (u8 (Z.shiftl x 1))
  end.

Lemma shifted_bit (x k k' : Z) : 0 <= k < 7 -> k' = k + 1 -> Z.testbit (u8 (Z.shiftl x 1)) k' = Z.testbit x k.
Proof. intros Hk ->. unfold u8. rewrite Z.mod_pow2_bits_low, Z.shiftl_spec by lia. f_equal. lia. Qed.

Lemma top_bits_byte (x : Z) : top_bits 8 x = byte_bits x.
Proof.
  cbn [top_bits byte_bits map]. rewrite (shifted_bit _ 6 7) by lia.
  rewrite !(shifted_bit _ 6 7), !(shifted_bit _ 5 6), !(shifted_bit _ 4 5), !(shifted_bit _ 3 4), !(shifted_bit _ 2 3),
    !(shifted_bit _ 1 2), !(shifted_bit _ 0 1) by lia. done.
Qed.

Lemma write_bits_held (n : nat) (x : Z) (level : bool) (l : list symbol) : 0 <= x < 256 ->
  does (write_bits n i x) (held false level l)
    (held false (fold_left (fun _ b => b) (top_bits n x) level) (l ++ map Bit (top_bits n x))) (returns tt).
Proof.
  revert x level l. induction n as [|n IH]; intros x level l Hx; cbn [write_bits top_bits map].
  { eapply does_conv; [apply does_ret|by rewrite app_nil_r|done]. }
  rewrite (app_assoc l [Bit (Z.testbit x 7)] (map Bit (top_bits n _)) : l ++ Bit _ :: _ = _).
  rewrite (land_bit_test x 7 ltac:(lia) : negb (Z.land x 0x80 =? 0) = _).
  cbn [fold_left].
  assert (0 <= u8 (Z.shiftl x 1) < 256) as Hx' by (apply Z.mod_pos_bound; lia).
  destruct (Z.testbit x 7); (i2c_run ltac:(by apply IH); [by destruct level|done]).
Qed.

Lemma write_byte_held (x : Z) (en level : bool) (l : list symbol) : 0 <= x < 256 ->
  does (simulate_i2c_write_byte i x) (held en level l) (held false (Z.odd x) (l ++ map Bit (byte_bits x))) (returns tt).
Proof.
  intros Hx. unfold simulate_i2c_write_byte. eapply does_conv.
  - eapply does_bind; [apply config_held|intros ?].
    eapply does_bind; [by apply (write_bits_held 8 x level l)|intros ?; apply does_delay].
  - by rewrite top_bits_byte.
  - done.
Qed.

(** ** Transfers *)

Definition op_read (o : op) (ins : list Z) : option Z * list Z :=
  match o with
  | ReadByte => then_ (read_n 8 0) (fun x => returns (Some x)) ins
  | ReadAck => then_ (read_level i) (fun x => returns (Some x)) ins
  | _ => (None, ins)
  end.

Fixpoint ops_read (ops : list op) (ins : list Z) : list (option Z) * list Z :=
  match ops with
  | [] => ([], ins)
  | o :: ops => then_ (op_read o) (fun x => then_ (ops_read ops) (fun xs => returns (x :: xs))) ins
  end.

Lemma op_held (o : op) (en level : bool) (l : list symbol) : op_ok o -> exists en',
  does (run_op i o) (held en level l) (held en' (level_after o level) (l ++ op_symbols o level)) (op_read o).
Proof.
  intros Ho. destruct o; eexists; (eapply does_conv; [eapply does_bind; [|intros ?; apply does_ret]| |]);
    [by apply write_byte_held| | |apply read_byte_held| | |apply read_ack_held| | |apply send_ack_held| |
     |apply send_no_ack_held| | |apply start_held| | ]; done.
Qed.

Lemma ops_held (ops : list op) (en level : bool) (l : list symbol) : Forall op_ok ops -> exists en' level',
  does (run_ops i ops) (held en level l) (held en' level' (l ++ ops_symbols ops level)) (ops_read ops).
Proof.
  intros Hok. revert en level l. induction Hok as [|o ops Ho _ IH]; intros en level l; cbn [run_ops ops_symbols].
  { exists en, level. rewrite app_nil_r. apply does_ret. }
  destruct (op_held o en level l Ho) as (en1 & H1).
  destruct (IH en1 (level_after o level) (l ++ op_symbols o level)) as (en2 & level2 & H2). exists en2, level2.
  eapply does_conv; [|rewrite app_assoc; reflexivity|reflexivity].
  eapply does_bind; [exact H1|]. intros x. eapply does_bind; [exact H2|]. intros xs. apply does_ret.
Qed.

Lemma transfer_does (ops : list op) (cfg en : bool) : Forall op_ok ops ->
  does (transfer i ops) (Pins true cfg en true, Decoder None [])
    (Pins true true false true, Decoder None (Start :: ops_symbols ops false ++ [Stop])) (ops_read ops).
Proof.
  intros Hok. destruct (ops_held ops false false [Start] Hok) as (en' & level' & H). unfold transfer. eapply does_conv.
  - eapply does_bind; [apply start_idle|intros ?]. eapply does_bind; [exact H|intros xs].
    eapply does_bind; [apply stop_held|intros ?; apply does_ret].
  - by rewrite app_comm_cons.
  - intros ins. unfold then_, returns. by destruct (ops_read ops ins).
Qed.
End Transfer.

(** ** The results, from the levels *)

Lemma read_n_levels (i : simulate_i2c_t) (n : nat) (x : Z) (ins : list Z) :
  (n <= length ins)%nat -> 0 <= x -> (x + 1) * 2 ^ Z.of_nat n <= 256 ->
  read_n i n x ins = (fold_left (fun x (b : bool) => 2 * x + Z.b2z b) (firstn n (map (sampled i) ins)) x, skipn n ins).
Proof.
  revert x ins. induction n as [|n IH]; intros x ins Hn Hx Hb; [done|]. destruct ins as [|v ins]; [cbn in Hn; lia|].
  cbn [read_n head tail default from_option id map firstn fold_left skipn]. rewrite length_cons in Hn.
  rewrite Nat2Z.inj_succ, Z.pow_succ_r in Hb by lia.
  assert (1 <= 2 ^ Z.of_nat n) by (apply (Z.pow_le_mono_r 2 0); lia).
  assert (0 <= Z.b2z (sampled i v) <= 1) by (destruct (sampled i v); cbn; lia).
  assert (u8 (2 * x + Z.b2z (sampled i v)) = 2 * x + Z.b2z (sampled i v)) as -> by (apply Z.mod_small; nia).
  apply IH; [lia|lia|nia].
Qed.

Lemma op_read_results (i : simulate_i2c_t) (o : op) (ins : list Z) : (op_reads o <= length ins)%nat ->
  exists x, op_read i o ins = (x, skipn (op_reads o) ins) /\
    op_result o (map (sampled i) ins) = (x, map (sampled i) (skipn (op_reads o) ins)).
Proof.
  intros Hn. destruct o; cbn [op_reads op_read op_result] in *; try (eexists; split; reflexivity).
  - eexists. unfold then_. rewrite read_n_levels by (done || lia). split; [reflexivity|]. by rewrite skipn_map.
  - destruct ins as [|v ins]; [cbn in Hn; lia|]. eexists. split; [reflexivity|]. done.
Qed.

Lemma ops_read_results (i : simulate_i2c_t) (ops : list op) (ins : list Z) : (ops_reads ops <= length ins)%nat ->
  ops_read i ops ins = (ops_results ops (map (sampled i) ins), skipn (ops_reads ops) ins).
Proof.
  revert ins. induction ops as [|o ops IH]; intros ins Hn; [done|]. cbn [ops_reads foldr fold_right] in Hn.
  fold (ops_reads ops) in Hn. destruct (op_read_results i o ins) as (x & E1 & E2); [lia|].
  cbn [ops_read ops_results ops_reads fold_right]. fold (ops_reads ops). unfold then_ at 1. rewrite E1, E2. unfold then_.
  rewrite IH by (rewrite length_skipn; lia). unfold returns. f_equal. by rewrite skipn_skipn, Nat.add_comm.
Qed.

Lemma ready_at (i : simulate_i2c_t) (w : world) : line_of (scl_gpio i) (regs w) = High ->
  exists cfg en, at_state i w w (Pins true cfg en (pin_bit LS1C_GPIO_OUT0 (sda_gpio i) (regs w)), Decoder None []).
Proof.
  intros Hline. unfold line_of, driven in Hline.
  exists (pin_bit LS1C_GPIO_CFG0 (sda_gpio i) (regs w)), (pin_bit LS1C_GPIO_EN0 (sda_gpio i) (regs w)).
  destruct (pin_bit LS1C_GPIO_CFG0 (scl_gpio i) (regs w)) eqn:E1, (pin_bit LS1C_GPIO_EN0 (scl_gpio i) (regs w)) eqn:E2,
    (pin_bit LS1C_GPIO_OUT0 (scl_gpio i) (regs w)) eqn:E3; try done.
  split; [by split_and!|]. exists []. by rewrite app_nil_r.
Qed.

Lemma at_idle (i : simulate_i2c_t) (w0 w : world) (cfg en : bool) (d : decoder) :
  at_state i w0 w (Pins true cfg en true, d) -> idle i w.
Proof. intros ((H1 & H2 & H3 & H4 & H5 & H6) & _). split; [|done]. unfold line_of. by rewrite H1, H2, H3. Qed.

(** What [init] leaves: a clock that is high; one [stop] makes the bus idle, whatever the
    registers held before. *)
Lemma i2c_init_eq (i : simulate_i2c_t) (w : world) : valid (scl_gpio i) ->
  exists w', simulate_i2c_init i w = Some (tt, w') /\ line_of (scl_gpio i) (regs w') = High.
Proof.
  intros Hv. unfold simulate_i2c_init, simulate_i2c_config_scl_out, simulate_i2c_scl_out_high, bind.
  rewrite gpio_init_eq, gpio_set_eq by done. eexists. split; [reflexivity|]. unfold line_of.
  rewrite !pin_bit_change by (unfold base_ok; tauto).
  repeat (case_decide as Hd; [try (destruct Hd as [E _]; discriminate E)|try (destruct Hd; split; reflexivity)]; clear Hd).
  done.
Qed.

Lemma stop_idle (i : simulate_i2c_t) (w : world) : valid (scl_gpio i) -> valid (sda_gpio i) -> scl_gpio i <> sda_gpio i ->
  line_of (scl_gpio i) (regs w) = High -> exists w', simulate_i2c_stop i w = Some (tt, w') /\ idle i w'.
Proof.
  intros Hscl Hsda Hne Hline. destruct (ready_at i w Hline) as (cfg & en & H). revert H. generalize (pin_bit LS1C_GPIO_OUT0 (sda_gpio i) (regs w)).
  intros level H.
  assert (exists d, does i w (simulate_i2c_stop i) (Pins true cfg en level, Decoder None []) (Pins true true false true, d) (returns tt))
    as (d & Hd) by (eexists; i2c_steps; [reflexivity|reflexivity]).
  destruct (Hd w H) as (w' & E & Hw' & _). exists w'. split; [exact E|]. by eapply at_idle.
Qed.

(** ** The theorem *)

(** C22: a transfer on an idle bus succeeds, whatever operations it consists of: decoded
    from the changes of the two pins, it is a start, the bits of every operation in
    order (those of a byte from the most significant one, those that are the slave's to
    send with the data pin released), and a stop; what is read is the bytes and the
    acknowledgements made of the levels of the data line at those pulses; and the bus is
    idle again. *)
Theorem i2c_transfer (i : simulate_i2c_t) (ops : list op) (w : world) :
  valid (scl_gpio i) -> valid (sda_gpio i) -> scl_gpio i <> sda_gpio i -> idle i w ->
  Forall op_ok ops -> (ops_reads ops <= length (inputs w))%nat ->
  exists w' ws,
    transfer i ops w = Some (ops_results ops (map (sampled i) (inputs w)), w') /\
    writes w' = writes w ++ ws /\
    on_bus i (regs w) ws = Start :: ops_symbols ops false ++ [Stop] /\
    inputs w' = skipn (ops_reads ops) (inputs w) /\
    idle i w'.
Proof.
  intros Hscl Hsda Hne Hidle Hok Hins. destruct (ready_at i w (proj1 Hidle)) as (cfg & en & H). rewrite (proj2 Hidle) in H.
  destruct (transfer_does i Hscl Hsda Hne w ops cfg en Hok w H) as (w' & E & Hw' & Hi).
  rewrite ops_read_results in E, Hi by done. pose proof (at_idle _ _ _ _ _ _ Hw'). destruct Hw' as (_ & ws & Hws & Hf).
  exists w', ws. split_and!; try done. unfold on_bus. by rewrite Hf.
Qed.

(** The pins of the example: 85 for the clock, 86 for the data; all are outputs at the
    high level.  The slave acknowledges its address and sends the byte 0x5a. *)
Definition demo_pins : simulate_i2c_t := I2cInfo 85 86 5.
Definition demo_world : world :=
  World (fun a => if (LS1C_GPIO_EN0 <=? a) && (a <=? LS1C_GPIO_EN3) then 0 else 0xffffffff)
    (map (fun b => Z.b2z b * 2 ^ 22) [false; false; true; false; true; true; false; true; false]) [].

Lemma i2c_transfer_witness :
  idle demo_pins demo_world /\
  exists w' ws,
    transfer demo_pins [WriteByte 0xa1; ReadAck; ReadByte; SendNack] demo_world = Some ([None; Some 0; Some 0x5a; None], w') /\
    writes w' = ws /\
    on_bus demo_pins (regs demo_world) ws =
      Start :: map Bit [true; false; true; false; false; false; false; true] ++ repeat Free 9 ++ [Bit true; Stop] /\
    inputs w' = [] /\ idle demo_pins w'.
Proof.
  split; [split; by vm_compute|].
  apply (i2c_transfer demo_pins [WriteByte 0xa1; ReadAck; ReadByte; SendNack] demo_world).
  - by vm_compute.
  - by vm_compute.
  - discriminate.
  - split; by vm_compute.
  - repeat constructor; by vm_compute.
  - by vm_compute; lia.
Defined.
