(* ===== verification/Irq.v ===== *)
(** * Interrupts (lib/ls1c_irq.c)
    The 160 interrupt requests of the chip, in five groups of 32 with a set of registers
    each; the table of their handlers; and the dispatcher that the exception vector
    enters.  What a handler does is a parameter: it may change the whole state, the
    registers and the table included.  The timer interrupt goes to [sys_tick_handler]
    (Sched.v), also a parameter here. *)

From S2P Require Import Prelude Bits Mmio.

(** ** Registers *)

Definition LS1C_INTREG_BASE : Z := 0xbfd01040.
Definition LS1C_NR_IRQS : Z := 32 * 5.

(** [struct ls1c_intc_regs]: six registers of four bytes. *)
Inductive intc_reg := int_isr | int_en | int_set | int_clr | int_pol | int_edge.
#[global] Instance intc_reg_eq : EqDecision intc_reg.
Proof. solve_decision. Defined.

Definition reg_index (r : intc_reg) : Z :=
  match r with int_isr => 0 | int_en => 1 | int_set => 2 | int_clr => 3 | int_pol => 4 | int_edge => 5 end.

(** [&(ls1c_hw0_icregs + n)->r] *)
Definition icregs (n : Z) (r : intc_reg) : Z := LS1C_INTREG_BASE + 24 * n + 4 * reg_index r.

Lemma icregs_inj (n n' : Z) (r r' : intc_reg) : icregs n r = icregs n' r' -> n = n' /\ r = r'.
Proof. unfold icregs. destruct r, r'; cbn [reg_index]; intros H; split; (lia || done). Qed.

(** Bits of the coprocessor's [cause] and [status]. *)
Definition ST0_IM : Z := 0x0000ff00.
Definition ST0_IE : Z := 0x00000001.
Definition CAUSEF_IP (k : Z) : Z := u32 (Z.shiftl 1 (8 + k)).

(** [H]: the handlers that drivers install; [X]: the rest of the system. *)
Inductive irq_handler_t (H : Type) := NULL | irq_default_handler | installed (h : H).
Arguments NULL {H}.
Arguments irq_default_handler {H}.
Arguments installed {H} h.

Record irq_desc_t (H : Type) := IrqDesc { handler : irq_handler_t H; param : Z }.
Arguments IrqDesc {H} handler param.
Arguments handler {H} i.
Arguments param {H} i.

Record machine (H X : Type) := Machine {
  io : Z -> Z;
  c0_cause : Z;
  c0_status : Z;
  irq_handlers : Z -> irq_desc_t H;
  rest : X }.
Arguments Machine {H X} io c0_cause c0_status irq_handlers rest.
Arguments io {H X} m.
Arguments c0_cause {H X} m.
Arguments c0_status {H X} m.
Arguments irq_handlers {H X} m.
Arguments rest {H X} m.

Section Irq.
Context {H X : Type}.
Implicit Types m : machine H X.

Definition set_io (f : (Z -> Z) -> Z -> Z) m : machine H X :=
  Machine (f (io m)) (c0_cause m) (c0_status m) (irq_handlers m) (rest m).
Definition set_handlers (f : (Z -> irq_desc_t H) -> Z -> irq_desc_t H) m : machine H X :=
  Machine (io m) (c0_cause m) (c0_status m) (f (irq_handlers m)) (rest m).
Definition write_c0_status (v : Z) m : machine H X := Machine (io m) (c0_cause m) v (irq_handlers m) (rest m).

(** ** Operations *)

Definition irq_enable (IRQn : Z) m : machine H X :=
  let a := icregs (Z.shiftr IRQn 5) int_en in
  set_io (fun io => fupd io a (Z.lor (io a) (u32 (Z.shiftl 1 (Z.land IRQn 0x1f))))) m.

Definition irq_disable (IRQn : Z) m : machine H X :=
  let a := icregs (Z.shiftr IRQn 5) int_en in
  set_io (fun io => fupd io a (Z.land (io a) (not32 (u32 (Z.shiftl 1 (Z.land IRQn 0x1f)))))) m.

(** The previous handler is returned; [NULL] when there is no such request. *)
Definition irq_install (IRQn : Z) (new_handler : irq_handler_t H) (param : Z) m : irq_handler_t H * machine H X :=
  if (0 <=? IRQn) && (IRQn <? LS1C_NR_IRQS) then
    (handler (irq_handlers m IRQn), set_handlers (fun t => fupd t IRQn (IrqDesc new_handler param)) m)
  else (NULL, m).

Fixpoint init_groups (n : nat) (i : Z) (io : Z -> Z) : Z -> Z :=
  match n with
  | O => io
  | S n =>
      let io := fupd io (icregs i int_en) 0 in
      let io := fupd io (icregs i int_pol) (u32 (-1)) in
      let io := fupd io (icregs i int_edge) 0 in
      let io := fupd io (icregs i int_clr) 0xffffffff in
      init_groups n (i + 1) io
  end.

Fixpoint init_handlers (n : nat) (IRQn : Z) (t : Z -> irq_desc_t H) : Z -> irq_desc_t H :=
  match n with
  | O => t
  | S n => init_handlers n (IRQn + 1) (fupd t IRQn (IrqDesc irq_default_handler 0))
  end.

Definition irq_init m : machine H X :=
  set_handlers (init_handlers (Z.to_nat LS1C_NR_IRQS) 0) (set_io (init_groups 5 0) m).

Definition irq_disable_all m : machine H X := write_c0_status (Z.land (c0_status m) 0xfffffffe) m.

Definition irq_enable_all m : machine H X :=
  let status := c0_status m in
  let status := Z.lor status
    (Z.lor (Z.lor (Z.lor (Z.lor (Z.lor (CAUSEF_IP 6) (CAUSEF_IP 5)) (CAUSEF_IP 4)) (CAUSEF_IP 3)) (CAUSEF_IP 2)) ST0_IE) in
  let status := Z.land status (not32 (CAUSEF_IP 7)) in
  write_c0_status status m.

Context (invoke : H -> Z -> Z -> machine H X -> option (machine H X)).
Context (sys_tick_handler : machine H X -> option (machine H X)).

(** The default handler only prints. *)
Definition ls1c_do_IRQ (IRQn : Z) m : option (machine H X) :=
  let irq_handler := handler (irq_handlers m IRQn) in
  let param := param (irq_handlers m IRQn) in
  match irq_handler with
  | NULL => None
  | irq_default_handler => Some m
  | installed h => invoke h IRQn param m
  end.

Definition ls1c_irq_dispatch (n : Z) m : option (machine H X) :=
  let intstatus := Z.land (io m (icregs n int_isr)) (io m (icregs n int_en)) in
  if 0 =? intstatus then Some m
  else
    f ← ffs (s32 intstatus);
    let irq := f - 1 in
    m ← ls1c_do_IRQ (Z.shiftl n 5 + irq) m;
    let a := icregs n int_clr in
    Some (set_io (fun io => fupd io a (Z.lor (io a) (u32 (Z.shiftl 1 irq)))) m).

Definition plat_irq_dispatch m : option (machine H X) :=
  let pending := Z.land (Z.land (c0_cause m) (c0_status m)) ST0_IM in
  if negb (Z.land pending (CAUSEF_IP 7) =? 0) then sys_tick_handler m
  else if negb (Z.land pending (CAUSEF_IP 2) =? 0) then ls1c_irq_dispatch 0 m
  else if negb (Z.land pending (CAUSEF_IP 3) =? 0) then ls1c_irq_dispatch 1 m
  else if negb (Z.land pending (CAUSEF_IP 4) =? 0) then ls1c_irq_dispatch 2 m
  else if negb (Z.land pending (CAUSEF_IP 5) =? 0) then ls1c_irq_dispatch 3 m
  else if negb (Z.land pending (CAUSEF_IP 6) =? 0) then ls1c_irq_dispatch 4 m
  else Some m.
End Irq.

(** ** What the registers say *)

Section Facts.
Context {H X : Type}.
Implicit Types m : machine H X.

(** The request [q] is bit [q mod 32] of group [q / 32]. *)
Definition irq_bit (r : intc_reg) m (q : Z) : bool := Z.testbit (io m (icregs (q / 32) r)) (q mod 32).
Definition enabled m (q : Z) : bool := irq_bit int_en m q.
Definition requested m (q : Z) : bool := irq_bit int_isr m q.

(** Line [k] of the processor: 2 to 6 for the five groups, 7 for the timer. *)
Definition line_pending m (k : Z) : bool := Z.testbit (c0_cause m) (8 + k) && Z.testbit (c0_status m) (8 + k).

(** The acknowledgement. *)
Definition ack (q : Z) m : machine H X :=
  set_io (fun io => fupd io (icregs (q / 32) int_clr) (set_bit (io (icregs (q / 32) int_clr)) (q mod 32))) m.

Lemma group_bit (q : Z) : Z.shiftr q 5 = q / 32 /\ Z.land q 0x1f = q mod 32.
Proof. split; [by rewrite Z.shiftr_div_pow2 by lia|exact (Z.land_ones q 5 ltac:(lia))]. Qed.

Lemma irq_enable_eq (q : Z) m :
  irq_enable q m = set_io (fun io => fupd io (icregs (q / 32) int_en) (set_bit (io (icregs (q / 32) int_en)) (q mod 32))) m.
Proof. unfold irq_enable. destruct (group_bit q) as [-> ->]. rewrite mask_pow by zlia. done. Qed.

Lemma irq_disable_eq (q : Z) m :
  irq_disable q m = set_io (fun io => fupd io (icregs (q / 32) int_en) (clr_bit (io (icregs (q / 32) int_en)) (q mod 32))) m.
Proof. unfold irq_disable. destruct (group_bit q) as [-> ->]. rewrite mask_pow by zlia. done. Qed.

Lemma request_eq (q q' : Z) : q / 32 = q' / 32 -> q mod 32 = q' mod 32 -> q = q'.
Proof. zlia. Qed.

(** Enabling or disabling a request does not touch another. *)
Lemma enabled_enable (q q' : Z) m : enabled (irq_enable q m) q' = bool_decide (q = q') || enabled m q'.
Proof.
  rewrite irq_enable_eq. unfold enabled, irq_bit, set_io. cbn [io]. destruct (decide (q' / 32 = q / 32)) as [E|E].
  - rewrite E, fupd_eq, set_bit_spec by zlia. f_equal. destruct (Z.eqb_spec (q mod 32) (q' mod 32)).
    + rewrite bool_decide_eq_true_2; [done|]. by apply request_eq.
    + rewrite bool_decide_eq_false_2; [done|]. by intros ->.
  - rewrite fupd_ne by (intros [? _]%icregs_inj; done). rewrite bool_decide_eq_false_2; [done|]. by intros ->.
Qed.

Lemma enabled_disable (q q' : Z) m : enabled (irq_disable q m) q' = bool_decide (q <> q') && enabled m q'.
Proof.
  rewrite irq_disable_eq. unfold enabled, irq_bit, set_io. cbn [io]. destruct (decide (q' / 32 = q / 32)) as [E|E].
  - rewrite E, fupd_eq, clr_bit_spec by zlia. f_equal. destruct (Z.eqb_spec (q mod 32) (q' mod 32)).
    + rewrite bool_decide_eq_false_2; [done|]. intros Hn. apply Hn. by apply request_eq.
    + rewrite bool_decide_eq_true_2; [done|]. by intros ->.
  - rewrite fupd_ne by (intros [? _]%icregs_inj; done). rewrite bool_decide_eq_true_2; [done|]. by intros ->.
Qed.

Lemma init_groups_reg (n : nat) (i g : Z) (r : intc_reg) (io : Z -> Z) :
  init_groups n i io (icregs g r) =
    if (i <=? g) && (g <? i + Z.of_nat n) then
      match r with int_en => 0 | int_pol => u32 (-1) | int_edge => 0 | int_clr => 0xffffffff | _ => io (icregs g r) end
    else io (icregs g r).
Proof.
  revert i io. induction n as [|n IH]; intros i io; cbn [init_groups].
  { destruct (Z.leb_spec i g), (Z.ltb_spec g (i + Z.of_nat 0)); try done; lia. }
  rewrite IH. destruct (decide (g = i)) as [->|Hne].
  - destruct (Z.leb_spec (i + 1) i), (Z.leb_spec i i), (Z.ltb_spec i (i + Z.of_nat (S n))); cbn [andb]; try lia.
    destruct r; repeat first [rewrite fupd_eq | rewrite fupd_ne by (intros [_ E]%icregs_inj; discriminate E)]; done.
  - rewrite !fupd_ne by (intros [E _]%icregs_inj; done).
    replace ((i + 1 <=? g) && (g <? i + 1 + Z.of_nat n)) with ((i <=? g) && (g <? i + Z.of_nat (S n))); [done|].
    destruct (Z.leb_spec (i + 1) g), (Z.leb_spec i g), (Z.ltb_spec g (i + 1 + Z.of_nat n)), (Z.ltb_spec g (i + Z.of_nat (S n)));
      cbn [andb]; try done; lia.
Qed.

Lemma init_handlers_at (n : nat) (i q : Z) (t : Z -> irq_desc_t H) :
  init_handlers n i t q = if (i <=? q) && (q <? i + Z.of_nat n) then IrqDesc irq_default_handler 0 else t q.
Proof.
  revert i t. induction n as [|n IH]; intros i t; cbn [init_handlers].
  { destruct (Z.leb_spec i q), (Z.ltb_spec q (i + Z.of_nat 0)); try done; lia. }
  rewrite IH. destruct (decide (q = i)) as [->|Hne].
  - rewrite fupd_eq. destruct (Z.leb_spec i i), (Z.ltb_spec i (i + Z.of_nat (S n))); cbn [andb]; try lia.
    by destruct (_ && _).
  - rewrite fupd_ne by done.
    destruct (Z.leb_spec (i + 1) q), (Z.leb_spec i q), (Z.ltb_spec q (i + 1 + Z.of_nat n)), (Z.ltb_spec q (i + Z.of_nat (S n)));
      cbn [andb]; try done; lia.
Qed.

(** After the initialisation no request is enabled, and all have the default handler. *)
Lemma irq_init_spec (q : Z) m : 0 <= q < LS1C_NR_IRQS ->
  enabled (irq_init m) q = false /\ irq_handlers (irq_init m) q = IrqDesc irq_default_handler 0 /\
  requested (irq_init m) q = requested m q.
Proof.
  intros Hq. unfold enabled, requested, irq_bit, irq_init, set_handlers, set_io, LS1C_NR_IRQS in *. cbn [io irq_handlers].
  rewrite !init_groups_reg, init_handlers_at.
  destruct (Z.leb_spec 0 (q / 32)), (Z.ltb_spec (q / 32) (0 + Z.of_nat 5)); try (exfalso; zlia).
  destruct (Z.leb_spec 0 q), (Z.ltb_spec q (0 + Z.of_nat (Z.to_nat (32 * 5)))); try (exfalso; lia).
  cbn [andb]. split_and!; [apply Z.bits_0|done|done].
Qed.

Lemma pending_test (k : Z) m : 2 <= k <= 7 ->
  negb (Z.land (Z.land (Z.land (c0_cause m) (c0_status m)) ST0_IM) (CAUSEF_IP k) =? 0) = line_pending m k.
Proof.
  intros Hk. unfold CAUSEF_IP. rewrite mask_pow, land_bit_test, !Z.land_spec by lia. unfold line_pending.
  replace (Z.testbit ST0_IM (8 + k)) with true; [apply andb_true_r|].
  assert (k = 2 \/ k = 3 \/ k = 4 \/ k = 5 \/ k = 6 \/ k = 7) as [->|[->|[->|[->|[->| ->]]]]] by lia; done.
Qed.
End Facts.

(** ** Dispatch *)

Section Dispatch.
Context {H X : Type}.
Context (invoke : H -> Z -> Z -> machine H X -> option (machine H X)).
Context (sys_tick_handler : machine H X -> option (machine H X)).
Implicit Types m : machine H X.

Definition word_regs m (g : Z) : Prop :=
  0 <= io m (icregs g int_isr) < 2 ^ 32 /\ 0 <= io m (icregs g int_en) < 2 ^ 32.

(** In a group, the lowest request that is raised and enabled is served. *)
Lemma group_dispatch (q : Z) m : word_regs m (q / 32) -> enabled m q = true -> requested m q = true ->
  (forall q', q' / 32 = q / 32 -> q' < q -> enabled m q' && requested m q' = false) ->
  ls1c_irq_dispatch invoke (q / 32) m = ls1c_do_IRQ invoke q m ≫= fun m => Some (ack q m).
Proof.
  intros [Hisr Hen] Heq Hrq Hlow. unfold enabled, requested, irq_bit in *. unfold ls1c_irq_dispatch, ack.
  set (isr := io m (icregs (q / 32) int_isr)) in *. set (en := io m (icregs (q / 32) int_en)) in *.
  assert (first_set (Z.land isr en) (q mod 32)) as Hf.
  { split; [zlia|]. split; [by rewrite Z.land_spec, Hrq, Heq|]. intros b Hb. rewrite Z.land_spec, andb_comm.
    specialize (Hlow (32 * (q / 32) + b)). replace ((32 * (q / 32) + b) / 32) with (q / 32) in Hlow by zlia.
    replace ((32 * (q / 32) + b) mod 32) with b in Hlow by zlia. apply Hlow; [done|zlia]. }
  assert (0 < Z.land isr en < 2 ^ 32) as Hr.
  { assert (0 <= Z.land isr en) by (apply Z.land_nonneg; lia).
    assert (Z.land isr en <> 0) by (intros E; destruct Hf as (_ & Hb & _); rewrite E, Z.bits_0 in Hb; done).
    split; [lia|]. apply Z.log2_lt_pow2; [lia|]. pose proof (Z.log2_land isr en ltac:(lia) ltac:(lia)).
    destruct (Z.eq_dec isr 0) as [E|]; [rewrite E in *; cbn in *; lia|].
    pose proof (proj1 (Z.log2_lt_pow2 isr 32 ltac:(lia)) ltac:(lia)). lia. }
  destruct (rt_ffs_group _ Hr) as [Hf' _]. pose proof (first_set_unique _ _ _ Hf' Hf) as Eb.
  destruct (Z.eqb_spec 0 (Z.land isr en)); [lia|]. rewrite ffs_rt_ffs by zlia. cbn [mbind option_bind].
  rewrite Eb, (Z.shiftl_mul_pow2 (q / 32) 5), mask_pow by zlia.
  replace (q / 32 * 2 ^ 5 + q mod 32) with q by zlia. done.
Qed.

(** The timer comes first, then the groups in order. *)
Lemma plat_dispatch_group (g : Z) m : 0 <= g <= 4 -> line_pending m 7 = false ->
  (forall g', 0 <= g' < g -> line_pending m (2 + g') = false) -> line_pending m (2 + g) = true ->
  plat_irq_dispatch invoke sys_tick_handler m = ls1c_irq_dispatch invoke g m.
Proof.
  intros Hg H7 Hlow Hp. unfold plat_irq_dispatch. rewrite !pending_test by lia. rewrite H7.
  assert (forall k, 2 <= k < 2 + g -> line_pending m k = false) as Hl
    by (intros k Hk; replace k with (2 + (k - 2)) by lia; apply Hlow; lia).
  assert (forall k, k = 2 + g -> line_pending m k = true) as Hk by (by intros k ->).
  assert (g = 0 \/ g = 1 \/ g = 2 \/ g = 3 \/ g = 4) as [->|[->|[->|[->| ->]]]] by lia.
  - by rewrite (Hk 2).
  - by rewrite (Hl 2), (Hk 3) by lia.
  - by rewrite (Hl 2), (Hl 3), (Hk 4) by lia.
  - by rewrite (Hl 2), (Hl 3), (Hl 4), (Hk 5) by lia.
  - by rewrite (Hl 2), (Hl 3), (Hl 4), (Hl 5), (Hk 6) by lia.
Qed.

Lemma plat_dispatch_tick m : line_pending m 7 = true -> plat_irq_dispatch invoke sys_tick_handler m = sys_tick_handler m.
Proof. intros H7. unfold plat_irq_dispatch. by rewrite pending_test, H7 by lia. Qed.

(** C21: from a machine in any state, after the initialisation, once a driver has
    installed a handler for a request and enabled it, no other request is enabled; and
    when the request is raised, its group's line is the first of those pending and the
    timer is not, the dispatcher calls the handler, with the request's number and the
    parameter it was installed with, and acknowledges the request, and only it,
    afterwards. *)
Theorem interrupt_reaches_handler (q p : Z) (h : H) m : 0 <= q < LS1C_NR_IRQS ->
  let m1 := irq_enable q (snd (irq_install q (installed h) p (irq_init m))) in
  0 <= io m (icregs (q / 32) int_isr) < 2 ^ 32 -> requested m q = true ->
  line_pending m 7 = false -> (forall g, 0 <= g < q / 32 -> line_pending m (2 + g) = false) ->
  line_pending m (2 + q / 32) = true ->
  fst (irq_install q (installed h) p (irq_init m)) = irq_default_handler /\
  (forall q', 0 <= q' < LS1C_NR_IRQS -> enabled m1 q' = bool_decide (q' = q)) /\
  plat_irq_dispatch invoke sys_tick_handler m1 = invoke h q p m1 ≫= fun m2 => Some (ack q m2).
Proof.
  intros Hq m1 Hisr Hreq H7 Hlow Hline. destruct (irq_init_spec q m Hq) as (_ & Hh & Hr).
  assert (irq_install q (installed h) p (irq_init m) =
    (irq_default_handler, set_handlers (fun t => fupd t q (IrqDesc (installed h) p)) (irq_init m))) as Ei.
  { unfold irq_install. destruct (Z.leb_spec 0 q), (Z.ltb_spec q LS1C_NR_IRQS); try lia. by rewrite Hh. }
  unfold m1. rewrite Ei. cbn [fst snd]. set (m0 := set_handlers _ _).
  assert (forall q', 0 <= q' < LS1C_NR_IRQS -> enabled (irq_enable q m0) q' = bool_decide (q' = q)) as Hen.
  { intros q' Hq'. rewrite enabled_enable. destruct (irq_init_spec q' m Hq') as (E & _).
    change (enabled m0 q') with (enabled (irq_init m) q'). rewrite E, orb_false_r. by apply bool_decide_ext. }
  split; [done|]. split; [done|]. unfold LS1C_NR_IRQS in *.
  assert (io (irq_enable q m0) (icregs (q / 32) int_isr) = io m (icregs (q / 32) int_isr)) as Eisr.
  { rewrite irq_enable_eq. unfold set_io. cbn [io]. rewrite fupd_ne by (intros [_ E]%icregs_inj; discriminate E).
    unfold m0, irq_init, set_handlers, set_io. cbn [io]. rewrite init_groups_reg. by destruct (_ && _). }
  rewrite (plat_dispatch_group (q / 32)) by (done || zlia). rewrite (group_dispatch q).
  - unfold ls1c_do_IRQ. replace (irq_handlers (irq_enable q m0) q) with (IrqDesc (installed h) p); [done|].
    unfold m0, irq_enable, set_io, set_handlers. cbn [irq_handlers]. by rewrite fupd_eq.
  - split; [by rewrite Eisr|]. rewrite irq_enable_eq. unfold set_io. cbn [io]. rewrite fupd_eq. apply set_bit_range; [|zlia].
    unfold m0, irq_init, set_handlers, set_io. cbn [io]. rewrite init_groups_reg.
    destruct (Z.leb_spec 0 (q / 32)), (Z.ltb_spec (q / 32) (0 + Z.of_nat 5)); cbn [andb]; try (exfalso; zlia); lia.
  - rewrite Hen by done. by apply bool_decide_eq_true_2.
  - unfold requested, irq_bit. by rewrite Eisr.
  - intros q' Hg Hlt. rewrite Hen by zlia. rewrite bool_decide_eq_false_2; [done|lia].
Qed.
End Dispatch.

(** The network interface's request (35) with a handler that counts its calls. *)
Definition irq_demo : machine Z Z :=
  Machine (fun a => if a =? icregs 1 int_isr then 8 else 0) (2 ^ 11) (2 ^ 11) (fun _ => IrqDesc NULL 0) 0.
Definition count_call (h q p : Z) (m : machine Z Z) : option (machine Z Z) :=
  Some (Machine (io m) (c0_cause m) (c0_status m) (irq_handlers m) (rest m + 1)).

Lemma interrupt_reaches_handler_witness :
  let m1 := irq_enable 35 (snd (irq_install 35 (installed 7) 9 (irq_init irq_demo))) in
  fst (irq_install 35 (installed 7) 9 (irq_init irq_demo)) = irq_default_handler /\
  (forall q', 0 <= q' < LS1C_NR_IRQS -> enabled m1 q' = bool_decide (q' = 35)) /\
  plat_irq_dispatch count_call Some m1 = count_call 7 35 9 m1 ≫= fun m2 => Some (ack 35 m2).
Proof.
  apply (interrupt_reaches_handler count_call Some 35 9 7 irq_demo).
  - by vm_compute.
  - by vm_compute.
  - by vm_compute.
  - by vm_compute.
  - intros g Hg. change (35 / 32) with 1 in Hg. assert (g = 0) as -> by lia. by vm_compute.
  - by vm_compute.
Defined.
