(* ===== verification/CStr.v ===== *)
(** * Strings (libc/str*.c, os/common_fun.c)

    A C string that is only read is the list of its characters before the
    terminator: signed 8-bit integers other than zero. *)

From S2P Require Import Prelude.

(** The size of the buffers for a line or a name (include/stdio.h). *)
Definition MAXLN : Z := 256.

(** The characters of a C string. *)
Definition cstring (s : list Z) : Prop := Forall (fun c => - 128 <= c < 128 /\ c <> 0) s.

(** ** Length and comparison *)

(** [n] is an [int]. *)
Fixpoint strlen_loop (p : list Z) (n : Z) : Z :=
  match p with
  | [] => u32 n
  | _ :: p => strlen_loop p (s32 (n + 1))
  end.
Definition strlen (p : list Z) : Z := strlen_loop p 0.

Fixpoint strcmp (s1 s2 : list Z) : Z :=
  match s1, s2 with
  | [], [] => 0
  | [], d :: _ => 0 - u8 d
  | c :: _, [] => u8 c - 0
  | c :: s1, d :: s2 => if c =? d then strcmp s1 s2 else u8 c - u8 d
  end.

Definition striequ (s1 s2 : list Z) : Z :=
  if (strlen s1 =? strlen s2) && (strcmp s1 s2 =? 0) then 1 else 0.

Lemma u8_inj (c d : Z) : - 128 <= c < 128 -> - 128 <= d < 128 -> u8 c = u8 d -> c = d.
Proof. intros. zlia. Qed.

Lemma u8_nonzero (c : Z) : - 128 <= c < 128 -> c <> 0 -> u8 c <> 0.
Proof. intros. zlia. Qed.

Lemma strlen_loop_spec (p : list Z) (n : Z) :
  0 <= n -> n + Z.of_nat (length p) < 2 ^ 31 -> strlen_loop p n = n + Z.of_nat (length p).
Proof.
  revert n. induction p as [|c p IH]; intros n Hn Hl; simpl in *.
  - rewrite u32_small by lia. lia.
  - rewrite s32_small by lia. rewrite IH by lia. lia.
Qed.

Lemma strlen_spec (p : list Z) :
  Z.of_nat (length p) < 2 ^ 31 -> strlen p = Z.of_nat (length p).
Proof. intros. unfold strlen. rewrite strlen_loop_spec by lia. lia. Qed.

Lemma strcmp_eq (s1 s2 : list Z) :
  cstring s1 -> cstring s2 -> strcmp s1 s2 = 0 <-> s1 = s2.
Proof.
  revert s2. induction s1 as [|c s1 IH]; intros [|d s2] H1 H2; simpl;
    rewrite ?Forall_cons in *.
  - done.
  - apply Forall_cons in H2 as [[Hd Hd'] _]. pose proof (u8_nonzero d Hd Hd'). split; [lia|done].
  - apply Forall_cons in H1 as [[Hc Hc'] _]. pose proof (u8_nonzero c Hc Hc'). split; [lia|done].
  - apply Forall_cons in H1 as [[Hc Hc'] H1], H2 as [[Hd Hd'] H2].
    destruct (Z.eqb_spec c d) as [->|Hne].
    + rewrite IH by done. split; congruence.
    + split; [|congruence]. intros E. destruct Hne. apply u8_inj; [done..|lia].
Qed.

Lemma striequ_spec (s1 s2 : list Z) : cstring s1 -> cstring s2 ->
  striequ s1 s2 = if decide (s1 = s2) then 1 else 0.
Proof.
  intros H1 H2. unfold striequ. case_decide as E.
  - subst. rewrite Z.eqb_refl. by rewrite (proj2 (strcmp_eq s2 s2 H1 H2) eq_refl).
  - rewrite (proj2 (Z.eqb_neq (strcmp s1 s2) 0)); [by rewrite andb_false_r|].
    by rewrite strcmp_eq.
Qed.
