(* ===== verification/Glob.v ===== *)
(** * Names and patterns (os/common_fun.c)
    The routines by which the file layer recognises names: a prefix, an occurrence, and a
    pattern with the wildcards [*] and [?]. *)

From S2P Require Import Prelude CStr.

Definition STAR : Z := 42.
Definition QUESTION : Z := 63.

(** [s2] begins [s1]. *)
Fixpoint strbequ (s1 s2 : list Z) : Z :=
  match s1, s2 with
  | c :: s1, d :: s2 => if c =? d then strbequ s1 s2 else 0
  | _, [] => 1
  | [], _ :: _ => 0
  end.

(** The inner loop of [strposn]: [s] against the characters at [t]; whether it ends with
    [s] used up. *)
Fixpoint strposn_at (t s : list Z) : bool :=
  match t, s with
  | c :: t, d :: s => if c =? d then strposn_at t s else false
  | _, [] => true
  | [], _ :: _ => false
  end.

(** The rest of [p] from the first occurrence of [q]. *)
Fixpoint strposn_loop (p q : list Z) : option (list Z) :=
  match p with
  | [] => None
  | c :: p' =>
      if match q with d :: _ => c =? d | [] => false end && strposn_at p q then Some p else strposn_loop p' q
  end.

Definition strposn (p q : list Z) : option (list Z) :=
  match q with
  | [] => Some []
  | _ => strposn_loop p q
  end.

(** [0x80 | '^'] and [0x80 | '$'], as characters. *)
Definition BANCHOR : Z := -34.
Definition EANCHOR : Z := -92.

(** [for (t = pat; *t && *t != '*' && *t != '?'; t++)]: the characters up to [t], and
    those from there on. *)
Fixpoint literal (pat : list Z) : list Z * list Z :=
  match pat with
  | c :: pat' => if negb (c =? STAR) && negb (c =? QUESTION) then let '(a, b) := literal pat' in (c :: a, b) else ([], pat)
  | [] => ([], [])
  end.

(** The loop, which uses up a character of the pattern in each round. *)
Fixpoint strpat_loop (fuel : nat) (p pat : list Z) : option Z :=
  match fuel with
  | O => None
  | S fuel =>
      match p, pat with
      | c :: p', d :: pat' =>
          if d =? STAR then
            let '(tmp, pat) := literal pat' in
            match strposn p tmp with
            | None => Some 0
            | Some t => strpat_loop fuel (drop (length tmp) t) pat
            end
          else if (d =? QUESTION) || (d =? c) then strpat_loop fuel p' pat'
          else Some 0
      | _, _ =>
          Some (match p, pat with
                | [], [] => 1
                | [], [d] => if d =? STAR then 1 else 0
                | _, _ => 0
                end)
      end
  end.

(** Strings that do not fit into the buffers on the stack overrun them. *)
Definition strpat (s1 s2 : list Z) : option Z :=
  if ((Z.to_nat MAXLN <? length s1 + 3) || (Z.to_nat MAXLN <? length s2 + 3))%nat then None
  else strpat_loop (S (S (S (length s2)))) (BANCHOR :: s1 ++ [EANCHOR]) (BANCHOR :: s2 ++ [EANCHOR]).

(** ** What a pattern matches *)

Inductive glob : list Z -> list Z -> Prop :=
  | glob_nil : glob [] []
  | glob_star p s1 s2 : glob p s2 -> glob (STAR :: p) (s1 ++ s2)
  | glob_any p c s : glob p s -> glob (QUESTION :: p) (c :: s)
  | glob_lit p c s : c <> STAR -> c <> QUESTION -> glob p s -> glob (c :: p) (c :: s).

(** ASCII characters: the anchors are none. *)
Definition ascii (s : list Z) : Prop := Forall (fun c => 0 < c < 128) s.

Definition is_literal (c : Z) : Prop := c <> STAR /\ c <> QUESTION.

Lemma literal_spec (pat : list Z) :
  let '(a, b) := literal pat in
  pat = a ++ b /\ Forall is_literal a /\ match b with [] => True | c :: _ => c = STAR \/ c = QUESTION end.
Proof.
  induction pat as [|c pat IH]; [by split_and!|]. cbn [literal]. destruct (Z.eqb_spec c STAR) as [->|H1]; cbn [negb andb].
  { split_and!; [done|constructor|by left]. }
  destruct (Z.eqb_spec c QUESTION) as [->|H2]; cbn [negb].
  { split_and!; [done|constructor|by right]. }
  destruct (literal pat) as [a b]. destruct IH as (-> & Ha & Hb). split_and!; [done|by constructor|done].
Qed.

Lemma strposn_at_spec (t s : list Z) : strposn_at t s = true <-> exists r, t = s ++ r.
Proof.
  revert s. induction t as [|c t IH]; intros [|d s]; cbn [strposn_at].
  - split; [by exists []|done].
  - split; [done|]. by intros (r & E).
  - split; [by eexists|done].
  - destruct (Z.eqb_spec c d) as [->|Hne].
    + rewrite IH. split; intros (r & E); exists r; [by rewrite E|by injection E].
    + split; [done|]. intros (r & E). by injection E.
Qed.

(** The first occurrence. *)
Lemma strposn_spec (p q : list Z) : q <> [] ->
  match strposn p q with
  | Some t => exists a r, p = a ++ t /\ t = q ++ r /\ forall a' r', p = a' ++ q ++ r' -> exists x, a' = a ++ x
  | None => forall a r, p <> a ++ q ++ r
  end.
Proof.
  intros Hq. assert (strposn p q = strposn_loop p q) as -> by by destruct q.
  induction p as [|c p IH]; cbn [strposn_loop].
  { intros a r E. by destruct a, q. }
  destruct (match q with d :: _ => c =? d | [] => false end && strposn_at (c :: p) q) eqn:E.
  - apply andb_true_iff in E as [_ (r & E)%strposn_at_spec]. exists [], r. split; [done|]. split; [done|]. by eexists.
  - assert (forall r, c :: p <> q ++ r) as Hno.
    { intros r Er. assert (strposn_at (c :: p) q = true) as Et by (apply strposn_at_spec; by exists r). rewrite Et in E.
      destruct q as [|d q]; [done|]. injection Er as -> _. by rewrite Z.eqb_refl in E. }
    destruct (strposn_loop p q) as [t|].
    + destruct IH as (a & r & -> & -> & Hmin). exists (c :: a), r. split; [done|]. split; [done|].
      intros [|c' a'] r' E'; [by destruct (Hno r')|]. injection E' as <- E'. destruct (Hmin _ _ E') as [x ->]. by exists x.
    + intros [|c' a] r E'; [by destruct (Hno r)|]. injection E' as <- E'. by apply (IH a r).
Qed.

(** ** The anchored strings *)

Lemma literal_anchor (pat : list Z) :
  literal (pat ++ [EANCHOR]) = let '(a, b) := literal pat in match b with [] => (a ++ [EANCHOR], []) | _ => (a, b ++ [EANCHOR]) end.
Proof.
  induction pat as [|c pat IH]; [done|]. cbn [literal app]. destruct (negb (c =? STAR) && negb (c =? QUESTION)); [|done].
  rewrite IH. destruct (literal pat) as [a [|d b]]; done.
Qed.

Lemma anchor_not_in (s : list Z) : ascii s -> EANCHOR ∉ s.
Proof. intros Hs Hin. pose proof (proj1 (Forall_forall _ _) Hs _ Hin) as H. unfold EANCHOR in H. cbn in H. lia. Qed.

(** An occurrence of something without the anchor ends before it. *)
Lemma before_anchor (s a q r : list Z) : q <> [] -> EANCHOR ∉ q -> s ++ [EANCHOR] = a ++ q ++ r ->
  exists r', r = r' ++ [EANCHOR] /\ s = a ++ q ++ r'.
Proof.
  intros Hne Hq E. destruct r as [|x r' _] using rev_ind.
  - destruct q as [|y q' _] using rev_ind; [done|]. rewrite app_nil_r, app_assoc in E. apply app_inj_tail in E as [_ E].
    destruct Hq. rewrite E. apply elem_of_app. right. apply list_elem_of_here.
  - rewrite !app_assoc in E. apply app_inj_tail in E as [-> <-]. exists r'. by rewrite app_assoc.
Qed.

Lemma anchor_last (s u r : list Z) : ascii s -> s ++ [EANCHOR] = u ++ EANCHOR :: r -> r = [] /\ s = u.
Proof.
  intros Hs E. destruct r as [|x r _] using rev_ind.
  - apply app_inj_tail in E as [-> _]. done.
  - rewrite (app_comm_cons r [x]), app_assoc in E. apply app_inj_tail in E as [-> _]. destruct (anchor_not_in _ Hs).
    apply elem_of_app. right. apply list_elem_of_here.
Qed.

Lemma glob_literal (a p s : list Z) : Forall is_literal a -> glob p s -> glob (a ++ p) (a ++ s).
Proof. intros Ha Hp. induction Ha as [|c a [H1 H2] _ IH]; [done|]. cbn [app]. by constructor. Qed.

Lemma glob_literal_inv (a p s : list Z) : Forall is_literal a -> glob (a ++ p) s -> exists s', s = a ++ s' /\ glob p s'.
Proof.
  intros Ha. revert s. induction Ha as [|c a [H1 H2] _ IH]; intros s H; [by exists s|]. cbn [app] in H.
  inversion H as [|p0 s1 s2 H0 E|p0 c0 s0 H0 E|p0 c0 s0 Hc1 Hc2 H0]; subst; try done.
  destruct (IH _ H0) as (s' & -> & Hs'). by exists s'.
Qed.

Lemma glob_star_inv (p s : list Z) : glob (STAR :: p) s -> exists s1 s2, s = s1 ++ s2 /\ glob p s2.
Proof. intros H. inversion H as [|p0 s1 s2 H0| |]; subst; [by exists s1, s2|done]. Qed.

Lemma loop_end (fuel : nat) (pat : list Z) : pat <> [] -> strpat_loop (S fuel) [] (pat ++ [EANCHOR]) = Some 0.
Proof. destruct pat as [|c [|d pat]]; [done|done|done]. Qed.

Lemma ascii_cons (c : Z) (s : list Z) : ascii (c :: s) <-> 0 < c < 128 /\ ascii s.
Proof. unfold ascii. by rewrite Forall_cons. Qed.

Lemma ascii_app (a b : list Z) : ascii (a ++ b) <-> ascii a /\ ascii b.
Proof. unfold ascii. by rewrite Forall_app. Qed.

(** What is matched matches. *)
Lemma loop_sound (fuel : nat) : forall s pat, ascii s -> ascii pat ->
  strpat_loop fuel (s ++ [EANCHOR]) (pat ++ [EANCHOR]) = Some 1 -> glob pat s.
Proof.
  induction fuel as [|fuel IH]; intros s pat Hs Hp H; [done|].
  destruct pat as [|d pat].
  { destruct s as [|c s]; [constructor|]. apply ascii_cons in Hs as [Hc _]. cbn [app strpat_loop] in H.
    change (EANCHOR =? STAR) with false in H. change (EANCHOR =? QUESTION) with false in H. cbn [orb] in H.
    destruct (Z.eqb_spec EANCHOR c); [unfold EANCHOR in *; lia|done]. }
  apply ascii_cons in Hp as [Hd Hp].
  assert (forall c p', (if (d =? QUESTION) || (d =? c) then strpat_loop fuel p' (pat ++ [EANCHOR]) else Some 0) = Some 1 ->
    d <> STAR -> s ++ [EANCHOR] = c :: p' -> glob (d :: pat) s) as Hchar.
  { intros c p' H1 Hstar E. destruct s as [|c' s].
    - injection E as <- <-. destruct (Z.eqb_spec d EANCHOR) as [E|_]; [unfold EANCHOR in E; lia|]. rewrite orb_false_r in H1.
      destruct (d =? QUESTION); [|done]. destruct pat as [|e pat]; [by destruct fuel|]. destruct fuel as [|fuel]; [done|].
      rewrite loop_end in H1; done.
    - injection E as <- <-. apply ascii_cons in Hs as [_ Hs]. destruct (Z.eqb_spec d QUESTION) as [->|Hq].
      + constructor. by apply IH.
      + cbn [orb] in H1. destruct (Z.eqb_spec d c') as [->|]; [|done]. constructor; [done|done|]. by apply IH. }
  destruct (s ++ [EANCHOR]) as [|c p'] eqn:E; [by destruct s|]. cbn [strpat_loop app] in H.
  destruct (Z.eqb_spec d STAR) as [->|Hstar]; [|by eapply Hchar].
  clear Hchar. rewrite <- E in H. rewrite literal_anchor in H. pose proof (literal_spec pat) as Hl.
  destruct (literal pat) as [a b]. destruct Hl as (-> & Ha & Hb). apply ascii_app in Hp as [Hpa Hpb]. destruct b as [|e b].
  - rewrite app_nil_r. assert (a ++ [EANCHOR] <> []) as Hne by by destruct a.
    pose proof (strposn_spec (s ++ [EANCHOR]) (a ++ [EANCHOR]) Hne) as Hsp.
    destruct (strposn _ _) as [t|]; [|done]. destruct Hsp as (a0 & r & E1 & -> & _).
    rewrite E1 in E. rewrite <- app_assoc, app_assoc in E1. apply anchor_last in E1 as [-> ->]; [|done].
    constructor. rewrite <- (app_nil_r a). apply glob_literal; [done|constructor].
  - destruct a as [|x a].
    + cbn [strposn length] in H. rewrite drop_nil in H. destruct fuel as [|fuel]; [done|]. by rewrite (loop_end fuel (e :: b)) in H.
    + pose proof (strposn_spec (s ++ [EANCHOR]) (x :: a) ltac:(done)) as Hsp.
      destruct (strposn _ _) as [t|]; [|done]. destruct Hsp as (a0 & r & E1 & -> & _). rewrite drop_app_length in H.
      apply before_anchor in E1 as (r' & -> & ->); [|done|by apply anchor_not_in].
      rewrite !ascii_app in Hs. apply (IH r' (e :: b)) in H; [|tauto|done].
      constructor. by apply glob_literal.
Qed.

(** ** Patterns that are matched *)

(** No [?] and no two [*] in a row. *)
Fixpoint plain (pat : list Z) : bool :=
  match pat with
  | [] => true
  | c :: pat' => negb (c =? QUESTION) && negb ((c =? STAR) && match pat' with d :: _ => d =? STAR | [] => false end) && plain pat'
  end.

Lemma plain_app (a b : list Z) : plain (a ++ b) = true -> plain b = true.
Proof. induction a as [|c a IH]; [done|]. cbn [app plain]. intros (_ & H)%andb_true_iff. by apply IH. Qed.

(** The rest after an earlier occurrence is longer. *)
Lemma later_suffix (q r x s : list Z) : q ++ r = x ++ q ++ s -> exists y, r = y ++ s.
Proof.
  intros E. exists (take (length r - length s) r). rewrite <- (take_drop (length r - length s) r) at 1. f_equal.
  pose proof (f_equal (@length Z) E) as El. rewrite !length_app in El.
  assert (drop (length q + (length r - length s)) (q ++ r) = s) as Hd.
  { rewrite E, app_assoc. rewrite drop_app_length'; [done|]. rewrite length_app. lia. }
  rewrite <- Hd at 2. rewrite drop_app_add'; done.
Qed.

Lemma loop_complete (fuel : nat) : forall s pat, ascii s -> ascii pat -> plain pat = true -> glob pat s ->
  (length pat + 2 <= fuel)%nat -> strpat_loop fuel (s ++ [EANCHOR]) (pat ++ [EANCHOR]) = Some 1.
Proof.
  induction fuel as [|fuel IH]; intros s pat Hs Hp Hpl Hg Hf; [lia|].
  destruct pat as [|d pat].
  { inversion Hg; subst. destruct fuel as [|fuel]; [cbn in Hf; lia|]. reflexivity. }
  pose proof Hpl as Hpl0. cbn [plain] in Hpl. rewrite !andb_true_iff, !negb_true_iff in Hpl. destruct Hpl as ((Hq & Hss) & Hpl).
  apply ascii_cons in Hp as [Hd Hp]. cbn [length] in Hf.
  destruct (Z.eqb_spec d STAR) as [->|Hstar].
  2:{ inversion Hg as [| |p0 c0 s0 H0 E|p0 c0 s0 Hc1 Hc2 H0]; subst; [done|done|]. apply ascii_cons in Hs as [_ Hs].
      cbn [app strpat_loop]. apply Z.eqb_neq in Hstar as ->. rewrite Z.eqb_refl, orb_true_r. apply IH; [done..|lia]. }
  apply glob_star_inv in Hg as (s1 & s2 & -> & Hg). cbn [app].
  destruct ((s1 ++ s2) ++ [EANCHOR]) as [|c p'] eqn:E; [by destruct (s1 ++ s2)|]. cbn [strpat_loop].
  change (STAR =? STAR) with true. cbn [andb] in Hss. rewrite <- E. clear E c p'. rewrite literal_anchor.
  pose proof (literal_spec pat) as Hl. destruct (literal pat) as [a b]. destruct Hl as (-> & Ha & Hb).
  apply ascii_app in Hp as [Hpa Hpb]. apply glob_literal_inv in Hg as (s' & -> & Hg); [|done].
  apply ascii_app in Hs as [Hs1 [Hsa Hs']%ascii_app]. destruct b as [|e b].
  - inversion Hg; subst. pose proof (strposn_spec ((s1 ++ a ++ []) ++ [EANCHOR]) (a ++ [EANCHOR])) as Hsp.
    rewrite app_nil_r in *. destruct (strposn _ _) as [t|].
    + destruct Hsp as (a0 & r & E1 & -> & _); [by destruct a|].
      rewrite <- (app_assoc a [EANCHOR] r), (app_assoc a0 a) in E1. apply anchor_last in E1 as [-> _]; [|by apply ascii_app].
      rewrite drop_app_length. destruct fuel as [|fuel]; [lia|reflexivity].
    + exfalso. assert (a ++ [EANCHOR] <> []) as Hne by (by destruct a). apply (Hsp Hne s1 []). by rewrite app_nil_r, app_assoc.
  - assert (e = STAR) as -> by (destruct Hb as [ | ->]; [done|]; apply plain_app in Hpl; cbn in Hpl; done).
    destruct a as [|x a]; [by cbn in Hss|].
    pose proof (strposn_spec ((s1 ++ (x :: a) ++ s') ++ [EANCHOR]) (x :: a) ltac:(done)) as Hsp.
    destruct (strposn _ _) as [t|].
    + destruct Hsp as (a0 & r & E1 & -> & Hmin). rewrite drop_app_length.
      destruct (Hmin s1 (s' ++ [EANCHOR])) as [y ->]; [by rewrite <- !app_assoc|].
      apply before_anchor in E1 as (r' & -> & E1); [|done|by apply anchor_not_in].
      assert ((x :: a) ++ r' = y ++ (x :: a) ++ s') as E2.
      { apply (app_inv_head a0). rewrite <- E1. by rewrite <- !app_assoc. }
      assert (ascii ((a0 ++ y) ++ (x :: a) ++ s')) as Hr.
      { rewrite <- app_assoc, !ascii_app in *. tauto. }
      rewrite E1, !ascii_app in Hr.
      apply later_suffix in E2 as [z ->]. apply glob_star_inv in Hg as (u & v & -> & Hg). apply IH; [tauto|done| | |].
      * by apply plain_app in Hpl.
      * rewrite app_assoc. by constructor.
      * rewrite length_app in Hf. cbn [length] in *. lia.
    + exfalso. apply (Hsp s1 (s' ++ [EANCHOR])). by rewrite <- !app_assoc.
Qed.

(** ** The whole routine *)

(** Every round uses up a character of the pattern. *)
Lemma loop_total (fuel : nat) : forall p pat, (length pat < fuel)%nat -> exists r, strpat_loop fuel p pat = Some r /\ (r = 0 \/ r = 1).
Proof.
  induction fuel as [|fuel IH]; intros p pat Hf; [lia|]. destruct pat as [|d pat], p as [|c p]; cbn [strpat_loop length] in *; eauto.
  { destruct pat; [destruct (d =? STAR)|]; eauto. }
  destruct (d =? STAR).
  - pose proof (literal_spec pat) as Hl. destruct (literal pat) as [a b]. destruct Hl as (-> & _ & _).
    rewrite length_app in Hf. destruct (strposn _ _) as [t|]; [apply IH; lia|eauto].
  - destruct ((d =? QUESTION) || (d =? c)); [apply IH; lia|eauto].
Qed.

(** What fits between the anchors. *)
Lemma strpat_fits (s pat : list Z) : (length s <= 253)%nat -> (length pat <= 253)%nat ->
  strpat s pat = strpat_loop (S (S (length pat))) (s ++ [EANCHOR]) (pat ++ [EANCHOR]).
Proof.
  intros Hs Hp. unfold strpat. rewrite (proj2 (Nat.ltb_ge (Z.to_nat MAXLN) (length s + 3))), (proj2 (Nat.ltb_ge (Z.to_nat MAXLN) (length pat + 3))); [reflexivity|unfold MAXLN; lia..].
Qed.

(** C40: [strpat], the wildcard match of the file layer. For ASCII strings of at most 253
    characters (what its buffers on the stack hold with the two anchors and the
    terminator), it ends and answers 0 or 1; when it answers 1 the string is matched by the
    pattern, [*] standing for any characters and [?] for one; and for a pattern without
    [?] and without two [*] in a row it answers 1 for every string the pattern matches:
    taking the first occurrence of each literal part loses nothing, and the closing anchor
    makes the last part match at the end. *)
Theorem strpat_glob (s pat : list Z) : ascii s -> ascii pat -> (length s <= 253)%nat -> (length pat <= 253)%nat ->
  exists r, strpat s pat = Some r /\ (r = 0 \/ r = 1) /\ (r = 1 -> glob pat s) /\ (plain pat = true -> (r = 1 <-> glob pat s)).
Proof.
  intros Hs Hp Hls Hlp. rewrite strpat_fits by done.
  destruct (loop_total (S (S (length pat))) (s ++ [EANCHOR]) (pat ++ [EANCHOR])) as (r & Hr & H01); [rewrite length_app; cbn; lia|].
  exists r. split; [done|]. split; [done|].
  assert (r = 1 -> glob pat s) as Hsound by (intros ->; by eapply loop_sound).
  split; [done|]. intros Hpl. split; [done|]. intros Hg. rewrite loop_complete in Hr; [congruence|done..|lia].
Qed.

(** ["*.e*f"] and ["/ndd.elf"]. *)
Lemma strpat_glob_witness :
  strpat [47; 110; 100; 100; 46; 101; 108; 102] [42; 46; 101; 42; 102] = Some 1 /\ glob [42; 46; 101; 42; 102] [47; 110; 100; 100; 46; 101; 108; 102].
Proof.
  destruct (strpat_glob [47; 110; 100; 100; 46; 101; 108; 102] [42; 46; 101; 42; 102]) as (r & E & _ & _ & H).
  - repeat constructor.
  - repeat constructor.
  - cbn. lia.
  - cbn. lia.
  - assert (r = 1) as -> by (vm_compute in E; congruence). split; [exact E|]. apply H; reflexivity.
Defined.

(** Two stars in a row match nothing, nor does a star before [?]: the empty part between
    them is "found" at the end of the string. *)
Theorem star_star_fails (s : list Z) : (length s <= 253)%nat -> strpat s [STAR; STAR] = Some 0.
Proof.
  intros Hs. rewrite strpat_fits by (cbn; lia). destruct (s ++ [EANCHOR]) as [|c p] eqn:E; [by destruct s|].
  change (strpat_loop 4 (c :: p) ([STAR; STAR] ++ [EANCHOR])) with (strpat_loop 3 (drop (length (@nil Z)) []) [STAR; EANCHOR]).
  reflexivity.
Qed.

(** A wildcard after a star is not tried at the later occurrences. *)
Example no_backtracking : strpat [97; 97; 120; 98] [STAR; 97; QUESTION; 98] = Some 0.
Proof. reflexivity. Qed.

Lemma glob_star_star (s : list Z) : glob [STAR; STAR] s.
Proof. change s with ([] ++ s). constructor. rewrite <- (app_nil_r s). constructor. constructor. Qed.
