(* ===== verification/NumConv.v ===== *)
(** * Numbers and text (libc/atob.c, os/common_fun.c)
    The conversions in both directions: [btoa] writes a number in a base; [atob],
    [gethex], [str_to_hex], [atoi] and [strtoul] read one.  Reading has no error for
    numbers that are too big except in [strtoul]. *)

From S2P Require Import Prelude CStr CType.

(** ** [libc/atob.c] *)

(** The string behind the prefix, and the base. *)
Definition _getbase (p : list Z) : list Z * Z :=
  match p with
  | 48 :: p' =>
      match p' with
      | 120 :: q => (q, 16)                       (* 'x' *)
      | 116 :: q | 110 :: q => (q, 10)            (* 't', 'n' *)
      | 111 :: q => (q, 8)                        (* 'o' *)
      | _ => (p, 10)
      end
  | _ => (p, 10)
  end.

(** The value of a digit of base 16 or less. *)
Definition hex_digit (c : Z) : option Z :=
  if (48 <=? c) && (c <=? 57) then Some (c - 48)
  else if (97 <=? c) && (c <=? 102) then Some (c - 97 + 10)
  else if (65 <=? c) && (c <=? 70) then Some (c - 65 + 10)
  else None.

(** The loop of [_atob]. *)
Fixpoint atob_loop (p : list Z) (base value : Z) : option Z :=
  match p with
  | [] => Some value
  | c :: p =>
      match hex_digit c with
      | None => None
      | Some digit => if digit >=? base then None else atob_loop p base (value *u base +u digit)
      end
  end.

(** The position of a character, and what is behind it. *)
Fixpoint split_at (c : Z) (p : list Z) : option (list Z * list Z) :=
  match p with
  | [] => None
  | d :: p => if d =? c then Some ([], p)
              else match split_at c p with
                   | Some (a, b) => Some (d :: a, b)
                   | None => None
                   end
  end.

(** [_atob] with its recursive calls as [rec]. *)
Definition _atob_body (rec : list Z -> Z -> option Z) (p : list Z) (base : Z) : option Z :=
  let '(p, base) :=
    match p with
    | 48 :: 120 :: q | 48 :: 88 :: q => (q, 16)
    | _ => (p, base)
    end in
  match (if base =? 16 then split_at 46 p else None) with
  | Some (tmp, q) =>
      if Z.of_nat (length tmp) >? 20 - 1 then None
      else match rec tmp 16 with
           | None => None
           | Some v1 =>
               match split_at 46 q with
               | Some _ => None
               | None => match rec q 16 with
                         | None => None
                         | Some v2 => Some (u32 (u32 (Z.shiftl v1 16) + v2))
                         end
               end
           end
  | None => atob_loop p base 0
  end.

(** The strings of the recursive calls have no dot, so that these call no further. *)
Definition _atob : list Z -> Z -> option Z := _atob_body (_atob_body (fun _ _ => None)).

Definition atob (p : list Z) (base : Z) : option Z :=
  let '(p, base) := if base =? 0 then _getbase p else (p, base) in _atob p base.

(** [rem] as a character. *)
Definition btoa_digit (rem : Z) : Z := if rem <=? 9 then rem + 48 else rem - 10 + 97.

(** [buf]: the digits, the last first. [fuel] is the number of bits. *)
Fixpoint btoa_loop (fuel : nat) (value base : Z) : list Z :=
  match fuel with
  | O => []
  | S fuel => if value =? 0 then [] else btoa_digit (value mod base) :: btoa_loop fuel (value / base) base
  end.

(** [base] is [-10] for a signed number, or 2 to 36. *)
Definition btoa (value base : Z) : list Z :=
  let value := u32 value in
  if value =? 0 then [48]
  else
    let '(base, value, neg) :=
      if base =? -10
      then if negb (Z.land value (2 ^ 31) =? 0) then (10, u32 (not32 value + 1), true) else (10, value, false)
      else (base, value, false) in
    let buf := btoa_loop 32 value base in
    rev (if neg then buf ++ [45] else buf).

(** [n] hexadecimal digits. *)
Fixpoint gethex (v : Z) (p : list Z) (n : nat) : option Z :=
  match n with
  | O => Some (s32 v)
  | S n => match p with
           | [] => None
           | c :: p => match hex_digit c with
                       | None => None
                       | Some digit => gethex (Z.lor (u32 (Z.shiftl v 4)) digit) p n
                       end
           end
  end.

(** ** [os/common_fun.c] *)

Fixpoint panduan_hex (p : list Z) : Z :=
  match p with
  | [] => 1
  | c :: p => match hex_digit c with Some _ => panduan_hex p | None => 0 end
  end.

(** A wrong character gives -1. *)
Fixpoint str_to_hex_loop (p : list Z) (tempx : Z) : Z :=
  match p with
  | [] => tempx
  | c :: p => match hex_digit c with
              | Some d => str_to_hex_loop p (u32 (Z.shiftl tempx 4) +u d)
              | None => u32 (-1)
              end
  end.
Definition str_to_hex (p : list Z) : Z := str_to_hex_loop p 0.

Fixpoint skip_while (f : Z -> bool) (s : list Z) : list Z :=
  match s with
  | [] => []
  | c :: s' => if f c then skip_while f s' else s
  end.

Fixpoint atoi_loop (s : list Z) (v : Z) : Z :=
  match s with
  | [] => v
  | c :: s => if u32 (c - 48) <? 10 then atoi_loop s (s32 (s32 (v * 10) + c - 48)) else v
  end.

Definition atoi (s : list Z) : Z :=
  let s := skip_while (fun c => (c =? 32) || (u32 (c - 9) <? 5)) s in
  let '(s, sign) := match s with
                    | 45 :: s => (s, -1)
                    | 43 :: s => (s, 1)
                    | _ => (s, 1)
                    end in
  let v := atoi_loop s 0 in
  if sign =? -1 then s32 (- v) else v.

Definition ULONG_MAX : Z := 4294967295.

(** Digit or letter: the value that the loop of [strtoul] gives it. *)
Definition alnum_digit (c : Z) : option Z :=
  if isdigit c then Some (c - 48)
  else if isalpha c then Some (c - (if isupper c then 65 else 97) + 10)
  else None.

(** The result, the rest of the string and whether there was an overflow. *)
Fixpoint strtoul_loop (base limit : Z) (s : list Z) (result : Z) (overflow : bool) : Z * list Z * bool :=
  match s with
  | [] => (result, [], overflow)
  | c :: s' =>
      match alnum_digit c with
      | None => (result, s, overflow)
      | Some digit =>
          if (digit <? 0) || (digit >=? base) then (result, s, overflow)
          else
            let overflow := overflow || (result >? limit) in
            if overflow then strtoul_loop base limit s' result true
            else
              let result := base *u result in
              if digit >? ULONG_MAX - result then strtoul_loop base limit s' result true
              else strtoul_loop base limit s' (result +u digit) false
      end
  end.

(** The base and the string behind the prefix. *)
Definition strtoul_prefix (base : Z) (nptr : list Z) : Z * list Z :=
  if base =? 0 then
    match nptr with
    | 48 :: 120 :: p | 48 :: 88 :: p => (16, p)
    | 48 :: p => (8, p)
    | _ => (10, nptr)
    end
  else if base =? 16 then
    match nptr with
    | 48 :: 120 :: p => (16, p)     (* [c = *nptr == 'x'] is 0 or 1, never 'X' *)
    | 48 :: p => (16, p)
    | _ => (16, nptr)
    end
  else (base, nptr).

(** The value, [*endptr] and whether [errno] is set to [ERANGE]. *)
Definition strtoul (nptr : list Z) (base : Z) : Z * list Z * bool :=
  let nptr := skip_while isspace nptr in
  let '(negative, nptr) := match nptr with
                           | 43 :: p => (false, p)
                           | 45 :: p => (true, p)
                           | _ => (false, nptr)
                           end in
  let '(base, nptr) := strtoul_prefix base nptr in
  let limit := ULONG_MAX / base in
  let '(result, endptr, overflow) := strtoul_loop base limit nptr 0 false in
  let result := if negative && negb overflow then u32 (0 - result) else result in
  let result := if overflow then ULONG_MAX else result in
  (result, endptr, overflow).

(** ** Digits *)

(** The number that a list of digits denotes, the first digit the most significant. *)
Definition numeral (base acc : Z) (ds : list Z) : Z := foldl (fun v d => v * base + d) acc ds.

Lemma numeral_ge (base : Z) (ds : list Z) : forall acc, 1 <= base -> Forall (fun d => 0 <= d) ds -> 0 <= acc ->
  acc <= numeral base acc ds.
Proof.
  induction ds as [|d ds IH]; intros acc Hb Hd Ha; [simpl; lia|].
  apply Forall_cons in Hd as [Hd Hds]. change (numeral base acc (d :: ds)) with (numeral base (acc * base + d) ds).
  specialize (IH (acc * base + d) Hb Hds). nia.
Qed.

Lemma numeral_mod (base m : Z) (ds : list Z) : forall acc acc', 0 < m -> acc mod m = acc' mod m ->
  numeral base acc ds mod m = numeral base acc' ds mod m.
Proof.
  induction ds as [|d ds IH]; intros acc acc' Hm E; [done|]. apply (IH (acc * base + d) (acc' * base + d) Hm).
  rewrite <- (Zplus_mod_idemp_l (acc * base)), <- (Zmult_mod_idemp_l acc), E.
  by rewrite Zmult_mod_idemp_l, Zplus_mod_idemp_l.
Qed.

Lemma numeral_snoc (base acc d : Z) (ds : list Z) : numeral base acc (ds ++ [d]) = numeral base acc ds * base + d.
Proof. unfold numeral. by rewrite foldl_app. Qed.

(** The digits that [btoa] finds, the last first. *)
Fixpoint digits (fuel : nat) (value base : Z) : list Z :=
  match fuel with
  | O => []
  | S fuel => if value =? 0 then [] else (value mod base) :: digits fuel (value / base) base
  end.

Lemma btoa_loop_digits (fuel : nat) : forall value base,
  btoa_loop fuel value base = map btoa_digit (digits fuel value base).
Proof.
  induction fuel as [|fuel IH]; intros value base; [done|]. cbn [btoa_loop digits].
  destruct (value =? 0); [done|]. cbn [map]. by rewrite IH.
Qed.

Lemma digits_ok (fuel : nat) : forall value base, 2 <= base -> 0 <= value < 2 ^ Z.of_nat fuel ->
  Forall (fun d => 0 <= d < base) (digits fuel value base) /\
  numeral base 0 (rev (digits fuel value base)) = value /\
  (value <> 0 -> exists d ds, rev (digits fuel value base) = d :: ds /\ d <> 0).
Proof.
  induction fuel as [|fuel IH]; intros value base Hb Hv.
  - simpl in *. split_and!; [done|simpl; lia|lia].
  - cbn [digits]. destruct (Z.eqb_spec value 0) as [->|Hne]; [by split_and!|].
    pose proof (Z.mod_pos_bound value base ltac:(lia)) as Hm. pose proof (Z.div_mod value base ltac:(lia)) as Hd.
    assert (Hq : 0 <= value / base < 2 ^ Z.of_nat fuel).
    { rewrite Nat2Z.inj_succ, Z.pow_succ_r in Hv by lia. split; [apply Z.div_pos; lia|].
      apply Z.div_lt_upper_bound; [lia|]. nia. }
    destruct (IH (value / base) base Hb Hq) as (I1 & I2 & I3). cbn [rev]. split_and!.
    + by constructor.
    + rewrite numeral_snoc, I2. lia.
    + intros _. destruct (Z.eq_dec (value / base) 0) as [E|E].
      * destruct fuel; [|cbn [digits]; rewrite E, Z.eqb_refl]; exists (value mod base), []; (split; [done|lia]).
      * destruct (I3 E) as (d & ds & -> & Hd0). by exists d, (ds ++ [value mod base]).
Qed.

Lemma btoa_digit_hex (d : Z) : 0 <= d < 16 -> hex_digit (btoa_digit d) = Some d.
Proof.
  intros Hd. pose proof (range_check 16 (fun d => match hex_digit (btoa_digit d) with Some e => e =? d | None => false end)
    ltac:(vm_compute; reflexivity) d Hd) as H. cbv beta in H.
  destruct (hex_digit _); [|done]. apply Z.eqb_eq in H. by subst.
Qed.

Lemma btoa_digit_alnum (d : Z) : 0 <= d < 36 -> alnum_digit (btoa_digit d) = Some d.
Proof.
  intros Hd. pose proof (range_check 36 (fun d => match alnum_digit (btoa_digit d) with Some e => e =? d | None => false end)
    ltac:(vm_compute; reflexivity) d Hd) as H. cbv beta in H.
  destruct (alnum_digit _); [|done]. apply Z.eqb_eq in H. by subst.
Qed.

Lemma btoa_digit_range (d : Z) : 0 <= d < 36 -> 48 <= btoa_digit d <= 57 \/ 97 <= btoa_digit d <= 122.
Proof. intros Hd. unfold btoa_digit. destruct (Z.leb_spec d 9); lia. Qed.

(** ** Reading digits *)

(** The characters of [s] are the digits [ds] for a routine that takes [c] for [f c]. *)
Definition spells (f : Z -> option Z) (base : Z) (s ds : list Z) : Prop :=
  Forall2 (fun c d => f c = Some d /\ 0 <= d < base) s ds.

Lemma spells_btoa (f : Z -> option Z) (base m : Z) (ds : list Z) :
  (forall d, 0 <= d < m -> f (btoa_digit d) = Some d) -> base <= m ->
  Forall (fun d => 0 <= d < base) ds -> spells f base (map btoa_digit ds) ds.
Proof.
  intros Hf Hb. induction ds as [|d ds IH]; intros Hd; [constructor|].
  apply Forall_cons in Hd as [Hd Hds]. constructor; [|by apply IH]. split; [|done]. apply Hf. lia.
Qed.

Lemma spells_nonneg (f : Z -> option Z) (base : Z) (s ds : list Z) : spells f base s ds ->
  Forall (fun d => 0 <= d) ds.
Proof. induction 1 as [|c d s ds [_ Hd] _ IH]; constructor; [lia|done]. Qed.

Lemma atob_loop_ok (s ds : list Z) (base : Z) : spells hex_digit base s ds -> forall value,
  atob_loop s base (u32 value) = Some (u32 (numeral base value ds)).
Proof.
  induction 1 as [|c d s ds [E Hd] _ IH]; intros value; cbn [atob_loop]; [done|].
  rewrite E. rewrite (proj2 (Z.ltb_ge d base) ltac:(lia)) || idtac.
  replace (d >=? base) with false by lia.
  replace (u32 value *u base +u d) with (u32 (value * base + d)); [apply IH|].
  unfold u32. by rewrite Zmult_mod_idemp_l, Zplus_mod_idemp_l.
Qed.

Lemma str_to_hex_loop_ok (s ds : list Z) : spells hex_digit 16 s ds -> forall value,
  str_to_hex_loop s (u32 value) = u32 (numeral 16 value ds).
Proof.
  induction 1 as [|c d s ds [E Hd] _ IH]; intros value; cbn [str_to_hex_loop]; [done|].
  rewrite E. replace (u32 (Z.shiftl (u32 value) 4) +u d) with (u32 (value * 16 + d)); [apply IH|].
  rewrite Z.shiftl_mul_pow2 by lia. change (2 ^ 4) with 16. unfold u32.
  by rewrite Zmult_mod_idemp_l, Zplus_mod_idemp_l.
Qed.

(** The loop of [strtoul] keeps the value while it fits. *)
Lemma strtoul_loop_ok (s ds : list Z) (base : Z) : 2 <= base -> spells alnum_digit base s ds -> forall value r,
  0 <= value < 2 ^ 32 -> (forall c r', r = c :: r' -> alnum_digit c = None) ->
  let v := numeral base value ds in
  exists w, strtoul_loop base (ULONG_MAX / base) (s ++ r) value false = (w, r, 2 ^ 32 <=? v) /\ (v < 2 ^ 32 -> w = v).
Proof.
  intros Hb Hs. assert (Hrest : forall r, (forall c r', r = c :: r' -> alnum_digit c = None) ->
    forall w o, strtoul_loop base (ULONG_MAX / base) r w o = (w, r, o)).
  { intros r Hr w o. destruct r as [|c r]; [done|]. cbn [strtoul_loop]. by rewrite (Hr c r). }
  (* once there is an overflow, the digits are skipped *)
  assert (Hover : forall s ds, spells alnum_digit base s ds -> forall r w,
    (forall c r', r = c :: r' -> alnum_digit c = None) ->
    strtoul_loop base (ULONG_MAX / base) (s ++ r) w true = (w, r, true)).
  { induction 1 as [|c d s' ds' [E Hd] _ IH]; intros r w Hr; [by apply Hrest|].
    cbn [app strtoul_loop]. rewrite E. replace ((d <? 0) || (d >=? base)) with false by lia. by apply IH. }
  induction Hs as [|c d s ds [E Hd] Hs IH]; intros value r Hv Hr; cbv zeta; cbn [app].
  - rewrite Hrest by done. exists value. simpl. by rewrite (proj2 (Z.leb_gt _ _)) by lia.
  - cbn [strtoul_loop]. rewrite E. replace ((d <? 0) || (d >=? base)) with false by lia.
    change (numeral base value (d :: ds)) with (numeral base (value * base + d) ds). cbn [orb].
    pose proof (numeral_ge base ds (value * base + d) ltac:(lia) (spells_nonneg _ _ _ _ Hs) ltac:(nia)) as Hge.
    pose proof (Z.div_mod ULONG_MAX base ltac:(lia)) as Hdm. pose proof (Z.mod_pos_bound ULONG_MAX base ltac:(lia)) as Hmb.
    unfold ULONG_MAX in *.
    destruct (Z.gtb_spec value (4294967295 / base)) as [Hgt|Hle].
    + assert (2 ^ 32 <= value * base) by nia.
      rewrite (Hover s ds Hs) by done. exists value. rewrite (proj2 (Z.leb_le _ _)) by lia. split; [done|lia].
    + assert (base * value <= 4294967295) by nia. rewrite (u32_small (base * value)) by lia.
      destruct (Z.gtb_spec d (4294967295 - base * value)) as [Hgt|Hle2].
      * rewrite (Hover s ds Hs) by done. exists (base * value). rewrite (proj2 (Z.leb_le _ _)) by lia. split; [done|lia].
      * rewrite u32_small by lia. replace (base * value + d) with (value * base + d) by lia.
        apply IH; [lia|done].
Qed.

(** ** What is written can be read *)

(** The characters that [btoa] writes for a number that is not zero. *)
Lemma btoa_spells (value base : Z) : 0 <= value < 2 ^ 32 -> 2 <= base <= 36 ->
  exists ds, btoa value base = map btoa_digit ds /\ Forall (fun d => 0 <= d < base) ds /\
    numeral base 0 ds = value /\ ds <> [] /\ (forall ds', ds = 0 :: ds' -> ds' = []).
Proof.
  intros Hv Hb. unfold btoa. rewrite u32_small by done. destruct (Z.eqb_spec value 0) as [->|Hne].
  - exists [0]. split_and!; [done| |done|done|by intros ds' [= <-]]. constructor; [lia|done].
  - replace (base =? -10) with false by lia. rewrite btoa_loop_digits.
    destruct (digits_ok 32 value base) as (D1 & D2 & D3); [lia|done|].
    exists (rev (digits 32 value base)). split_and!.
    + by rewrite map_rev.
    + by apply Forall_rev.
    + done.
    + destruct (D3 Hne) as (d & ds & -> & _). done.
    + destruct (D3 Hne) as (d & ds & -> & Hd). intros ds' [= -> _]. done.
Qed.

(** A string of digits has no prefix, sign or space in front. *)
Lemma spells_not (f : Z -> option Z) (base x : Z) (s ds : list Z) : spells f base s ds -> f x = None -> x ∉ s.
Proof.
  intros Hs Hx. induction Hs as [|c d s ds [E _] _ IH]; [apply not_elem_of_nil|].
  apply not_elem_of_cons. split; [congruence|done].
Qed.

Lemma split_at_none (c : Z) (s : list Z) : c ∉ s -> split_at c s = None.
Proof.
  induction s as [|d s IH]; [done|]. intros [Hne Hni]%not_elem_of_cons. cbn [split_at].
  rewrite (proj2 (Z.eqb_neq d c)) by congruence. by rewrite IH.
Qed.

Lemma atob_digits (s ds : list Z) (base : Z) : base <> 0 -> spells hex_digit base s ds ->
  atob s base = Some (u32 (numeral base 0 ds)).
Proof.
  intros Hb Hs. unfold atob. rewrite (proj2 (Z.eqb_neq _ _) Hb). unfold _atob, _atob_body.
  assert (E : (match s with 48 :: 120 :: q | 48 :: 88 :: q => (q, 16) | _ => (s, base) end) = (s, base)).
  { pose proof (spells_not _ _ 120 s ds Hs eq_refl) as H1. pose proof (spells_not _ _ 88 s ds Hs eq_refl) as H2.
    destruct s as [|c1 [|c2 s]]; [done|repeat (case_match; try done)|].
    assert (c2 <> 120 /\ c2 <> 88) by (split; intros ->; [apply H1|apply H2]; right; left).
    clear -H. repeat (case_match; try done); lia. }
  rewrite E. rewrite (split_at_none 46 s) by exact (spells_not _ _ 46 s ds Hs eq_refl).
  replace (if base =? 16 then None else None) with (@None (list Z * list Z)) by by destruct (base =? 16).
  change 0 with (u32 0) at 1. by rewrite (atob_loop_ok s ds base Hs 0).
Qed.

(** ** [strtoul] *)

(** The rest of a string starts with no letter or digit. *)
Definition ends_number (r : list Z) : Prop := forall c r', r = c :: r' -> alnum_digit c = None.

Lemma alnum_plain (c d : Z) : - 128 <= c < 128 -> alnum_digit c = Some d ->
  isspace c = false /\ c <> 43 /\ c <> 45.
Proof.
  intros Hc E. pose proof (range_check 256 (fun i => let c := i - 128 in
    match alnum_digit c with Some _ => negb (isspace c) && (negb (c =? 43) && negb (c =? 45)) | None => true end)
    ltac:(vm_compute; reflexivity) (c + 128) ltac:(lia)) as H. cbv beta zeta in H.
  replace (c + 128 - 128) with c in H by lia. rewrite E in H.
  apply andb_prop in H as [H1%negb_true_iff [H2%negb_true_iff H3%negb_true_iff]%andb_prop].
  apply Z.eqb_neq in H2, H3. done.
Qed.

Lemma prefix_digits (base : Z) (s ds r : list Z) : 2 <= base -> spells alnum_digit base s ds -> ends_number r ->
  exists s' ds', strtoul_prefix base (s ++ r) = (base, s' ++ r) /\ spells alnum_digit base s' ds' /\
    numeral base 0 ds' = numeral base 0 ds.
Proof.
  intros Hb Hs Hr. unfold strtoul_prefix. rewrite (proj2 (Z.eqb_neq base 0)) by lia.
  destruct (Z.eqb_spec base 16) as [->|_]; [|by exists s, ds].
  assert (Hother : forall c p, c <> 48 -> (match c :: p with 48 :: 120 :: q => (16, q) | 48 :: q => (16, q) | _ => (16, c :: p) end) = (16, c :: p)).
  { intros c p Hne. clear -Hne. by repeat (case_match; try done). }
  destruct Hs as [|c d s ds [E Hd] Hs].
  - exists [], []. split_and!; [|constructor|done]. destruct r as [|c p]; [done|]. apply Hother.
    intros ->. specialize (Hr 48 p eq_refl). discriminate.
  - destruct (decide (c = 48)) as [->|Hne].
    + injection E as <-. exists s, ds. split_and!; [|done|done]. cbn [app].
      assert (H120 : forall p, s ++ r <> 120 :: p).
      { intros p Ep. destruct Hs as [|c d s ds [E Hd'] _].
        - specialize (Hr 120 p Ep). discriminate.
        - injection Ep as -> _. injection E as <-. lia. }
      clear -H120. destruct (s ++ r) as [|c p]; [done|]. specialize (H120 p).
      destruct (decide (c = 120)) as [->|Hne]; [done|]. clear H120. by repeat (case_match; try done).
    + exists (c :: s), (d :: ds). split_and!; [by apply Hother|by constructor|done].
Qed.

Lemma skip_spaces (f : Z -> bool) (sp s : list Z) : Forall (fun c => f c = true) sp ->
  (forall c s', s = c :: s' -> f c = false) -> skip_while f (sp ++ s) = s.
Proof.
  intros Hsp Hs. induction Hsp as [|c sp E _ IH]; cbn [app skip_while].
  - destruct s as [|c s]; [done|]. cbn [skip_while]. by rewrite (Hs c s).
  - by rewrite E.
Qed.

Lemma strtoul_digits (base : Z) (sp s ds r : list Z) : 2 <= base ->
  Forall (fun c => isspace c = true) sp -> spells alnum_digit base s ds ->
  Forall (fun c => - 128 <= c < 128) s -> s <> [] -> ends_number r ->
  strtoul (sp ++ s ++ r) base =
    if 2 ^ 32 <=? numeral base 0 ds then (ULONG_MAX, r, true) else (numeral base 0 ds, r, false).
Proof.
  intros Hb Hsp Hs Hc Hne Hr. unfold strtoul.
  assert (Hhead : forall c p, s ++ r = c :: p -> isspace c = false /\ c <> 43 /\ c <> 45).
  { intros c p E. destruct Hs as [|c' d s ds [Ed Hd] Hs]; [done|]. injection E as -> _.
    apply Forall_cons in Hc as [Hc _]. by apply (alnum_plain c d). }
  rewrite skip_spaces; [|done|by intros c p E; apply (Hhead c p E)].
  assert (E : (match s ++ r with 43 :: p => (false, p) | 45 :: p => (true, p) | _ => (false, s ++ r) end) = (false, s ++ r)).
  { destruct (s ++ r) as [|c p]; [done|]. destruct (Hhead c p eq_refl) as (_ & H1 & H2).
    clear -H1 H2. by repeat (case_match; try done). }
  rewrite E. destruct (prefix_digits base s ds r Hb Hs Hr) as (s' & ds' & -> & Hs' & En).
  destruct (strtoul_loop_ok s' ds' base Hb Hs' 0 r ltac:(lia) Hr) as (w & -> & Hw). rewrite En in *.
  cbn [andb]. destruct (Z.leb_spec (2 ^ 32) (numeral base 0 ds)); [done|]. by rewrite Hw.
Qed.

(** ** [atoi] *)

Lemma atoi_loop_ok (ds : list Z) : forall value, Forall (fun d => 0 <= d < 10) ds -> 0 <= value ->
  numeral 10 value ds < 2 ^ 31 -> atoi_loop (map btoa_digit ds) value = numeral 10 value ds.
Proof.
  induction ds as [|d ds IH]; intros value Hd Hv Hmax; [done|].
  apply Forall_cons in Hd as [Hd Hds]. change (numeral 10 value (d :: ds)) with (numeral 10 (value * 10 + d) ds) in *.
  assert (Hnn : Forall (fun d => 0 <= d) ds) by (eapply Forall_impl; [exact Hds|simpl; lia]).
  pose proof (numeral_ge 10 ds (value * 10 + d) ltac:(lia) Hnn ltac:(lia)).
  assert (E : btoa_digit d = d + 48) by (unfold btoa_digit; by rewrite (proj2 (Z.leb_le d 9)) by lia).
  cbn [map atoi_loop]. rewrite E. replace (d + 48 - 48) with d by lia. rewrite (u32_small d) by lia.
  rewrite (proj2 (Z.ltb_lt d 10)) by lia. rewrite (s32_small (value * 10)) by lia.
  rewrite s32_small by lia. replace (value * 10 + (d + 48) - 48) with (value * 10 + d) by lia. by apply IH; [|lia|].
Qed.

Lemma sign_bit (v : Z) : 0 <= v < 2 ^ 32 -> negb (Z.land v (2 ^ 31) =? 0) = (2 ^ 31 <=? v).
Proof.
  intros Hv. change (2 ^ 31) with (not32 (2 ^ 31 - 1)) at 1. rewrite land_not_pow2 by lia.
  destruct (Z.leb_spec (2 ^ 31) v); destruct (Z.eqb_spec (v - v mod 2 ^ 31) 0) as [E|E]; zlia || done.
Qed.

Lemma atoi_btoa (v : Z) : - 2 ^ 31 < v < 2 ^ 31 -> atoi (btoa v (-10)) = v.
Proof.
  intros Hv. destruct (Z.eq_dec v 0) as [->|Hne]; [done|].
  assert (Hdig : forall m, 0 < m < 2 ^ 31 -> exists d ds, rev (digits 32 m 10) = d :: ds /\
    Forall (fun d => 0 <= d < 10) (d :: ds) /\ atoi_loop (map btoa_digit (d :: ds)) 0 = m).
  { intros m Hm. destruct (digits_ok 32 m 10 ltac:(lia) ltac:(change (Z.of_nat 32) with 32; lia)) as (D1 & D2 & D3).
    destruct (D3 ltac:(lia)) as (d & ds & E & _). exists d, ds. split; [done|].
    apply Forall_rev in D1. rewrite E in *. split; [done|]. rewrite atoi_loop_ok; [done|done|lia|lia]. }
  assert (Hplain : forall c p, 48 <= c <= 57 -> skip_while (fun c => (c =? 32) || (u32 (c - 9) <? 5)) (c :: p) = c :: p).
  { intros c p Hc. cbn [skip_while]. rewrite (proj2 (Z.eqb_neq c 32)) by lia.
    rewrite (u32_small (c - 9)) by lia. by rewrite (proj2 (Z.ltb_ge (c - 9) 5)) by lia. }
  unfold btoa. rewrite Z.eqb_refl. destruct (Z.ltb_spec v 0) as [Hneg|Hpos].
  - assert (Ev : u32 v = v + 2 ^ 32) by zlia. rewrite Ev. replace (v + 2 ^ 32 =? 0) with false by lia.
    rewrite sign_bit by lia. rewrite (proj2 (Z.leb_le _ _)) by lia.
    assert (En : u32 (not32 (v + 2 ^ 32) + 1) = - v) by (unfold not32, Z.lnot; zlia). rewrite En.
    rewrite rev_app_distr. cbn [rev app]. rewrite btoa_loop_digits, <- map_rev.
    destruct (Hdig (- v) ltac:(lia)) as (d & ds & -> & _ & E). unfold atoi. cbn [skip_while].
    change ((45 =? 32) || (u32 (45 - 9) <? 5)) with false. cbv iota. rewrite E. change (-1 =? -1) with true. cbv iota.
    rewrite s32_small; lia.
  - rewrite u32_small by lia. replace (v =? 0) with false by lia. rewrite sign_bit by lia.
    rewrite (proj2 (Z.leb_gt _ _)) by lia. rewrite btoa_loop_digits, <- map_rev.
    destruct (Hdig v ltac:(lia)) as (d & ds & -> & Hd & E). unfold atoi. cbn [map].
    apply Forall_cons in Hd as [Hd _].
    assert (Hc : 48 <= btoa_digit d <= 57) by (unfold btoa_digit; destruct (Z.leb_spec d 9); lia).
    rewrite Hplain by done. cbn [map] in E. set (c := btoa_digit d) in *.
    assert (Es : (match c :: map btoa_digit ds with 45 :: s => (s, -1) | 43 :: s => (s, 1) | _ => (c :: map btoa_digit ds, 1) end)
      = (c :: map btoa_digit ds, 1)) by (clear -Hc; repeat (case_match; try done); lia).
    rewrite Es. by rewrite E.
Qed.

(** ** Properties *)

(** C26: what [btoa] writes is read back: by [strtoul] in every base from 2 to 36, by
    [atob] up to base 16 and by [atob] with base 0 and [str_to_hex] in their bases; a
    signed number written with base -10 is read back by [atoi]. *)
Theorem btoa_roundtrip (v base : Z) : 0 <= v < 2 ^ 32 -> 2 <= base <= 36 ->
  strtoul (btoa v base) base = (v, [], false) /\
  (base <= 16 -> atob (btoa v base) base = Some v) /\
  atob (btoa v 10) 0 = Some v /\
  panduan_hex (btoa v 16) = 1 /\ str_to_hex (btoa v 16) = v /\
  (s32 v <> - 2 ^ 31 -> atoi (btoa v (-10)) = s32 v).
Proof.
  intros Hv Hb.
  assert (Hhex : forall base, 2 <= base <= 16 -> atob (btoa v base) base = Some v).
  { intros b Hb'. destruct (btoa_spells v b Hv ltac:(lia)) as (ds & -> & Hd & En & _).
    rewrite (atob_digits _ ds) by (try lia; by apply (spells_btoa _ _ 16); [apply btoa_digit_hex|lia|]).
    rewrite En. by rewrite u32_small. }
  split_and!.
  - destruct (btoa_spells v base Hv Hb) as (ds & E & Hd & En & Hne & _).
    pose proof (strtoul_digits base [] (btoa v base) ds [] ltac:(lia) ltac:(constructor)) as H.
    cbn [app] in H. rewrite app_nil_r in H. rewrite H.
    + rewrite En. by rewrite (proj2 (Z.leb_gt _ _)) by lia.
    + rewrite E. by apply (spells_btoa _ _ 36); [apply btoa_digit_alnum|lia|].
    + rewrite E. apply Forall_map. eapply Forall_impl; [exact Hd|]. intros d Hd'. simpl in *.
      pose proof (btoa_digit_range d). lia.
    + rewrite E. by destruct ds.
    + by intros c r'.
  - intros H16. apply Hhex. lia.
  - destruct (btoa_spells v 10 Hv ltac:(lia)) as (ds & E & Hd & En & Hne & H0).
    rewrite <- (Hhex 10) by lia. rewrite E. unfold atob. change (0 =? 0) with true. change (10 =? 0) with false. cbv iota.
    assert (Eg : _getbase (map btoa_digit ds) = (map btoa_digit ds, 10)); [|by rewrite Eg].
    destruct ds as [|d ds]; [done|]. cbn [map]. unfold _getbase.
    destruct (decide (d = 0)) as [->|Hd0]; [by rewrite (H0 ds eq_refl)|].
    apply Forall_cons in Hd as [Hd _]. assert (Hc : btoa_digit d <> 48) by (unfold btoa_digit; destruct (Z.leb_spec d 9); lia).
    generalize dependent (btoa_digit d). clear. intros c Hc. by repeat (case_match; try done).
  - destruct (btoa_spells v 16 Hv ltac:(lia)) as (ds & -> & Hd & _). clear -Hd.
    induction Hd as [|d ds Hd _ IH]; [done|]. cbn [map panduan_hex]. by rewrite btoa_digit_hex.
  - destruct (btoa_spells v 16 Hv ltac:(lia)) as (ds & -> & Hd & En & _). unfold str_to_hex.
    change 0 with (u32 0). rewrite (str_to_hex_loop_ok _ ds).
    + rewrite En. by rewrite u32_small.
    + by apply (spells_btoa _ _ 16); [apply btoa_digit_hex|lia|].
  - intros Hmin. transitivity (atoi (btoa (s32 v) (-10))); [f_equal|apply atoi_btoa; zlia].
    unfold btoa. by replace (u32 (s32 v)) with (u32 v) by zlia.
Qed.

Lemma btoa_roundtrip_witness :
  btoa 305419896 16 = [49; 50; 51; 52; 53; 54; 55; 56] /\ strtoul (btoa 305419896 16) 16 = (305419896, [], false).
Proof. split; [vm_compute; reflexivity|]. apply (btoa_roundtrip 305419896 16); lia. Defined.

(** A numeral that does not fit into 32 bits: [strtoul] returns [ULONG_MAX] and
    sets [errno], and in both cases stops behind the digits; [atob] and [str_to_hex]
    return the value modulo [2^32], with no sign of an error. *)
Lemma numerals_too_big (base : Z) (sp s ds r : list Z) : 2 <= base ->
  Forall (fun c => isspace c = true) sp -> Forall (fun c => - 128 <= c < 128) s -> s <> [] -> ends_number r ->
  (spells alnum_digit base s ds -> strtoul (sp ++ s ++ r) base =
     if 2 ^ 32 <=? numeral base 0 ds then (ULONG_MAX, r, true) else (numeral base 0 ds, r, false)) /\
  (spells hex_digit base s ds -> atob s base = Some (numeral base 0 ds mod 2 ^ 32)) /\
  (spells hex_digit 16 s ds -> str_to_hex s = numeral 16 0 ds mod 2 ^ 32).
Proof.
  intros Hb Hsp Hc Hne Hr. split_and!.
  - intros Hs. by apply strtoul_digits.
  - intros Hs. apply atob_digits; [lia|done].
  - intros Hs. apply (str_to_hex_loop_ok s ds Hs 0).
Qed.

(** [strtoul] with base 16 knows the prefix "0x" but not "0X", of which it reads the
    zero only. *)
Lemma strtoul_0X (s : list Z) : strtoul (48 :: 88 :: s) 16 = (0, 88 :: s, false) /\
  strtoul (48 :: 88 :: s) 0 = strtoul (48 :: 120 :: s) 0.
Proof. split; reflexivity. Qed.
