(* ===== verification/Shell.v ===== *)
(** * The shell (os/shell.c)
    The line editor with its history and completion, and the execution of the line: the
    command is looked up in the table that the linker collects, the line is split into
    arguments in place.  The echo on the terminal is left out.  [None] is an access
    outside of the buffers. *)

From S2P Require Import Prelude CStr CType NumConv.

Definition FINSH_ARG_MAX : nat := 10.
Definition FINSH_HISTORY_LINES : Z := 15.
Definition FINSH_CMD_SIZE : Z := 80.

(** ** String routines of os/common_fun.c *)

(** The last difference, kept in a signed character. *)
Fixpoint strncmp (cs ct : list Z) (count : nat) : Z :=
  match count with
  | O => 0
  | S count =>
      let c := default 0 (head cs) in
      let res := s8 (c - default 0 (head ct)) in
      if negb (res =? 0) || (c =? 0) then res else strncmp (tail cs) (tail ct) count
  end.

Fixpoint str_common (str1 str2 : list Z) : Z :=
  match str1, str2 with
  | c :: str1, d :: str2 => if c =? d then 1 + str_common str1 str2 else 0
  | _, _ => 0
  end.

(** ** Buffers *)

(** The string at the start of a buffer. *)
Fixpoint cstr (buf : list Z) : list Z :=
  match buf with
  | [] => []
  | c :: buf => if c =? 0 then [] else c :: cstr buf
  end.

(** The length of that string, if it ends inside. *)
Fixpoint buf_strlen (buf : list Z) : option Z :=
  match buf with
  | [] => None
  | c :: buf => if c =? 0 then Some 0 else n ← buf_strlen buf; Some (n + 1)
  end.

(** [memmove(&buf[d], &buf[s], n)] *)
Definition buf_move (d s n : Z) (buf : list Z) : option (list Z) :=
  if (0 <=? n) && (d + n <=? Z.of_nat (length buf)) && (s + n <=? Z.of_nat (length buf))
  then Some (take (Z.to_nat d) buf ++ take (Z.to_nat n) (drop (Z.to_nat s) buf)
             ++ drop (Z.to_nat (d + n)) buf)
  else None.

(** [buf[i] = c] *)
Definition buf_set (i c : Z) (buf : list Z) : option (list Z) :=
  if (0 <=? i) && (i <? Z.of_nat (length buf)) then Some (<[Z.to_nat i := s8 c]> buf) else None.

(** [strncpy(buf, src, n)] for [n] up to the length of [src]. *)
Definition buf_strncpy (src : list Z) (n : Z) (buf : list Z) : option (list Z) :=
  if n <=? Z.of_nat (length buf) then Some (take (Z.to_nat n) src ++ drop (Z.to_nat n) buf) else None.

(** ** State *)

Inductive input_stat := WAIT_NORMAL | WAIT_SPEC_KEY | WAIT_FUNC_KEY.

Record finsh_shell := Shell {
  stat : input_stat;
  echo_mode : bool;
  prompt_mode : bool;
  current_history : Z;
  history_count : Z;
  cmd_history : list (list Z);
  line : list Z;
  line_char_counter : Z;
  line_curpos : Z }.

Definition set_stat (v : input_stat) (s : finsh_shell) : finsh_shell :=
  Shell v (echo_mode s) (prompt_mode s) (current_history s) (history_count s) (cmd_history s)
    (line s) (line_char_counter s) (line_curpos s).
Definition set_history (cur count : Z) (h : list (list Z)) (s : finsh_shell) : finsh_shell :=
  Shell (stat s) (echo_mode s) (prompt_mode s) cur count h (line s) (line_char_counter s) (line_curpos s).
Definition set_line (l : list Z) (counter curpos : Z) (s : finsh_shell) : finsh_shell :=
  Shell (stat s) (echo_mode s) (prompt_mode s) (current_history s) (history_count s) (cmd_history s)
    l counter curpos.

(** [strlen(shell->line)]: behind the array are the counter and the cursor. *)
Definition line_strlen (s : finsh_shell) : option Z :=
  buf_strlen (line s ++ [s8 (line_char_counter s); s8 (line_curpos s)]).

(** The start of the shell on the memory that [malloc] returned. *)
Definition shellInit (mem : finsh_shell) : finsh_shell :=
  Shell (stat mem) true true (current_history mem) (history_count mem) (cmd_history mem)
    (repeat 0 (Z.to_nat FINSH_CMD_SIZE)) 0 0.

(** ** History *)

(** [memset] and [memcpy] into a line of the history. *)
Definition history_line (l : list Z) (counter : Z) : list Z :=
  take (Z.to_nat counter) l ++ repeat 0 (Z.to_nat FINSH_CMD_SIZE - Z.to_nat counter).

Definition shell_push_history (s : finsh_shell) : finsh_shell :=
  let s :=
    if negb (line_char_counter s =? 0) then
      if history_count s >=? FINSH_HISTORY_LINES then
        if negb (bool_decide (znth [] (cmd_history s) (FINSH_HISTORY_LINES - 1) = line s)) then
          set_history (current_history s) FINSH_HISTORY_LINES
            (tail (cmd_history s) ++ [history_line (line s) (line_char_counter s)]) s
        else s
      else if (history_count s =? 0) || negb (bool_decide (znth [] (cmd_history s) (history_count s - 1) = line s)) then
        set_history (history_count s) (u16 (history_count s + 1))
          (<[Z.to_nat (history_count s) := history_line (line s) (line_char_counter s)]> (cmd_history s)) s
      else s
    else s in
  set_history (history_count s) (history_count s) (cmd_history s) s.

(** The command at [current_history] becomes the line. *)
Definition recall (s : finsh_shell) : option finsh_shell :=
  l ← cmd_history s !! Z.to_nat (current_history s);
  let s := set_line l (line_char_counter s) (line_curpos s) s in
  n ← line_strlen s;
  Some (set_line l (u8 n) (u8 n) s).

Definition key_up (s : finsh_shell) : option finsh_shell :=
  if current_history s >? 0 then
    recall (set_history (u16 (current_history s - 1)) (history_count s) (cmd_history s) s)
  else Some (set_history 0 (history_count s) (cmd_history s) s).

Definition key_down (s : finsh_shell) : option finsh_shell :=
  if current_history s <? history_count s - 1 then
    recall (set_history (u16 (current_history s + 1)) (history_count s) (cmd_history s) s)
  else if negb (history_count s =? 0) then
    recall (set_history (u16 (history_count s - 1)) (history_count s) (cmd_history s) s)
  else Some s.

(** ** Editing *)

Definition key_left (s : finsh_shell) : finsh_shell :=
  if negb (line_curpos s =? 0) then set_line (line s) (line_char_counter s) (u8 (line_curpos s - 1)) s else s.

Definition key_right (s : finsh_shell) : finsh_shell :=
  if line_curpos s <? line_char_counter s
  then set_line (line s) (line_char_counter s) (u8 (line_curpos s + 1)) s else s.

Definition key_backspace (s : finsh_shell) : option finsh_shell :=
  if line_curpos s =? 0 then Some s
  else
    let counter := u8 (line_char_counter s - 1) in
    let curpos := u8 (line_curpos s - 1) in
    if counter >? curpos then
      l ← buf_move curpos (curpos + 1) (counter - curpos) (line s);
      l ← buf_set counter 0 l;
      Some (set_line l counter curpos s)
    else
      l ← buf_set counter 0 (line s);
      Some (set_line l counter curpos s).

Definition key_char (ch : Z) (s : finsh_shell) : option finsh_shell :=
  let s := if line_char_counter s >=? FINSH_CMD_SIZE then set_line (line s) 0 (line_curpos s) s else s in
  l ← (if line_curpos s <? line_char_counter s then
         l ← buf_move (line_curpos s + 1) (line_curpos s) (line_char_counter s - line_curpos s) (line s);
         buf_set (line_curpos s) ch l
       else buf_set (line_char_counter s) ch (line s));
  let counter := u8 (line_char_counter s + 1) in
  let curpos := u8 (line_curpos s + 1) in
  if counter >=? FINSH_CMD_SIZE then Some (set_line l 0 0 s) else Some (set_line l counter curpos s).

(** ** Completion *)

(** [func] stands for the function that the entry points to. *)
Record finsh_syscall := Syscall { name : list Z; func : Z }.

(** ["__cmd_"] *)
Definition CMD_PREFIX : list Z := [95; 95; 99; 109; 100; 95].

Definition is_command (index : finsh_syscall) : bool := strncmp (name index) CMD_PREFIX 6 =? 0.
Definition cmd_name (index : finsh_syscall) : list Z := drop 6 (name index).

(** The body of the loop: [min_length] and [name_ptr]. *)
Definition complete_step (prefix : list Z) (acc : Z * list Z) (index : finsh_syscall) : Z * list Z :=
  if is_command index && (strncmp prefix (cmd_name index) (length prefix) =? 0) then
    let '(min_length, name_ptr) := acc in
    let '(min_length, name_ptr) :=
      if min_length =? 0 then (strlen (cmd_name index), cmd_name index) else (min_length, name_ptr) in
    let length := str_common name_ptr (cmd_name index) in
    (if length <? min_length then length else min_length, name_ptr)
  else acc.

(** The line after the completion. *)
Definition msh_auto_complete (table : list finsh_syscall) (s : finsh_shell) : option (list Z) :=
  if znth 0 (line s) 0 =? 0 then Some (line s)
  else
    n ← line_strlen s;
    let prefix := take (Z.to_nat n) (line s ++ [s8 (line_char_counter s); s8 (line_curpos s)]) in
    let '(min_length, name_ptr) := foldl (complete_step prefix) (0, []) table in
    buf_strncpy name_ptr min_length (line s).

Definition key_tab (table : list finsh_syscall) (s : finsh_shell) : option finsh_shell :=
  l ← msh_auto_complete table s;
  let s := set_line l (line_char_counter s) (line_curpos s) s in
  n ← line_strlen s;
  Some (set_line l (u8 n) (u8 n) s).

(** ** Splitting a line into arguments *)

Definition is_blank (c : Z) : bool := (c =? 32) || (c =? 9).

(** Blanks become terminators. [fuel] is more than the number of characters left. *)
Fixpoint skip_blanks (fuel pos : nat) (length : Z) (buf : list Z) : option (nat * list Z) :=
  match fuel with
  | O => None
  | S fuel =>
      c ← buf !! pos;
      if is_blank c && (Z.of_nat pos <? length)
      then skip_blanks fuel (S pos) length (<[pos := 0]> buf)
      else Some (pos, buf)
  end.

(** The position of the closing quote. *)
Fixpoint skip_string (fuel pos : nat) (length : Z) (buf : list Z) : option nat :=
  match fuel with
  | O => None
  | S fuel =>
      c ← buf !! pos;
      if negb (c =? 34) && (Z.of_nat pos <? length) then
        if c =? 92 then
          d ← buf !! S pos;
          skip_string fuel (if d =? 34 then S (S pos) else S pos) length buf
        else skip_string fuel (S pos) length buf
      else Some pos
  end.

Fixpoint skip_word (fuel pos : nat) (length : Z) (buf : list Z) : option nat :=
  match fuel with
  | O => None
  | S fuel =>
      c ← buf !! pos;
      if negb (is_blank c) && (Z.of_nat pos <? length) then skip_word fuel (S pos) length buf else Some pos
  end.

(** [argv] as positions in [cmd], and [cmd] afterwards. *)
Fixpoint split_loop (fuel pos : nat) (length : Z) (buf : list Z) (argv : list nat) : option (list nat * list Z) :=
  match fuel with
  | O => None
  | S fuel =>
      if Z.of_nat pos <? length then
        '(pos, buf) ← skip_blanks (S (List.length buf)) pos length buf;
        if (FINSH_ARG_MAX <=? List.length argv)%nat then Some (argv, buf)
        else if Z.of_nat pos >=? length then Some (argv, buf)
        else
          c ← buf !! pos;
          if c =? 34 then
            let start := S pos in
            e ← skip_string (S (List.length buf)) start length buf;
            if Z.of_nat e >=? length then Some (argv ++ [start], buf)
            else split_loop fuel (S e) length (<[e := 0]> buf) (argv ++ [start])
          else
            e ← skip_word (S (List.length buf)) pos length buf;
            if Z.of_nat e >=? length then Some (argv ++ [pos], buf)
            else split_loop fuel e length buf (argv ++ [pos])
      else Some (argv, buf)
  end.

Definition msh_split (cmd : list Z) (length : Z) : option (list nat * list Z) :=
  split_loop (S (List.length cmd)) 0 length cmd [].

(** ** Execution *)

Fixpoint msh_get_cmd (table : list finsh_syscall) (cmd : list Z) (size : nat) : option Z :=
  match table with
  | [] => None
  | index :: table =>
      if is_command index && (strncmp (cmd_name index) cmd size =? 0) && (znth 0 (cmd_name index) (Z.of_nat size) =? 0)
      then Some (func index) else msh_get_cmd table cmd size
  end.

(** A command that is called, with its arguments, or the message that there is none. *)
Inductive run_event :=
  | Run (func : Z) (argv : list (list Z))
  | NotFound.

(** The result is an error where it is [Some None]. *)
Definition _msh_exec_cmd (table : list finsh_syscall) (cmd : list Z) (length : Z) : option (option run_event) :=
  cmd0_size ← skip_word (S (List.length cmd)) 0 length cmd;
  if (cmd0_size =? 0)%nat then Some None
  else
    match msh_get_cmd table cmd cmd0_size with
    | None => Some None
    | Some f =>
        '(argv, buf) ← msh_split cmd length;
        if bool_decide (argv = []) then Some None
        else Some (Some (Run f (map (fun p => cstr (drop p buf)) argv)))
    end.

Fixpoint trim (cmd : list Z) (length : Z) : option (list Z * Z) :=
  match cmd with
  | [] => None
  | c :: cmd' => if is_blank c then trim cmd' (u32 (length - 1)) else Some (cmd, length)
  end.

(** [None] in the result: an empty line. *)
Definition msh_exec (table : list finsh_syscall) (cmd : list Z) (length : Z) : option (option run_event) :=
  '(cmd, length) ← trim cmd length;
  if length =? 0 then Some None
  else
    r ← _msh_exec_cmd table cmd length;
    Some (Some (default NotFound r)).

(** ** The thread *)

(** The Enter key. *)
Definition key_enter (table : list finsh_syscall) (s : finsh_shell) : option (finsh_shell * option run_event) :=
  let s := shell_push_history s in
  e ← msh_exec table (line s ++ [s8 (line_char_counter s); s8 (line_curpos s)]) (line_char_counter s);
  Some (set_line (repeat 0 (Z.to_nat FINSH_CMD_SIZE)) 0 0 s, e).

Definition plain_key (table : list finsh_syscall) (ch : Z) (s : finsh_shell) : option (finsh_shell * option run_event) :=
  if (ch =? 0) || (ch =? 0xff) then Some (s, None)
  else if ch =? 9 then s ← key_tab table s; Some (s, None)
  else if (ch =? 0x7f) || (ch =? 0x08) then s ← key_backspace s; Some (s, None)
  else if (ch =? 13) || (ch =? 10) then key_enter table s
  else s ← key_char ch s; Some (s, None).

(** One turn of the loop of [shell_thread_entry]. *)
Definition shell_key (table : list finsh_syscall) (ch : Z) (s : finsh_shell) : option (finsh_shell * option run_event) :=
  if ch <? 0 then Some (s, None)
  else if ch =? 0x1b then Some (set_stat WAIT_SPEC_KEY s, None)
  else match stat s with
       | WAIT_SPEC_KEY =>
           if ch =? 0x5b then Some (set_stat WAIT_FUNC_KEY s, None)
           else plain_key table ch (set_stat WAIT_NORMAL s)
       | WAIT_FUNC_KEY =>
           let s := set_stat WAIT_NORMAL s in
           if ch =? 0x41 then s ← key_up s; Some (s, None)
           else if ch =? 0x42 then s ← key_down s; Some (s, None)
           else if ch =? 0x44 then Some (key_left s, None)
           else if ch =? 0x43 then Some (key_right s, None)
           else plain_key table ch s
       | WAIT_NORMAL => plain_key table ch s
       end.

Fixpoint shell_thread_entry (table : list finsh_syscall) (keys : list Z) (s : finsh_shell) :
    option (finsh_shell * list run_event) :=
  match keys with
  | [] => Some (s, [])
  | ch :: keys =>
      '(s, e) ← shell_key table ch s;
      '(s, es) ← shell_thread_entry table keys s;
      Some (s, option_list e ++ es)
  end.
