(* ===== verification/ShellSplit.v ===== *)
(** * Splitting a command line
    [msh_split] cuts the line up in place.  The arguments that it finds are those of a
    tokenizer on the text of the line: words between blanks, and strings in quotes in
    which a quote behind a backslash does not end the string. *)

From S2P Require Import Prelude CStr Shell.

(** ** The tokenizer *)

Fixpoint span (f : Z -> bool) (t : list Z) : list Z * list Z :=
  match t with
  | [] => ([], [])
  | c :: t' => if f c then let '(w, r) := span f t' in (c :: w, r) else ([], t)
  end.

(** Up to the closing quote, which stays in front of the rest. *)
Fixpoint quoted (t : list Z) : list Z * list Z :=
  match t with
  | [] => ([], [])
  | c :: t' =>
      if c =? 34 then ([], t)
      else match t' with
           | d :: t'' =>
               if (c =? 92) && (d =? 34)
               then let '(w, r) := quoted t'' in (c :: d :: w, r)
               else let '(w, r) := quoted t' in (c :: w, r)
           | [] => ([c], [])
           end
  end.

(** At most [n] arguments. *)
Fixpoint tokens (n : nat) (t : list Z) : list (list Z) :=
  match n with
  | O => []
  | S n =>
      match snd (span is_blank t) with
      | [] => []
      | c :: t' =>
          if c =? 34 then let '(w, r) := quoted t' in w :: tokens n (tail r)
          else let '(w, r) := span (fun c => negb (is_blank c)) (c :: t') in w :: tokens n r
      end
  end.

(** ** Scanning *)

Lemma span_app (f : Z -> bool) (t : list Z) : t = fst (span f t) ++ snd (span f t).
Proof.
  induction t as [|c t IH]; [done|]. cbn [span]. destruct (f c); [|done].
  destruct (span f t) as [w r]. simpl in *. by rewrite <- IH.
Qed.

Lemma span_stop (f : Z -> bool) (t : list Z) (c : Z) (r : list Z) : snd (span f t) = c :: r -> f c = false.
Proof.
  induction t as [|d t IH]; [done|]. cbn [span]. destruct (f d) eqn:E; [|by intros [= <- _]].
  destruct (span f t) as [w r']. exact IH.
Qed.

Lemma span_all (f : Z -> bool) (t : list Z) : Forall (fun c => f c = true) (fst (span f t)).
Proof.
  induction t as [|d t IH]; [constructor|]. cbn [span]. destruct (f d) eqn:E; [|constructor].
  destruct (span f t) as [w r']. by constructor.
Qed.

Lemma quoted_app (t : list Z) : t = fst (quoted t) ++ snd (quoted t).
Proof.
  induction t as [t IH] using (induction_ltof1 _ (@length Z)). unfold ltof in IH.
  destruct t as [|c t]; [done|]. cbn [quoted]. destruct (c =? 34); [done|].
  destruct t as [|d t]; [done|]. destruct ((c =? 92) && (d =? 34)).
  - pose proof (IH t ltac:(simpl; lia)) as H. destruct (quoted t) as [w r]. simpl in *. by rewrite <- H.
  - pose proof (IH (d :: t) ltac:(simpl; lia)) as H. destruct (quoted (d :: t)) as [w r]. simpl in *. by rewrite <- H.
Qed.

Lemma quoted_stop (t : list Z) (c : Z) (r : list Z) : snd (quoted t) = c :: r -> c = 34.
Proof.
  revert c r. induction t as [t IH] using (induction_ltof1 _ (@length Z)). unfold ltof in IH. intros c r.
  destruct t as [|d t]; [done|]. cbn [quoted]. destruct (Z.eqb_spec d 34) as [->|]; [by intros [= <- _]|].
  destruct t as [|e t]; [done|]. destruct ((d =? 92) && (e =? 34)).
  - specialize (IH t ltac:(simpl; lia)). destruct (quoted t) as [w r']. exact (IH c r).
  - specialize (IH (e :: t) ltac:(simpl; lia)). destruct (quoted (e :: t)) as [w r']. exact (IH c r).
Qed.

Section Scan.
Context (rest : list Z).

(** The buffer: what is behind the pointer, the rest of the line, its terminator. *)
Definition at_ (pre text : list Z) : list Z := pre ++ text ++ 0 :: rest.
Definition end_ (pre text : list Z) : Z := Z.of_nat (length pre) + Z.of_nat (length text).

Lemma at_head (pre text : list Z) : at_ pre text !! length pre = Some (default 0 (head text)).
Proof.
  unfold at_. rewrite lookup_app_r, Nat.sub_diag by lia. by destruct text.
Qed.

Lemma at_shift (pre text : list Z) (c : Z) : at_ pre (c :: text) = at_ (pre ++ [c]) text.
Proof. unfold at_. by rewrite <- app_assoc. Qed.

Lemma end_shift (pre text : list Z) (c : Z) : end_ pre (c :: text) = end_ (pre ++ [c]) text.
Proof. unfold end_. rewrite length_app. simpl. lia. Qed.

Lemma at_app (pre a b : list Z) : at_ pre (a ++ b) = at_ (pre ++ a) b.
Proof. unfold at_. by rewrite !app_assoc. Qed.

Lemma end_app (pre a b : list Z) : end_ pre (a ++ b) = end_ (pre ++ a) b.
Proof. unfold end_. rewrite !length_app. lia. Qed.

Lemma at_set (pre text : list Z) (c : Z) : <[length pre := 0]> (at_ pre (c :: text)) = at_ pre (0 :: text).
Proof. unfold at_. rewrite insert_app_r_alt, Nat.sub_diag by lia. done. Qed.

Lemma length_snoc (pre : list Z) (c : Z) : length (pre ++ [c]) = S (length pre).
Proof. rewrite length_app. simpl. lia. Qed.

Lemma end_more (pre text : list Z) (c : Z) : (Z.of_nat (length pre) <? end_ pre (c :: text)) = true.
Proof. apply Z.ltb_lt. unfold end_. rewrite length_cons. lia. Qed.

Lemma end_none (pre : list Z) : (Z.of_nat (length pre) <? end_ pre []) = false.
Proof. apply Z.ltb_ge. unfold end_. simpl. lia. Qed.

Lemma skip_blanks_ok (text : list Z) : forall fuel pre, (length text < fuel)%nat ->
  skip_blanks fuel (length pre) (end_ pre text) (at_ pre text) =
    let '(b, t) := span is_blank text in
    Some ((length pre + length b)%nat, at_ (pre ++ repeat 0 (length b)) t).
Proof.
  induction text as [|c text IH]; intros fuel pre Hf; (destruct fuel as [|fuel]; [simpl in Hf; lia|]);
    cbn [skip_blanks]; rewrite at_head; cbn [head default from_option mbind option_bind span]; cbn [id].
  - cbn [is_blank Z.eqb orb andb]. simpl. by rewrite Nat.add_0_r, app_nil_r.
  - rewrite end_more, andb_true_r. destruct (is_blank c).
    + rewrite at_set, at_shift, end_shift. change (end_ (pre ++ [c]) text) with (end_ (pre ++ [c]) text).
      replace (end_ (pre ++ [c]) text) with (end_ (pre ++ [0]) text) by (unfold end_; rewrite !length_app; done).
      rewrite <- (length_snoc pre 0). rewrite IH by (simpl in Hf; lia).
      destruct (span is_blank text) as [b t]. rewrite length_snoc. simpl. f_equal. f_equal; [lia|].
      by rewrite <- app_assoc.
    + simpl. by rewrite Nat.add_0_r, app_nil_r.
Qed.

Lemma skip_word_ok (text : list Z) : forall fuel pre, (length text < fuel)%nat ->
  skip_word fuel (length pre) (end_ pre text) (at_ pre text) =
    Some (length pre + length (fst (span (fun c => negb (is_blank c)) text)))%nat.
Proof.
  induction text as [|c text IH]; intros fuel pre Hf; (destruct fuel as [|fuel]; [simpl in Hf; lia|]);
    cbn [skip_word]; rewrite at_head; cbn [head default from_option mbind option_bind span]; cbn [id].
  - rewrite end_none, andb_false_r. simpl. by rewrite Nat.add_0_r.
  - rewrite end_more, andb_true_r. destruct (is_blank c); cbn [negb].
    + simpl. by rewrite Nat.add_0_r.
    + rewrite at_shift, end_shift, <- (length_snoc pre c), IH by (simpl in Hf; lia).
      rewrite length_snoc. destruct (span _ text) as [w r]. simpl. f_equal. lia.
Qed.

Lemma skip_string_ok (text : list Z) : forall fuel pre, (length text < fuel)%nat ->
  skip_string fuel (length pre) (end_ pre text) (at_ pre text) = Some (length pre + length (fst (quoted text)))%nat.
Proof.
  induction text as [text IH] using (induction_ltof1 _ (@length Z)). unfold ltof in IH. intros fuel pre Hf.
  destruct fuel as [|fuel]; [lia|]. cbn [skip_string]. rewrite at_head.
  destruct text as [|c text]; cbn [head default from_option mbind option_bind]; cbn [id].
  - rewrite end_none, andb_false_r. simpl. by rewrite Nat.add_0_r.
  - rewrite end_more, andb_true_r. cbn [quoted]. destruct (Z.eqb_spec c 34) as [->|Hc]; cbn [negb].
    { simpl. by rewrite Nat.add_0_r. }
    assert (Hone : skip_string fuel (S (length pre)) (end_ pre (c :: text)) (at_ pre (c :: text)) =
      Some (length pre + S (length (fst (quoted text))))%nat).
    { rewrite at_shift, end_shift, <- (length_snoc pre c), IH by (simpl in *; lia). rewrite length_snoc. f_equal. lia. }
    destruct (Z.eqb_spec c 92) as [->|H92].
    + rewrite at_shift at 1. rewrite <- (length_snoc pre 92), at_head. rewrite length_snoc. cbn [mbind option_bind].
      destruct text as [|d text]; cbn [head default from_option]; cbn [id andb].
      * cbn [Z.eqb]. rewrite Hone. done.
      * change (92 =? 92) with true. cbn [andb]. destruct (Z.eqb_spec d 34) as [->|Hd].
        -- rewrite 2!at_shift, 2!end_shift, <- (length_snoc pre 92), <- (length_snoc (pre ++ [92]) 34), IH by (simpl in *; lia).
           rewrite !length_snoc. destruct (quoted text) as [w r]. simpl. f_equal. lia.
        -- rewrite Hone. destruct (quoted (d :: text)) as [w r]. simpl. done.
    + rewrite Hone. destruct text as [|d text]; [done|]. cbn [andb]. destruct (quoted (d :: text)) as [w r]. done.
Qed.
End Scan.

Definition nul_free (t : list Z) : Prop := Forall (fun c => c <> 0) t.

Lemma cstr_stop (w r : list Z) : nul_free w -> cstr (w ++ 0 :: r) = w.
Proof.
  induction 1 as [|c w Hc _ IH]; [done|]. cbn [app cstr]. rewrite (proj2 (Z.eqb_neq _ _) Hc). by rewrite IH.
Qed.

Lemma nul_free_app (a b : list Z) : nul_free (a ++ b) <-> nul_free a /\ nul_free b.
Proof. apply Forall_app. Qed.

Lemma span_blank_head (f : Z -> bool) (x : Z) (r : list Z) : f x = true -> exists b, fst (span f (x :: r)) = x :: b.
Proof. intros H. cbn [span]. rewrite H. destruct (span f r). by eexists. Qed.

Section Split.
Context (rest : list Z).

(** What the loop leaves: [mid] in place of the text behind [pre], and the new arguments. *)
Record post (pre text mid : list Z) (argv : list nat) (toks : list (list Z)) (res : option (list nat * list Z)) : Prop := {
  po_len : length mid = length text;
  po_res : exists new, res = Some (argv ++ new, pre ++ mid ++ 0 :: rest) /\
    map (fun p => cstr (drop p (pre ++ mid ++ 0 :: rest))) new = toks }.

Lemma post_none (pre t : list Z) (argv : list nat) : post pre t t argv [] (Some (argv, at_ rest pre t)).
Proof. split; [done|]. exists []. by rewrite app_nil_r. Qed.

(** Characters that are passed, or overwritten with as many. *)
Lemma post_skip (pre b z t mid : list Z) argv toks res : length z = length b ->
  post (pre ++ z) t mid argv toks res -> post pre (b ++ t) (z ++ mid) argv toks res.
Proof.
  intros Hz [L (new & R & T)]. rewrite <- app_assoc in R, T. split; [rewrite !length_app; lia|].
  exists new. rewrite <- (app_assoc z). done.
Qed.

(** The last argument, and one that a terminator ends. *)
Lemma post_last (pre w : list Z) argv : nul_free w ->
  post pre w w argv [w] (Some (argv ++ [length pre], at_ rest pre w)).
Proof.
  intros Hw. split; [done|]. exists [length pre]. split; [done|]. cbn [map]. f_equal.
  rewrite drop_app_length. by apply cstr_stop.
Qed.

Lemma post_arg (pre w t m : list Z) argv toks res : nul_free w ->
  post (pre ++ w) t (0 :: m) (argv ++ [length pre]) toks res -> post pre (w ++ t) (w ++ 0 :: m) argv (w :: toks) res.
Proof.
  intros Hw [L (new & R & T)]. rewrite <- (app_assoc pre), <- (app_assoc argv) in R.
  rewrite <- (app_assoc pre) in T. split; [rewrite !length_app; lia|].
  exists (length pre :: new). rewrite <- (app_assoc w). split; [done|]. cbn [map]. f_equal; [|done].
  rewrite drop_app_length. by apply cstr_stop.
Qed.

Lemma tokens_blank (n : nat) (text : list Z) : tokens n text = tokens n (snd (span is_blank text)).
Proof.
  destruct n as [|n]; [done|]. cbn [tokens].
  assert (E : snd (span is_blank (snd (span is_blank text))) = snd (span is_blank text)); [|by rewrite E].
  pose proof (span_stop is_blank text) as H. destruct (snd (span is_blank text)) as [|c t]; [done|].
  cbn [span]. by rewrite (H c t).
Qed.

(** The loop at a character that is not blank, for any way to go on. *)
Section Argument.
Context (n : nat) (argv : list nat) (go : nat -> list Z -> list nat -> option (list nat * list Z)).
Context (c : Z) (t pre : list Z) (len : Z).
Context (Hlen : len = end_ pre (c :: t)) (Hc : is_blank c = false) (Hnf : nul_free (c :: t)).

(** [go] continues behind the argument. *)
Context (IH : forall text pre' argv', (length text <= length t)%nat -> length argv' = S (length argv) -> nul_free text ->
  len = end_ pre' text ->
  exists mid, post pre' text mid argv' (tokens n text) (go (length pre') (at_ rest pre' text) argv') /\
    (forall x r, text = x :: r -> is_blank x = true -> exists m, mid = 0 :: m)).

Lemma string_ok (F : nat) : c = 34 -> (length t < F)%nat ->
  exists mid, post pre (c :: t) mid argv (tokens (S n) (c :: t))
    (e ← skip_string F (S (length pre)) len (at_ rest pre (c :: t));
     if Z.of_nat e >=? len then Some (argv ++ [S (length pre)], at_ rest pre (c :: t))
     else go (S e) (<[e := 0]> (at_ rest pre (c :: t))) (argv ++ [S (length pre)])).
Proof.
  intros E HF. subst c. cbn [tokens span]. change (is_blank 34) with false. cbn [snd]. change (34 =? 34) with true. cbv iota.
  apply Forall_cons in Hnf as [_ Hnt]. rewrite Hlen, at_shift, end_shift, <- (length_snoc pre 34), skip_string_ok by done.
  pose proof (quoted_app t) as Eq. pose proof (quoted_stop t) as Hq. destruct (quoted t) as [w r].
  cbn [fst snd mbind option_bind] in *. set (p := pre ++ [34]). subst t. apply nul_free_app in Hnt as [Hw Hr].
  rewrite <- length_app, at_app, end_app. destruct r as [|d r].
  - rewrite Z.geb_leb, Z.leb_antisym, end_none. cbn [negb tail]. rewrite app_nil_r. exists (34 :: w).
    apply (post_skip pre [34] [34]); [done|]. replace (tokens n []) with (@nil (list Z)) by by destruct n.
    unfold at_. rewrite <- app_assoc. by apply post_last.
  - rewrite (Hq d r eq_refl) in *. rewrite Z.geb_leb, Z.leb_antisym, end_more. cbn [negb tail].
    rewrite at_set, at_shift, <- (length_snoc (p ++ w) 0).
    destruct (IH r ((p ++ w) ++ [0]) (argv ++ [length p])) as (mid & Hpost & _).
    + rewrite length_app. simpl. lia.
    + rewrite length_app. simpl. lia.
    + by apply Forall_cons in Hr as [_ Hr].
    + rewrite Hlen. unfold end_, p. rewrite ?length_app. simpl. rewrite ?length_app. simpl. lia.
    + exists (34 :: w ++ 0 :: mid). apply (post_skip pre [34] [34]); [done|]. apply post_arg; [done|].
      by apply (post_skip (p ++ w) [34] [0]).
Qed.

Lemma word_ok (F : nat) : c <> 34 -> (length (c :: t) < F)%nat ->
  exists mid, post pre (c :: t) mid argv (tokens (S n) (c :: t))
    (e ← skip_word F (length pre) len (at_ rest pre (c :: t));
     if Z.of_nat e >=? len then Some (argv ++ [length pre], at_ rest pre (c :: t))
     else go e (at_ rest pre (c :: t)) (argv ++ [length pre])).
Proof.
  intros Hne HF. cbn [tokens]. replace (snd (span is_blank (c :: t))) with (c :: t) by (cbn [span]; by rewrite Hc).
  rewrite (proj2 (Z.eqb_neq c 34) Hne). rewrite Hlen, skip_word_ok by done.
  set (f := fun c => negb (is_blank c)).
  assert (Hfirst : exists w', fst (span f (c :: t)) = c :: w').
  { cbn [span]. unfold f at 1. rewrite Hc. cbn [negb]. destruct (span f t). by eexists. }
  pose proof (span_app f (c :: t)) as Eq. pose proof (span_stop f (c :: t)) as Hq.
  destruct (span f (c :: t)) as [w r]. cbn [fst snd mbind option_bind] in *.
  destruct Hfirst as [w' ->]. rewrite Eq in Hnf. apply nul_free_app in Hnf as [Hw Hr].
  assert (Elen : length t = (length w' + length r)%nat) by (apply (f_equal length) in Eq; rewrite length_app in Eq; simpl in Eq; lia).
  rewrite Eq, at_app, end_app, <- length_app. destruct r as [|d r].
  - rewrite Z.geb_leb, Z.leb_antisym, end_none. cbn [negb]. rewrite app_nil_r. exists (c :: w').
    replace (tokens n []) with (@nil (list Z)) by by destruct n.
    unfold at_. rewrite <- app_assoc. by apply post_last.
  - rewrite Z.geb_leb, Z.leb_antisym, end_more. cbn [negb].
    destruct (IH (d :: r) (pre ++ c :: w') (argv ++ [length pre])) as (mid & Hpost & Hz).
    + simpl in *. lia.
    + rewrite length_app. simpl. lia.
    + done.
    + by rewrite Hlen, Eq, end_app.
    + destruct (Hz d r eq_refl) as [m ->]; [apply negb_false_iff, (Hq d r eq_refl)|].
      exists ((c :: w') ++ 0 :: m). by apply post_arg.
Qed.
End Argument.

Lemma split_loop_ok (n : nat) : forall text pre argv fuel,
  (n + length argv = FINSH_ARG_MAX)%nat -> (length text < fuel)%nat -> nul_free text ->
  exists mid, post pre text mid argv (tokens n text) (split_loop fuel (length pre) (end_ pre text) (at_ rest pre text) argv) /\
    (forall x r, text = x :: r -> is_blank x = true -> exists m, mid = 0 :: m).
Proof.
  induction n as [|n IH]; intros text pre argv fuel Hn Hf Hnf; (destruct fuel as [|fuel]; [lia|]); cbn [split_loop].
  all: destruct (decide (text = [])) as [->|Hne]; [rewrite end_none; exists []; split; [apply post_none|done]|].
  all: assert (Hpos : (Z.of_nat (length pre) <? end_ pre text) = true) by (destruct text; [done|apply end_more]).
  all: rewrite Hpos, (skip_blanks_ok rest) by (unfold at_; rewrite !length_app; simpl; lia).
  all: rewrite tokens_blank; pose proof (span_app is_blank text) as Et; pose proof (span_stop is_blank text) as Hstop;
    assert (Hhead : forall x r, text = x :: r -> is_blank x = true -> exists b, fst (span is_blank text) = x :: b)
      by (intros x r -> Hx; by apply span_blank_head);
    destruct (span is_blank text) as [b t]; cbn [fst snd mbind option_bind] in *; set (z := repeat 0 (length b)).
  all: assert (Hz : length z = length b) by apply repeat_length.
  all: assert (Hz0 : forall mid x r, text = x :: r -> is_blank x = true -> exists m, z ++ mid = 0 :: m)
    by (intros mid x r Ex Hx; destruct (Hhead x r Ex Hx) as [b' ->]; by eexists).
  - rewrite (proj2 (Nat.leb_le _ _)) by lia. exists (z ++ t). split; [|by apply Hz0]. rewrite Et.
    apply post_skip; [done|apply post_none].
  - rewrite (proj2 (Nat.leb_gt _ _)) by (unfold FINSH_ARG_MAX in *; lia).
    replace (length pre + length b)%nat with (length (pre ++ z)) by (rewrite length_app; lia).
    assert (Ee : end_ pre text = end_ (pre ++ z) t) by (rewrite Et, end_app; unfold end_; rewrite !length_app; lia).
    rewrite Ee. rewrite Et in Hnf, Hf. apply nul_free_app in Hnf as [_ Hnf]. rewrite length_app in Hf.
    cut (exists mid, post (pre ++ z) t mid argv (tokens (S n) t)
      (if Z.of_nat (length (pre ++ z)) >=? end_ (pre ++ z) t then Some (argv, at_ rest (pre ++ z) t)
       else c ← at_ rest (pre ++ z) t !! length (pre ++ z);
         if c =? 34 then
           e ← skip_string (S (length (at_ rest (pre ++ z) t))) (S (length (pre ++ z))) (end_ (pre ++ z) t) (at_ rest (pre ++ z) t);
           if Z.of_nat e >=? end_ (pre ++ z) t then Some (argv ++ [S (length (pre ++ z))], at_ rest (pre ++ z) t)
           else split_loop fuel (S e) (end_ (pre ++ z) t) (<[e := 0]> (at_ rest (pre ++ z) t)) (argv ++ [S (length (pre ++ z))])
         else
           e ← skip_word (S (length (at_ rest (pre ++ z) t))) (length (pre ++ z)) (end_ (pre ++ z) t) (at_ rest (pre ++ z) t);
           if Z.of_nat e >=? end_ (pre ++ z) t then Some (argv ++ [length (pre ++ z)], at_ rest (pre ++ z) t)
           else split_loop fuel e (end_ (pre ++ z) t) (at_ rest (pre ++ z) t) (argv ++ [length (pre ++ z)]))).
    { intros (mid & Hmid). exists (z ++ mid). split; [|by apply Hz0]. rewrite Et at 1. by apply post_skip. }
    clear Hz0 Hhead Hpos. destruct t as [|c t].
    { rewrite Z.geb_leb, Z.leb_antisym, end_none. cbn [negb]. exists []. apply post_none. }
    rewrite Z.geb_leb, Z.leb_antisym, end_more. cbn [negb]. rewrite at_head. cbn [head default from_option mbind option_bind].
    cbn [id].
    assert (IH' : forall text0 pre' argv', (length text0 <= length t)%nat -> length argv' = S (length argv) -> nul_free text0 ->
      end_ (pre ++ z) (c :: t) = end_ pre' text0 ->
      exists mid, post pre' text0 mid argv' (tokens n text0)
        (split_loop fuel (length pre') (end_ (pre ++ z) (c :: t)) (at_ rest pre' text0) argv') /\
      (forall x r, text0 = x :: r -> is_blank x = true -> exists m, mid = 0 :: m)).
    { intros text0 pre' argv' L1 L2 L3 ->. apply IH; [lia|simpl in Hf; lia|done]. }
    assert (HF : (length (c :: t) < S (length (at_ rest (pre ++ z) (c :: t))))%nat)
      by (unfold at_; rewrite !length_app; simpl; lia).
    destruct (Z.eqb_spec c 34) as [Hc|Hc].
    + apply (string_ok n argv (fun p b a => split_loop fuel p (end_ (pre ++ z) (c :: t)) b a)); try done; [by apply (Hstop c t)|]. rewrite length_cons in HF. lia.
    + apply (word_ok n argv (fun p b a => split_loop fuel p (end_ (pre ++ z) (c :: t)) b a)); try done. by apply (Hstop c t).
Qed.
End Split.

(** ** Whole lines *)

Lemma skip_word_line (t r : list Z) :
  skip_word (S (length (t ++ 0 :: r))) 0 (Z.of_nat (length t)) (t ++ 0 :: r) =
    Some (length (fst (span (fun c => negb (is_blank c)) t))).
Proof. apply (skip_word_ok r t _ []). rewrite length_app. lia. Qed.

Lemma msh_split_line (text rest : list Z) : nul_free text ->
  exists argv mid, msh_split (text ++ 0 :: rest) (Z.of_nat (length text)) = Some (argv, mid ++ 0 :: rest) /\
    length mid = length text /\ map (fun p => cstr (drop p (mid ++ 0 :: rest))) argv = tokens FINSH_ARG_MAX text.
Proof.
  intros Hnf.
  destruct (split_loop_ok rest FINSH_ARG_MAX text [] [] (S (length (text ++ 0 :: rest)))) as (mid & [L (new & R & T)] & _).
  - done.
  - rewrite length_app. lia.
  - done.
  - exists new, mid. unfold msh_split. unfold end_ in R. split_and!; [exact R|done|exact T].
Qed.

(** C29: [msh_split] on a line of [text], whatever is behind its terminator, keeps inside
    the buffer, and the arguments are the first ten tokens of the text: each [argv] is
    the start of a string with the characters of its token, in a buffer of the same
    length in which what is behind the terminator is untouched. *)
Theorem msh_split_tokens (text rest : list Z) (Hnf : nul_free text) :
  exists argv mid, msh_split (text ++ 0 :: rest) (Z.of_nat (length text)) = Some (argv, mid ++ 0 :: rest) /\
    length mid = length text /\ map (fun p => cstr (drop p (mid ++ 0 :: rest))) argv = tokens FINSH_ARG_MAX text.
Proof. by apply msh_split_line. Qed.

(** The command echo with a quoted argument that holds an escaped quote, and a second argument. *)
Lemma msh_split_tokens_witness :
  let text := [101; 99; 104; 111; 32; 34; 97; 32; 92; 34; 32; 98; 34; 9; 99] in
  nul_free text /\ tokens FINSH_ARG_MAX text = [[101; 99; 104; 111]; [97; 32; 92; 34; 32; 98]; [99]] /\
  exists argv mid, msh_split (text ++ 0 :: [7]) (Z.of_nat (length text)) = Some (argv, mid ++ 0 :: [7]) /\
    length mid = length text /\ map (fun p => cstr (drop p (mid ++ 0 :: [7]))) argv = tokens FINSH_ARG_MAX text.
Proof.
  intros text. assert (H : nul_free text) by (repeat constructor; lia).
  split; [exact H|]. split; [vm_compute; reflexivity|]. exact (msh_split_tokens text [7] H).
Defined.
