(* ===== verification/ShellExec.v ===== *)
(** * Looking a command up and running it
    What Enter does with the text of the line, and what Tab makes of it: the commands are
    the entries of the table whose names start with the prefix of a command. *)

From S2P Require Import Prelude CStr Shell ShellSplit.

(** ** The commands of a table *)

Definition table_ok (table : list finsh_syscall) : Prop := Forall (fun e => cstring (name e)) table.

(** The function of the first entry of that name. *)
Fixpoint find_cmd (table : list finsh_syscall) (w : list Z) : option Z :=
  match table with
  | [] => None
  | e :: table => if bool_decide (name e = CMD_PREFIX ++ w) then Some (func e) else find_cmd table w
  end.

(** The text without the blanks in front. *)
Definition strip (text : list Z) : list Z := snd (span is_blank text).
Definition first_word (text : list Z) : list Z := fst (span (fun c => negb (is_blank c)) text).

(** What a line does: nothing, or a command with its arguments, or the message. *)
Definition exec_spec (table : list finsh_syscall) (text : list Z) : option run_event :=
  match strip text with
  | [] => None
  | t =>
      match find_cmd table (first_word t) with
      | Some f => Some (Run f (tokens FINSH_ARG_MAX t))
      | None => Some NotFound
      end
  end.

(** The names that the text is a prefix of. *)
Definition candidates (table : list finsh_syscall) (text : list Z) : list (list Z) :=
  filter (fun w => text `prefix_of` w) (cmd_name <$> filter (fun e => CMD_PREFIX `prefix_of` name e) table).

Fixpoint common (a b : list Z) : list Z :=
  match a, b with
  | c :: a, d :: b => if c =? d then c :: common a b else []
  | _, _ => []
  end.

(** The longest text that is a prefix of every candidate; the empty text stays. *)
Definition complete_spec (table : list finsh_syscall) (text : list Z) : list Z :=
  match candidates table text with
  | [] => text
  | w :: ws => if bool_decide (text = []) then text else foldl common w ws
  end.

(** ** Strings *)

Lemma cstring_nul_free (t : list Z) : cstring t -> nul_free t.
Proof. intros H. apply (Forall_impl _ _ _ H). by intros c [_ Hc]. Qed.

Lemma s8_diff (c d : Z) : - 128 <= c < 128 -> - 128 <= d < 128 -> s8 (c - d) = 0 <-> c = d.
Proof. intros. split; [|intros ->; by rewrite Z.sub_diag]. zlia. Qed.

Lemma strncmp_name (w : list Z) : forall s r, cstring w -> cstring s ->
  strncmp s (w ++ r) (length w) = 0 <-> w `prefix_of` s.
Proof.
  induction w as [|d w IH]; intros s r Hw Hs; cbn [length strncmp app].
  - split; [intros _; apply prefix_nil|done].
  - apply Forall_cons in Hw as [[Hd Hd0] Hw]. cbn [head default from_option tail]. cbn [id].
    destruct s as [|c s]; cbn [head default from_option tail].
    + assert (E : s8 (0 - d) <> 0) by (rewrite s8_diff by lia; lia). rewrite (proj2 (Z.eqb_neq _ _) E). cbn [negb orb].
      split; [done|]. by intros [k [=]].
    + apply Forall_cons in Hs as [[Hc Hc0] Hs]. cbn [id]. rewrite (proj2 (Z.eqb_neq c 0) Hc0), orb_false_r.
      pose proof (s8_diff c d Hc Hd) as E. destruct (Z.eqb_spec (s8 (c - d)) 0) as [E0|E0]; cbn [negb].
      * apply E in E0 as ->. rewrite IH by done. split; [apply prefix_cons|apply prefix_cons_inv_2].
      * split; [done|]. intros Hp. apply prefix_cons_inv_1 in Hp. symmetry in Hp. by apply E in Hp.
Qed.

Lemma strncmp_text (w : list Z) : forall s, cstring w -> cstring s ->
  strncmp w s (length w) = 0 <-> w `prefix_of` s.
Proof.
  induction w as [|d w IH]; intros s Hw Hs; cbn [length strncmp].
  - split; [intros _; apply prefix_nil|done].
  - apply Forall_cons in Hw as [[Hd Hd0] Hw]. cbn [head default from_option tail]. cbn [id].
    rewrite (proj2 (Z.eqb_neq d 0) Hd0), orb_false_r. destruct s as [|c s]; cbn [head default from_option tail].
    + assert (E : s8 (d - 0) <> 0) by (rewrite s8_diff by lia; lia). rewrite (proj2 (Z.eqb_neq _ _) E).
      split; [done|]. by intros [k [=]].
    + apply Forall_cons in Hs as [[Hc Hc0] Hs]. cbn [id].
      pose proof (s8_diff d c Hd Hc) as E. destruct (Z.eqb_spec (s8 (d - c)) 0) as [E0|E0]; cbn [negb].
      * apply E in E0 as ->. rewrite IH by done. split; [apply prefix_cons|apply prefix_cons_inv_2].
      * split; [done|]. intros Hp. apply prefix_cons_inv_1 in Hp. by apply E in Hp.
Qed.

Lemma cmd_prefix_ok : cstring CMD_PREFIX.
Proof. repeat constructor; lia. Qed.

Lemma is_command_spec (e : finsh_syscall) : cstring (name e) -> is_command e = true <-> CMD_PREFIX `prefix_of` name e.
Proof.
  intros H. unfold is_command. rewrite Z.eqb_eq.
  exact (strncmp_name CMD_PREFIX (name e) [] cmd_prefix_ok H).
Qed.

Lemma cmd_name_spec (e : finsh_syscall) : CMD_PREFIX `prefix_of` name e -> name e = CMD_PREFIX ++ cmd_name e.
Proof. intros [k E]. unfold cmd_name. rewrite E. reflexivity. Qed.

Lemma cmd_name_ok (e : finsh_syscall) : cstring (name e) -> cstring (cmd_name e).
Proof. apply Forall_drop. Qed.

(** ** Lookup *)

Lemma znth_past (w s : list Z) : cstring s -> w `prefix_of` s -> znth 0 s (Z.of_nat (length w)) = 0 <-> s = w.
Proof.
  intros Hs [k ->]. apply Forall_app in Hs as [_ Hk]. unfold znth.
  rewrite Nat2Z.id, lookup_app_r, Nat.sub_diag by lia.
  destruct k as [|c k]; simpl.
  - by rewrite app_nil_r.
  - apply Forall_cons in Hk as [[_ Hc] _]. split; [done|]. intros E.
    apply (f_equal length) in E. rewrite length_app in E. simpl in E. lia.
Qed.

Lemma msh_get_cmd_spec (w r : list Z) (table : list finsh_syscall) : cstring w -> table_ok table ->
  msh_get_cmd table (w ++ r) (length w) = find_cmd table w.
Proof.
  intros Hw. induction 1 as [|e table He Ht IH]; [done|]. cbn [msh_get_cmd find_cmd]. rewrite IH.
  pose proof (is_command_spec e He) as Hc. pose proof (cmd_name_ok e He) as Hn.
  pose proof (strncmp_name w (cmd_name e) r Hw Hn) as Hp.
  case_bool_decide as E.
  - assert (Hpre : CMD_PREFIX `prefix_of` name e) by (by exists w). rewrite (proj2 Hc Hpre).
    rewrite (cmd_name_spec e Hpre) in E. apply app_inv_head in E. rewrite E in *.
    rewrite (proj2 (Z.eqb_eq _ 0)) by (apply Hp; done). cbn [andb].
    by rewrite (proj2 (Z.eqb_eq _ 0)) by (by apply znth_past).
  - destruct (is_command e); [|done]. destruct (Z.eqb_spec (strncmp (cmd_name e) (w ++ r) (length w)) 0) as [E1|]; [|done].
    apply Hp in E1. rewrite (proj2 (Z.eqb_neq _ 0)); [done|]. rewrite znth_past by done. intros E2. apply E.
    rewrite (cmd_name_spec e) by (by apply Hc). by rewrite E2.
Qed.

(** ** Execution *)

Lemma strip_stop (text : list Z) c t : strip text = c :: t -> is_blank c = false.
Proof. apply span_stop. Qed.

Lemma strip_suffix (P : Z -> Prop) (text : list Z) : Forall P text -> Forall P (strip text).
Proof. intros H. rewrite (span_app is_blank text) in H. by apply Forall_app in H as [_ H]. Qed.

Lemma trim_spec (r text : list Z) : Z.of_nat (length text) < 2 ^ 32 ->
  trim (text ++ 0 :: r) (Z.of_nat (length text)) = Some (strip text ++ 0 :: r, Z.of_nat (length (strip text))).
Proof.
  unfold strip. induction text as [|c text IH]; intros Hl; [done|]. rewrite length_cons in *. cbn [app trim span].
  destruct (is_blank c); [|done]. rewrite u32_small by lia. replace (Z.of_nat (S (length text)) - 1) with (Z.of_nat (length text)) by lia.
  rewrite IH by lia. by destruct (span is_blank text).
Qed.

Lemma first_word_app (t : list Z) : exists r, t = first_word t ++ r.
Proof. eexists. apply (span_app (fun c => negb (is_blank c))). Qed.

Lemma tokens_nonempty (c : Z) (t : list Z) : is_blank c = false -> tokens FINSH_ARG_MAX (c :: t) <> [].
Proof.
  intros Hb. cbn [tokens FINSH_ARG_MAX span]. rewrite Hb. cbn [snd]. destruct (c =? 34); [by destruct (quoted t)|].
  cbn [span]. rewrite Hb. cbn [negb]. by destruct (span _ t).
Qed.

(** On a text that starts with a word. *)
Lemma exec_cmd_spec (table : list finsh_syscall) (c : Z) (t r : list Z) :
  cstring (c :: t) -> is_blank c = false -> table_ok table ->
  _msh_exec_cmd table ((c :: t) ++ 0 :: r) (Z.of_nat (length (c :: t))) =
    Some ((fun f => Run f (tokens FINSH_ARG_MAX (c :: t))) <$> find_cmd table (first_word (c :: t))).
Proof.
  intros Hs Hb Ht. unfold _msh_exec_cmd. rewrite skip_word_line. cbn [mbind option_bind].
  change (fst (span (fun c => negb (is_blank c)) (c :: t))) with (first_word (c :: t)).
  destruct (first_word_app (c :: t)) as [u Eu].
  assert (Hne : (length (first_word (c :: t)) =? 0)%nat = false).
  { unfold first_word. destruct (span_blank_head (fun c => negb (is_blank c)) c t) as [w ->]; [by rewrite Hb|done]. }
  rewrite Hne. assert (Hw : cstring (first_word (c :: t))) by (rewrite Eu in Hs; by apply Forall_app in Hs as [? _]).
  replace (msh_get_cmd table ((c :: t) ++ 0 :: r) (length (first_word (c :: t)))) with (find_cmd table (first_word (c :: t)))
    by (rewrite Eu at 2; rewrite <- app_assoc; by rewrite msh_get_cmd_spec).
  destruct (find_cmd table (first_word (c :: t))) as [f|]; [|done].
  destruct (msh_split_line (c :: t) r) as (argv & mid & -> & _ & T); [by apply cstring_nul_free|].
  cbn [mbind option_bind]. rewrite bool_decide_false; [|intros ->; by apply (tokens_nonempty c t) in Hb; rewrite <- T in Hb].
  simpl. by rewrite T.
Qed.

Lemma msh_exec_spec (table : list finsh_syscall) (text r : list Z) :
  cstring text -> Z.of_nat (length text) < 2 ^ 32 -> table_ok table ->
  msh_exec table (text ++ 0 :: r) (Z.of_nat (length text)) = Some (exec_spec table text).
Proof.
  intros Hs Hl Ht. unfold msh_exec, exec_spec. rewrite trim_spec by done. cbn [mbind option_bind].
  pose proof (strip_stop text) as Hb. apply strip_suffix in Hs. destruct (strip text) as [|c t]; [done|].
  rewrite (proj2 (Z.eqb_neq _ 0)) by (rewrite length_cons; lia).
  rewrite exec_cmd_spec; [|done|by apply (Hb c t)|done]. by destruct (find_cmd table (first_word (c :: t))).
Qed.

(** ** Completion *)

Lemma common_prefix (b : list Z) : forall a, common a b `prefix_of` a.
Proof.
  induction b as [|d b IH]; intros [|c a]; cbn [common]; try apply prefix_nil.
  destruct (c =? d); [|apply prefix_nil]. apply prefix_cons, IH.
Qed.

Lemma str_common_spec (a : list Z) : forall b, str_common a b = Z.of_nat (length (common a b)).
Proof.
  induction a as [|c a IH]; intros [|d b]; cbn [str_common common]; try done.
  destruct (c =? d); [|done]. rewrite IH, length_cons. lia.
Qed.

Lemma common_same (a : list Z) : common a a = a.
Proof. induction a as [|c a IH]; cbn [common]; [done|]. by rewrite Z.eqb_refl, IH. Qed.

(** Against a prefix of [a]: the shorter of the two. *)
Lemma common_take (a : list Z) : forall n b,
  common (take n a) b = take (n `min` length (common a b)) a.
Proof.
  induction a as [|c a IH]; intros [|n] b; try done.
  destruct b as [|d b]; cbn [take common]; [done|]. destruct (c =? d); [|done]. simpl. by rewrite IH.
Qed.

Lemma common_above (t a : list Z) : forall b, t `prefix_of` a -> t `prefix_of` b -> t `prefix_of` common a b.
Proof.
  revert a. induction t as [|c t IH]; intros a b Ha Hb; [apply prefix_nil|].
  destruct a as [|x a]; [by destruct Ha|]. destruct b as [|y b]; [by destruct Hb|].
  pose proof (prefix_cons_inv_1 _ _ _ _ Ha) as <-. pose proof (prefix_cons_inv_1 _ _ _ _ Hb) as <-.
  cbn [common]. rewrite Z.eqb_refl. apply prefix_cons, IH; eapply prefix_cons_inv_2; done.
Qed.

(** The step for the name of a candidate. *)
Definition complete_name (acc : Z * list Z) (n : list Z) : Z * list Z :=
  let '(min_length, name_ptr) := acc in
  let '(min_length, name_ptr) := if min_length =? 0 then (strlen n, n) else (min_length, name_ptr) in
  let length := str_common name_ptr n in
  (if length <? min_length then length else min_length, name_ptr).

Lemma complete_fold (text : list Z) (table : list finsh_syscall) : cstring text -> table_ok table -> forall acc,
  foldl (complete_step text) acc table = foldl complete_name acc (candidates table text).
Proof.
  intros Ht. unfold candidates. induction 1 as [|e table He _ IH]; intros acc; [done|]. cbn [foldl]. rewrite IH.
  unfold complete_step. pose proof (is_command_spec e He) as Hc.
  pose proof (strncmp_text text (cmd_name e) Ht (cmd_name_ok e He)) as Hp.
  rewrite filter_cons. destruct (decide _) as [Hd|Hd]; cycle 1.
  { destruct (is_command e); [|done]. destruct Hd. by apply Hc. }
  rewrite (proj2 Hc Hd). cbn [andb]. rewrite fmap_cons, filter_cons. destruct (decide _) as [Hx|Hx].
  - rewrite (proj2 (Z.eqb_eq _ _)) by (by apply Hp). done.
  - rewrite (proj2 (Z.eqb_neq _ _)); [done|]. by intros E%Hp.
Qed.

Lemma complete_fold_spec (text w : list Z) (ws : list (list Z)) : forall acc, text <> [] -> text `prefix_of` acc ->
  acc `prefix_of` w -> Forall (prefix text) ws ->
  foldl complete_name (Z.of_nat (length acc), w) ws = (Z.of_nat (length (foldl common acc ws)), w) /\
  text `prefix_of` foldl common acc ws /\ foldl common acc ws `prefix_of` w.
Proof.
  induction ws as [|n ws IH]; intros acc Hne Ht Hw Hws; [done|]. apply Forall_cons in Hws as [Hn Hws]. cbn [foldl].
  assert (Hpos : (Z.of_nat (length acc) =? 0) = false).
  { apply Z.eqb_neq. apply prefix_length in Ht. destruct text; [done|]. simpl in Ht. lia. }
  unfold complete_name at 2. rewrite Hpos, str_common_spec.
  assert (Ec : common acc n = take (length acc `min` length (common w n)) w).
  { destruct Hw as [k Ew]. rewrite <- common_take. f_equal. by rewrite Ew, take_app_length. }
  assert (El : (if Z.of_nat (length (common w n)) <? Z.of_nat (length acc) then Z.of_nat (length (common w n))
     else Z.of_nat (length acc)) = Z.of_nat (length (common acc n))).
  { rewrite Ec, length_take. pose proof (prefix_length _ _ (common_prefix n w)). pose proof (prefix_length _ _ Hw).
    destruct (Z.ltb_spec (Z.of_nat (length (common w n))) (Z.of_nat (length acc))); lia. }
  rewrite El. apply IH; [done|by apply common_above| |done]. etrans; [apply common_prefix|done].
Qed.

Lemma candidates_prefix (table : list finsh_syscall) (text : list Z) : Forall (prefix text) (candidates table text).
Proof. apply Forall_forall. intros w Hw. by apply list_elem_of_filter in Hw as [Hw _]. Qed.

Lemma candidates_all (P : list Z -> Prop) (table : list finsh_syscall) (text : list Z) :
  Forall (fun e => P (cmd_name e)) table -> Forall P (candidates table text).
Proof.
  intros H. apply Forall_forall. intros w Hw. apply list_elem_of_filter in Hw as [_ Hw].
  apply list_elem_of_fmap in Hw as (e & -> & He). apply list_elem_of_filter in He as [_ He].
  by apply (proj1 (Forall_forall _ _) H).
Qed.
