(* ===== verification/ShellEdit.v ===== *)
(** * The line editor
    The thread of the shell edits a line in place, with a cursor, a ring of fifteen
    remembered lines and completion.  It behaves as an editor on a text with a position
    as long as no line reaches eighty characters. *)

From S2P Require Import Prelude CStr Shell ShellSplit ShellExec.

(** ** The editor *)

Inductive action :=
  | Nothing | Up | Down | Left | Right | Complete | Erase | Enter
  | Insert (c : Z).

Definition decode_plain (ch : Z) : action :=
  if (ch =? 0) || (ch =? 0xff) then Nothing
  else if ch =? 9 then Complete
  else if (ch =? 0x7f) || (ch =? 0x08) then Erase
  else if (ch =? 13) || (ch =? 10) then Enter
  else Insert (s8 ch).

(** A key, in the middle of an escape sequence or not. *)
Definition decode (mode : input_stat) (ch : Z) : input_stat * action :=
  if ch <? 0 then (mode, Nothing)
  else if ch =? 0x1b then (WAIT_SPEC_KEY, Nothing)
  else match mode with
       | WAIT_NORMAL => (WAIT_NORMAL, decode_plain ch)
       | WAIT_SPEC_KEY => if ch =? 0x5b then (WAIT_FUNC_KEY, Nothing) else (WAIT_NORMAL, decode_plain ch)
       | WAIT_FUNC_KEY =>
           (WAIT_NORMAL,
            if ch =? 0x41 then Up else if ch =? 0x42 then Down else if ch =? 0x44 then Left
            else if ch =? 0x43 then Right else decode_plain ch)
       end.

(** [ed_hist] has the oldest line first; [ed_cur] is the line that Up and Down start from. *)
Record editor := Ed {
  ed_mode : input_stat;
  ed_text : list Z;
  ed_pos : nat;
  ed_hist : list (list Z);
  ed_cur : nat }.

Definition with_text (t : list Z) (pos : nat) (a : editor) : editor := Ed (ed_mode a) t pos (ed_hist a) (ed_cur a).
Definition with_mode (m : input_stat) (a : editor) : editor := Ed m (ed_text a) (ed_pos a) (ed_hist a) (ed_cur a).

(** The remembered line, with the cursor at its end. *)
Definition go_to (n : nat) (a : editor) : editor :=
  let t := default [] (ed_hist a !! n) in Ed (ed_mode a) t (length t) (ed_hist a) n.

(** The last fifteen lines that differ from the line before. *)
Definition remember (t : list Z) (h : list (list Z)) : list (list Z) :=
  if bool_decide (t = []) || bool_decide (last h = Some t) then h else lastn 14 h ++ [t].

(** [None]: the line would reach eighty characters. *)
Definition ed_step (table : list finsh_syscall) (act : action) (a : editor) : option (editor * option run_event) :=
  let t := ed_text a in let pos := ed_pos a in
  match act with
  | Nothing => Some (a, None)
  | Up => Some (match ed_cur a with O => a | S n => go_to n a end, None)
  | Down =>
      Some (if bool_decide (ed_hist a = []) then a else go_to (S (ed_cur a) `min` pred (length (ed_hist a))) a, None)
  | Left => Some (with_text t (pred pos) a, None)
  | Right => Some (with_text t (S pos `min` length t) a, None)
  | Complete => let t := complete_spec table t in Some (with_text t (length t) a, None)
  | Erase =>
      Some (match pos with O => a | S p => with_text (take p t ++ drop pos t) p a end, None)
  | Enter =>
      let h := remember t (ed_hist a) in
      Some (Ed (ed_mode a) [] 0 h (length h), exec_spec table t)
  | Insert c =>
      if (79 <=? length t)%nat then None
      else Some (with_text (take pos t ++ c :: drop pos t) (S pos) a, None)
  end.

Fixpoint ed_run (table : list finsh_syscall) (keys : list Z) (a : editor) : option (editor * list run_event) :=
  match keys with
  | [] => Some (a, [])
  | ch :: keys =>
      let '(m, act) := decode (ed_mode a) ch in
      '(a, e) ← ed_step table act (with_mode m a);
      '(a, es) ← ed_run table keys a;
      Some (a, option_list e ++ es)
  end.

(** ** How a shell holds an editor *)

Definition pad (t : list Z) : list Z := t ++ repeat 0 (80 - length t).

Definition line_ok (t : list Z) : Prop := cstring t /\ (length t <= 79)%nat.

Record holds (a : editor) (s : finsh_shell) : Prop := {
  ho_stat : stat s = ed_mode a;
  ho_line : line s = pad (ed_text a);
  ho_counter : line_char_counter s = Z.of_nat (length (ed_text a));
  ho_curpos : line_curpos s = Z.of_nat (ed_pos a);
  ho_pos : (ed_pos a <= length (ed_text a))%nat;
  ho_text : line_ok (ed_text a);
  ho_rows : exists junk, cmd_history s = map pad (ed_hist a) ++ junk /\ (length (ed_hist a) + length junk = 15)%nat;
  ho_count : history_count s = Z.of_nat (length (ed_hist a));
  ho_hist : Forall line_ok (ed_hist a);
  ho_current : current_history s = Z.of_nat (ed_cur a);
  ho_cur : (ed_cur a <= length (ed_hist a))%nat }.

(** ** Lines *)

Lemma pad_stop (t : list Z) : (length t <= 79)%nat -> pad t = t ++ 0 :: repeat 0 (79 - length t).
Proof. intros H. unfold pad. by replace (80 - length t)%nat with (S (79 - length t)) by lia. Qed.

Lemma pad_length (t : list Z) : (length t <= 79)%nat -> length (pad t) = 80%nat.
Proof. intros H. unfold pad. rewrite length_app, repeat_length. lia. Qed.

Lemma drop_repeat (c : Z) (n : nat) : forall m, drop n (repeat c m) = repeat c (m - n).
Proof. induction n as [|n IH]; intros [|m]; try done. apply IH. Qed.

Lemma pad_inj (a b : list Z) : line_ok a -> line_ok b -> pad a = pad b -> a = b.
Proof.
  intros [Ha La] [Hb Lb] E. apply (f_equal cstr) in E. rewrite !pad_stop in E by done.
  by rewrite !cstr_stop in E by (by apply cstring_nul_free).
Qed.

Lemma buf_strlen_stop (t r : list Z) : nul_free t -> buf_strlen (t ++ 0 :: r) = Some (Z.of_nat (length t)).
Proof.
  induction 1 as [|c t Hc _ IH]; [done|]. cbn [app buf_strlen]. rewrite (proj2 (Z.eqb_neq _ _) Hc), IH.
  cbn [mbind option_bind]. f_equal. rewrite length_cons. lia.
Qed.

Lemma line_strlen_pad (t : list Z) (s : finsh_shell) : line s = pad t -> line_ok t -> line_strlen s = Some (Z.of_nat (length t)).
Proof.
  intros E [Ht L]. unfold line_strlen. rewrite E, pad_stop, <- app_assoc by done.
  by apply buf_strlen_stop, cstring_nul_free.
Qed.

(** Opening a gap, and closing one. *)
Lemma buf_move_up (a b z : list Z) (x y : Z) :
  buf_move (Z.of_nat (length a) + 1) (Z.of_nat (length a)) (Z.of_nat (length (y :: b))) (a ++ y :: b ++ x :: z) =
    Some (a ++ y :: y :: b ++ z).
Proof.
  unfold buf_move. rewrite !length_app, !length_cons, !length_app, !length_cons.
  rewrite (proj2 (Z.leb_le _ _)), !(proj2 (Z.leb_le _ _)) by lia. cbn [andb]. f_equal.
  replace (Z.to_nat (Z.of_nat (length a) + 1)) with (length a + 1)%nat by lia.
  replace (Z.to_nat (Z.of_nat (length a) + 1 + Z.of_nat (S (length b)))) with (length a + S (S (length b)))%nat by lia.
  rewrite !Nat2Z.id. rewrite take_app_add, drop_app_length, drop_app_add. cbn [take drop app].
  rewrite take_app_length. replace (b ++ x :: z) with ((b ++ [x]) ++ z) by (by rewrite <- app_assoc).
  rewrite drop_app_length' by (rewrite length_app; simpl; lia). by rewrite <- app_assoc.
Qed.

Lemma buf_move_down (a b z : list Z) (x c : Z) :
  exists l, buf_move (Z.of_nat (length a)) (Z.of_nat (length a) + 1) (Z.of_nat (length b)) (a ++ c :: b ++ x :: z) = Some l /\
    <[(length a + length b)%nat := 0]> l = a ++ b ++ 0 :: x :: z.
Proof.
  unfold buf_move. rewrite !length_app, !length_cons, !length_app, !length_cons.
  rewrite (proj2 (Z.leb_le _ _)), !(proj2 (Z.leb_le _ _)) by lia. cbn [andb]. eexists. split; [reflexivity|].
  replace (Z.to_nat (Z.of_nat (length a) + 1)) with (length a + 1)%nat by lia.
  replace (Z.to_nat (Z.of_nat (length a) + Z.of_nat (length b))) with (length a + length b)%nat by lia.
  rewrite !Nat2Z.id, take_app_length, !drop_app_add. cbn [drop]. rewrite drop_0, take_app_length.
  rewrite insert_app_r, insert_app_r_alt, Nat.sub_diag by lia. f_equal. f_equal.
  replace (c :: b ++ x :: z) with ((c :: b) ++ x :: z) by done.
  destruct (exists_last (l := c :: b)) as (b' & d & E); [done|]. rewrite E, <- app_assoc.
  assert (length b' = length b) as <- by (apply (f_equal length) in E; rewrite length_app, length_cons in E; simpl in E; lia).
  by rewrite drop_app_length.
Qed.

Lemma buf_set_in (l : list Z) (i : nat) (c : Z) : (i < length l)%nat -> buf_set (Z.of_nat i) c l = Some (<[i := s8 c]> l).
Proof.
  intros H. unfold buf_set. rewrite (proj2 (Z.leb_le _ _)), (proj2 (Z.ltb_lt _ _)) by lia. cbn [andb]. by rewrite Nat2Z.id.
Qed.

Lemma pad_split (a b : list Z) : (length (a ++ b) <= 79)%nat -> pad (a ++ b) = a ++ b ++ 0 :: repeat 0 (79 - length (a ++ b)).
Proof. intros H. rewrite pad_stop by done. by rewrite <- app_assoc. Qed.

(** Typing and erasing in the middle of a line. *)
Lemma insert_line (a b : list Z) (ch : Z) : (length (a ++ b) < 79)%nat ->
  (if Z.of_nat (length a) <? Z.of_nat (length (a ++ b)) then
     l ← buf_move (Z.of_nat (length a) + 1) (Z.of_nat (length a)) (Z.of_nat (length (a ++ b)) - Z.of_nat (length a)) (pad (a ++ b));
     buf_set (Z.of_nat (length a)) ch l
   else buf_set (Z.of_nat (length (a ++ b))) ch (pad (a ++ b))) = Some (pad (a ++ s8 ch :: b)).
Proof.
  intros H. rewrite pad_split by lia. rewrite (pad_split a (s8 ch :: b)) by (rewrite length_app in *; simpl; lia).
  destruct b as [|y b].
  - rewrite app_nil_r in *. rewrite Z.ltb_irrefl, buf_set_in by (rewrite length_app; simpl; lia).
    rewrite insert_app_r_alt, Nat.sub_diag by lia. cbn [app insert list_insert]. do 3 f_equal.
    rewrite length_app. simpl. replace (79 - length a)%nat with (S (79 - (length a + 1))) by lia. done.
  - rewrite (proj2 (Z.ltb_lt _ _)) by (rewrite length_app, length_cons; lia).
    replace (Z.of_nat (length (a ++ y :: b)) - Z.of_nat (length a)) with (Z.of_nat (length (y :: b))) by (rewrite length_app; lia).
    change ((y :: b) ++ 0 :: repeat 0 (79 - length (a ++ y :: b))) with (y :: b ++ 0 :: repeat 0 (79 - length (a ++ y :: b))).
    rewrite buf_move_up. cbn [mbind option_bind]. rewrite buf_set_in by (rewrite length_app; simpl; lia).
    rewrite insert_app_r_alt, Nat.sub_diag by lia. cbn [app insert list_insert]. do 5 f_equal.
    rewrite !length_app, !length_cons in *. replace (79 - (length a + S (length b)))%nat with (S (79 - (length a + S (S (length b))))) by lia. done.
Qed.

Lemma erase_line (a b : list Z) (c : Z) : (length (a ++ c :: b) <= 79)%nat ->
  (if Z.of_nat (length (a ++ b)) >? Z.of_nat (length a) then
     l ← buf_move (Z.of_nat (length a)) (Z.of_nat (length a) + 1) (Z.of_nat (length (a ++ b)) - Z.of_nat (length a)) (pad (a ++ c :: b));
     buf_set (Z.of_nat (length (a ++ b))) 0 l
   else buf_set (Z.of_nat (length (a ++ b))) 0 (pad (a ++ c :: b))) = Some (pad (a ++ b)).
Proof.
  intros H. rewrite (pad_split a (c :: b)) by done. rewrite (pad_split a b) by (rewrite length_app in *; simpl in *; lia).
  assert (Ez : repeat 0 (79 - length (a ++ b)) = 0 :: repeat 0 (79 - length (a ++ c :: b))).
  { rewrite !length_app in *. simpl in *. by replace (79 - (length a + length b))%nat with (S (79 - (length a + S (length b)))) by lia. }
  rewrite Ez. rewrite Z.gtb_ltb. destruct b as [|y b].
  - rewrite app_nil_r. rewrite Z.ltb_irrefl, buf_set_in by (rewrite length_app; simpl; lia).
    by rewrite insert_app_r_alt, Nat.sub_diag by lia.
  - rewrite (proj2 (Z.ltb_lt _ _)) by (rewrite length_app, length_cons; lia).
    replace (Z.of_nat (length (a ++ y :: b)) - Z.of_nat (length a)) with (Z.of_nat (length (y :: b))) by (rewrite length_app; lia).
    destruct (buf_move_down a (y :: b) (repeat 0 (79 - length (a ++ c :: y :: b))) 0 c) as (l & E & El).
    cbn [app] in E |- *. rewrite E. cbn [mbind option_bind]. rewrite length_app.
    rewrite buf_set_in; [f_equal; exact El|]. apply (f_equal length) in El. rewrite length_insert in El. rewrite El, !length_app. simpl. lia.
Qed.

(** ** Each operation *)

Lemma holds_text (a : editor) (s : finsh_shell) (t : list Z) (p : nat) : holds a s -> line_ok t -> (p <= length t)%nat ->
  holds (with_text t p a) (set_line (pad t) (Z.of_nat (length t)) (Z.of_nat p) s).
Proof. intros [] Ht Hp. by constructor. Qed.

Lemma holds_history (a : editor) (s : finsh_shell) (h junk : list (list Z)) (n : nat) : holds a s -> Forall line_ok h ->
  (length h + length junk = 15)%nat -> (n <= length h)%nat ->
  holds (Ed (ed_mode a) (ed_text a) (ed_pos a) h n)
    (set_history (Z.of_nat n) (Z.of_nat (length h)) (map pad h ++ junk) s).
Proof. intros [] Hh Hl Hn. constructor; try done. by exists junk. Qed.

Lemma holds_mode (a : editor) (s : finsh_shell) (m : input_stat) : holds a s -> holds (with_mode m a) (set_stat m s).
Proof. intros []. by constructor. Qed.

Lemma take_pad (t : list Z) : take (length t) (pad t) = t.
Proof. apply take_app_length. Qed.

(** A remembered line becomes the text. *)
Lemma recall_ok (a : editor) (s : finsh_shell) (n : nat) : holds a s -> (n < length (ed_hist a))%nat ->
  exists s', recall (set_history (Z.of_nat n) (history_count s) (cmd_history s) s) = Some s' /\ holds (go_to n a) s'.
Proof.
  intros Ha Hn. destruct (ho_rows _ _ Ha) as (junk & Er & El). destruct (lookup_lt_is_Some_2 (ed_hist a) n Hn) as [t Et].
  pose proof (proj1 (Forall_lookup _ _) (ho_hist _ _ Ha) n t Et) as Ht.
  unfold recall, go_to. cbn [cmd_history set_history current_history]. rewrite Nat2Z.id, Et.
  assert (E : cmd_history s !! n = Some (pad t)) by (rewrite Er; apply lookup_app_l_Some; by rewrite list_lookup_fmap, Et).
  rewrite E. cbn [mbind option_bind]. rewrite (line_strlen_pad t) by done. cbn [default from_option]. eexists. split; [reflexivity|].
  rewrite u8_small by (destruct Ht; lia). rewrite Er, (ho_count _ _ Ha).
  exact (holds_text _ _ _ _ (holds_history a s (ed_hist a) junk n Ha (ho_hist _ _ Ha) El (Nat.lt_le_incl _ _ Hn)) Ht (le_n _)).
Qed.

Lemma set_history_same (a : editor) (s : finsh_shell) : holds a s ->
  set_history (Z.of_nat (ed_cur a)) (history_count s) (cmd_history s) s = s.
Proof. intros Ha. rewrite <- (ho_current _ _ Ha). by destruct s. Qed.

Lemma key_up_ok (a : editor) (s : finsh_shell) : holds a s ->
  exists s', key_up s = Some s' /\ holds (match ed_cur a with O => a | S n => go_to n a end) s'.
Proof.
  intros Ha. unfold key_up. rewrite (ho_current _ _ Ha). pose proof (ho_cur _ _ Ha) as Hc.
  pose proof (set_history_same a s Ha) as Es. destruct (ho_rows _ _ Ha) as (junk & _ & El).
  destruct (ed_cur a) as [|n]; [exists s; split; [|done]|].
  - change (Z.of_nat 0 >? 0) with false. cbv iota. change 0 with (Z.of_nat 0). by rewrite Es.
  - rewrite Z.gtb_ltb, (proj2 (Z.ltb_lt _ _)) by lia. replace (Z.of_nat (S n) - 1) with (Z.of_nat n) by lia.
    rewrite u16_small by lia. apply recall_ok; [done|lia].
Qed.

Lemma key_down_ok (a : editor) (s : finsh_shell) : holds a s ->
  exists s', key_down s = Some s' /\
    holds (if bool_decide (ed_hist a = []) then a else go_to (S (ed_cur a) `min` pred (length (ed_hist a))) a) s'.
Proof.
  intros Ha. unfold key_down. rewrite (ho_current _ _ Ha). pose proof (ho_count _ _ Ha) as Hk. pose proof (ho_cur _ _ Ha) as Hc.
  destruct (ho_rows _ _ Ha) as (junk & _ & El).
  case_bool_decide as E; [rewrite E in *; exists s; split; [|done]|].
  { rewrite Hk, (proj2 (Z.ltb_ge _ _)) by (simpl; lia). done. }
  assert (Hpos : (0 < length (ed_hist a))%nat) by (destruct (ed_hist a); [done|simpl; lia]).
  destruct (Z.ltb_spec (Z.of_nat (ed_cur a)) (history_count s - 1)).
  - replace (S (ed_cur a) `min` pred (length (ed_hist a)))%nat with (S (ed_cur a)) by lia.
    replace (u16 (Z.of_nat (ed_cur a) + 1)) with (Z.of_nat (S (ed_cur a))) by (rewrite u16_small; lia).
    apply recall_ok; [done|lia].
  - rewrite (proj2 (Z.eqb_neq _ _)) by lia. cbn [negb].
    replace (S (ed_cur a) `min` pred (length (ed_hist a)))%nat with (pred (length (ed_hist a))) by lia.
    replace (u16 (history_count s - 1)) with (Z.of_nat (pred (length (ed_hist a)))) by (rewrite u16_small; lia).
    apply recall_ok; [done|lia].
Qed.

Lemma set_line_same (a : editor) (s : finsh_shell) (l : list Z) (n p : Z) : holds a s ->
  l = line s -> n = line_char_counter s -> p = line_curpos s -> set_line l n p s = s.
Proof. intros _ -> -> ->. by destruct s. Qed.

Lemma key_left_ok (a : editor) (s : finsh_shell) : holds a s -> holds (with_text (ed_text a) (pred (ed_pos a)) a) (key_left s).
Proof.
  intros Ha. unfold key_left. rewrite (ho_curpos _ _ Ha), (ho_line _ _ Ha), (ho_counter _ _ Ha).
  pose proof (ho_pos _ _ Ha). pose proof (proj2 (ho_text _ _ Ha)).
  destruct (ed_pos a) as [|p] eqn:E.
  - cbv [Z.of_nat Z.eqb negb pred]. rewrite <- E. by destruct a.
  - rewrite (proj2 (Z.eqb_neq _ _)) by lia. cbn [negb pred]. rewrite u8_small by lia.
    replace (Z.of_nat (S p) - 1) with (Z.of_nat p) by lia. apply holds_text; [done|apply Ha|lia].
Qed.

Lemma key_right_ok (a : editor) (s : finsh_shell) : holds a s ->
  holds (with_text (ed_text a) (S (ed_pos a) `min` length (ed_text a)) a) (key_right s).
Proof.
  intros Ha. unfold key_right. rewrite (ho_curpos _ _ Ha), (ho_line _ _ Ha), (ho_counter _ _ Ha).
  pose proof (ho_pos _ _ Ha). pose proof (proj2 (ho_text _ _ Ha)).
  destruct (Z.ltb_spec (Z.of_nat (ed_pos a)) (Z.of_nat (length (ed_text a)))).
  - rewrite u8_small by lia. replace (Z.of_nat (ed_pos a) + 1) with (Z.of_nat (S (ed_pos a) `min` length (ed_text a))) by lia.
    apply holds_text; [done|apply Ha|lia].
  - replace (S (ed_pos a) `min` length (ed_text a))%nat with (ed_pos a) by lia. by destruct a.
Qed.

Lemma key_backspace_ok (a : editor) (s : finsh_shell) : holds a s ->
  exists s', key_backspace s = Some s' /\
    holds (match ed_pos a with O => a | S p => with_text (take p (ed_text a) ++ drop (ed_pos a) (ed_text a)) p a end) s'.
Proof.
  intros Ha. unfold key_backspace. rewrite (ho_curpos _ _ Ha), (ho_line _ _ Ha), (ho_counter _ _ Ha).
  pose proof (ho_pos _ _ Ha) as Hp. pose proof (ho_text _ _ Ha) as Ht.
  destruct (ed_pos a) as [|p] eqn:E; [by exists s|]. rewrite (proj2 (Z.eqb_neq _ _)) by lia.
  set (t := ed_text a) in *. destruct (lookup_lt_is_Some_2 t p ltac:(lia)) as [c Ec].
  pose proof (take_drop_middle t p c Ec) as Et. set (l := take p t) in *. set (r := drop (S p) t) in *.
  assert (Lp : p = length l) by (unfold l; rewrite length_take; lia). destruct Ht as [Ht Hl]. rewrite <- Et in Ht, Hl |- *.
  rewrite !u8_small by (rewrite length_app, length_cons in *; lia).
  replace (Z.of_nat (length (l ++ c :: r)) - 1) with (Z.of_nat (length (l ++ r))) by (rewrite !length_app, length_cons; lia).
  replace (Z.of_nat (S p) - 1) with (Z.of_nat (length l)) by lia.
  pose proof (erase_line l r c Hl) as He.
  assert (Hlr : line_ok (l ++ r)).
  { split; [|rewrite length_app in *; simpl in Hl; lia]. apply Forall_app in Ht as [Hl' Hr']. apply Forall_app.
    split; [done|by apply Forall_cons in Hr' as [_ Hr']]. }
  exists (set_line (pad (l ++ r)) (Z.of_nat (length (l ++ r))) (Z.of_nat p) s). split; [|apply holds_text; [done..|rewrite length_app; lia]].
  rewrite Lp. destruct (Z.of_nat (length (l ++ r)) >? Z.of_nat (length l)).
  - destruct (buf_move _ _ _ _) as [b|]; [|done]. cbn [mbind option_bind] in *. by rewrite He.
  - by rewrite He.
Qed.

Lemma key_char_ok (a : editor) (s : finsh_shell) (ch : Z) : holds a s -> (length (ed_text a) < 79)%nat -> 0 < ch < 256 ->
  exists s', key_char ch s = Some s' /\
    holds (with_text (take (ed_pos a) (ed_text a) ++ s8 ch :: drop (ed_pos a) (ed_text a)) (S (ed_pos a)) a) s'.
Proof.
  intros Ha Hlt Hch. unfold key_char. rewrite (ho_counter _ _ Ha).
  assert (E : (Z.of_nat (length (ed_text a)) >=? FINSH_CMD_SIZE) = false)
    by (rewrite Z.geb_leb; apply Z.leb_gt; unfold FINSH_CMD_SIZE; lia).
  rewrite E. clear E.
  rewrite (ho_curpos _ _ Ha), (ho_line _ _ Ha), (ho_counter _ _ Ha).
  pose proof (ho_pos _ _ Ha) as Hp. pose proof (ho_text _ _ Ha) as [Ht Hl]. set (t := ed_text a) in *. set (p := ed_pos a) in *.
  pose proof (take_drop p t) as Et. set (l := take p t) in *. set (r := drop p t) in *.
  assert (Lp : p = length l) by (unfold l; rewrite length_take; lia). rewrite <- Et in Ht, Hl, Hlt |- *. rewrite Lp.
  rewrite (insert_line l r ch Hlt). cbn [mbind option_bind]. rewrite !u8_small by (rewrite length_app in *; lia).
  rewrite Z.geb_leb, (proj2 (Z.leb_gt _ _)) by (unfold FINSH_CMD_SIZE; lia). eexists. split; [reflexivity|].
  replace (Z.of_nat (length (l ++ r)) + 1) with (Z.of_nat (length (l ++ s8 ch :: r))) by (rewrite !length_app, length_cons; lia).
  replace (Z.of_nat (length l) + 1) with (Z.of_nat (S (length l))) by lia.
  apply holds_text; [done| |rewrite length_app, length_cons; lia]. split; [|rewrite length_app, length_cons in *; lia].
  apply Forall_app in Ht as [Hl' Hr]. apply Forall_app. split; [done|]. constructor; [|done]. zlia.
Qed.

(** The names of a table fit the line. *)
Definition names_ok (table : list finsh_syscall) : Prop :=
  table_ok table /\ Forall (fun e => (length (cmd_name e) <= 79)%nat) table.

Lemma complete_ok (table : list finsh_syscall) (t : list Z) (s : finsh_shell) : names_ok table -> line s = pad t -> line_ok t ->
  msh_auto_complete table s = Some (pad (complete_spec table t)) /\ line_ok (complete_spec table t).
Proof.
  intros [Htab Hlen] E Ht. destruct (decide (t = [])) as [->|Hne].
  { unfold msh_auto_complete, complete_spec. rewrite E. by destruct (candidates table []). }
  unfold msh_auto_complete, complete_spec. rewrite (line_strlen_pad t s E Ht), E.
  assert (H0 : (znth 0 (pad t) 0 =? 0) = false).
  { destruct t as [|c t]; [done|]. destruct Ht as [Ht _]. apply Forall_cons in Ht as [[_ Hc] _]. by apply Z.eqb_neq. }
  rewrite H0. cbn [mbind option_bind]. rewrite Nat2Z.id, take_app_le, take_pad by (rewrite pad_length; destruct Ht; lia).
  rewrite complete_fold by (done || apply Ht). pose proof (candidates_prefix table t) as Hpre.
  pose proof (candidates_all (fun w => line_ok w) table t) as Hall.
  destruct (candidates table t) as [|w ws].
  { split; [|done]. unfold buf_strncpy. cbn [foldl]. by rewrite (proj2 (Z.leb_le _ _)) by lia. }
  rewrite bool_decide_false by done. cbn [foldl]. apply Forall_cons in Hpre as [Hw Hws].
  assert (Hwok : line_ok w).
  { assert (H : Forall line_ok (w :: ws)); [|by inversion H]. apply Hall. apply Forall_forall. intros e He.
    split; [apply cmd_name_ok, (proj1 (Forall_forall _ _) Htab e He)|exact (proj1 (Forall_forall _ _) Hlen e He)]. }
  assert (Efirst : complete_name (0, []) w = (Z.of_nat (length w), w)).
  { unfold complete_name. cbn [Z.eqb]. rewrite strlen_spec, str_common_spec, common_same by (destruct Hwok; lia).
    by rewrite Z.ltb_irrefl. }
  rewrite Efirst. destruct (complete_fold_spec t w ws w Hne Hw (reflexivity w) Hws) as (-> & Hlow & Hup).
  set (u := foldl common w ws) in *.
  destruct Hup as [k Ek]. destruct Hwok as [Hcs Hl]. rewrite Ek in *. rewrite length_app in Hl. apply Forall_app in Hcs as [Hcs _].
  split; [|split; [done|lia]]. unfold buf_strncpy. rewrite (proj2 (Z.leb_le _ _)) by (rewrite pad_length by apply Ht; lia).
  rewrite Nat2Z.id, take_app_length. f_equal. unfold pad. f_equal. destruct Hlow as [k' Ek'].
  assert (length t <= length u)%nat by (rewrite Ek', length_app; lia).
  replace (length u) with (length t + (length u - length t))%nat at 1 by lia. rewrite drop_app_add, drop_repeat. f_equal. lia.
Qed.

Lemma key_tab_ok (table : list finsh_syscall) (a : editor) (s : finsh_shell) : names_ok table -> holds a s ->
  exists s', key_tab table s = Some s' /\
    holds (with_text (complete_spec table (ed_text a)) (length (complete_spec table (ed_text a))) a) s'.
Proof.
  intros Htab Ha. unfold key_tab. destruct (complete_ok table (ed_text a) s Htab (ho_line _ _ Ha) (ho_text _ _ Ha)) as [-> Hu].
  cbn [mbind option_bind]. rewrite (line_strlen_pad (complete_spec table (ed_text a))) by done. cbn [mbind option_bind].
  rewrite u8_small by (destruct Hu; lia). eexists. split; [reflexivity|]. apply (holds_text a s); [done|done|lia].
Qed.

(** ** Remembering a line *)

Lemma history_line_pad (t : list Z) : line_ok t -> history_line (pad t) (Z.of_nat (length t)) = pad t.
Proof. intros _. unfold history_line. by rewrite !Nat2Z.id, take_pad. Qed.

Lemma last_row (h junk : list (list Z)) (t : list Z) : Forall line_ok h -> line_ok t -> h <> [] ->
  bool_decide (znth [] (map pad h ++ junk) (Z.of_nat (length h) - 1) = pad t) = bool_decide (last h = Some t).
Proof.
  intros Hh Ht Hne. destruct (exists_last Hne) as (h' & u & ->). rewrite last_snoc, length_app. cbn [length].
  unfold znth. replace (Z.to_nat (Z.of_nat (length h' + 1) - 1)) with (length (map pad h')) by (rewrite length_map; lia).
  rewrite map_app, <- app_assoc. cbn [map app]. rewrite list_lookup_middle by done. cbn [default from_option].
  apply bool_decide_ext. split; [|by intros [= ->]]. intros E. f_equal. apply pad_inj; [|done..].
  apply Forall_app in Hh as [_ Hu]. by apply Forall_cons in Hu as [Hu _].
Qed.

Lemma remember_full (h : list (list Z)) : length h = 15%nat -> lastn 14 h = tail h.
Proof. intros L. unfold lastn. rewrite L. by destruct h. Qed.

Lemma remember_short (h : list (list Z)) : (length h < 15)%nat -> lastn 14 h = h.
Proof. intros L. unfold lastn. by replace (length h - 14)%nat with 0%nat by lia. Qed.

Lemma remember_ok (t : list Z) (h : list (list Z)) : line_ok t -> Forall line_ok h -> (length h <= 15)%nat ->
  Forall line_ok (remember t h) /\ (length (remember t h) <= 15)%nat.
Proof.
  intros Ht Hh L. unfold remember. destruct (_ || _); [done|]. unfold lastn. split.
  - apply Forall_app. split; [by apply Forall_drop|by constructor].
  - rewrite length_app, length_drop. simpl. lia.
Qed.

(** The rows that [shell_push_history] leaves. *)
Lemma push_rows (a : editor) (s : finsh_shell) : holds a s -> exists junk,
  let h := remember (ed_text a) (ed_hist a) in
  shell_push_history s = set_history (Z.of_nat (length h)) (Z.of_nat (length h)) (map pad h ++ junk) s /\
  (length h + length junk = 15)%nat.
Proof.
  intros Ha. destruct (ho_rows _ _ Ha) as (junk & Er & El). unfold shell_push_history.
  rewrite (ho_counter _ _ Ha), (ho_line _ _ Ha), (ho_count _ _ Ha), Er. pose proof (ho_text _ _ Ha) as Ht.
  pose proof (ho_hist _ _ Ha) as Hh. set (t := ed_text a) in *. set (h := ed_hist a) in *. unfold remember.
  destruct (decide (t = [])) as [Et|Et].
  { rewrite (bool_decide_true (t = [])) by done. rewrite Et. cbn [length]. change (Z.of_nat 0 =? 0) with true. cbn [negb orb]. exists junk. split; [|done].
    by rewrite (ho_count _ _ Ha), Er. }
  rewrite (bool_decide_false (t = [])) by done. rewrite (proj2 (Z.eqb_neq (Z.of_nat (length t)) 0)) by (destruct t; [done|simpl; lia]).
  cbn [negb orb]. rewrite history_line_pad by done. unfold FINSH_HISTORY_LINES. rewrite Z.geb_leb.
  destruct (Z.leb_spec 15 (Z.of_nat (length h))) as [Hf|Hf].
  - assert (L : length h = 15%nat) by lia. pose proof (last_row h junk t Hh Ht) as Hl. rewrite L in Hl.
    change (Z.of_nat 15 - 1) with (15 - 1) in Hl. rewrite Hl by (destruct h; done).
    destruct (bool_decide (last h = Some t)); cbn [negb]; [exists junk; split; [by rewrite (ho_count _ _ Ha), Er|lia]|].
    exists []. rewrite remember_full by done. rewrite map_app, app_nil_r, length_app. cbn [length map].
    assert (Lt : length (tail h) = 14%nat) by (destruct h; [done|simpl in *; lia]). rewrite Lt. split; [|done].
    destruct junk; [|simpl in El; lia]. rewrite app_nil_r. replace (tail (map pad h)) with (map pad (tail h)) by (by destruct h). done.
  - destruct (decide (h = [])) as [Eh|Eh].
    + rewrite Eh in *. cbn [length map app]. change (Z.of_nat 0 =? 0) with true. cbn [orb].
      rewrite (bool_decide_false (last [] = Some t)) by done. simpl in El.
      destruct junk as [|j junk]; [done|]. exists junk. split; [done|]. simpl in *. lia.
    + rewrite (proj2 (Z.eqb_neq (Z.of_nat (length h)) 0)) by (destruct h; [done|simpl; lia]). cbn [orb].
      rewrite last_row by done. destruct (bool_decide (last h = Some t)); cbn [negb];
        [exists junk; split; [by rewrite (ho_count _ _ Ha), Er|lia]|].
      destruct junk as [|j junk]; [simpl in El; lia|]. exists junk. rewrite remember_short by lia.
      rewrite Nat2Z.id, u16_small by lia. rewrite length_app. cbn [length]. split; [|simpl in El; lia].
      replace (Z.of_nat (length h) + 1) with (Z.of_nat (length h + 1)) by lia.
      rewrite insert_app_r_alt by (rewrite length_map; lia). rewrite length_map, Nat.sub_diag, map_app, <- app_assoc. done.
Qed.

Lemma key_enter_ok (table : list finsh_syscall) (a : editor) (s : finsh_shell) : table_ok table -> holds a s ->
  let h := remember (ed_text a) (ed_hist a) in
  exists s', key_enter table s = Some (s', exec_spec table (ed_text a)) /\ holds (Ed (ed_mode a) [] 0 h (length h)) s'.
Proof.
  intros Htab Ha h. unfold key_enter. destruct (push_rows a s Ha) as (junk & -> & El). fold h in El |- *.
  cbn [line set_history line_char_counter line_curpos]. rewrite (ho_line _ _ Ha), (ho_counter _ _ Ha).
  destruct (ho_text _ _ Ha) as [Ht L]. rewrite pad_stop, <- app_assoc by done. cbn [app].
  rewrite msh_exec_spec by (done || lia). cbn [mbind option_bind]. eexists. split; [reflexivity|].
  destruct (remember_ok (ed_text a) (ed_hist a) (ho_text _ _ Ha) (ho_hist _ _ Ha)) as [Hh Lh]; [|fold h in Hh, Lh].
  { destruct (ho_rows _ _ Ha) as (? & _ & ?). lia. }
  apply (holds_text (Ed (ed_mode a) (ed_text a) (ed_pos a) h (length h)) _ [] 0).
  - by apply holds_history.
  - split; [constructor|simpl; lia].
  - simpl. lia.
Qed.

(** ** The thread *)

Lemma plain_ok (table : list finsh_syscall) (ch : Z) (a a' : editor) (s : finsh_shell) (e : option run_event) :
  names_ok table -> 0 <= ch < 256 -> holds a s -> ed_step table (decode_plain ch) a = Some (a', e) ->
  exists s', plain_key table ch s = Some (s', e) /\ holds a' s'.
Proof.
  intros Htab Hch Ha. unfold plain_key, decode_plain.
  destruct (Z.eqb_spec ch 0) as [->|H0]; [intros [= <- <-]; by exists s|]. cbn [orb].
  destruct (Z.eqb_spec ch 0xff) as [->|_]; [intros [= <- <-]; by exists s|].
  destruct (ch =? 9); [|destruct (_ || _); [|destruct (_ || _)]]; cbn [ed_step].
  - intros [= <- <-]. destruct (key_tab_ok table a s Htab Ha) as (s' & -> & Hs). by exists s'.
  - intros [= <- <-]. destruct (key_backspace_ok a s Ha) as (s' & -> & Hs). by exists s'.
  - intros [= <- <-]. destruct (key_enter_ok table a s (proj1 Htab) Ha) as (s' & -> & Hs). by exists s'.
  - destruct (Nat.leb_spec 79 (length (ed_text a))); [done|]. intros [= <- <-].
    destruct (key_char_ok a s ch Ha) as (s' & -> & Hs); [lia|lia|]. by exists s'.
Qed.

Lemma with_mode_same (a : editor) (m : input_stat) : ed_mode a = m -> with_mode m a = a.
Proof. destruct a. by intros <-. Qed.

Lemma key_ok (table : list finsh_syscall) (ch : Z) (a a' : editor) (s : finsh_shell) (e : option run_event) :
  names_ok table -> ch < 256 -> holds a s ->
  ed_step table (snd (decode (ed_mode a) ch)) (with_mode (fst (decode (ed_mode a) ch)) a) = Some (a', e) ->
  exists s', shell_key table ch s = Some (s', e) /\ holds a' s'.
Proof.
  intros Htab Hch Ha. unfold shell_key, decode. rewrite (ho_stat _ _ Ha).
  destruct (Z.ltb_spec ch 0) as [Hneg|Hpos].
  { cbn [fst snd ed_step]. rewrite with_mode_same by done. intros [= <- <-]. by exists s. }
  destruct (ch =? 0x1b); [cbn [fst snd ed_step]; intros [= <- <-]; eexists; split; [done|by apply holds_mode]|].
  destruct (ed_mode a) eqn:Em.
  - cbn [fst snd]. rewrite with_mode_same by done. by apply plain_ok.
  - destruct (ch =? 0x5b); cbn [fst snd].
    + intros [= <- <-]. eexists; split; [done|by apply holds_mode].
    + by apply plain_ok, holds_mode.
  - pose proof (holds_mode a s WAIT_NORMAL Ha) as Hn. cbn [fst snd]. cbv zeta.
    destruct (ch =? 0x41); [|destruct (ch =? 0x42); [|destruct (ch =? 0x44); [|destruct (ch =? 0x43)]]]; cbn [ed_step].
    + intros [= <- <-]. destruct (key_up_ok _ _ Hn) as (s' & -> & Hs). by exists s'.
    + intros [= <- <-]. destruct (key_down_ok _ _ Hn) as (s' & -> & Hs). by exists s'.
    + intros [= <- <-]. eexists. split; [done|]. exact (key_left_ok _ _ Hn).
    + intros [= <- <-]. eexists. split; [done|]. exact (key_right_ok _ _ Hn).
    + by apply plain_ok.
Qed.

(** C30: on any keys on which no line reaches eighty characters, the thread of the shell
    keeps inside its buffers and does what the editor on texts does: insertion and
    erasure at the cursor, the arrow keys, the fifteen remembered lines, completion to
    the longest common prefix of the commands; and each Enter runs the command that the
    first word names with the tokens of the line, or reports that there is none. *)
Theorem shell_refines_editor (table : list finsh_syscall) (keys : list Z) (a a' : editor) (s : finsh_shell) (es : list run_event)
    (Htab : names_ok table) (Hkeys : Forall (fun ch => ch < 256) keys) (Ha : holds a s)
    (Hrun : ed_run table keys a = Some (a', es)) :
  exists s', shell_thread_entry table keys s = Some (s', es) /\ holds a' s'.
Proof.
  revert a s es Ha Hrun. induction Hkeys as [|ch keys Hch _ IH]; intros a s es Ha; cbn [ed_run shell_thread_entry].
  { intros [= <- <-]. by exists s. }
  rewrite (surjective_pairing (decode _ _)).
  destruct (ed_step table _ _) as [[a1 e]|] eqn:E; [|done]. cbn [mbind option_bind].
  destruct (ed_run table keys a1) as [[a2 es']|] eqn:E2; [|done]. intros [= <- <-].
  destruct (key_ok table ch a a1 s e Htab Hch Ha E) as (s1 & -> & Hs1). cbn [mbind option_bind].
  destruct (IH a1 s1 es' Hs1 E2) as (s2 & -> & Hs2). by exists s2.
Qed.

(** The shell that starts on memory without remembered lines. *)
Definition fresh : finsh_shell :=
  shellInit (Shell WAIT_NORMAL false false 0 0 (repeat [] 15) [] 7 7).

Lemma fresh_holds : holds (Ed WAIT_NORMAL [] 0 [] 0) fresh.
Proof.
  constructor; try done; cbn; try lia.
  - split; [constructor|simpl; lia].
  - by exists (repeat [] 15).
Qed.

(** The command help, typed as h, x, Backspace, e, Tab and an argument; recalled with Up
    and run again. *)
Lemma shell_refines_editor_witness :
  let table := [Syscall (CMD_PREFIX ++ [104; 101; 108; 112]) 7; Syscall [120] 8] in
  let keys := [104; 120; 8; 101; 9; 32; 97; 13; 27; 91; 65; 13] in
  let run := Run 7 [[104; 101; 108; 112]; [97]] in
  exists s', shell_thread_entry table keys fresh = Some (s', [run; run]) /\
    holds (Ed WAIT_NORMAL [] 0 [[104; 101; 108; 112; 32; 97]] 1) s'.
Proof.
  intros table keys run.
  apply (shell_refines_editor table keys (Ed WAIT_NORMAL [] 0 [] 0)).
  - split; repeat constructor; simpl; lia.
  - repeat constructor.
  - exact fresh_holds.
  - vm_compute. reflexivity.
Defined.

(** an overlong line breaks the editor on any memory that the shell starts on:
    eighty characters, Tab, a character and two times Backspace move bytes from behind
    the line; eighty blanks and Enter read on behind it. *)
Theorem overlong_line_faults (mem : finsh_shell) (Hstat : stat mem = WAIT_NORMAL) :
  shell_thread_entry [] (repeat 97 80 ++ [9; 97; 8; 8]) (shellInit mem) = None /\
  shell_thread_entry [] (repeat 32 80 ++ [13]) (shellInit mem) = None.
Proof. destruct mem. simpl in Hstat. subst. split; vm_compute; reflexivity. Qed.

Lemma overlong_line_faults_witness :
  let mem := Shell WAIT_NORMAL false false 0 0 (repeat [] 15) [] 7 7 in
  shell_thread_entry [] (repeat 97 80 ++ [9; 97; 8; 8]) (shellInit mem) = None /\
  shell_thread_entry [] (repeat 32 80 ++ [13]) (shellInit mem) = None.
Proof. intros mem. exact (overlong_line_faults mem eq_refl). Defined.
