(* ===== verification/Env.v ===== *)
(** * The environment (os/env.c)
    The system's variables, kept twice: in a table of 64 names and values in memory, and
    in the last sector of the boot flash as text that survives a reset.

    A character is a signed 8-bit integer and a string the list of its characters before
    the terminator.  A pointer into the buffer that holds the sector is its offset; an
    access outside the buffer has no result ([None]).  Of the heap (Heap.v) only the
    answers are seen: whether the next allocation succeeds. *)

From S2P Require Import Prelude CStr CType NumConv Shell.
From stdpp Require Import strings.
#[local] Open Scope Z_scope.


(** The constant strings of the source. *)
Fixpoint c_chars (s : String.string) : list Z :=
  match s with
  | String.EmptyString => []
  | String.String a s => s8 (Z.of_N (Ascii.N_of_ascii a)) :: c_chars s
  end.

Definition NVRAM_SECSIZE : nat := 4 * 1024.
Definition NVAR : nat := 64.
Definition ENV_MAC_NAME : list Z := Eval cbv in c_chars "ethaddr"%string.

(** [=] *)
Definition EQUALS : Z := 61.

(** [struct envpair stdenvtab], with the constants of buildconfig.h and env.h. *)
Definition stdenvtab : list (list Z * list Z) := Eval cbv in [
  (c_chars "localIp"%string, c_chars "192.168.11.3"%string);
  (c_chars "localMask"%string, c_chars "255.255.255.0"%string);
  (c_chars "localGateway"%string, c_chars "192.168.11.1"%string);
  (c_chars "ethaddr"%string, c_chars "00:55:7B:B5:7D:F7"%string);
  (c_chars "tftpServerIp"%string, c_chars "192.168.11.2"%string);
  (c_chars "pmonBinName"%string, c_chars "luojios.bin"%string);
  (c_chars "mtdparts"%string, c_chars "ls1x-nand:14M@0(kernel),100M@14M(rootfs),14M@114M(data);spi-flash:512K@0(pmon),4K@520192(nvram)"%string);
  (c_chars "memsize"%string, c_chars "32"%string);
  (c_chars "highmemsize"%string, c_chars "0"%string);
  (c_chars "pll_reg0"%string, c_chars "0x8000549c"%string);
  (c_chars "pll_reg1"%string, c_chars "0x00008283"%string);
  (c_chars "cpuclock"%string, c_chars "252000000"%string);
  (c_chars "busclock"%string, c_chars "126000000"%string);
  (c_chars "xres"%string, c_chars "480"%string);
  (c_chars "yres"%string, c_chars "272"%string);
  (c_chars "depth"%string, c_chars "16"%string);
  (c_chars "systype"%string, c_chars "FCR"%string);
  (c_chars "moresz"%string, c_chars "10"%string);
  (c_chars "brkcmd"%string, c_chars "l -r @cpc 1"%string);
  (c_chars "TZ"%string, c_chars "UTC8"%string);
  (c_chars "datasize"%string, c_chars "-b"%string);
  (c_chars "dlecho"%string, c_chars "off"%string);
  (c_chars "dlproto"%string, c_chars "none"%string);
  (c_chars "bootp"%string, c_chars "no"%string);
  (c_chars "hostport"%string, c_chars "tty0"%string);
  (c_chars "inalpha"%string, c_chars "hex"%string);
  (c_chars "inbase"%string, c_chars "16"%string);
  (c_chars "regstyle"%string, c_chars "sw"%string);
  (c_chars "rptcmd"%string, c_chars "trace"%string);
  (c_chars "trabort"%string, c_chars "^K"%string);
  (c_chars "ulcr"%string, c_chars "cr"%string);
  (c_chars "uleof"%string, c_chars "%"%string);
  (c_chars "showsym"%string, c_chars "yes"%string);
  (c_chars "fpfmt"%string, c_chars "both"%string);
  (c_chars "fpdis"%string, c_chars "yes"%string);
  (c_chars "bootdelay"%string, c_chars "8"%string);
  (c_chars "loadelfAddr"%string, c_chars "/dev/mtd0"%string);
  (c_chars "append"%string, c_chars "console=ttyS2,115200 root=/dev/mtdblock1 rw rootfstype=yaffs2 video=ls1bfb:vga1024x768-24@60 panic=10 noswap"%string);
  (c_chars "al"%string, c_chars "mtd0"%string)].

(** ** The flash sector
    What the SPI flash driver (os/hardware/spi_flash.c) does for the sector of the
    environment: erased it holds what is then written to it. *)

Class Sector (F : Type) := {
  spi_flash_read_area : F -> list Z;
  spi_flash_erase_sector : F -> F;
  spi_flash_write_area : list Z -> F -> F }.

Definition is_char (c : Z) : Prop := - 128 <= c < 128.
Definition is_sector (b : list Z) : Prop := length b = NVRAM_SECSIZE /\ Forall is_char b.

Class SectorLaws (F : Type) `{Sector F} := {
  read_sector f : is_sector (spi_flash_read_area f);
  write_erased f b : is_sector b -> spi_flash_read_area (spi_flash_write_area b (spi_flash_erase_sector f)) = b }.

(** ** State *)

Record envpair := EnvPair { name : option (list Z); value : option (list Z) }.

Record env (F : Type) := Env {
  flash : F;
  nvram_invalid : Z;
  envinited : bool;
  envvar : list envpair;
  allocs : list bool }.
Arguments Env {F} flash nvram_invalid envinited envvar allocs.
Arguments flash {F} e.
Arguments nvram_invalid {F} e.
Arguments envinited {F} e.
Arguments envvar {F} e.
Arguments allocs {F} e.

Section Env.
Context {F : Type} `{Sector F}.
Implicit Types s : env F.

Definition set_flash (f : F) s := Env f (nvram_invalid s) (envinited s) (envvar s) (allocs s).
Definition set_invalid (v : Z) s := Env (flash s) v (envinited s) (envvar s) (allocs s).
Definition set_envvar (t : list envpair) s := Env (flash s) (nvram_invalid s) (envinited s) t (allocs s).
Definition set_inited (v : bool) s := Env (flash s) (nvram_invalid s) v (envvar s) (allocs s).

Definition malloc_ok s : bool * env F :=
  (default true (head (allocs s)), Env (flash s) (nvram_invalid s) (envinited s) (envvar s) (tail (allocs s))).

(** ** The table in memory *)

(** A variable that is not found ends the function without a [return]. *)
Inductive getenv_result := Value (v : list Z) | Null | NoReturn.

Fixpoint getenv_loop (t : list envpair) (n : list Z) : getenv_result :=
  match t with
  | [] => NoReturn
  | ep :: t =>
      match name ep with
      | Some n' => if negb (striequ n n' =? 0) then Value (default [] (value ep)) else getenv_loop t n
      | None => getenv_loop t n
      end
  end.

Definition getenv (n : list Z) s : getenv_result :=
  if envinited s then getenv_loop (envvar s) n else Null.

(** The loop of [set_mem_env]: the slot of the name, and the first free slot before it. *)
Fixpoint find_slot (n : list Z) (ep : nat) (bp : option nat) (t : list envpair) : option nat * option nat :=
  match t with
  | [] => (None, bp)
  | e :: t =>
      match name e with
      | None => find_slot n (S ep) (match bp with None => Some ep | Some _ => bp end) t
      | Some n' => if negb (striequ n n' =? 0) then (Some ep, bp) else find_slot n (S ep) bp t
      end
  end.

Definition set_slot (ep : nat) (e : envpair) s := set_envvar (<[ep := e]> (envvar s)) s.

Definition slot (ep : nat) s : envpair := nth ep (envvar s) (EnvPair None None).

Definition set_mem_env (n : list Z) (v : option (list Z)) s : Z * env F :=
  let '(ep, s) :=
    match find_slot n 0 None (envvar s) with
    | (Some ep, _) => (Some ep, set_slot ep (EnvPair (name (slot ep s)) None) s)
    | (None, Some bp) =>
        let '(ok, s) := malloc_ok s in
        if (ok : bool) then (Some bp, set_slot bp (EnvPair (Some n) (value (slot bp s))) s) else (None, s)
    | (None, None) => (None, s)
    end in
  match ep, v with
  | None, _ => (0, s)
  | Some ep, None => (1, s)
  | Some ep, Some v =>
      let '(ok, s) := malloc_ok s in
      if (ok : bool) then (1, set_slot ep (EnvPair (name (slot ep s)) (Some v)) s)
      else (0, set_slot ep (EnvPair None (value (slot ep s))) s)
  end.

(** ** The checksum
    The bytes taken two by two, the first one the more significant, add up to zero. *)

Fixpoint sum_words (sz : nat) (sp : list Z) (sum : Z) : Z :=
  match sz, sp with
  | S sz, hi :: lo :: sp => sum_words sz sp (u16 (u16 (sum + Z.shiftl (u8 hi) 8) + u8 lo))
  | _, _ => sum
  end.

Definition cksum (p : list Z) (sz : nat) (set : bool) : Z * list Z :=
  let p := if set then <[1%nat := 0]> (<[0%nat := 0]> p) else p in
  let sum := sum_words (sz / 2) p 0 in
  if set then
    let sum := u16 (- sum) in
    (sum, <[1%nat := s8 sum]> (<[0%nat := s8 (Z.shiftr sum 8)]> p))
  else (sum, p).

Definition nvram_get s : list Z := spi_flash_read_area (flash s).
Definition nvram_put (buffer : list Z) s : env F :=
  set_flash (spi_flash_write_area buffer (spi_flash_erase_sector (flash s))) s.

Definition resetNorEnvSpace s : env F :=
  if negb (nvram_invalid s =? 0) then
    let '(ok, s) := malloc_ok s in
    if (ok : bool) then
      let nvrambuf := repeat (-1) NVRAM_SECSIZE in
      let nvrambuf := <[3%nat := 0]> (<[2%nat := 0]> nvrambuf) in
      let nvrambuf := snd (cksum nvrambuf NVRAM_SECSIZE true) in
      set_invalid 0 (nvram_put nvrambuf s)
    else s
  else s.

(** ** Walking over the text
    The loops have fuel for the size of the sector, which they cannot exceed. *)

(** [while (( *ep == *np) && ( *ep != '=') && ( *np != 0)) ep++, np++] *)
Fixpoint match_name (b : list Z) (ep : nat) (np : list Z) : option (nat * list Z) :=
  e ← b !! ep;
  match np with
  | [] => Some (ep, [])
  | c :: np' => if (e =? c) && negb (e =? EQUALS) && negb (c =? 0) then match_name b (S ep) np' else Some (ep, np)
  end.

(** [while ( *ep++)] *)
Fixpoint skip_entry (fuel : nat) (b : list Z) (ep : nat) : option nat :=
  match fuel with
  | O => None
  | S fuel => e ← b !! ep; if e =? 0 then Some (S ep) else skip_entry fuel b (S ep)
  end.

(** [while (ep < nvrambuf + NVRAM_SECSIZE) *sp++ = *ep++] *)
Fixpoint shift_down (fuel : nat) (b : list Z) (sp ep : nat) : option (list Z) :=
  if (ep <? NVRAM_SECSIZE)%nat then
    match fuel with
    | O => None
    | S fuel => e ← b !! ep; shift_down fuel (<[sp := e]> b) (S sp) (S ep)
    end
  else Some b.

(** The outer loop of [unset_rom_env]: the buffer to write back when the name is found. *)
Fixpoint unset_loop (fuel : nat) (n : list Z) (b : list Z) (ep : nat) : option (option (list Z)) :=
  match fuel with
  | O => None
  | S fuel =>
      e ← b !! ep;
      if negb (e =? 0) && (ep <? NVRAM_SECSIZE)%nat then
        let sp := ep in
        '(ep, np) ← match_name b ep n;
        e ← b !! ep;
        if bool_decide (np = []) && ((e =? 0) || (e =? EQUALS)) then
          ep ← skip_entry (S NVRAM_SECSIZE) b ep;
          b ← shift_down (S NVRAM_SECSIZE) b sp ep;
          let b := if nth 2 b 0 =? 0 then <[3%nat := 0]> b else b in
          Some (Some (snd (cksum b NVRAM_SECSIZE true)))
        else if negb (e =? 0) then ep ← skip_entry (S NVRAM_SECSIZE) b ep; unset_loop fuel n b ep
        else unset_loop fuel n b ep
      else Some None
  end.

Definition unset_rom_env (n : list Z) s : option (Z * env F) :=
  if negb (nvram_invalid s =? 0) then Some (0, s)
  else
    let '(ok, s) := malloc_ok s in
    if (ok : bool) then
      r ← unset_loop (S NVRAM_SECSIZE) n (nvram_get s) 2;
      match r with
      | Some nvram => Some (1, nvram_put nvram s)
      | None => Some (0, s)
      end
    else Some (0, s).

(** [do { while ( *ep++ != 0); } while ( *ep++ != 0); ep--]: the end of the text, the
    terminator of an empty string. *)
Fixpoint find_end (fuel : nat) (b : list Z) (ep : nat) : option nat :=
  match fuel with
  | O => None
  | S fuel =>
      ep ← skip_entry (S NVRAM_SECSIZE) b ep;
      e ← b !! ep;
      if negb (e =? 0) then find_end fuel b (S ep) else Some ep
  end.

(** Characters stored one after another. *)
Fixpoint put_chars (l : list Z) (b : list Z) (ep : nat) : option (list Z * nat) :=
  match l with
  | [] => Some (b, ep)
  | c :: l => if (ep <? length b)%nat then put_chars l (<[ep := c]> b) (S ep) else None
  end.

Definition set_rom_env (n : list Z) (v : option (list Z)) s : option (Z * env F) :=
  let envlen := strlen n in
  if envlen =? 0 then Some (0, s)
  else
    let envlen := match v with Some v => s32 (envlen + strlen v) | None => envlen end in
    let envlen := s32 (envlen + 2) in
    if 255 <? envlen then Some (0, s)
    else
      let s := if negb (nvram_invalid s =? 0) then resetNorEnvSpace s else s in
      let '(ok, s) := malloc_ok s in
      if (ok : bool) then
        '(_, s) ← unset_rom_env n s;
        let nvrambuf := nvram_get s in
        e ← nvrambuf !! 2%nat;
        ep ← (if negb (e =? 0) then find_end (S NVRAM_SECSIZE) nvrambuf 2 else Some 2%nat);
        (* ((int)ep + NVRAM_SECSIZE - (int)ep) < (envlen + 1) *)
        if Z.of_nat NVRAM_SECSIZE <? envlen + 1 then Some (0, s)
        else
          '(nvrambuf, ep) ← put_chars n nvrambuf ep;
          '(nvrambuf, ep) ← put_chars (match v with Some v => EQUALS :: v ++ [0] | None => [0] end) nvrambuf ep;
          '(nvrambuf, ep) ← put_chars [0] nvrambuf ep;
          let nvrambuf := snd (cksum nvrambuf NVRAM_SECSIZE true) in
          Some (1, nvram_put nvrambuf s)
      else Some (-1, s).

(** ** Reading the sector into the table *)

(** The inner loop of [map_rom_env]: the characters of one string are copied to the
    buffer [env], with the first [=] replaced by a terminator; [val] is the offset of
    what follows it. *)
Fixpoint copy_loop (fuel : nat) (nvram : list Z) (ep i : nat) (env : list Z) (val : option nat) :
    option (nat * nat * list Z * option nat) :=
  match fuel with
  | O => None
  | S fuel =>
      e ← nvram !! ep;
      let env := env ++ [e] in
      let p := length env in
      let ep := S ep in
      if negb (e =? 0) && (ep <=? NVRAM_SECSIZE - 1)%nat then
        if (i <? 255)%nat then
          if (e =? EQUALS) && match val with None => true | Some _ => false end
          then copy_loop fuel nvram ep (S i) (<[(p - 1)%nat := 0]> env) (Some p)
          else copy_loop fuel nvram ep (S i) env val
        else Some (ep, S i, env, val)
      else Some (ep, i, env, val)
  end.

Fixpoint map_loop (fuel : nat) (nvram : list Z) (ep : nat) s : option (env F) :=
  match fuel with
  | O => None
  | S fuel =>
      e ← nvram !! ep;
      if negb (e =? 0) then
        '(ep, i, env, val) ← copy_loop (S NVRAM_SECSIZE) nvram ep 0 [] None;
        if (ep <=? NVRAM_SECSIZE - 1)%nat && (i <? 255)%nat
        then map_loop fuel nvram ep (snd (set_mem_env (cstr env) (v ← val; Some (cstr (drop v env))) s))
        else Some (set_invalid 2 s)
      else Some s
  end.

Definition map_rom_env s : option (env F) :=
  let '(ok, s) := malloc_ok s in
  if (ok : bool) then
    let nvram := nvram_get s in
    if negb (fst (cksum nvram NVRAM_SECSIZE false) =? 0) then Some (resetNorEnvSpace (set_invalid 1 s))
    else map_loop (S NVRAM_SECSIZE) nvram 2 s
  else Some s.

(** ** Setting a variable *)

(** The iterations of the loop over the six pairs of digits that are left. *)
Fixpoint check_mac_loop (n : nat) (i : nat) (macStr : list Z) : bool :=
  match n with
  | O => true
  | S n =>
      let macTmp := [znth 0 macStr (Z.of_nat i); znth 0 macStr (Z.of_nat (i + 1))] in
      let hexValue := s32 (str_to_hex macTmp) in
      if (hexValue >=? 0) && (hexValue <? 0xff) then check_mac_loop n (i + 3) macStr else false
  end.

Definition check_mac_format (macStr : list Z) : bool :=
  if negb (strlen macStr =? 17) then false
  else if negb (forallb (fun i => znth 0 macStr i =? 58) [2; 5; 8; 11; 14]) then false
  else check_mac_loop 6 0 macStr.

Fixpoint mac_loop (n : nat) (i : nat) (macStr macHex : list Z) : option (list Z) :=
  match n with
  | O => Some macHex
  | S n =>
      let macTmp := [znth 0 macStr (Z.of_nat i); znth 0 macStr (Z.of_nat (i + 1))] in
      let hexValue := s32 (str_to_hex macTmp) in
      if (hexValue >=? 0) && (hexValue <? 0xff) then mac_loop n (i + 3) macStr (macHex ++ [s8 hexValue]) else None
  end.

(** The six bytes that are stored in [macHex] when the result is 1. *)
Definition mac_str_to_hex (macStr : list Z) : option (list Z) :=
  if check_mac_format macStr then mac_loop 6 0 macStr [] else None.

Definition do_setenv (n : list Z) (v : list Z) s : option (env F) :=
  if negb (striequ n ENV_MAC_NAME =? 0) && negb (check_mac_format v) then Some s
  else
    let s := snd (set_mem_env n (Some v) s) in
    '(_, s) ← set_rom_env n (Some v) s;
    Some s.

(** [garbage]: whether the caller finds something other than 0 when [getenv] of this name does
    not return a value. *)
Definition getenv_found (garbage : list Z -> bool) (n : list Z) (r : getenv_result) : bool :=
  match r with Value _ => true | Null => false | NoReturn => garbage n end.

Fixpoint set_defaults (garbage : list Z -> bool) (tab : list (list Z * list Z)) s : option (env F) :=
  match tab with
  | [] => Some s
  | (n, v) :: tab =>
      s ← (if getenv_found garbage n (getenv n s) then Some s else do_setenv n v s);
      set_defaults garbage tab s
  end.

Definition envinit (garbage : list Z -> bool) s : option (env F) :=
  let s := set_envvar (repeat (EnvPair None None) NVAR) s in
  s ← map_rom_env s;
  let s := set_inited true s in
  set_defaults garbage stdenvtab s.

(** ** The environment of a program that is started (os/filesys/load.c) *)

Definition envsize s : Z * Z :=
  fold_left (fun '(ec, slen) ep =>
    match name ep with
    | Some n =>
        let ec := s32 (ec + 1) in
        let slen := s32 (slen + (strlen n + 2)) in
        (ec, match value ep with Some v => s32 (slen + strlen v) | None => slen end)
    | None => (ec, slen)
    end) (envvar s) (0, 0).

(** The addresses that are stored at [vsp], the null pointer at the end, and the
    characters that are stored at [ssp]. *)
Fixpoint envbuild_loop (t : list envpair) (ssp : Z) (vec : list Z) (text : list Z) : list Z * list Z :=
  match t with
  | [] => (vec ++ [0], text)
  | ep :: t =>
      match name ep with
      | Some n =>
          let pair := n ++ [EQUALS] ++ default [] (value ep) ++ [0] in
          envbuild_loop t (ssp + Z.of_nat (length pair)) (vec ++ [ssp]) (text ++ pair)
      | None => envbuild_loop t ssp vec text
      end
  end.

Definition envbuild (ssp : Z) s : list Z * list Z := envbuild_loop (envvar s) ssp [] [].
End Env.
