(* ===== verification/EnvSpec.v ===== *)
(** * The environment: the text in the sector
    The sector as the list of the variables whose text it holds: the checksum, finding and
    removing a variable, finding the end of the text and appending a variable there. *)

From S2P Require Import Prelude CStr CType NumConv Shell ShellSplit ShellExec Env.
From stdpp Require Import strings.
#[local] Open Scope Z_scope.

#[local] Opaque NVRAM_SECSIZE.

#[local] Abbreviation binding := (list Z * list Z)%type.

(** The lengths in the goal and the hypotheses, for [lia]. *)
Ltac lens := repeat match goal with
  | |- context [length (_ ++ _)] => rewrite length_app
  | |- context [length (_ :: _)] => rewrite length_cons
  | |- context [length []] => rewrite length_nil
  | E : context [length (_ ++ _)] |- _ => rewrite length_app in E
  | E : context [length (_ :: _)] |- _ => rewrite length_cons in E
  | E : context [length []] |- _ => rewrite length_nil in E
  end.

(** Concatenations that are the same up to associativity. *)
Ltac apps := repeat first [progress cbn [app] | rewrite <- app_assoc]; reflexivity.

(** ** The text *)

Definition entry (e : binding) : list Z := fst e ++ EQUALS :: snd e ++ [0].

Fixpoint text (l : list binding) : list Z :=
  match l with
  | [] => []
  | e :: l => entry e ++ text l
  end.

Definition encode (l : list binding) : list Z := text l ++ [0].

(** Names hold no [=]; a variable takes at most 255 characters. *)
Definition good_name (n : list Z) : Prop := cstring n /\ n <> [] /\ EQUALS ∉ n.
Definition good_binding (e : binding) : Prop :=
  good_name (fst e) /\ cstring (snd e) /\ (length (fst e) + length (snd e) + 2 <= 255)%nat.
Definition good (l : list binding) : Prop := Forall good_binding l /\ NoDup l.*1.

(** A sector with a valid checksum that holds the variables [l]; what follows them is
    of no interest. *)
Definition sector_holds (b : list Z) (l : list binding) : Prop :=
  is_sector b /\ sum_words (NVRAM_SECSIZE / 2) b 0 = 0 /\
  exists c0 c1 junk, b = c0 :: c1 :: encode l ++ junk.

Lemma nvram_size : NVRAM_SECSIZE = 4096%nat.
Proof. reflexivity. Qed.

Lemma lookup_at (pre : list Z) (c : Z) (post : list Z) : (pre ++ c :: post) !! length pre = Some c.
Proof. apply list_lookup_middle. done. Qed.

Lemma skip_entry_spec (pre t post : list Z) (fuel : nat) : nul_free t -> (length t < fuel)%nat ->
  skip_entry fuel (pre ++ t ++ 0 :: post) (length pre) = Some (length (pre ++ t ++ [0])).
Proof.
  intros Ht. revert pre fuel. induction Ht as [|c t Hc Ht IH]; intros pre fuel Hf; (destruct fuel as [|fuel]; [cbn in Hf; lia|]).
  - cbn [skip_entry app]. rewrite lookup_at. cbn. rewrite length_app. f_equal. cbn. lia.
  - cbn [skip_entry app]. rewrite lookup_at. cbn [mbind option_bind]. destruct (Z.eqb_spec c 0); [done|].
    specialize (IH (pre ++ [c]) fuel). rewrite <- !app_assoc in IH. cbn [app] in IH.
    rewrite length_app in IH. cbn [length] in IH. rewrite Nat.add_1_r in IH. apply IH. cbn in Hf. lia.
Qed.

(** The walk over the name of an entry stops inside the entry, and at its [=] with
    nothing left exactly when the name is the one that is looked for. *)
Lemma match_name_spec (pre n' post n : list Z) : nul_free n -> nul_free n' -> EQUALS ∉ n -> EQUALS ∉ n' ->
  exists done rest np c, n' ++ [EQUALS] = done ++ c :: rest /\
    match_name (pre ++ n' ++ EQUALS :: post) (length pre) n = Some (length (pre ++ done), np) /\
    (pre ++ n' ++ EQUALS :: post) !! length (pre ++ done) = Some c /\ c <> 0 /\
    (np = [] /\ c = EQUALS <-> n = n').
Proof.
  revert pre n'. induction n as [|c n IH]; intros pre n' Hn Hn' He He'.
  - destruct n' as [|c' n'].
    + exists [], [], [], EQUALS. cbn [match_name app]. rewrite app_nil_r, lookup_at. by split_and!.
    + exists [], (n' ++ [EQUALS]), [], c'. cbn [match_name app]. rewrite app_nil_r, lookup_at.
      apply Forall_cons in Hn' as [Hc' _]. rewrite not_elem_of_cons in He'. destruct He' as [He' _].
      split_and!; try done. split; [intros [_ ->]; done|done].
  - apply Forall_cons in Hn as [Hc Hn]. rewrite not_elem_of_cons in He. destruct He as [Hce He].
    destruct n' as [|c' n'].
    + exists [], [], (c :: n), EQUALS. cbn [match_name app]. rewrite app_nil_r, lookup_at. cbn [mbind option_bind].
      destruct (Z.eqb_spec EQUALS c); [done|]. split_and!; try done. by split; [intros []|].
    + apply Forall_cons in Hn' as [Hc' Hn']. rewrite not_elem_of_cons in He'. destruct He' as [Hce' He'].
      cbn [match_name app]. rewrite lookup_at. cbn [mbind option_bind].
      destruct (Z.eqb_spec c' c) as [->|Hne].
      * destruct (Z.eqb_spec c EQUALS); [done|]. destruct (Z.eqb_spec c 0); [done|]. cbn [negb andb].
        destruct (IH (pre ++ [c]) n' Hn Hn' He He') as (d & rest & np & k & E1 & E2 & E3 & Hk & Hiff).
        rewrite <- !app_assoc in E2, E3. cbn [app] in E2, E3. exists (c :: d), rest, np, k. cbn [app]. rewrite E1.
        rewrite length_app in E2 at 1. cbn [length] in E2. rewrite Nat.add_1_r in E2. split_and!; try done.
        rewrite Hiff. split; [by intros ->|by intros [= ->]].
      * cbn [andb]. exists [], (n' ++ [EQUALS]), (c :: n), c'. rewrite app_nil_r, lookup_at. split_and!; try done.
        split; [by intros []|by intros [= -> ->]].
Qed.

(** ** The checksum *)

Lemma sum_words_start (sz : nat) : forall (sp : list Z) (s : Z), 0 <= s < 2 ^ 16 ->
  sum_words sz sp s = u16 (s + sum_words sz sp 0) /\ 0 <= sum_words sz sp s < 2 ^ 16.
Proof.
  induction sz as [|sz IH]; intros sp s Hs; [cbn; rewrite Z.add_0_r, u16_small by done; done|].
  destruct sp as [|hi [|lo sp]]; try (cbn; rewrite Z.add_0_r, u16_small by done; done).
  cbn [sum_words]. pose proof (u16_range (u16 (s + Z.shiftl (u8 hi) 8) + u8 lo)) as H1.
  pose proof (u16_range (u16 (0 + Z.shiftl (u8 hi) 8) + u8 lo)) as H2.
  destruct (IH sp _ H1) as [E1 R1], (IH sp _ H2) as [E2 R2]. split; [|done]. rewrite E1, E2. unfold u16. zlia.
Qed.

Lemma sum_bytes (sum : Z) : 0 <= sum < 2 ^ 16 ->
  is_char (s8 (Z.shiftr sum 8)) /\ is_char (s8 sum) /\
  u16 (u16 (0 + Z.shiftl (u8 (s8 (Z.shiftr sum 8))) 8) + u8 (s8 sum)) = sum.
Proof. intros Hs. unfold is_char. rewrite Z.shiftl_mul_pow2, Z.shiftr_div_pow2 by lia. split_and!; zlia. Qed.

Lemma cksum_set (x y : Z) (rest : list Z) : exists c0 c1,
  snd (cksum (x :: y :: rest) NVRAM_SECSIZE true) = c0 :: c1 :: rest /\ is_char c0 /\ is_char c1 /\
  sum_words (NVRAM_SECSIZE / 2) (c0 :: c1 :: rest) 0 = 0.
Proof.
  unfold cksum. cbn [snd insert list_insert]. replace (NVRAM_SECSIZE / 2)%nat with (S 2047) by reflexivity.
  generalize 2047%nat. intros n.
  assert (sum_words (S n) (0 :: 0 :: rest) 0 = sum_words n rest 0) as -> by done.
  destruct (sum_words_start n rest 0 ltac:(lia)) as [_ Ht].
  pose proof (u16_range (- sum_words n rest 0)) as Hs. remember (u16 (- sum_words n rest 0)) as sum eqn:Esum.
  destruct (sum_bytes sum Hs) as (H0 & H1 & E). exists (s8 (Z.shiftr sum 8)), (s8 sum).
  split; [done|]. split; [done|]. split; [done|]. cbn [sum_words]. rewrite E.
  destruct (sum_words_start n rest sum Hs) as [-> _]. rewrite Esum. unfold u16. zlia.
Qed.

(** ** Removing a variable *)

Lemma shift_down_spec (fuel : nat) : forall (b : list Z) (sp ep : nat), length b = NVRAM_SECSIZE -> (sp <= ep <= length b)%nat ->
  (length b - ep <= fuel)%nat ->
  shift_down fuel b sp ep = Some (take sp b ++ drop ep b ++ drop (sp + (length b - ep)) b).
Proof.
  induction fuel as [|fuel IH]; intros b sp ep Hb Hle Hf; cbn [shift_down]; rewrite <- Hb.
  - assert (ep = length b) as -> by lia. rewrite Nat.ltb_irrefl, drop_all, Nat.sub_diag, Nat.add_0_r. cbn [app].
    by rewrite take_drop.
  - destruct (Nat.ltb_spec ep (length b)) as [Hlt|Hge].
    + destruct (lookup_lt_is_Some_2 b ep Hlt) as [e He]. rewrite He. cbn [mbind option_bind].
      rewrite IH; rewrite ?length_insert; try lia. f_equal.
      replace (S sp + (length b - S ep))%nat with (sp + (length b - ep))%nat by lia.
      rewrite (take_S_r _ _ e) by (apply list_lookup_insert_eq; lia). rewrite take_insert_ge by lia.
      rewrite !drop_insert_lt by lia. rewrite (drop_S b e ep He), <- app_assoc. done.
    + assert (ep = length b) as -> by lia. rewrite drop_all, Nat.sub_diag, Nat.add_0_r. cbn [app]. by rewrite take_drop.
Qed.

Lemma entry_app (e : binding) (post : list Z) : entry e ++ post = fst e ++ EQUALS :: snd e ++ 0 :: post.
Proof. unfold entry. by rewrite <- app_assoc; cbn [app]; rewrite <- app_assoc. Qed.

Lemma nul_free_cons (c : Z) (t : list Z) : nul_free (c :: t) <-> c <> 0 /\ nul_free t.
Proof. unfold nul_free. by rewrite Forall_cons. Qed.

(** One round of the loop: at an entry, it stops when the name is found and goes on
    behind the entry otherwise. *)
Lemma unset_round (fuel : nat) (n : list Z) (e : binding) (pre post : list Z) :
  good_name n -> good_binding e -> length (pre ++ entry e ++ post) = NVRAM_SECSIZE ->
  unset_loop (S fuel) n (pre ++ entry e ++ post) (length pre) =
    if decide (fst e = n) then
      let b := pre ++ post ++ drop (length (pre ++ post)) (pre ++ entry e ++ post) in
      Some (Some (snd (cksum (if nth 2 b 0 =? 0 then <[3%nat := 0]> b else b) NVRAM_SECSIZE true)))
    else unset_loop fuel n (pre ++ entry e ++ post) (length (pre ++ entry e)).
Proof.
  intros (Hn & Hne & Hneq) ((Hn' & Hne' & Hneq') & Hv & _) Hlen. cbn [unset_loop].
  destruct (match_name_spec pre (fst e) (snd e ++ 0 :: post) n) as (dn & rest & np & c & E1 & E2 & E3 & Hc & Hiff);
    [by apply cstring_nul_free..|done|done|]. rewrite <- entry_app in E2, E3.
  assert (exists c0 t, entry e ++ post = c0 :: t /\ c0 <> 0) as (c0 & t & E0 & Hc0).
  { rewrite entry_app. destruct (fst e) as [|c0 n']; [done|]. apply Forall_cons in Hn' as [[_ ?] _]. by eexists _, _. }
  rewrite E0 at 1. rewrite lookup_at. cbn [mbind option_bind]. rewrite (proj2 (Z.eqb_neq c0 0)) by done.
  assert (length pre < NVRAM_SECSIZE)%nat as Hlt by (rewrite <- Hlen, E0, length_app; cbn; lia).
  rewrite (proj2 (Nat.ltb_lt _ _) Hlt). cbn [negb andb]. rewrite E2. cbn [mbind option_bind]. rewrite E3. cbn [mbind option_bind].
  assert (nul_free (fst e ++ [EQUALS])) as Hnf
    by (apply nul_free_app; split; [by apply cstring_nul_free|by repeat constructor]).
  rewrite E1 in Hnf. apply nul_free_app in Hnf as [_ Hnf].
  assert (pre ++ entry e ++ post = (pre ++ dn) ++ (c :: rest ++ snd e) ++ 0 :: post) as Eb.
  { rewrite entry_app. rewrite <- !app_assoc. f_equal. replace (fst e ++ EQUALS :: snd e ++ 0 :: post)
      with ((fst e ++ [EQUALS]) ++ snd e ++ 0 :: post) by (by rewrite <- app_assoc). rewrite E1, <- app_assoc. cbn [app].
    by rewrite <- app_assoc. }
  assert (length ((pre ++ dn) ++ (c :: rest ++ snd e) ++ [0]) = length (pre ++ entry e)) as Elen.
  { assert (length (pre ++ entry e ++ post) = length ((pre ++ dn) ++ (c :: rest ++ snd e) ++ 0 :: post)) as E by (by rewrite Eb).
    lens. lia. }
  assert (skip_entry (S NVRAM_SECSIZE) (pre ++ entry e ++ post) (length (pre ++ dn)) = Some (length (pre ++ entry e))) as Es.
  { rewrite Eb, skip_entry_spec; [by rewrite Elen| |].
    - apply nul_free_cons. apply nul_free_cons in Hnf as [? ?]. split; [done|]. apply nul_free_app.
      split; [done|by apply cstring_nul_free].
    - rewrite <- Hlen, Eb. lens. lia. }
  rewrite (proj2 (Z.eqb_neq c 0)) by done. cbn [orb]. case_decide as Hd.
  - destruct (proj2 Hiff (eq_sym Hd)) as [-> ->]. rewrite bool_decide_eq_true_2, Z.eqb_refl by done. cbn [andb].
    rewrite Es. cbn [mbind option_bind]. rewrite shift_down_spec; [|done|rewrite !length_app; lia|rewrite <- Hlen; lia].
    cbn [mbind option_bind]. rewrite take_app_length.
    replace (drop (length (pre ++ entry e)) (pre ++ entry e ++ post)) with post
      by (rewrite (app_assoc pre), drop_app_length; done).
    replace (length pre + (length (pre ++ entry e ++ post) - length (pre ++ entry e)))%nat with (length (pre ++ post))
      by (rewrite !length_app; lia). done.
  - replace (bool_decide (np = []) && (c =? EQUALS)) with false.
    2:{ symmetry. apply andb_false_iff. destruct (decide (np = [])) as [E|]; [|left; by apply bool_decide_eq_false_2].
        right. apply Z.eqb_neq. intros ->. destruct Hd. symmetry. by apply Hiff. }
    cbn [negb]. rewrite Es. done.
Qed.

Definition without (n : list Z) (l : list binding) : list binding := filter (fun e => fst e <> n) l.

Lemma without_notin (n : list Z) (l : list binding) : n ∉ l.*1 -> without n l = l.
Proof.
  unfold without. induction l as [|e l IH]; [done|]. rewrite fmap_cons, not_elem_of_cons. intros [Hne Hn].
  rewrite filter_cons_True by congruence. by rewrite IH.
Qed.

Lemma without_good (n : list Z) (l : list binding) : good l -> good (without n l) /\ n ∉ (without n l).*1.
Proof.
  intros [Hg Hnd]. split; [split|].
  - apply Forall_forall. intros e [_ He]%list_elem_of_filter. by apply (proj1 (Forall_forall _ _) Hg).
  - unfold without. clear Hg. induction l as [|e l IH]; [done|]. rewrite fmap_cons in Hnd. apply NoDup_cons in Hnd as [Hni Hnd].
    rewrite filter_cons. case_decide; [|by apply IH]. rewrite fmap_cons. apply NoDup_cons. split; [|by apply IH].
    intros (e' & E & [_ He]%list_elem_of_filter)%list_elem_of_fmap. apply Hni. rewrite E. by apply list_elem_of_fmap_2.
  - intros ([n' v] & -> & [Hne _]%list_elem_of_filter)%list_elem_of_fmap. by apply Hne.
Qed.

(** The repair of the text when the last variable is gone. *)
Definition mend (b : list Z) : list Z := if nth 2 b 0 =? 0 then <[3%nat := 0]> b else b.

Lemma unset_loop_spec (n : list Z) (l : list binding) : forall (pre junk : list Z) (fuel : nat),
  good_name n -> good l -> length (pre ++ encode l ++ junk) = NVRAM_SECSIZE -> (length l < fuel)%nat ->
  if decide (n ∈ l.*1) then
    exists junk', length (pre ++ encode (without n l) ++ junk') = NVRAM_SECSIZE /\
      junk' ⊆ pre ++ encode l ++ junk /\
      unset_loop fuel n (pre ++ encode l ++ junk) (length pre) =
        Some (Some (snd (cksum (mend (pre ++ encode (without n l) ++ junk')) NVRAM_SECSIZE true)))
  else unset_loop fuel n (pre ++ encode l ++ junk) (length pre) = Some None.
Proof.
  induction l as [|e l IH]; intros pre junk fuel Hn [Hg Hnd] Hlen Hf; (destruct fuel as [|fuel]; [lia|]).
  - rewrite decide_False by (intros []%elem_of_nil). cbn [unset_loop]. change (encode [] ++ junk) with (0 :: junk).
    rewrite lookup_at. done.
  - apply Forall_cons in Hg as [He Hg]. rewrite fmap_cons in Hnd. apply NoDup_cons in Hnd as [Hni Hnd].
    assert (encode (e :: l) ++ junk = entry e ++ (encode l ++ junk)) as Ee
      by (unfold encode; cbn [text]; by rewrite <- !app_assoc).
    rewrite Ee in Hlen |- *. rewrite unset_round by done.
    destruct (decide (fst e = n)) as [<-|Hne].
    + rewrite decide_True by (rewrite fmap_cons; apply list_elem_of_here). cbv zeta.
      exists (junk ++ drop (length (pre ++ (encode l ++ junk))) (pre ++ entry e ++ encode l ++ junk)).
      assert (without (fst e) (e :: l) = l) as ->.
      { unfold without. rewrite filter_cons_False by naive_solver. by apply without_notin. }
      assert (pre ++ encode l ++ junk ++ drop (length (pre ++ encode l ++ junk)) (pre ++ entry e ++ encode l ++ junk) =
        pre ++ (encode l ++ junk) ++ drop (length (pre ++ encode l ++ junk)) (pre ++ entry e ++ encode l ++ junk)) as ->
        by (by rewrite <- !app_assoc).
      split; [|split; [|done]].
      * rewrite app_assoc, length_app, length_drop, Hlen. rewrite <- Hlen. lens. lia.
      * intros x [Hx|Hx]%elem_of_app; [set_solver|]. by apply subseteq_drop in Hx.
    + specialize (IH (pre ++ entry e) junk fuel Hn (conj Hg Hnd)).
      rewrite <- !app_assoc in IH. specialize (IH Hlen ltac:(cbn in Hf; lia)).
      assert (without n (e :: l) = e :: without n l) as -> by (unfold without; by rewrite filter_cons_True).
      assert (forall x, encode (e :: without n l) ++ x = entry e ++ encode (without n l) ++ x) as Ew
        by (intros x; unfold encode; cbn [text]; by rewrite <- !app_assoc).
      destruct (decide (n ∈ l.*1)) as [Hin|Hin].
      * rewrite decide_True by (rewrite fmap_cons; by apply list_elem_of_further).
        destruct IH as (junk' & E1 & E2 & E3). exists junk'. rewrite Ew. rewrite <- !app_assoc in E1, E3. done.
      * rewrite decide_False; [done|]. rewrite fmap_cons, not_elem_of_cons. done.
Qed.

Lemma encode_cons (e : binding) (l : list binding) (x : list Z) : encode (e :: l) ++ x = entry e ++ encode l ++ x.
Proof. unfold encode. cbn [text]. by rewrite <- !app_assoc. Qed.

(** The text is empty exactly when its first character is the terminator. *)
Lemma encode_head (l : list binding) (x : list Z) : good l -> exists c t, encode l ++ x = c :: t /\ (c = 0 <-> l = []).
Proof.
  intros [Hg _]. destruct l as [|e l]; [by eexists _, _|]. apply Forall_cons in Hg as [((Hn & Hne & _) & _) _].
  rewrite encode_cons, entry_app. destruct (fst e) as [|c n]; [done|]. apply Forall_cons in Hn as [[_ Hc] _].
  exists c. eexists. split; [reflexivity|]. split; [by intros ->|done].
Qed.

Lemma mend_spec (c0 c1 : Z) (l : list binding) (junk : list Z) : good l ->
  exists junk', mend (c0 :: c1 :: encode l ++ junk) = c0 :: c1 :: encode l ++ junk' /\
    length junk' = length junk /\ (forall x, x ∈ junk' -> x = 0 \/ x ∈ junk).
Proof.
  intros Hg. destruct (encode_head l junk Hg) as (c & t & E & Hc). unfold mend. cbn [nth]. rewrite E. cbn [nth].
  destruct (Z.eqb_spec c 0) as [H0|H0].
  - apply Hc in H0 as ->. injection E as <- <-. exists (<[0%nat := 0]> junk). split; [done|]. split; [apply length_insert|].
    intros x. destruct junk as [|y junk]; [by right|]. cbn. rewrite !elem_of_cons. tauto.
  - exists junk. rewrite E. split_and!; [done|done|by right].
Qed.

(** A sector whose text has been changed and whose checksum has been set. *)
Lemma cksum_holds (c0 c1 : Z) (l : list binding) (junk : list Z) :
  length (c0 :: c1 :: encode l ++ junk) = NVRAM_SECSIZE -> Forall is_char (encode l ++ junk) ->
  sector_holds (snd (cksum (c0 :: c1 :: encode l ++ junk) NVRAM_SECSIZE true)) l.
Proof.
  intros Hlen Hch. destruct (cksum_set c0 c1 (encode l ++ junk)) as (k0 & k1 & -> & H0 & H1 & Hs).
  split; [split; [done|by repeat apply Forall_cons_2]|]. split; [done|]. by exists k0, k1, junk.
Qed.

Lemma cstring_chars (t : list Z) : cstring t -> Forall is_char t.
Proof. intros H. eapply Forall_impl; [exact H|]. by intros ? []. Qed.

Lemma encode_chars (l : list binding) : good l -> Forall is_char (encode l).
Proof.
  intros [Hg _]. unfold encode. apply Forall_app. split; [|by repeat constructor]. induction Hg as [|e l He _ IH]; [constructor|].
  cbn [text]. apply Forall_app. split; [|done]. destruct He as ((Hn & _) & Hv & _). unfold entry.
  apply Forall_app. split; [by apply cstring_chars|]. apply Forall_cons. split; [by split|]. apply Forall_app.
  split; [by apply cstring_chars|by repeat constructor].
Qed.

(** ** Appending a variable *)

Lemma text_app (l1 l2 : list binding) : text (l1 ++ l2) = text l1 ++ text l2.
Proof. induction l1 as [|e l1 IH]; [done|]. cbn [text app]. by rewrite IH, <- app_assoc. Qed.

Lemma find_end_spec (l : list binding) : forall (pre t junk : list Z) (fuel : nat),
  Forall good_binding l -> nul_free t -> (length t <= NVRAM_SECSIZE)%nat -> (length l < fuel)%nat ->
  find_end fuel (pre ++ t ++ 0 :: encode l ++ junk) (length pre) = Some (length (pre ++ t ++ 0 :: text l)).
Proof.
  induction l as [|e l IH]; intros pre t junk fuel Hg Ht Hlt Hf; (destruct fuel as [|fuel]; [lia|]); cbn [find_end];
    rewrite skip_entry_spec by (done || lia); cbn [mbind option_bind].
  - change (encode [] ++ junk) with (0 :: junk).
    replace (pre ++ t ++ 0 :: 0 :: junk) with ((pre ++ t ++ [0]) ++ 0 :: junk) by apps.
    rewrite lookup_at. cbn. done.
  - apply Forall_cons in Hg as [((Hn & Hne & _) & Hv & Hsz) Hg]. rewrite encode_cons, entry_app.
    destruct (fst e) as [|c n'] eqn:En; [done|]. apply Forall_cons in Hn as [[_ Hc] Hn].
    replace (pre ++ t ++ 0 :: (c :: n') ++ EQUALS :: snd e ++ 0 :: encode l ++ junk)
      with ((pre ++ t ++ [0]) ++ c :: (n' ++ EQUALS :: snd e) ++ 0 :: encode l ++ junk)
      by apps.
    rewrite lookup_at. cbn [mbind option_bind]. rewrite (proj2 (Z.eqb_neq c 0)) by done. cbn [negb].
    specialize (IH (pre ++ t ++ [0; c]) (n' ++ EQUALS :: snd e) junk fuel Hg).
    replace (length (pre ++ t ++ [0; c])) with (S (length (pre ++ t ++ [0]))) in IH by (lens; lia).
    replace ((pre ++ t ++ [0; c]) ++ (n' ++ EQUALS :: snd e) ++ 0 :: encode l ++ junk)
      with ((pre ++ t ++ [0]) ++ c :: (n' ++ EQUALS :: snd e) ++ 0 :: encode l ++ junk) in IH by apps.
    rewrite IH.
    + f_equal. cbn [text]. unfold entry. rewrite En. lens. lia.
    + apply nul_free_app. split; [by apply cstring_nul_free|]. apply nul_free_cons. split; [done|by apply cstring_nul_free].
    + rewrite nvram_size. lens. lia.
    + cbn in Hf. lia.
Qed.

Lemma put_chars_spec (l : list Z) : forall (b : list Z) (ep : nat), (ep + length l <= length b)%nat ->
  put_chars l b ep = Some (take ep b ++ l ++ drop (ep + length l) b, (ep + length l)%nat).
Proof.
  induction l as [|c l IH]; intros b ep Hle; cbn [put_chars length] in *.
  - rewrite Nat.add_0_r. cbn [app]. by rewrite take_drop.
  - destruct (Nat.ltb_spec ep (length b)); [|lia]. rewrite IH by (rewrite length_insert; lia).
    rewrite (take_S_r _ _ c) by (apply list_lookup_insert_eq; lia). rewrite take_insert_ge, drop_insert_lt by lia.
    rewrite <- app_assoc. cbn [app]. do 2 f_equal; [|lia]. by replace (S ep + length l)%nat with (ep + S (length l))%nat by lia.
Qed.

Lemma put_chars_app (l1 : list Z) : forall (l2 b : list Z) (ep : nat),
  put_chars (l1 ++ l2) b ep = put_chars l1 b ep ≫= fun p => put_chars l2 (fst p) (snd p).
Proof.
  induction l1 as [|c l1 IH]; intros l2 b ep; [done|]. cbn [put_chars app]. destruct (ep <? length b)%nat; [|done]. apply IH.
Qed.

Lemma put_chars_3 {A} (l1 l2 l3 b : list Z) (ep : nat) (k : list Z * nat -> option A) :
  ('(b, ep) ← put_chars l1 b ep; '(b, ep) ← put_chars l2 b ep; p ← put_chars l3 b ep; k p) =
  put_chars (l1 ++ l2 ++ l3) b ep ≫= k.
Proof.
  rewrite put_chars_app. destruct (put_chars l1 b ep) as [[b1 ep1]|]; [|done]. cbn [mbind option_bind fst snd].
  rewrite put_chars_app. by destruct (put_chars l2 b1 ep1) as [[b2 ep2]|].
Qed.

Lemma put_chars_overflow (l : list Z) : forall (b : list Z) (ep : nat), (length b < ep + length l)%nat -> (ep <= length b)%nat ->
  put_chars l b ep = None.
Proof.
  induction l as [|c l IH]; intros b ep Hlt Hle; cbn [put_chars length] in *; [lia|].
  destruct (Nat.ltb_spec ep (length b)); [|done]. apply IH; rewrite length_insert; lia.
Qed.

(** The offset of the end of the text. *)
Lemma end_of_text (c0 c1 : Z) (l : list binding) (junk : list Z) : good l ->
  length (c0 :: c1 :: encode l ++ junk) = NVRAM_SECSIZE ->
  exists e, (c0 :: c1 :: encode l ++ junk) !! 2%nat = Some e /\
    (if negb (e =? 0) then find_end (S NVRAM_SECSIZE) (c0 :: c1 :: encode l ++ junk) 2 else Some 2%nat) =
      Some (length (c0 :: c1 :: text l)).
Proof.
  intros Hg Hlen. destruct (encode_head l junk Hg) as (e & t & E & He). exists e. split; [by rewrite E|].
  destruct (Z.eqb_spec e 0) as [Hz|Hz]; cbn [negb]; [by rewrite (proj1 He Hz)|].
  destruct l as [|b l]; [by destruct Hz; apply He|]. destruct Hg as [Hg Hnd].
  apply Forall_cons in Hg as [Hb Hg]. pose proof Hb as ((Hn & Hne & _) & Hv & Hsz).
  rewrite encode_cons, entry_app.
  pose proof (find_end_spec l [c0; c1] (fst b ++ EQUALS :: snd b) junk (S NVRAM_SECSIZE) Hg) as Hf.
  change (length [c0; c1]) with 2%nat in Hf.
  replace ([c0; c1] ++ (fst b ++ EQUALS :: snd b) ++ 0 :: encode l ++ junk)
    with (c0 :: c1 :: fst b ++ EQUALS :: snd b ++ 0 :: encode l ++ junk) in Hf by apps.
  rewrite Hf.
  - f_equal. cbn [text]. unfold entry. lens. lia.
  - apply nul_free_app. split; [by apply cstring_nul_free|]. apply nul_free_cons. split; [done|by apply cstring_nul_free].
  - rewrite nvram_size. lens. lia.
  - assert (length l <= length (text l))%nat as Hl.
    { clear. induction l as [|e l IH]; cbn [text]; lens; [lia|]. unfold entry. lens. lia. }
    rewrite <- Hlen. unfold encode. cbn [text]. lens. lia.
Qed.

(** The rest of the state, when only the flash changes. *)
Definition only_flash {F} (s s' : env F) : Prop :=
  nvram_invalid s' = nvram_invalid s /\ envinited s' = envinited s /\ envvar s' = envvar s /\ allocs s' = [].

Section Rom.
Context {F : Type} `{SectorLaws F}.
Implicit Types s : env F.

Lemma nvram_put_get (b : list Z) s : is_sector b -> nvram_get (nvram_put b s) = b.
Proof. apply write_erased. Qed.

Lemma unset_rom_env_spec (n : list Z) (l : list binding) s :
  good_name n -> good l -> sector_holds (nvram_get s) l -> nvram_invalid s = 0 -> allocs s = [] ->
  exists r s', unset_rom_env n s = Some (r, s') /\ sector_holds (nvram_get s') (without n l) /\ only_flash s s'.
Proof.
  intros Hn Hg Hh Hi Ha. unfold unset_rom_env. rewrite Hi, Z.eqb_refl. cbn [negb]. unfold malloc_ok. rewrite Ha.
  cbn [default head from_option id tail]. change (nvram_get (Env _ _ _ _ _)) with (nvram_get s).
  pose proof Hh as ((Hlen & Hch) & Hsum & c0 & c1 & junk & Eb).
  pose proof (unset_loop_spec n l [c0; c1] junk (S NVRAM_SECSIZE) Hn Hg) as Hl. cbn [app] in Hl.
  change (length [c0; c1]) with 2%nat in Hl. rewrite <- Eb in Hl.
  specialize (Hl Hlen). assert (length l < S NVRAM_SECSIZE)%nat as Hf.
  { rewrite <- Hlen, Eb. clear. unfold encode. lens. assert (length l <= length (text l))%nat; [|lia].
    induction l as [|e l IH]; cbn [text]; lens; [lia|]. unfold entry. lens. lia. }
  specialize (Hl Hf). destruct (decide (n ∈ l.*1)) as [Hin|Hin].
  - destruct Hl as (junk' & Hlen' & Hsub & ->). cbn [mbind option_bind]. eexists _, _. split; [reflexivity|].
    destruct (without_good n l Hg) as [Hg' _].
    assert (sector_holds (snd (cksum (mend (c0 :: c1 :: encode (without n l) ++ junk')) NVRAM_SECSIZE true)) (without n l)) as Hh'.
    { destruct (mend_spec c0 c1 (without n l) junk' Hg') as (junk2 & -> & El & Hj). apply cksum_holds.
      - rewrite <- Hlen'. lens. rewrite El. done.
      - apply Forall_app. split; [by apply encode_chars|]. apply Forall_forall. intros x [->|Hx]%Hj; [by split|].
        apply Hsub in Hx. by apply (proj1 (Forall_forall _ _) Hch). }
    split; [rewrite nvram_put_get; [done|apply Hh']|done].
  - rewrite Hl. cbn [mbind option_bind]. eexists _, _. split; [reflexivity|].
    change (nvram_get (Env _ _ _ _ _)) with (nvram_get s). rewrite without_notin by done. done.
Qed.

Lemma envlen_ok (n v : list Z) : good_binding (n, v) ->
  (strlen n =? 0) = false /\ (255 <? s32 (s32 (strlen n + strlen v) + 2)) = false /\
  (Z.of_nat NVRAM_SECSIZE <? s32 (s32 (strlen n + strlen v) + 2) + 1) = false.
Proof.
  intros ((_ & Hne & _) & _ & Hsz). cbn [fst snd] in *. rewrite !strlen_spec by lia. rewrite nvram_size.
  rewrite (s32_small (Z.of_nat (length n) + Z.of_nat (length v))), s32_small by lia.
  assert (0 < length n)%nat by (destruct n; [done|cbn; lia]).
  split_and!; [apply Z.eqb_neq|apply Z.ltb_ge|apply Z.ltb_ge]; lia.
Qed.

(** Setting a variable replaces its line or adds one at the end, when there is room
    for the text; otherwise the buffer is overrun. *)
Lemma set_rom_env_spec (n v : list Z) (l : list binding) s :
  good_binding (n, v) -> good l -> sector_holds (nvram_get s) l -> nvram_invalid s = 0 -> allocs s = [] ->
  let l' := without n l ++ [(n, v)] in
  if decide (2 + length (encode l') <= NVRAM_SECSIZE)%nat then
    exists s', set_rom_env n (Some v) s = Some (1, s') /\ sector_holds (nvram_get s') l' /\ only_flash s s'
  else set_rom_env n (Some v) s = None.
Proof.
  intros Hb Hg Hh Hi Ha l'. destruct (envlen_ok n v Hb) as (E1 & E2 & E3). unfold set_rom_env. rewrite E1, E2, Hi.
  cbn [Z.eqb negb]. unfold malloc_ok. rewrite Ha. cbn [default head from_option id tail].
  set (s0 := Env _ _ _ _ _). destruct (unset_rom_env_spec n l s0 (proj1 Hb) Hg Hh Hi eq_refl) as (r & s1 & -> & Hh1 & Hr1).
  cbn [mbind option_bind]. pose proof Hh1 as ((Hlen & Hch) & _ & c0 & c1 & junk & Eb).
  destruct (without_good n l Hg) as [Hg1 Hni]. rewrite Eb in Hlen, Hch |- *.
  destruct (end_of_text c0 c1 (without n l) junk Hg1 Hlen) as (e & -> & Ee). cbn [mbind option_bind]. rewrite Ee.
  cbn [mbind option_bind]. rewrite E3.
  assert (c0 :: c1 :: encode (without n l) ++ junk = (c0 :: c1 :: text (without n l)) ++ 0 :: junk) as Et
    by (unfold encode; apps).
  assert (length (encode l') = length (text (without n l)) + (length n + (length v + 3)))%nat as El'.
  { unfold l', encode. rewrite text_app. cbn [text]. unfold entry. cbn [fst snd]. lens. lia. }
  rewrite Et in Hlen, Hch |- *. set (t0 := c0 :: c1 :: text (without n l)) in *.
  rewrite put_chars_3. set (new := n ++ _ ++ _). assert (length new = length n + (length v + 3))%nat as En by (unfold new; lens; lia).
  case_decide as Hfit.
  - rewrite put_chars_spec by (rewrite Hlen, En; unfold t0; lens; lia). cbn [mbind option_bind].
    eexists. split; [reflexivity|].
    assert (sector_holds (snd (cksum (take (length t0) (t0 ++ 0 :: junk) ++ new ++ drop (length t0 + length new) (t0 ++ 0 :: junk))
      NVRAM_SECSIZE true)) l') as Hh'; [|split; [by rewrite nvram_put_get by apply Hh'|split_and!; try apply Hr1; done]].
    rewrite take_app_length.
    replace (t0 ++ new ++ drop (length t0 + length new) (t0 ++ 0 :: junk))
      with (c0 :: c1 :: encode l' ++ drop (length t0 + length new) (t0 ++ 0 :: junk))
      by (unfold new, t0, l', encode; rewrite text_app; cbn [text]; unfold entry; cbn [fst snd]; apps).
    apply cksum_holds.
    + rewrite !length_cons, length_app, length_drop, Hlen, El', En. unfold t0. lens. lia.
    + apply Forall_app. split; [|by apply Forall_drop]. apply encode_chars. unfold l'. split.
      * apply Forall_app. split; [apply Hg1|by apply Forall_singleton].
      * rewrite fmap_app. apply NoDup_app. split; [apply Hg1|]. split; [|apply NoDup_singleton].
        intros x Hx ->%list_elem_of_singleton. by apply Hni.
  - assert (length t0 = S (S (length (text (without n l))))) as E0 by done. clearbody t0 new.
    rewrite put_chars_overflow; [done| |]; lens; lia.
Qed.
End Rom.
