(* ===== verification/EnvTable.v ===== *)
(** * The environment: the table and the reading of the sector
    The table in memory against the variables it holds, setting a variable in it, filling
    it from the text of the sector, and the environment of a started program. *)

From S2P Require Import Prelude CStr CType NumConv Shell ShellSplit ShellExec Env EnvSpec.
From stdpp Require Import strings.
#[local] Open Scope Z_scope.

#[local] Opaque NVRAM_SECSIZE.

#[local] Abbreviation binding := (list Z * list Z)%type.

(** ** The table *)

Definition slot_of (e : binding) : envpair := EnvPair (Some (fst e)) (Some (snd e)).
Definition empty_slot : envpair := EnvPair None None.
Definition table_of (l : list binding) : list envpair := map slot_of l ++ repeat empty_slot (NVAR - length l).

Lemma found_test (n n' : list Z) : cstring n -> cstring n' -> negb (striequ n n' =? 0) = bool_decide (n = n').
Proof. intros Hn Hn'. rewrite striequ_spec by done. case_decide; [by rewrite bool_decide_eq_true_2|by rewrite bool_decide_eq_false_2]. Qed.

Lemma find_slot_free (n : list Z) (m : nat) : forall k bp,
  find_slot n k bp (repeat empty_slot m) = (None, match bp, m with None, S _ => Some k | _, _ => bp end).
Proof.
  induction m as [|m IH]; intros k bp; [by destruct bp|]. cbn [repeat find_slot name empty_slot]. rewrite IH. by destruct bp, m.
Qed.

Lemma find_slot_spec (n : list Z) (m : nat) (l : list binding) : forall k, cstring n -> Forall good_binding l ->
  find_slot n k None (map slot_of l ++ repeat empty_slot m) =
    match list_find (fun e => fst e = n) l with
    | Some (i, _) => (Some (k + i)%nat, None)
    | None => (None, match m with O => None | S _ => Some (k + length l)%nat end)
    end.
Proof.
  induction l as [|e l IH]; intros k Hn Hg; cbn [map app list_find].
  - rewrite find_slot_free, Nat.add_0_r. done.
  - apply Forall_cons in Hg as [((Hc & _) & _) Hg]. cbn [find_slot slot_of name]. rewrite found_test by done.
    case_decide as Hd.
    + rewrite bool_decide_eq_true_2, Nat.add_0_r by done. done.
    + rewrite bool_decide_eq_false_2 by congruence. rewrite IH by done.
      destruct (list_find _ l) as [[i y]|]; cbn; [by rewrite Nat.add_succ_r|]. by rewrite Nat.add_succ_r.
Qed.

Lemma insert_at {A} (x y : A) (l1 l2 : list A) : <[length l1 := y]> (l1 ++ x :: l2) = l1 ++ y :: l2.
Proof. induction l1 as [|z l1 IH]; [done|]. cbn [length app]. change (<[S ?k := y]> (z :: ?l)) with (z :: <[k := y]> l). by f_equal. Qed.

(** The variables after one of them is set, in the order of the table. *)
Definition put (n v : list Z) (l : list binding) : list binding :=
  match list_find (fun e => fst e = n) l with
  | Some (i, _) => <[i := (n, v)]> l
  | None => l ++ [(n, v)]
  end.

Lemma find_split (n : list Z) (l : list binding) : 
  match list_find (fun e => fst e = n) l with
  | Some (i, e) => exists l1 l2, l = l1 ++ e :: l2 /\ length l1 = i /\ fst e = n
  | None => n ∉ l.*1
  end.
Proof.
  destruct (list_find _ l) as [[i e]|] eqn:E.
  - apply list_find_Some in E as (E1 & E2 & _). exists (take i l), (drop (S i) l). split; [by rewrite take_drop_middle|].
    split; [|done]. apply length_take_le. apply lookup_lt_Some in E1. lia.
  - intros ([n' v] & -> & Hin)%list_elem_of_fmap. apply list_find_None in E.
    by apply (proj1 (Forall_forall _ _) E _ Hin).
Qed.

Lemma put_spec (n v : list Z) (l : list binding) : good_binding (n, v) -> good l ->
  good (put n v l) /\ list_to_map (put n v l) = <[n := v]> (list_to_map l : gmap (list Z) (list Z)).
Proof.
  intros Hb [Hg Hnd]. unfold put. pose proof (find_split n l) as Hs. destruct (list_find _ l) as [[i e]|].
  - destruct Hs as (l1 & l2 & -> & <- & <-). rewrite insert_at. apply Forall_app in Hg as [Hg1 Hg2].
    apply Forall_cons in Hg2 as [_ Hg2].
    assert (forall v', NoDup (l1 ++ (fst e, v') :: l2).*1) as Hnd' by (intros; by rewrite fmap_app, fmap_cons in Hnd |- *).
    split; [split; [apply Forall_app; split; [done|by apply Forall_cons]|done]|].
    rewrite (list_to_map_proper _ ((fst e, v) :: l1 ++ l2)) by (done || by rewrite Permutation_middle).
    rewrite (list_to_map_proper (l1 ++ e :: l2) (e :: l1 ++ l2)) by (done || by rewrite Permutation_middle).
    destruct e as [n' v']. rewrite !list_to_map_cons. cbn. by rewrite insert_insert_eq.
  - assert (NoDup (l ++ [(n, v)]).*1) as Hnd'.
    { rewrite fmap_app. apply NoDup_app. split; [done|]. split; [|apply NoDup_singleton].
      intros x Hx ->%list_elem_of_singleton. done. }
    split; [split; [apply Forall_app; split; [done|by apply Forall_singleton]|done]|].
    rewrite (list_to_map_proper _ ((n, v) :: l)) by (done || by rewrite <- Permutation_cons_append). by rewrite list_to_map_cons.
Qed.

Lemma length_put (n v : list Z) (l : list binding) :
  length (put n v l) = if decide (n ∈ l.*1) then length l else S (length l).
Proof.
  unfold put. pose proof (find_split n l) as Hs. destruct (list_find _ l) as [[i e]|].
  - rewrite length_insert. destruct Hs as (l1 & l2 & -> & _ & <-). rewrite decide_True; [done|].
    rewrite fmap_app, fmap_cons. apply elem_of_app. right. apply list_elem_of_here.
  - rewrite decide_False by done. rewrite length_app. cbn. lia.
Qed.

Section Table.
Context {F : Type}.
Implicit Types s : env F.

Definition same_flash s s' : Prop :=
  flash s' = flash s /\ nvram_invalid s' = nvram_invalid s /\ envinited s' = envinited s /\ allocs s' = [].

(** Setting a variable in memory changes its slot, or takes the first free one. *)
Lemma set_mem_env_spec (n v : list Z) (l : list binding) s :
  good_binding (n, v) -> good l -> envvar s = table_of l -> (length (put n v l) <= NVAR)%nat -> allocs s = [] ->
  exists s', set_mem_env n (Some v) s = (1, s') /\ envvar s' = table_of (put n v l) /\ same_flash s s'.
Proof.
  intros Hb [Hg Hnd] Ht Hlen Ha. unfold set_mem_env. rewrite Ht. unfold table_of at 1.
  rewrite find_slot_spec by (done || apply Hb). unfold put in *. pose proof (find_split n l) as Hs.
  destruct (list_find _ l) as [[i e]|].
  - destruct Hs as (l1 & l2 & -> & <- & <-). cbn [Nat.add]. rewrite insert_at in Hlen |- *.
    unfold malloc_ok, slot, set_slot, set_envvar. cbn [envvar allocs]. rewrite Ha, Ht. cbn [default head from_option id tail].
    eexists. split; [reflexivity|]. split; [|done]. unfold table_of. cbn [envvar].
    rewrite !map_app. cbn [map]. rewrite <- !app_assoc. cbn [app].
    rewrite <- (length_map slot_of l1), !nth_middle, insert_at, !nth_middle, insert_at. cbn [slot_of fst snd name].
    by rewrite !length_app.
  - rewrite length_app in Hlen. cbn [length] in Hlen. destruct (NVAR - length l)%nat as [|m] eqn:Em; [lia|]. cbn [Nat.add].
    unfold malloc_ok, slot, set_slot, set_envvar. cbn [envvar allocs]. rewrite Ha, Ht. cbn [default head from_option id tail].
    eexists. split; [reflexivity|]. split; [|done]. unfold table_of. cbn [envvar]. rewrite Em. cbn [repeat].
    rewrite <- (length_map slot_of l). rewrite !nth_middle, !insert_at. rewrite ?nth_middle, ?insert_at, map_app, <- app_assoc.
    cbn [app map slot_of fst snd name].
    rewrite length_app. cbn [length]. replace (NVAR - (length l + 1))%nat with m by lia. done.
Qed.
End Table.

(** ** Reading the sector *)

Lemma some_copy (a a' b b' : nat) (c c' : list Z) (d d' : nat) : a = a' -> b = b' -> c = c' -> d = d' ->
  Some (a, b, c, Some d) = Some (a', b', c', Some d').
Proof. congruence. Qed.

Ltac copied := apply some_copy; [lens; lia|lens; lia|apps|lens; lia].

Lemma copy_value (w : list Z) : forall (pre post env : list Z) (i p fuel : nat), nul_free w -> (length w < fuel)%nat ->
  (i + length w <= 255)%nat -> (length (pre ++ w) <= NVRAM_SECSIZE - 1)%nat ->
  copy_loop fuel (pre ++ w ++ 0 :: post) (length pre) i env (Some p) =
    Some (length (pre ++ w ++ [0]), (i + length w)%nat, env ++ w ++ [0], Some p).
Proof.
  induction w as [|c w IH]; intros pre post env i p fuel Hw Hf Hi Hsz; (destruct fuel as [|fuel]; [lia|]); cbn [copy_loop app].
  - rewrite lookup_at. cbn [mbind option_bind]. rewrite Z.eqb_refl. cbn [negb andb]. copied.
  - apply nul_free_cons in Hw as [Hc Hw]. rewrite lookup_at. cbn [mbind option_bind]. rewrite (proj2 (Z.eqb_neq c 0)) by done.
    rewrite andb_false_r. rewrite (proj2 (Nat.leb_le _ _)) by (lens; lia). rewrite (proj2 (Nat.ltb_lt i 255)) by (lens; lia).
    cbn [negb andb]. specialize (IH (pre ++ [c]) post (env ++ [c]) (S i) p fuel Hw).
    replace ((pre ++ [c]) ++ w ++ 0 :: post) with (pre ++ c :: w ++ 0 :: post) in IH by apps.
    replace (length (pre ++ [c])) with (S (length pre)) in IH by (lens; lia). rewrite IH by (lens; lia).
    copied.
Qed.

Lemma copy_name (n v : list Z) : forall (pre post env : list Z) (i fuel : nat),
  nul_free n -> EQUALS ∉ n -> nul_free v -> (length n + length v + 1 < fuel)%nat ->
  (i + length n + length v + 1 <= 255)%nat -> (length (pre ++ n ++ EQUALS :: v) <= NVRAM_SECSIZE - 1)%nat ->
  copy_loop fuel (pre ++ n ++ EQUALS :: v ++ 0 :: post) (length pre) i env None =
    Some (length (pre ++ n ++ EQUALS :: v ++ [0]), (i + length n + length v + 1)%nat, env ++ n ++ 0 :: v ++ [0],
          Some (length (env ++ n ++ [0]))).
Proof.
  induction n as [|c n IH]; intros pre post env i fuel Hn He Hv Hf Hi Hsz; (destruct fuel as [|fuel]; [lia|]); cbn [copy_loop app].
  - rewrite lookup_at. cbn [mbind option_bind]. change (EQUALS =? 0) with false. rewrite Z.eqb_refl. cbn [negb andb].
    rewrite (proj2 (Nat.leb_le _ _)) by (lens; lia). rewrite (proj2 (Nat.ltb_lt i 255)) by (lens; lia).
    replace (length (env ++ [EQUALS]) - 1)%nat with (length env) by (lens; lia). rewrite insert_at.
    pose proof (copy_value v (pre ++ [EQUALS]) post (env ++ [0]) (S i) (length (env ++ [EQUALS])) fuel Hv) as H.
    replace ((pre ++ [EQUALS]) ++ v ++ 0 :: post) with (pre ++ EQUALS :: v ++ 0 :: post) in H by apps.
    replace (length (pre ++ [EQUALS])) with (S (length pre)) in H by (lens; lia). rewrite H by (lens; lia).
    copied.
  - apply nul_free_cons in Hn as [Hc Hn]. apply not_elem_of_cons in He as [Hce He].
    rewrite lookup_at. cbn [mbind option_bind]. rewrite (proj2 (Z.eqb_neq c 0)), (proj2 (Z.eqb_neq c EQUALS)) by done.
    rewrite (proj2 (Nat.leb_le _ _)) by (lens; lia). rewrite (proj2 (Nat.ltb_lt i 255)) by (lens; lia). cbn [negb andb].
    specialize (IH (pre ++ [c]) post (env ++ [c]) (S i) fuel Hn He Hv).
    replace ((pre ++ [c]) ++ n ++ EQUALS :: v ++ 0 :: post) with (pre ++ c :: n ++ EQUALS :: v ++ 0 :: post) in IH by apps.
    replace (length (pre ++ [c])) with (S (length pre)) in IH by (lens; lia). rewrite IH by (lens; lia).
    copied.
Qed.

Lemma put_new (n v : list Z) (l : list binding) : n ∉ l.*1 -> put n v l = l ++ [(n, v)].
Proof.
  intros Hn. unfold put. pose proof (find_split n l) as Hs. destruct (list_find _ l) as [[i e]|]; [|done].
  destruct Hs as (l1 & l2 & -> & _ & <-). destruct Hn. rewrite fmap_app, fmap_cons. apply elem_of_app. right. apply list_elem_of_here.
Qed.

Lemma good_app (l1 l2 : list binding) : good (l1 ++ l2) -> good l1 /\ good l2 /\ forall n, n ∈ l1.*1 -> n ∉ l2.*1.
Proof.
  intros [Hg Hnd]. apply Forall_app in Hg as [? ?]. rewrite fmap_app in Hnd. apply NoDup_app in Hnd as (? & ? & ?). by repeat split.
Qed.

Section Load.
Context {F : Type} `{SectorLaws F}.
Implicit Types s : env F.

Lemma map_loop_spec (l : list binding) : forall (pre junk : list Z) (l0 : list binding) s (fuel : nat),
  good (l0 ++ l) -> (length (l0 ++ l) <= NVAR)%nat -> length (pre ++ encode l ++ junk) = NVRAM_SECSIZE ->
  envvar s = table_of l0 -> allocs s = [] -> (length l < fuel)%nat ->
  exists s', map_loop fuel (pre ++ encode l ++ junk) (length pre) s = Some s' /\
    envvar s' = table_of (l0 ++ l) /\ same_flash s s'.
Proof.
  induction l as [|e l IH]; intros pre junk l0 s fuel Hg Hmax Hlen Ht Ha Hf; (destruct fuel as [|fuel]; [lia|]); cbn [map_loop].
  - change (encode [] ++ junk) with (0 :: junk). rewrite lookup_at. cbn. exists s. by rewrite app_nil_r.
  - destruct (good_app _ _ Hg) as (Hg0 & [Hgl _] & Hdis). apply Forall_cons in Hgl as [Hb _].
    pose proof Hb as ((Hn & Hne & He) & Hv & Hsz). destruct e as [n v]. cbn [fst snd] in *.
    destruct (encode_head ((n, v) :: l) junk) as (c & t & E & Hc); [by apply good_app in Hg as (_ & ? & _)|].
    assert ((pre ++ encode ((n, v) :: l) ++ junk) !! length pre = Some c) as -> by (rewrite E; apply lookup_at).
    cbn [mbind option_bind]. destruct (Z.eqb_spec c 0) as [Hc0|_]; [by apply Hc in Hc0|].
    cbn [negb]. rewrite encode_cons in Hlen |- *.
    assert (length (pre ++ entry (n, v)) + 1 <= NVRAM_SECSIZE)%nat as Hroom
      by (rewrite <- Hlen; unfold encode; lens; lia).
    pose proof (copy_name n v pre (encode l ++ junk) [] 0 (S NVRAM_SECSIZE)) as Hcp.
    rewrite <- (entry_app (n, v)) in Hcp. replace (length (pre ++ n ++ EQUALS :: v ++ [0])) with (length (pre ++ entry (n, v))) in Hcp by done.
    rewrite Hcp; clear Hcp; try done; try (by apply cstring_nul_free); [|rewrite nvram_size; lia|lia|unfold entry in Hroom; cbn [fst snd] in Hroom; lens; lia].
    cbn [mbind option_bind app]. rewrite (proj2 (Nat.leb_le _ _)) by lia. rewrite (proj2 (Nat.ltb_lt _ _)) by lia. cbn [andb].
    rewrite cstr_stop by (by apply cstring_nul_free). 
    replace (drop (length (n ++ [0])) (n ++ 0 :: v ++ [0])) with (v ++ [0])
      by (replace (n ++ 0 :: v ++ [0]) with ((n ++ [0]) ++ v ++ [0]) by apps; by rewrite drop_app_length).
    rewrite cstr_stop by (by apply cstring_nul_free). cbn [snd].
    assert (n ∉ l0.*1) as Hni by (intros Hin; apply (Hdis n Hin); rewrite fmap_cons; apply list_elem_of_here).
    assert (l0 ++ (n, v) :: l = (l0 ++ [(n, v)]) ++ l) as El by apps. rewrite El in Hg, Hmax |- *.
    destruct (set_mem_env_spec n v l0 s Hb Hg0 Ht) as (s1 & -> & Ht1 & Hs1); [|done|].
    { rewrite put_new by done. lens. lia. }
    rewrite put_new in Ht1 by done.
    destruct (IH (pre ++ entry (n, v)) junk (l0 ++ [(n, v)]) s1 fuel Hg Hmax) as (s2 & E2 & Ht2 & Hs2).
    + by rewrite <- app_assoc.
    + done.
    + apply Hs1.
    + cbn in Hf. lia.
    + exists s2. rewrite <- app_assoc in E2. split; [exact E2|]. split; [done|].
      unfold same_flash in *. destruct Hs1 as (-> & -> & -> & _) in Hs2 |- *. done.
Qed.
End Load.

(** ** The environment of a started program *)

Lemma envbuild_text (m : nat) (l : list binding) : forall ssp vec t,
  snd (envbuild_loop (map slot_of l ++ repeat empty_slot m) ssp vec t) = t ++ text l /\
  length (fst (envbuild_loop (map slot_of l ++ repeat empty_slot m) ssp vec t)) = (length vec + length l + 1)%nat.
Proof.
  induction l as [|[n v] l IH]; intros ssp vec t; cbn [map app envbuild_loop].
  - rewrite app_nil_r. revert ssp vec t. induction m as [|m IHm]; intros ssp vec t; [|apply IHm]. cbn [repeat envbuild_loop fst snd].
    split; [done|]. cbn [length]. lens. lia.
  - cbn [slot_of name value fst snd default from_option id]. destruct (IH (ssp + Z.of_nat (length (n ++ EQUALS :: v ++ [0])))
      (vec ++ [ssp]) (t ++ n ++ EQUALS :: v ++ [0])) as [-> ->]. split; [cbn [text]; unfold entry; cbn [fst snd]; apps|lens; lia].
Qed.

(** [envsize] announces what [envbuild] writes: a pointer for each variable and one more,
    and the characters of the text. *)
Lemma envbuild_fits {F} (s : env F) (l : list binding) (ssp : Z) : good l -> envvar s = table_of l -> (length l <= NVAR)%nat ->
  envsize s = (Z.of_nat (length (fst (envbuild ssp s))) - 1, Z.of_nat (length (snd (envbuild ssp s)))) /\
  snd (envbuild ssp s) = text l.
Proof.
  intros [Hg _] Ht Hlen. unfold envbuild, envsize. rewrite Ht. unfold table_of.
  destruct (envbuild_text (NVAR - length l) l ssp [] []) as [-> ->]. split; [|done].
  set (f := fun '(ec, slen) ep => _).
  assert (forall m p, fold_left f (repeat empty_slot m) p = p) as Hrep
    by (intros m [a b]; induction m as [|m IHm]; [done|exact IHm]).
  assert (forall ec slen, 0 <= ec -> 0 <= slen -> ec + Z.of_nat (length l) <= 64 -> slen + 256 * Z.of_nat (length l) < 2 ^ 31 ->
    fold_left f (map slot_of l) (ec, slen) = (ec + Z.of_nat (length l), slen + Z.of_nat (length (text l)))) as Hf.
  { clear Ht Hlen Hrep. induction Hg as [|[n v] l ((_ & _ & _) & _ & Hsz) Hg IH]; intros ec slen He Hs Hec Hsl; cbn [map fold_left].
    - cbn [text length]. f_equal; lia.
    - cbn [fst snd] in Hsz. rewrite length_cons in Hec, Hsl. unfold f at 2. cbn [slot_of name value fst snd].
      rewrite !strlen_spec by lia. rewrite (s32_small (slen + (Z.of_nat (length n) + 2))), !s32_small by lia. rewrite IH by lia. cbn [text]. unfold entry. cbn [fst snd].
      lens. f_equal; lia. }
  rewrite fold_left_app, Hrep, Hf by (unfold NVAR in Hlen; lia). cbn [app]. lens. f_equal; lia.
Qed.
