(* ===== verification/Environment.v ===== *)
(** * The environment: memory, flash and a reset
    The whole of os/env.c against one finite map from names to values. *)

From S2P Require Import Prelude CStr CType NumConv Shell ShellSplit ShellExec Env EnvSpec EnvTable.
From stdpp Require Import strings.
#[local] Open Scope Z_scope.

#[local] Opaque NVRAM_SECSIZE.

#[local] Abbreviation binding := (list Z * list Z)%type.

(** Names and their values. *)
#[local] Abbreviation vars := (gmap (list Z) (list Z)).

Definition vars_of (l : list binding) : vars := list_to_map l.

(** The table has a slot for every variable, and the sector has room for the text. *)
Definition vars_fit (m : vars) : Prop :=
  (size m <= NVAR)%nat /\ (2 + length (encode (map_to_list m)) <= NVRAM_SECSIZE)%nat.

Lemma length_text_perm (l1 l2 : list binding) : l1 ≡ₚ l2 -> length (encode l1) = length (encode l2).
Proof. unfold encode. intros E. rewrite !length_app. f_equal. induction E; cbn [text]; lens; lia. Qed.

Lemma vars_of_perm (l : list binding) : good l -> map_to_list (vars_of l) ≡ₚ l.
Proof. intros [_ Hnd]. by apply map_to_list_to_map. Qed.

Lemma fits_list (l : list binding) : good l ->
  vars_fit (vars_of l) <-> (length l <= NVAR)%nat /\ (2 + length (encode l) <= NVRAM_SECSIZE)%nat.
Proof.
  intros Hg. unfold vars_fit. rewrite (length_text_perm _ _ (vars_of_perm l Hg)).
  by rewrite <- length_map_to_list, (Permutation_length (vars_of_perm l Hg)).
Qed.

Lemma vars_of_without (n v : list Z) (l : list binding) : good l ->
  vars_of (without n l ++ [(n, v)]) = <[n := v]> (vars_of l).
Proof.
  intros Hg. destruct (without_good n l Hg) as [[_ Hnd] Hni]. unfold vars_of.
  rewrite (list_to_map_proper _ ((n, v) :: without n l)).
  - rewrite list_to_map_cons. rewrite <- insert_delete_eq. symmetry. rewrite <- insert_delete_eq. f_equal. symmetry.
    clear. unfold without. induction l as [|[n' v'] l IH]; [done|]. rewrite filter_cons. case_decide as Hd; cbn [fst] in Hd.
    + rewrite !list_to_map_cons, !delete_insert_ne, IH by congruence. done.
    + subst n'. rewrite list_to_map_cons, delete_insert_eq. done.
  - rewrite fmap_app. apply NoDup_app. split; [done|]. split; [|apply NoDup_singleton].
    intros x Hx ->%list_elem_of_singleton. done.
  - by rewrite <- Permutation_cons_append.
Qed.

Lemma fits_mono (m1 m2 : vars) : m1 ⊆ m2 -> vars_fit m2 -> vars_fit m1.
Proof.
  intros Hs [H1 H2]. split; [pose proof (map_subseteq_size m1 m2 Hs); lia|].
  apply map_to_list_submseteq, submseteq_Permutation in Hs as [l E].
  rewrite (length_text_perm _ _ E) in H2. unfold encode in *. rewrite text_app in H2. lens. lia.
Qed.

(** ** Looking a variable up *)

Lemma getenv_table (n : list Z) (m : nat) (l : list binding) : cstring n -> good l ->
  getenv_loop (map slot_of l ++ repeat empty_slot m) n =
    match vars_of l !! n with Some v => Value v | None => NoReturn end.
Proof.
  intros Hn [Hg _]. unfold vars_of. induction Hg as [|[n' v] l Hb Hg IH]; cbn [map app getenv_loop].
  - change (list_to_map []) with (∅ : vars). rewrite lookup_empty. induction m as [|m IHm]; [done|]. exact IHm.
  - cbn [slot_of name fst snd value]. rewrite found_test by (done || apply Hb). rewrite list_to_map_cons.
    case_bool_decide as Hd; [subst n'; by rewrite lookup_insert_eq|]. by rewrite lookup_insert_ne by congruence.
Qed.

Section Environment.
Context {F : Type} `{SectorLaws F}.
Implicit Types s : env F.

(** The sector, when it is valid, holds the variables [m]. *)
Definition sector_stores s (m : vars) : Prop := exists l, good l /\ sector_holds (nvram_get s) l /\ vars_of l = m.

(** So does the table. *)
Definition loaded s (m : vars) : Prop := exists l, good l /\ (length l <= NVAR)%nat /\ envvar s = table_of l /\ vars_of l = m.

(** No allocation fails, and the sector is not known to be invalid. *)
Definition healthy s : Prop := nvram_invalid s = 0 /\ allocs s = [].

Definition env_state s (m : vars) : Prop := healthy s /\ envinited s = true /\ sector_stores s m /\ loaded s m.

Lemma getenv_spec (n : list Z) s (m : vars) : cstring n -> env_state s m ->
  getenv n s = match m !! n with Some v => Value v | None => NoReturn end.
Proof.
  intros Hn (_ & Hi & _ & l & Hg & _ & Ht & <-). unfold getenv. rewrite Hi, Ht. by apply getenv_table.
Qed.

(** What [do_setenv] asks of a hardware address. *)
Definition accepted (n v : list Z) : Prop := n = ENV_MAC_NAME -> check_mac_format v = true.

Lemma accepted_test (n v : list Z) : cstring n -> accepted n v ->
  negb (striequ n ENV_MAC_NAME =? 0) && negb (check_mac_format v) = false.
Proof.
  intros Hn Ha. rewrite found_test by (done || by repeat constructor). case_bool_decide as Hd; [|done]. by rewrite Ha.
Qed.

Lemma do_setenv_eq (n v : list Z) s (m : vars) : env_state s m -> good_binding (n, v) -> accepted n v ->
  (size (<[n := v]> m) <= NVAR)%nat ->
  exists s1 l, do_setenv n v s = ('(_, s') ← set_rom_env n (Some v) s1; Some s') /\
    healthy s1 /\ envinited s1 = true /\ loaded s1 (<[n := v]> m) /\
    good l /\ sector_holds (nvram_get s1) l /\ vars_of l = m.
Proof.
  intros ((Hi & Ha) & Hin & (lf & Hgf & Hh & Hf) & (lr & Hgr & Hlr & Ht & Hr)) Hb Hacc Hsz.
  destruct (put_spec n v lr Hb Hgr) as [Hgp Hp]. fold (vars_of lr) (vars_of (put n v lr)) in Hp. rewrite Hr in Hp.
  assert (length (put n v lr) <= NVAR)%nat as Hlp.
  { rewrite <- Hp, <- length_map_to_list, (Permutation_length (vars_of_perm _ Hgp)) in Hsz. done. }
  destruct (set_mem_env_spec n v lr s Hb Hgr Ht Hlp Ha) as (s1 & E & Ht1 & Hfl & Hi1 & Hin1 & Ha1).
  exists s1, lf. unfold do_setenv. rewrite accepted_test by (done || apply Hb). rewrite E. cbn [snd].
  unfold healthy, nvram_get in *. rewrite Hfl, Hi1, Hin1. split; [done|]. split; [done|]. split; [done|].
  split; [|done]. by exists (put n v lr).
Qed.

(** Setting a variable, in both places. *)
Lemma do_setenv_spec (n v : list Z) s (m : vars) : env_state s m -> good_binding (n, v) -> accepted n v ->
  vars_fit (<[n := v]> m) -> exists s', do_setenv n v s = Some s' /\ env_state s' (<[n := v]> m).
Proof.
  intros Hs Hb Hacc Hfit. destruct (do_setenv_eq n v s m Hs Hb Hacc (proj1 Hfit)) as (s1 & l & -> & [Hi Ha] & Hin & Hl & Hg & Hh & Hm).
  pose proof (set_rom_env_spec n v l s1 Hb Hg Hh Hi Ha) as Hrom. cbv zeta in Hrom.
  pose proof (vars_of_without n v l Hg) as Hv. rewrite Hm in Hv.
  assert (good (without n l ++ [(n, v)])) as Hg'.
  { destruct (without_good n l Hg) as [[? ?] Hni]. split; [apply Forall_app; split; [done|by apply Forall_singleton]|].
    rewrite fmap_app. apply NoDup_app. split; [done|]. split; [|apply NoDup_singleton].
    intros x Hx ->%list_elem_of_singleton. done. }
  rewrite <- Hv in Hfit. apply (fits_list _ Hg') in Hfit as [_ Hfit]. rewrite decide_True in Hrom by done.
  destruct Hrom as (s2 & -> & Hh2 & Hi2 & Hin2 & Ht2 & Ha2). cbn [mbind option_bind]. exists s2. split; [done|].
  split; [split; congruence|]. split; [congruence|]. split; [by eexists|]. destruct Hl as (lr & ? & ? & ? & ?).
  exists lr. rewrite Ht2. done.
Qed.

(** Setting a variable for whose text there is no room. *)
Lemma do_setenv_overrun (n v : list Z) s (m : vars) : env_state s m -> good_binding (n, v) -> accepted n v ->
  (size (<[n := v]> m) <= NVAR)%nat -> ~ vars_fit (<[n := v]> m) -> do_setenv n v s = None.
Proof.
  intros Hs Hb Hacc Hsz Hfit. destruct (do_setenv_eq n v s m Hs Hb Hacc Hsz) as (s1 & l & -> & [Hi Ha] & _ & _ & Hg & Hh & Hm).
  pose proof (set_rom_env_spec n v l s1 Hb Hg Hh Hi Ha) as Hrom. cbv zeta in Hrom.
  rewrite decide_False in Hrom; [by rewrite Hrom|]. intros Hroom. apply Hfit. split; [done|].
  rewrite <- Hm, <- (vars_of_without n v l Hg). rewrite (length_text_perm _ (without n l ++ [(n, v)])); [done|].
  apply map_to_list_to_map. destruct (without_good n l Hg) as [[_ Hnd] Hni]. rewrite fmap_app. apply NoDup_app.
  split; [done|]. split; [|apply NoDup_singleton]. intros x Hx ->%list_elem_of_singleton. done.
Qed.

(** ** A reset *)

Lemma load_spec s (m : vars) : healthy s -> sector_stores s m -> (size m <= NVAR)%nat -> envvar s = table_of [] ->
  exists s', map_rom_env s = Some s' /\ healthy s' /\ sector_stores s' m /\ loaded s' m.
Proof.
  intros [Hi Ha] (l & Hg & Hh & <-) Hsz Ht. unfold map_rom_env, malloc_ok. rewrite Ha. cbn [default head from_option id tail].
  set (s0 := Env _ _ _ _ _). change (nvram_get s0) with (nvram_get s). pose proof Hh as ((Hlen & _) & Hsum & c0 & c1 & junk & Eb).
  unfold cksum. cbn [fst]. rewrite Hsum, Z.eqb_refl. cbn [negb].
  rewrite <- length_map_to_list, (Permutation_length (vars_of_perm l Hg)) in Hsz.
  assert (length l < S NVRAM_SECSIZE)%nat as Hf by (rewrite nvram_size; unfold NVAR in Hsz; lia).
  destruct (map_loop_spec l [c0; c1] junk [] s0 (S NVRAM_SECSIZE) Hg Hsz) as (s' & E & Ht' & Hfl & Hi' & _ & Ha');
    [by rewrite <- Hlen, Eb|done|done|done|].
  change (length [c0; c1]) with 2%nat in E. cbn [app] in E. rewrite <- Eb in E. rewrite E. exists s'. split; [done|].
  split; [split; [by rewrite Hi'|done]|]. unfold sector_stores, nvram_get. rewrite Hfl. split; [by exists l|]. by exists l.
Qed.

(** A sector without a valid checksum becomes that of no variables. *)
Lemma load_blank s : healthy s -> sum_words (NVRAM_SECSIZE / 2) (nvram_get s) 0 <> 0 -> envvar s = table_of [] ->
  exists s', map_rom_env s = Some s' /\ healthy s' /\ sector_stores s' ∅ /\ loaded s' ∅.
Proof.
  intros [Hi Ha] Hsum Ht. unfold map_rom_env, malloc_ok. rewrite Ha. cbn [default head from_option id tail].
  set (s0 := Env _ _ _ _ _). change (nvram_get s0) with (nvram_get s). unfold cksum at 1. cbn [fst].
  rewrite (proj2 (Z.eqb_neq _ 0) Hsum). cbn [negb]. unfold resetNorEnvSpace. cbn [nvram_invalid set_invalid Z.eqb negb].
  unfold malloc_ok. cbn [allocs set_invalid s0 default head from_option id tail].
  eexists. split; [reflexivity|]. split; [done|].
  assert (sector_holds (snd (cksum (<[3%nat := 0]> (<[2%nat := 0]> (repeat (-1) NVRAM_SECSIZE))) NVRAM_SECSIZE true)) []) as Hh.
  { rewrite nvram_size. change (repeat (-1) 4096) with ([-1; -1; -1; -1] ++ repeat (-1) 4092). 
    generalize (repeat_length (-1) 4092). assert (Forall is_char (repeat (-1) 4092)) as Hch by (apply Forall_forall; intros x Hx%list_elem_of_In; apply repeat_spec in Hx as ->; by split).
    revert Hch. generalize (repeat (-1) 4092). intros junk Hch Hj. cbn [app insert list_insert].
    rewrite <- nvram_size. change (-1 :: -1 :: 0 :: 0 :: junk) with (-1 :: -1 :: encode [] ++ 0 :: junk). apply cksum_holds.
    - rewrite nvram_size. unfold encode. lens. cbn [text]. lens. lia.
    - repeat constructor; done. }
  split.
  - exists []. split; [by repeat constructor|]. split; [|done].
    unfold nvram_get. cbn [flash set_invalid nvram_put set_flash]. rewrite write_erased; [done|apply Hh].
  - exists []. split; [by repeat constructor|]. split; [unfold NVAR; cbn; lia|]. done.
Qed.

(** The defaults that are set: those of the names for which [getenv] happens to answer 0 when
    it does not find them. *)
Definition given (garbage : list Z -> bool) (m : vars) : vars := filter (fun e => garbage (fst e) = false) m.

Lemma lookup_given (garbage : list Z -> bool) (m : vars) (k : list Z) : given garbage m !! k = if garbage k then None else m !! k.
Proof.
  unfold given. destruct (garbage k) eqn:E.
  - apply map_lookup_filter_None. right. intros x _. cbn. by rewrite E.
  - destruct (m !! k) as [x|] eqn:Ek; [by apply map_lookup_filter_Some|]. apply map_lookup_filter_None. by left.
Qed.

Lemma given_subseteq (garbage : list Z -> bool) (m : vars) : given garbage m ⊆ m.
Proof. apply map_filter_subseteq. Qed.

Lemma given_all (m : vars) : given (fun _ => false) m = m.
Proof. apply map_eq. intros k. by rewrite lookup_given. Qed.

Lemma set_defaults_spec (garbage : list Z -> bool) (tab : list binding) : forall s (m : vars), Forall good_binding tab ->
  Forall (fun e => accepted (fst e) (snd e)) tab -> env_state s m -> vars_fit (m ∪ given garbage (vars_of tab)) ->
  exists s', set_defaults garbage tab s = Some s' /\ env_state s' (m ∪ given garbage (vars_of tab)).
Proof.
  induction tab as [|[n v] tab IH]; intros s m Hg Hacc Hs Hfit; cbn [set_defaults].
  { exists s. split; [done|]. assert (m ∪ given garbage (vars_of []) = m) as ->; [|done].
    apply map_eq. intros k. rewrite lookup_union, lookup_given. change (vars_of []) with (∅ : vars). rewrite lookup_empty. by destruct (garbage k), (m !! k). }
  apply Forall_cons in Hg as [Hb Hg], Hacc as [Ha Hacc]. rewrite (getenv_spec n s m) by (done || apply Hb).
  assert (vars_of ((n, v) :: tab) = <[n := v]> (vars_of tab)) as Ev by done. rewrite Ev in Hfit |- *.
  assert (forall m' : vars, m' = m \/ m' = <[n := v]> m -> (is_Some (m !! n) \/ garbage n = true -> m' = m) -> (m !! n = None -> garbage n = false -> m' = <[n := v]> m) ->
    m ∪ given garbage (<[n := v]> (vars_of tab)) = m' ∪ given garbage (vars_of tab)) as Em.
  { intros m' Hm' H1 H2. apply map_eq. intros k. rewrite !lookup_union, !lookup_given. destruct (decide (k = n)) as [->|Hne].
    - rewrite lookup_insert_eq. destruct (m !! n) eqn:E; [rewrite H1, E by eauto; by destruct (garbage n), (vars_of tab !! n)|].
      destruct (garbage n) eqn:Eg; [rewrite H1, E by eauto; done|]. rewrite H2, lookup_insert_eq by done. by destruct (vars_of tab !! n).
    - rewrite lookup_insert_ne by done. by destruct Hm' as [->| ->]; rewrite ?lookup_insert_ne by done. }
  destruct (m !! n) as [v'|] eqn:E; cbn [getenv_found mbind option_bind].
  - rewrite (Em m) in Hfit |- * by (auto || done). by apply IH.
  - destruct (garbage n) eqn:Eg; cbn [mbind option_bind].
    + rewrite (Em m) in Hfit |- * by (auto || done). by apply IH.
    + rewrite (Em (<[n := v]> m)) in Hfit |- * by (auto || by intros [[? ?]|?]). destruct (do_setenv_spec n v s m Hs Hb Ha) as (s1 & -> & Hs1).
      { eapply fits_mono; [|exact Hfit]. apply map_union_subseteq_l. }
      cbn [mbind option_bind]. by apply IH.
Qed.

Definition defaults : vars := vars_of stdenvtab.

Definition good_bindingb (e : binding) : bool :=
  let cstringb := forallb (fun c => (-128 <=? c) && (c <? 128) && negb (c =? 0)) in
  cstringb (fst e) && negb (bool_decide (fst e = [])) && forallb (fun c => negb (c =? EQUALS)) (fst e) &&
  cstringb (snd e) && (length (fst e) + length (snd e) + 2 <=? 255)%nat.

Lemma good_bindingb_ok (e : binding) : good_bindingb e = true -> good_binding e.
Proof.
  unfold good_bindingb. rewrite !andb_true_iff. intros ((((H1 & H2) & H3) & H4) & H5).
  assert (forall t, forallb (fun c => (-128 <=? c) && (c <? 128) && negb (c =? 0)) t = true -> cstring t) as Hc.
  { intros t Ht. apply Forall_forall. intros c Hin%list_elem_of_In. rewrite forallb_forall in Ht. specialize (Ht c Hin).
    rewrite !andb_true_iff, Z.leb_le, Z.ltb_lt, negb_true_iff, Z.eqb_neq in Ht. tauto. }
  split; [split; [by apply Hc|split]|split; [by apply Hc|by apply Nat.leb_le]].
  - apply negb_true_iff, bool_decide_eq_false in H2. done.
  - intros Hin%list_elem_of_In. rewrite forallb_forall in H3. specialize (H3 _ Hin). by rewrite Z.eqb_refl in H3.
Qed.

Lemma stdenvtab_good : Forall good_binding stdenvtab /\ Forall (fun e => accepted (fst e) (snd e)) stdenvtab.
Proof.
  split.
  - apply Forall_forall. intros e Hin%list_elem_of_In. apply good_bindingb_ok.
    assert (forallb good_bindingb stdenvtab = true) as Hall by by vm_compute. rewrite forallb_forall in Hall. by apply Hall.
  - apply Forall_forall. intros e Hin%list_elem_of_In.
    assert (forallb (fun e => negb (bool_decide (fst e = ENV_MAC_NAME)) || check_mac_format (snd e)) stdenvtab = true) as Hall
      by by vm_compute. rewrite forallb_forall in Hall. specialize (Hall e Hin). intros E.
    rewrite bool_decide_eq_true_2 in Hall by done. done.
Qed.

(** With fewer defaults there is room as well. *)
Lemma given_fit (garbage : list Z -> bool) (m : vars) : vars_fit (m ∪ defaults) -> vars_fit (m ∪ given garbage defaults).
Proof. apply fits_mono, map_union_mono_l, given_subseteq. Qed.

(** The start of the system: what the flash holds, and the defaults of what it does not. *)
Lemma envinit_spec (garbage : list Z -> bool) s (m : vars) : healthy s -> sector_stores s m -> vars_fit (m ∪ defaults) ->
  exists s', envinit garbage s = Some s' /\ env_state s' (m ∪ given garbage defaults).
Proof.
  intros Hh Hst Hfit%(given_fit garbage). unfold envinit. set (s0 := set_envvar _ s).
  assert (vars_fit m) as [Hsz _] by (eapply fits_mono; [|exact Hfit]; apply map_union_subseteq_l).
  destruct (load_spec s0 m Hh Hst Hsz eq_refl) as (s1 & -> & Hh1 & Hst1 & Hl1). cbn [mbind option_bind].
  destruct stdenvtab_good as [Hg Ha]. apply (set_defaults_spec garbage stdenvtab (set_inited true s1) m Hg Ha); [|done]. done.
Qed.

Lemma envinit_blank (garbage : list Z -> bool) s : healthy s -> sum_words (NVRAM_SECSIZE / 2) (nvram_get s) 0 <> 0 -> vars_fit defaults ->
  exists s', envinit garbage s = Some s' /\ env_state s' (given garbage defaults).
Proof.
  intros Hh Hsum Hfit. unfold envinit. set (s0 := set_envvar _ s).
  destruct (load_blank s0 Hh Hsum eq_refl) as (s1 & -> & Hh1 & Hst1 & Hl1). cbn [mbind option_bind].
  destruct stdenvtab_good as [Hg Ha]. rewrite <- (map_empty_union defaults) in Hfit. rewrite <- (map_empty_union (given garbage defaults)).
  apply (set_defaults_spec garbage stdenvtab (set_inited true s1) ∅ Hg Ha); [done|]. by apply given_fit.
Qed.
End Environment.

(** ** The defaults fit *)

Lemma stdenvtab_nodup : NoDup stdenvtab.*1.
Proof. apply (bool_decide_eq_true_1 (NoDup stdenvtab.*1)). by vm_compute. Qed.

Lemma defaults_with_fit (l : list binding) : Forall good_binding l -> NoDup (l ++ stdenvtab).*1 ->
  ((length (l ++ stdenvtab) <=? NVAR) && (2 + length (encode (l ++ stdenvtab)) <=? NVRAM_SECSIZE))%nat = true ->
  vars_fit (vars_of l ∪ defaults).
Proof.
  intros Hg Hnd Hs. unfold defaults, vars_of. rewrite <- list_to_map_app. fold (vars_of (l ++ stdenvtab)).
  apply fits_list; [split; [apply Forall_app; split; [done|apply stdenvtab_good]|done]|].
  apply andb_true_iff in Hs as [H1%Nat.leb_le H2%Nat.leb_le]. done.
Qed.

Lemma defaults_fit : vars_fit defaults.
Proof.
  pose proof (defaults_with_fit [] (Forall_nil_2 _) stdenvtab_nodup) as H. unfold vars_of in H. cbn [list_to_map foldr] in H.
  rewrite map_empty_union in H. apply H. by vm_compute.
Qed.

(** ** The theorems *)

Section Theorems.
Context {F : Type} `{SectorLaws F}.
Implicit Types s : env F.

(** C19: a variable that is set has that value at once, and still has it after any reset that
    leaves the flash alone, whatever [getenv] happens to leave in the result register when it
    ends without a [return]; every other variable then has the value it had before, or, when
    it had none and [getenv] left 0 for it, its default, and is not found otherwise.  This
    holds for names and values without terminators, the name not empty and without [=], that
    take at most 255 characters together (with [=] and terminator); for the hardware address,
    values that [check_mac_format] accepts; while the variables and the defaults fit into the
    table and the sector, and no allocation fails. *)
Theorem environment_survives_reset (garbage : list Z -> bool) (n v : list Z) s (m : vars) :
  env_state s m -> good_binding (n, v) -> accepted n v -> vars_fit (<[n := v]> m ∪ defaults) ->
  exists s1, do_setenv n v s = Some s1 /\ getenv n s1 = Value v /\
    forall s2, flash s2 = flash s1 -> healthy s2 ->
      exists s3, envinit garbage s2 = Some s3 /\
        forall k, cstring k ->
          getenv k s3 = if decide (k = n) then Value v
                        else match m !! k with
                             | Some x => Value x
                             | None => match (if garbage k then None else defaults !! k) with Some x => Value x | None => NoReturn end
                             end.
Proof.
  intros Hs Hb Ha Hfit. destruct (do_setenv_spec n v s m Hs Hb Ha) as (s1 & E & Hs1).
  { eapply fits_mono; [|exact Hfit]. apply map_union_subseteq_l. }
  exists s1. split; [done|]. split; [rewrite (getenv_spec n s1 _) by (done || apply Hb); by rewrite lookup_insert_eq|].
  intros s2 Hfl Hh. destruct Hs1 as (_ & _ & (l & Hg & Hl & Hm) & _).
  destruct (envinit_spec garbage s2 (<[n := v]> m) Hh) as (s3 & E3 & Hs3); [exists l; unfold nvram_get; by rewrite Hfl|done|].
  exists s3. split; [done|]. intros k Hk. rewrite (getenv_spec k s3 _ Hk Hs3), <- insert_union_l.
  case_decide as Hd; [subst k; by rewrite lookup_insert_eq|]. rewrite lookup_insert_ne, lookup_union, lookup_given by congruence.
  by destruct (m !! k), (garbage k), (defaults !! k).
Qed.

(** C20: setting a variable succeeds exactly when the text of all variables has room in
    the sector; when it has not, the check of the source does not notice, and the copy
    runs over the end of the buffer. *)
Theorem setenv_needs_room (n v : list Z) s (m : vars) :
  env_state s m -> good_binding (n, v) -> accepted n v -> (size (<[n := v]> m) <= NVAR)%nat ->
  is_Some (do_setenv n v s) <-> (2 + length (encode (map_to_list (<[n := v]> m))) <= NVRAM_SECSIZE)%nat.
Proof.
  intros Hs Hb Ha Hsz. split.
  - intros [s' E]. apply dec_stable. intros Hfit. rewrite (do_setenv_overrun n v s m) in E; try done. by intros [_ ?].
  - intros Hfit. destruct (do_setenv_spec n v s m Hs Hb Ha (conj Hsz Hfit)) as (s' & E & _). by eexists.
Qed.

(** The first start, with a flash that holds no valid environment (an erased one,
    for example), gives every variable its default for which [getenv] leaves 0. *)
Lemma first_start (garbage : list Z -> bool) (s : env F) : healthy s -> sum_words (NVRAM_SECSIZE / 2) (nvram_get s) 0 <> 0 ->
  exists s', envinit garbage s = Some s' /\
    forall k, cstring k -> getenv k s' = match (if garbage k then None else defaults !! k) with Some x => Value x | None => NoReturn end.
Proof.
  intros Hh Hsum. destruct (envinit_blank garbage s Hh Hsum defaults_fit) as (s' & E & Hs'). exists s'. split; [done|].
  intros k Hk. rewrite (getenv_spec k s' _ Hk Hs'). by rewrite lookup_given.
Qed.
End Theorems.

(** ** A flash chip
    An erased byte is all ones, and writing clears bits. *)

#[global] Instance is_sector_dec (b : list Z) : Decision (is_sector b).
Proof. unfold is_sector, is_char. apply _. Defined.

Definition blank_sector : list Z := repeat (-1) NVRAM_SECSIZE.

#[export] Instance flash_chip : Sector (list Z) := {|
  spi_flash_read_area f := if decide (is_sector f) then f else blank_sector;
  spi_flash_erase_sector _ := blank_sector;
  spi_flash_write_area b f := zip_with (fun x y => s8 (Z.land (u8 x) (u8 y))) f b |}.

Lemma blank_ok : is_sector blank_sector.
Proof. split; [apply repeat_length|]. apply Forall_forall. intros x Hx%list_elem_of_In. apply repeat_spec in Hx as ->. by split. Qed.

#[export] Instance flash_chip_laws : SectorLaws (list Z).
Proof.
  split.
  - intros f. cbn. case_decide; [done|]. apply blank_ok.
  - intros f b [Hlen Hch]. cbn. unfold blank_sector. rewrite <- Hlen.
    assert (zip_with (fun x y => s8 (Z.land (u8 x) (u8 y))) (repeat (-1) (length b)) b = b) as ->.
    { clear Hlen. induction Hch as [|c b Hc _ IH]; [done|]. cbn [length repeat zip_with]. f_equal; [|done].
      change (u8 (-1)) with 0xff. rewrite Z.land_comm, land_0xff. unfold is_char in Hc. zlia. }
    by rewrite decide_True.
Qed.

(** A system that has just written an empty environment. *)
Definition empty_sector : list Z := snd (cksum (-1 :: -1 :: encode [] ++ repeat (-1) 4093) NVRAM_SECSIZE true).
Definition fresh_env : env (list Z) := Env empty_sector 0 true (table_of []) [].

Lemma empty_sector_holds : sector_holds empty_sector [].
Proof.
  apply cksum_holds; [reflexivity|]. apply Forall_app. split; [by repeat constructor|].
  apply Forall_forall. intros x Hx%list_elem_of_In. apply repeat_spec in Hx as ->. by split.
Qed.

Lemma fresh_state : env_state fresh_env ∅.
Proof.
  split; [done|]. split; [done|]. split.
  - exists []. split; [by repeat constructor|]. split; [|done]. unfold nvram_get. cbn.
    rewrite decide_True by apply empty_sector_holds. apply empty_sector_holds.
  - exists []. split; [by repeat constructor|]. split; [unfold NVAR; cbn; lia|]. done.
Qed.

Definition demo_name : list Z := Eval cbv in c_chars "autoload"%string.
Definition demo_value : list Z := Eval cbv in c_chars "/dev/mtd0 a=1"%string.

Lemma demo_binding : good_binding (demo_name, demo_value) /\ accepted demo_name demo_value.
Proof. split; [apply good_bindingb_ok; by vm_compute|]. intros E. discriminate E. Qed.

Lemma demo_fits : vars_fit (<[demo_name := demo_value]> ∅ ∪ defaults).
Proof.
  assert (<[demo_name := demo_value]> ∅ = vars_of [(demo_name, demo_value)]) as -> by done.
  apply defaults_with_fit; [apply Forall_singleton, demo_binding| |by vm_compute].
  apply (bool_decide_eq_true_1 (NoDup ([(demo_name, demo_value)] ++ stdenvtab).*1)). by vm_compute.
Qed.

Lemma environment_survives_reset_witness :
  env_state fresh_env ∅ /\
  exists s1, do_setenv demo_name demo_value fresh_env = Some s1 /\ getenv demo_name s1 = Value demo_value /\
    forall s2, flash s2 = flash s1 -> healthy s2 ->
      exists s3, envinit (fun k => bool_decide (k = ENV_MAC_NAME)) s2 = Some s3 /\
        getenv demo_name s3 = Value demo_value /\ getenv ENV_MAC_NAME s3 = NoReturn.
Proof.
  split; [apply fresh_state|].
  destruct (environment_survives_reset (fun k => bool_decide (k = ENV_MAC_NAME)) demo_name demo_value fresh_env ∅ fresh_state
    (proj1 demo_binding) (proj2 demo_binding) demo_fits) as (s1 & E1 & E2 & Hreset).
  exists s1. split; [exact E1|]. split; [exact E2|]. intros s2 Hfl Hh. destruct (Hreset s2 Hfl Hh) as (s3 & E3 & Hget). exists s3. split; [exact E3|]. split.
  - rewrite Hget; [|apply demo_binding]. by rewrite decide_True.
  - rewrite Hget; [|by repeat constructor]. rewrite decide_False by discriminate. rewrite lookup_empty. by rewrite bool_decide_eq_true_2.
Defined.

Lemma setenv_needs_room_witness :
  is_Some (do_setenv demo_name demo_value fresh_env) <->
  (2 + length (encode (map_to_list (<[demo_name := demo_value]> (∅ : vars)))) <= NVRAM_SECSIZE)%nat.
Proof.
  apply (setenv_needs_room demo_name demo_value fresh_env ∅ fresh_state (proj1 demo_binding) (proj2 demo_binding)).
  by vm_compute; lia.
Defined.
