(* ===== verification/Ecc.v ===== *)
(** * The NAND flash error correction (os/hardware/nand/nand_ecc.c)
    Three bytes of parity for each block of 256 bytes, from which any one wrong bit can
    be found again. *)

From S2P Require Import Prelude.

(** ** The routines *)

(** Column parity of each byte (bits 0 to 5) and its parity (bit 6). *)
Definition nand_ecc_precalc_table : list Z := [
  0x00; 0x55; 0x56; 0x03; 0x59; 0x0c; 0x0f; 0x5a; 0x5a; 0x0f; 0x0c; 0x59; 0x03; 0x56; 0x55; 0x00;
  0x65; 0x30; 0x33; 0x66; 0x3c; 0x69; 0x6a; 0x3f; 0x3f; 0x6a; 0x69; 0x3c; 0x66; 0x33; 0x30; 0x65;
  0x66; 0x33; 0x30; 0x65; 0x3f; 0x6a; 0x69; 0x3c; 0x3c; 0x69; 0x6a; 0x3f; 0x65; 0x30; 0x33; 0x66;
  0x03; 0x56; 0x55; 0x00; 0x5a; 0x0f; 0x0c; 0x59; 0x59; 0x0c; 0x0f; 0x5a; 0x00; 0x55; 0x56; 0x03;
  0x69; 0x3c; 0x3f; 0x6a; 0x30; 0x65; 0x66; 0x33; 0x33; 0x66; 0x65; 0x30; 0x6a; 0x3f; 0x3c; 0x69;
  0x0c; 0x59; 0x5a; 0x0f; 0x55; 0x00; 0x03; 0x56; 0x56; 0x03; 0x00; 0x55; 0x0f; 0x5a; 0x59; 0x0c;
  0x0f; 0x5a; 0x59; 0x0c; 0x56; 0x03; 0x00; 0x55; 0x55; 0x00; 0x03; 0x56; 0x0c; 0x59; 0x5a; 0x0f;
  0x6a; 0x3f; 0x3c; 0x69; 0x33; 0x66; 0x65; 0x30; 0x30; 0x65; 0x66; 0x33; 0x69; 0x3c; 0x3f; 0x6a;
  0x6a; 0x3f; 0x3c; 0x69; 0x33; 0x66; 0x65; 0x30; 0x30; 0x65; 0x66; 0x33; 0x69; 0x3c; 0x3f; 0x6a;
  0x0f; 0x5a; 0x59; 0x0c; 0x56; 0x03; 0x00; 0x55; 0x55; 0x00; 0x03; 0x56; 0x0c; 0x59; 0x5a; 0x0f;
  0x0c; 0x59; 0x5a; 0x0f; 0x55; 0x00; 0x03; 0x56; 0x56; 0x03; 0x00; 0x55; 0x0f; 0x5a; 0x59; 0x0c;
  0x69; 0x3c; 0x3f; 0x6a; 0x30; 0x65; 0x66; 0x33; 0x33; 0x66; 0x65; 0x30; 0x6a; 0x3f; 0x3c; 0x69;
  0x03; 0x56; 0x55; 0x00; 0x5a; 0x0f; 0x0c; 0x59; 0x59; 0x0c; 0x0f; 0x5a; 0x00; 0x55; 0x56; 0x03;
  0x66; 0x33; 0x30; 0x65; 0x3f; 0x6a; 0x69; 0x3c; 0x3c; 0x69; 0x6a; 0x3f; 0x65; 0x30; 0x33; 0x66;
  0x65; 0x30; 0x33; 0x66; 0x3c; 0x69; 0x6a; 0x3f; 0x3f; 0x6a; 0x69; 0x3c; 0x66; 0x33; 0x30; 0x65;
  0x00; 0x55; 0x56; 0x03; 0x59; 0x0c; 0x0f; 0x5a; 0x5a; 0x0f; 0x0c; 0x59; 0x03; 0x56; 0x55; 0x00].

(** [reg1], [reg2] and [reg3]. *)
Definition regs : Type := Z * Z * Z.

Definition parity_step (i d : Z) (r : regs) : regs :=
  let '(reg1, reg2, reg3) := r in
  let idx := znth 0 nand_ecc_precalc_table d in
  let reg1 := Z.lxor reg1 (Z.land idx 0x3f) in
  if negb (Z.land idx 0x40 =? 0)
  then (reg1, u8 (Z.lxor reg2 (Z.lnot (u8 i))), Z.lxor reg3 (u8 i))
  else (reg1, reg2, reg3).

Fixpoint parity_loop (i : Z) (dat : list Z) (r : regs) : regs :=
  match dat with
  | [] => r
  | d :: dat => parity_loop (i + 1) dat (parity_step i d r)
  end.

Definition line_hi (reg3 reg2 : Z) : Z :=
  let tmp1 := Z.shiftr (Z.land reg3 0x80) 0 in
  let tmp1 := Z.lor tmp1 (Z.shiftr (Z.land reg2 0x80) 1) in
  let tmp1 := Z.lor tmp1 (Z.shiftr (Z.land reg3 0x40) 1) in
  let tmp1 := Z.lor tmp1 (Z.shiftr (Z.land reg2 0x40) 2) in
  let tmp1 := Z.lor tmp1 (Z.shiftr (Z.land reg3 0x20) 2) in
  let tmp1 := Z.lor tmp1 (Z.shiftr (Z.land reg2 0x20) 3) in
  let tmp1 := Z.lor tmp1 (Z.shiftr (Z.land reg3 0x10) 3) in
  Z.lor tmp1 (Z.shiftr (Z.land reg2 0x10) 4).

Definition line_lo (reg3 reg2 : Z) : Z :=
  let tmp2 := Z.shiftl (Z.land reg3 0x08) 4 in
  let tmp2 := Z.lor tmp2 (Z.shiftl (Z.land reg2 0x08) 3) in
  let tmp2 := Z.lor tmp2 (Z.shiftl (Z.land reg3 0x04) 3) in
  let tmp2 := Z.lor tmp2 (Z.shiftl (Z.land reg2 0x04) 2) in
  let tmp2 := Z.lor tmp2 (Z.shiftl (Z.land reg3 0x02) 2) in
  let tmp2 := Z.lor tmp2 (Z.shiftl (Z.land reg2 0x02) 1) in
  let tmp2 := Z.lor tmp2 (Z.shiftl (Z.land reg3 0x01) 1) in
  Z.lor tmp2 (Z.shiftl (Z.land reg2 0x01) 0).

(** [ecc_code], for a block of 256 bytes. *)
Definition nand_calculate_ecc (dat : list Z) : Z * Z * Z :=
  let '(reg1, reg2, reg3) := parity_loop 0 (take 256 dat) (0, 0, 0) in
  let tmp1 := line_hi reg3 reg2 in
  let tmp2 := line_lo reg3 reg2 in
  (u8 (Z.lnot tmp1), u8 (Z.lnot tmp2), u8 (Z.lor (Z.shiftl (Z.lnot reg1) 2) 0x03)).

(** [fuel] is at least the number of bits. *)
Fixpoint countbits (fuel : nat) (byte : Z) : Z :=
  match fuel with
  | O => 0
  | S fuel => if byte =? 0 then 0 else Z.land byte 0x01 + countbits fuel (Z.shiftr byte 1)
  end.

(** Each pair of syndrome bits has exactly one set. *)
Definition single_bit (s0 s1 s2 : Z) : bool :=
  (Z.land (Z.lxor s0 (Z.shiftr s0 1)) 0x55 =? 0x55) &&
  (Z.land (Z.lxor s1 (Z.shiftr s1 1)) 0x55 =? 0x55) &&
  (Z.land (Z.lxor s2 (Z.shiftr s2 1)) 0x54 =? 0x54).

Definition byte_offset (s0 s1 : Z) : Z :=
  let byteoffs := Z.land (Z.shiftl s1 0) 0x80 in
  let byteoffs := Z.lor byteoffs (Z.land (Z.shiftl s1 1) 0x40) in
  let byteoffs := Z.lor byteoffs (Z.land (Z.shiftl s1 2) 0x20) in
  let byteoffs := Z.lor byteoffs (Z.land (Z.shiftl s1 3) 0x10) in
  let byteoffs := Z.lor byteoffs (Z.land (Z.shiftr s0 4) 0x08) in
  let byteoffs := Z.lor byteoffs (Z.land (Z.shiftr s0 3) 0x04) in
  let byteoffs := Z.lor byteoffs (Z.land (Z.shiftr s0 2) 0x02) in
  Z.lor byteoffs (Z.land (Z.shiftr s0 1) 0x01).

Definition bit_number (s2 : Z) : Z :=
  let bitnum := Z.land (Z.shiftr s2 5) 0x04 in
  let bitnum := Z.lor bitnum (Z.land (Z.shiftr s2 4) 0x02) in
  Z.lor bitnum (Z.land (Z.shiftr s2 3) 0x01).

(** [dat[byteoffs] ^= (1 << bitnum);] *)
Definition flip (byteoffs bitnum : Z) (dat : list Z) : list Z :=
  alter (fun d => u8 (Z.lxor d (Z.shiftl 1 bitnum))) (Z.to_nat byteoffs) dat.

(** The result and the data. *)
Definition nand_correct_data (dat : list Z) (read_ecc calc_ecc : Z * Z * Z) : Z * list Z :=
  let '(r0, r1, r2) := read_ecc in
  let '(c0, c1, c2) := calc_ecc in
  let s1 := Z.lxor c0 r0 in
  let s0 := Z.lxor c1 r1 in
  let s2 := Z.lxor c2 r2 in
  if Z.lor (Z.lor s0 s1) s2 =? 0 then (0, dat)
  else if single_bit s0 s1 s2 then (1, flip (byte_offset s0 s1) (bit_number s2) dat)
  else if countbits 32 (Z.lor (Z.lor s0 (u32 (Z.shiftl s1 8))) (u32 (Z.shiftl s2 16))) =? 1 then (1, dat)
  else (-1, dat).

(** ** Linearity *)

Lemma u8_lxor (a b : Z) : u8 (Z.lxor a b) = Z.lxor (u8 a) (u8 b).
Proof.
  unfold u8. apply Z.bits_inj'. intros n Hn. rewrite Z.lxor_spec. destruct (Z.ltb_spec n 8).
  - rewrite !Z.mod_pow2_bits_low by lia. apply Z.lxor_spec.
  - rewrite !Z.mod_pow2_bits_high by lia. done.
Qed.

Lemma u8_u8 (a : Z) : u8 (u8 a) = u8 a.
Proof. apply Z.mod_mod. lia. Qed.

Lemma lxor_cancel (a v : Z) : Z.lxor (Z.lxor a v) v = a.
Proof. by rewrite Z.lxor_assoc, Z.lxor_nilpotent, Z.lxor_0_r. Qed.

Lemma lxor_swap (a b c : Z) : Z.lxor (Z.lxor a b) c = Z.lxor (Z.lxor a c) b.
Proof. rewrite !Z.lxor_assoc. f_equal. apply Z.lxor_comm. Qed.

Lemma lxor_diff (a v : Z) : Z.lxor a (Z.lxor a v) = v.
Proof. by rewrite <- Z.lxor_assoc, Z.lxor_nilpotent, Z.lxor_0_l. Qed.

(** The registers after a change of the bits [v]. *)
Definition rxor (r v : regs) : regs :=
  let '(r1, r2, r3) := r in
  let '(v1, v2, v3) := v in
  (Z.lxor r1 v1, Z.lxor r2 v2, Z.lxor r3 v3).

(** [reg2] is a byte. *)
Definition reg2_ok (r : regs) : Prop := u8 (r.1.2) = r.1.2.

Lemma parity_step_ok (i d : Z) (r : regs) : reg2_ok r -> reg2_ok (parity_step i d r).
Proof. destruct r as [[r1 r2] r3]. unfold reg2_ok, parity_step. simpl. intros H. case_match; [|done]. apply u8_u8. Qed.

Lemma parity_step_rxor (i d : Z) (r v : regs) : reg2_ok r -> reg2_ok v ->
  parity_step i d (rxor r v) = rxor (parity_step i d r) v.
Proof.
  destruct r as [[r1 r2] r3], v as [[v1 v2] v3]. unfold reg2_ok, parity_step. simpl. intros Hr Hv.
  case_match; simpl; rewrite ?u8_lxor, ?Hr, ?Hv, (lxor_swap r1 v1), ?(lxor_swap r2 v2), ?(lxor_swap r3 v3); done.
Qed.

Lemma parity_loop_rxor (dat : list Z) : forall i r v, reg2_ok r -> reg2_ok v ->
  parity_loop i dat (rxor r v) = rxor (parity_loop i dat r) v.
Proof.
  induction dat as [|d dat IH]; intros i r v Hr Hv; [done|]. cbn [parity_loop].
  rewrite parity_step_rxor by done. apply IH; [by apply parity_step_ok|done].
Qed.

Lemma parity_loop_app (l1 l2 : list Z) : forall i r,
  parity_loop i (l1 ++ l2) r = parity_loop (i + Z.of_nat (length l1)) l2 (parity_loop i l1 r).
Proof.
  induction l1 as [|d l1 IH]; intros i r; cbn [app parity_loop length].
  - f_equal. lia.
  - rewrite IH. f_equal. lia.
Qed.

Lemma parity_loop_ok (dat : list Z) : forall i r, reg2_ok r -> reg2_ok (parity_loop i dat r).
Proof. induction dat as [|d dat IH]; intros i r Hr; [done|]. by apply IH, parity_step_ok. Qed.

(** What one wrong bit does to the registers. *)
Definition bit_regs (i j : Z) : regs := (Z.land (znth 0 nand_ecc_precalc_table (2 ^ j)) 0x3f, u8 (Z.lnot i), i).

Lemma bit_regs_ok (i j : Z) : reg2_ok (bit_regs i j).
Proof. apply u8_u8. Qed.

(** The table is linear in each bit, and each bit changes the byte's parity. *)
Lemma table_flip (d j : Z) : 0 <= d < 256 -> 0 <= j < 8 ->
  let T := znth 0 nand_ecc_precalc_table in
  u8 (Z.lxor d (Z.shiftl 1 j)) = Z.lxor d (Z.shiftl 1 j) /\
  Z.land (T (Z.lxor d (Z.shiftl 1 j))) 0x3f = Z.lxor (Z.land (T d) 0x3f) (Z.land (T (2 ^ j)) 0x3f) /\
  (Z.land (T (Z.lxor d (Z.shiftl 1 j))) 0x40 =? 0) = negb (Z.land (T d) 0x40 =? 0).
Proof.
  intros Hd Hj. cbv zeta. set (T := znth 0 nand_ecc_precalc_table).
  pose proof (range_check2 256 8 (fun d j =>
    (u8 (Z.lxor d (Z.shiftl 1 j)) =? Z.lxor d (Z.shiftl 1 j)) &&
    (Z.land (T (Z.lxor d (Z.shiftl 1 j))) 0x3f =? Z.lxor (Z.land (T d) 0x3f) (Z.land (T (2 ^ j)) 0x3f)) &&
    Bool.eqb (Z.land (T (Z.lxor d (Z.shiftl 1 j))) 0x40 =? 0) (negb (Z.land (T d) 0x40 =? 0)))
    ltac:(vm_compute; reflexivity) d j Hd Hj) as H2. cbv beta in H2.
  apply andb_prop in H2 as [[H2 H3]%andb_prop H4].
  apply Z.eqb_eq in H2, H3. apply Bool.eqb_prop in H4.
  split; [exact H2|split; [exact H3|exact H4]].
Qed.

Lemma parity_step_flip (i d j : Z) (r : regs) : 0 <= i < 256 -> 0 <= d < 256 -> 0 <= j < 8 -> reg2_ok r ->
  parity_step i (u8 (Z.lxor d (Z.shiftl 1 j))) r = rxor (parity_step i d r) (bit_regs i j).
Proof.
  intros Hi Hd Hj Hr. destruct (table_flip d j Hd Hj) as (E1 & E2 & E3). rewrite E1.
  destruct r as [[r1 r2] r3]. unfold reg2_ok in Hr. simpl in Hr. unfold parity_step. rewrite E2, E3.
  rewrite (u8_small i) by lia.
  destruct (Z.land (znth 0 nand_ecc_precalc_table d) 0x40 =? 0); unfold bit_regs; cbn [negb rxor];
    rewrite ?u8_lxor, ?Hr, ?lxor_cancel, <- ?Z.lxor_assoc; reflexivity.
Qed.
Opaque nand_ecc_precalc_table.

Lemma nth_split (dat : list Z) (i : Z) : 0 <= i < Z.of_nat (length dat) ->
  exists l1 d l2, dat = l1 ++ d :: l2 /\ Z.of_nat (length l1) = i.
Proof.
  intros Hi. destruct (lookup_lt_is_Some_2 dat (Z.to_nat i)) as [d Hd]; [lia|].
  exists (take (Z.to_nat i) dat), d, (drop (S (Z.to_nat i)) dat). split.
  - symmetry. by apply take_drop_middle.
  - rewrite length_take. lia.
Qed.

Definition byte_list (dat : list Z) : Prop := Forall (fun d => 0 <= d < 256) dat.

Lemma flip_mid (l1 l2 : list Z) (d i j : Z) : Z.of_nat (length l1) = i ->
  flip i j (l1 ++ d :: l2) = l1 ++ u8 (Z.lxor d (Z.shiftl 1 j)) :: l2.
Proof.
  intros <-. unfold flip. rewrite Nat2Z.id. rewrite alter_app_r_alt by lia.
  by rewrite Nat.sub_diag.
Qed.

Lemma parity_flip (dat : list Z) (i j : Z) (r : regs) : Z.of_nat (length dat) <= 256 -> byte_list dat ->
  0 <= i < Z.of_nat (length dat) -> 0 <= j < 8 -> reg2_ok r ->
  parity_loop 0 (flip i j dat) r = rxor (parity_loop 0 dat r) (bit_regs i j).
Proof.
  intros Hlen Hb Hi Hj Hr. destruct (nth_split dat i Hi) as (l1 & d & l2 & -> & El).
  apply Forall_app in Hb as [_ [Hd _]%Forall_cons].
  rewrite (flip_mid l1 l2 d i j El). rewrite !parity_loop_app. cbn [parity_loop].
  pose proof (parity_loop_ok l1 0 r Hr) as Hr'.
  rewrite parity_step_flip; [|lia|done|done|done].
  rewrite parity_loop_rxor; [|by apply parity_step_ok|apply bit_regs_ok].
  replace (0 + Z.of_nat (length l1)) with i by lia. done.
Qed.

(** ** The code *)

(** Splits a statement about all bits of a byte into one goal for each. *)
Ltac byte_bits n := destruct (Z.ltb_spec n 8); [
  assert (n = 0 \/ n = 1 \/ n = 2 \/ n = 3 \/ n = 4 \/ n = 5 \/ n = 6 \/ n = 7)
    as [->|[->|[->|[->|[->|[->|[->| ->]]]]]]] by lia|].

Lemma land_bit (c k a n : Z) : 0 <= k -> c = 2 ^ k -> Z.testbit (Z.land a c) n = (n =? k) && Z.testbit a n.
Proof. intros Hk ->. by rewrite Z.land_spec, Z.pow2_bits_eqb, andb_comm, Z.eqb_sym by done. Qed.

(** The registers' bits alternate in the code. *)
Lemma line_hi_bits (r3 r2 n : Z) : 0 <= n ->
  Z.testbit (line_hi r3 r2) n = (n <? 8) && Z.testbit (if Z.odd n then r3 else r2) (4 + n / 2).
Proof.
  intros Hn. unfold line_hi. rewrite !Z.lor_spec, !Z.shiftr_spec by lia.
  rewrite !(land_bit 0x80 7), !(land_bit 0x40 6), !(land_bit 0x20 5), !(land_bit 0x10 4) by lia.
  byte_bits n; try (simpl; by rewrite ?orb_false_r).
  repeat rewrite (proj2 (Z.eqb_neq _ _)) by lia. done.
Qed.

Lemma line_lo_bits (r3 r2 n : Z) : 0 <= n ->
  Z.testbit (line_lo r3 r2) n = (n <? 8) && Z.testbit (if Z.odd n then r3 else r2) (n / 2).
Proof.
  intros Hn. unfold line_lo. rewrite !Z.lor_spec, !Z.shiftl_spec by lia.
  rewrite !(land_bit 0x08 3), !(land_bit 0x04 2), !(land_bit 0x02 1), !(land_bit 0x01 0) by lia.
  byte_bits n; try (simpl; by rewrite ?orb_false_r).
  repeat rewrite (proj2 (Z.eqb_neq _ _)) by lia. done.
Qed.

Lemma line_hi_lxor (a b c d : Z) : Z.lxor (line_hi a b) (line_hi c d) = line_hi (Z.lxor a c) (Z.lxor b d).
Proof.
  apply Z.bits_inj'. intros n Hn. rewrite Z.lxor_spec, !line_hi_bits by done.
  destruct (n <? 8), (Z.odd n); cbn [andb]; by rewrite ?Z.lxor_spec.
Qed.

Lemma line_lo_lxor (a b c d : Z) : Z.lxor (line_lo a b) (line_lo c d) = line_lo (Z.lxor a c) (Z.lxor b d).
Proof.
  apply Z.bits_inj'. intros n Hn. rewrite Z.lxor_spec, !line_lo_bits by done.
  destruct (n <? 8), (Z.odd n); cbn [andb]; by rewrite ?Z.lxor_spec.
Qed.

Lemma line_u8 (f : Z -> Z -> Z) (a b : Z) : f = line_hi \/ f = line_lo -> u8 (f a b) = f a b.
Proof.
  intros Hf. apply Z.bits_inj'. intros n Hn. unfold u8. destruct (Z.ltb_spec n 8).
  - by rewrite Z.mod_pow2_bits_low by lia.
  - rewrite Z.mod_pow2_bits_high by lia.
    destruct Hf as [-> | ->]; rewrite ?line_hi_bits, ?line_lo_bits by done; by rewrite (proj2 (Z.ltb_ge _ _)).
Qed.

Lemma lxor_lnot (a b : Z) : Z.lxor (u8 (Z.lnot a)) (u8 (Z.lnot b)) = u8 (Z.lxor a b).
Proof.
  rewrite <- u8_lxor. f_equal. apply Z.bits_inj'. intros n Hn. rewrite !Z.lxor_spec, !Z.lnot_spec by done. btauto.
Qed.

Lemma columns_lxor (a b : Z) :
  Z.lxor (u8 (Z.lor (Z.shiftl (Z.lnot a) 2) 0x03)) (u8 (Z.lor (Z.shiftl (Z.lnot b) 2) 0x03)) =
  u8 (Z.shiftl (Z.lxor a b) 2).
Proof.
  rewrite <- u8_lxor. f_equal. apply Z.bits_inj'. intros n Hn. rewrite Z.lxor_spec, !Z.lor_spec, !Z.shiftl_spec by done.
  change 3 with (Z.ones 2). destruct (Z.ltb_spec n 2).
  - rewrite Z.ones_spec_low by lia. rewrite !(Z.testbit_neg_r _ (n - 2)) by lia. done.
  - rewrite Z.ones_spec_high by lia. rewrite !Z.lnot_spec, Z.lxor_spec by lia. btauto.
Qed.

(** Differences of codes. *)
Definition cxor (c e : Z * Z * Z) : Z * Z * Z :=
  let '(c0, c1, c2) := c in
  let '(e0, e1, e2) := e in
  (Z.lxor c0 e0, Z.lxor c1 e1, Z.lxor c2 e2).

(** The code of a difference of registers. *)
Definition code_diff (v : regs) : Z * Z * Z :=
  let '(v1, v2, v3) := v in (line_hi v3 v2, line_lo v3 v2, u8 (Z.shiftl v1 2)).

(** What one wrong bit, or two, change in the code that is calculated. *)
Lemma ecc_diff (dat dat' : list Z) (v : regs) :
  parity_loop 0 (take 256 dat') (0, 0, 0) = rxor (parity_loop 0 (take 256 dat) (0, 0, 0)) v ->
  cxor (nand_calculate_ecc dat') (nand_calculate_ecc dat) = code_diff v.
Proof.
  intros E. unfold nand_calculate_ecc. rewrite E.
  destruct (parity_loop 0 (take 256 dat) (0, 0, 0)) as [[r1 r2] r3], v as [[v1 v2] v3].
  cbn [rxor cxor code_diff]. rewrite !lxor_lnot, line_hi_lxor, line_lo_lxor, columns_lxor.
  rewrite !line_u8 by auto. rewrite !(Z.lxor_comm (Z.lxor _ _)), !lxor_diff. done.
Qed.

(** ** Wrong bits *)

(** Bit [j] of byte [i], or bit [k] of the stored code. *)
Inductive wrong_bit := DataBit (i j : Z) | CodeBit (k : Z).

Definition wrong_ok (e : wrong_bit) : Prop :=
  match e with
  | DataBit i j => 0 <= i < 256 /\ 0 <= j < 8
  | CodeBit k => 0 <= k < 24
  end.

Definition code_bit (k : Z) : Z * Z * Z :=
  (if k <? 8 then 2 ^ k else 0, if (8 <=? k) && (k <? 16) then 2 ^ (k - 8) else 0, if 16 <=? k then 2 ^ (k - 16) else 0).

(** The data and the stored code, read back with a wrong bit. *)
Definition spoil (e : wrong_bit) (x : list Z * (Z * Z * Z)) : list Z * (Z * Z * Z) :=
  match e with
  | DataBit i j => (flip i j x.1, x.2)
  | CodeBit k => (x.1, cxor x.2 (code_bit k))
  end.

(** [nand_correct_data], called as the drivers do on what they have read. *)
Definition read_back (x : list Z * (Z * Z * Z)) : Z * list Z := nand_correct_data x.1 x.2 (nand_calculate_ecc x.1).

Definition syndrome (e : wrong_bit) : Z * Z * Z :=
  match e with
  | DataBit i j => code_diff (bit_regs i j)
  | CodeBit k => code_bit k
  end.

(** What the difference of the codes tells. *)
Inductive verdict := Clean | DataAt (i j : Z) | InCode | TooMany.

Definition judge (s : Z * Z * Z) : verdict :=
  let '(s1, s0, s2) := s in
  if Z.lor (Z.lor s0 s1) s2 =? 0 then Clean
  else if single_bit s0 s1 s2 then DataAt (byte_offset s0 s1) (bit_number s2)
  else if countbits 32 (Z.lor (Z.lor s0 (u32 (Z.shiftl s1 8))) (u32 (Z.shiftl s2 16))) =? 1 then InCode
  else TooMany.

Definition act (v : verdict) (dat : list Z) : Z * list Z :=
  match v with
  | Clean => (0, dat)
  | DataAt i j => (1, flip i j dat)
  | InCode => (1, dat)
  | TooMany => (-1, dat)
  end.

Lemma correct_judge (dat : list Z) (r c : Z * Z * Z) : nand_correct_data dat r c = act (judge (cxor c r)) dat.
Proof.
  destruct r as [[r0 r1] r2], c as [[c0 c1] c2]. unfold nand_correct_data. cbn [judge cxor].
  destruct (_ =? 0); [done|]. destruct (single_bit _ _ _); [done|]. by destruct (_ =? 1).
Qed.

(** ** The finite cases *)

Transparent nand_ecc_precalc_table.

Definition verdict_eqb (v w : verdict) : bool :=
  match v, w with
  | Clean, Clean | InCode, InCode | TooMany, TooMany => true
  | DataAt i j, DataAt i' j' => (i =? i') && (j =? j')
  | _, _ => false
  end.

Lemma verdict_eqb_eq (v w : verdict) : verdict_eqb v w = true -> v = w.
Proof. destruct v, w; try done. simpl. intros [->%Z.eqb_eq ->%Z.eqb_eq]%andb_prop. done. Qed.

(** Differences of neighbouring bits. *)
Definition pairs (s : Z) : Z := Z.land (Z.lxor s (Z.shiftr s 1)) 0x55.

Lemma pairs_lxor (a b : Z) : pairs (Z.lxor a b) = Z.lxor (pairs a) (pairs b).
Proof.
  unfold pairs. apply Z.bits_inj'. intros n Hn. rewrite !Z.lxor_spec, !Z.land_spec, !Z.lxor_spec, !Z.shiftr_spec, !Z.lxor_spec by done.
  btauto.
Qed.

(** A single wrong data bit is found, and sets one bit of each pair. *)
Lemma data_judged (i j : Z) : 0 <= i < 256 -> 0 <= j < 8 ->
  judge (syndrome (DataBit i j)) = DataAt i j /\
  let '(s1, s0, s2) := syndrome (DataBit i j) in
  pairs s0 = 0x55 /\ pairs s1 = 0x55 /\ pairs s2 = 0x54 /\ u8 s0 = s0 /\ u8 s1 = s1 /\ u8 s2 = s2.
Proof.
  intros Hi Hj. pose proof (range_check2 256 8 (fun i j =>
      verdict_eqb (judge (syndrome (DataBit i j))) (DataAt i j) &&
      let '(s1, s0, s2) := syndrome (DataBit i j) in
      (pairs s0 =? 0x55) && ((pairs s1 =? 0x55) && ((pairs s2 =? 0x54) &&
      ((u8 s0 =? s0) && ((u8 s1 =? s1) && (u8 s2 =? s2))))))
    ltac:(vm_compute; reflexivity) i j Hi Hj) as H2. cbv beta in H2.
  destruct (syndrome (DataBit i j)) as [[s1 s0] s2].
  repeat (apply andb_prop in H2 as [?%Z.eqb_eq H2] || apply andb_prop in H2 as [?%verdict_eqb_eq H2]).
  apply Z.eqb_eq in H2. done.
Qed.

Lemma code_judged (k : Z) : 0 <= k < 24 -> judge (code_bit k) = InCode.
Proof.
  assert (H : forallb (fun k => verdict_eqb (judge (code_bit k)) InCode) (seqZ 0 24) = true) by (vm_compute; reflexivity).
  intros Hk. apply verdict_eqb_eq, (range_check _ _ H k Hk).
Qed.

Lemma two_code_judged (k k' : Z) : 0 <= k < 24 -> 0 <= k' < 24 -> k ≠ k' ->
  judge (cxor (code_bit k) (code_bit k')) = TooMany.
Proof.
  intros Hk Hk' Hne. pose proof (range_check2 24 24 (fun k k' =>
      (k =? k') || verdict_eqb (judge (cxor (code_bit k) (code_bit k'))) TooMany)
    ltac:(vm_compute; reflexivity) k k' Hk Hk') as H2. cbv beta in H2.
  apply orb_prop in H2 as [?%Z.eqb_eq|?]; [done|by apply verdict_eqb_eq].
Qed.

(** The two lowest bits of the third code byte are not used. *)
Definition unused_bit (k : Z) : bool := (k =? 16) || (k =? 17).

Lemma mixed_judged (i j k : Z) : 0 <= i < 256 -> 0 <= j < 8 -> 0 <= k < 24 ->
  judge (cxor (syndrome (DataBit i j)) (code_bit k)) = if unused_bit k then DataAt i j else TooMany.
Proof.
  intros Hi Hj Hk. apply verdict_eqb_eq.
  pose proof (range_check2 256 8 (fun i j => forallb (fun k =>
      verdict_eqb (judge (cxor (syndrome (DataBit i j)) (code_bit k)))
        (if unused_bit k then DataAt i j else TooMany)) (seqZ 0 24))
    ltac:(vm_compute; reflexivity) i j Hi Hj) as H2. cbv beta in H2.
  exact (range_check 24 _ H2 k Hk).
Qed.

(** ** Two wrong bits in the data *)

(** The bytes whose pairs of bits agree. *)
Definition even_bytes : list Z := List.filter (fun s => pairs s =? 0) (seqZ 0 256).

Lemma in_even_bytes (s : Z) : u8 s = s -> pairs s = 0 -> In s even_bytes.
Proof.
  intros Hs Hp. apply filter_In. rewrite Hp. split; [|done].
  apply list_elem_of_In, elem_of_seqZ. pose proof (u8_range s). lia.
Qed.

(** Such a difference never looks like one wrong code bit. *)
Lemma even_judged (s0 s1 s2 : Z) : u8 s0 = s0 -> u8 s1 = s1 -> u8 s2 = s2 ->
  pairs s0 = 0 -> pairs s1 = 0 -> pairs s2 = 0 ->
  judge (s1, s0, s2) = TooMany \/ s0 = 0 /\ s1 = 0 /\ s2 = 0.
Proof.
  intros H0 H1 H2 P0 P1 P2.
  assert (H : forallb (fun s0 => forallb (fun s1 => forallb (fun s2 =>
    verdict_eqb (judge (s1, s0, s2)) TooMany || ((s0 =? 0) && ((s1 =? 0) && (s2 =? 0))))
    even_bytes) even_bytes) even_bytes = true) by (vm_compute; reflexivity).
  pose proof (proj1 (forallb_forall _ _) H _ (in_even_bytes _ H0 P0)) as K. cbv beta in K. clear H.
  pose proof (proj1 (forallb_forall _ _) K _ (in_even_bytes _ H1 P1)) as K1. cbv beta in K1.
  pose proof (proj1 (forallb_forall _ _) K1 _ (in_even_bytes _ H2 P2)) as K2. cbv beta in K2. clear K K1.
  apply orb_prop in K2 as [K|K]; [left; by apply verdict_eqb_eq|right].
  apply andb_prop in K as [?%Z.eqb_eq [?%Z.eqb_eq ?%Z.eqb_eq]%andb_prop]. done.
Qed.

Lemma two_data_judged (i j i' j' : Z) : 0 <= i < 256 -> 0 <= j < 8 -> 0 <= i' < 256 -> 0 <= j' < 8 ->
  (i, j) ≠ (i', j') -> judge (cxor (syndrome (DataBit i j)) (syndrome (DataBit i' j'))) = TooMany.
Proof.
  intros Hi Hj Hi' Hj' Hne.
  destruct (data_judged i j Hi Hj) as [J H], (data_judged i' j' Hi' Hj') as [J' H'].
  destruct (syndrome (DataBit i j)) as [[s1 s0] s2] eqn:E, (syndrome (DataBit i' j')) as [[t1 t0] t2] eqn:E'.
  destruct H as (P0 & P1 & P2 & U0 & U1 & U2), H' as (Q0 & Q1 & Q2 & V0 & V1 & V2). cbn [cxor].
  destruct (even_judged (Z.lxor s0 t0) (Z.lxor s1 t1) (Z.lxor s2 t2)) as [?|(D0 & D1 & D2)]; [..|done|exfalso].
  1-3: rewrite u8_lxor; congruence.
  1-3: rewrite pairs_lxor, ?P0, ?P1, ?P2, ?Q0, ?Q1, ?Q2; reflexivity.
  apply Z.lxor_eq in D0, D1, D2. subst. rewrite J in J'. congruence.
Qed.

(** ** What is read back *)

Lemma cxor_assoc (a b c : Z * Z * Z) : cxor (cxor a b) c = cxor a (cxor b c).
Proof. destruct a as [[? ?] ?], b as [[? ?] ?], c as [[? ?] ?]. simpl. by rewrite !Z.lxor_assoc. Qed.

Lemma cxor_comm (a b : Z * Z * Z) : cxor a b = cxor b a.
Proof. destruct a as [[? ?] ?], b as [[? ?] ?]. simpl. f_equal; [f_equal|]; apply Z.lxor_comm. Qed.

Lemma cxor_self (a : Z * Z * Z) : cxor a a = (0, 0, 0).
Proof. destruct a as [[? ?] ?]. simpl. by rewrite !Z.lxor_nilpotent. Qed.

Lemma cxor_zero (a : Z * Z * Z) : cxor (0, 0, 0) a = a.
Proof. by destruct a as [[? ?] ?]. Qed.

(** A block as the flash holds it. *)
Definition block (dat : list Z) : Prop := Z.of_nat (length dat) = 256 /\ byte_list dat.

Lemma flip_block (i j : Z) (dat : list Z) : block dat -> block (flip i j dat).
Proof.
  intros [Hl Hb]. unfold flip. split; [by rewrite length_alter|].
  apply Forall_alter; [done|]. intros d _ _. apply u8_range.
Qed.

Lemma flip_flip (i j : Z) (dat : list Z) : block dat -> 0 <= i < 256 -> flip i j (flip i j dat) = dat.
Proof.
  intros [Hl Hb] Hi. destruct (nth_split dat i) as (l1 & d & l2 & -> & El); [lia|].
  apply Forall_app in Hb as [_ [Hd _]%Forall_cons].
  rewrite !(flip_mid l1 l2 _ i j El). rewrite u8_lxor, u8_u8, u8_lxor, lxor_cancel.
  by rewrite u8_small by exact Hd.
Qed.

(** The difference of the calculated and the stored code. *)
Definition code_error (x : list Z * (Z * Z * Z)) : Z * Z * Z := cxor (nand_calculate_ecc x.1) x.2.

Lemma read_back_judge (x : list Z * (Z * Z * Z)) : read_back x = act (judge (code_error x)) x.1.
Proof. apply correct_judge. Qed.

Lemma code_error_spoil (e : wrong_bit) (x : list Z * (Z * Z * Z)) : block x.1 -> wrong_ok e ->
  code_error (spoil e x) = cxor (code_error x) (syndrome e).
Proof.
  destruct x as [dat c]. intros [Hl Hb] He. unfold code_error. destruct e as [i j|k]; cbn [spoil fst snd].
  - destruct He as [Hi Hj]. cbn [fst] in Hl, Hb.
    assert (E : cxor (nand_calculate_ecc (flip i j dat)) (nand_calculate_ecc dat) = code_diff (bit_regs i j)).
    { apply ecc_diff. rewrite !take_ge by (unfold flip; rewrite ?length_alter; lia).
      apply parity_flip; try done; lia. }
    cbn [syndrome]. rewrite <- E. rewrite (cxor_comm (cxor _ c)), !cxor_assoc. f_equal.
    by rewrite <- cxor_assoc, cxor_self, cxor_zero.
  - cbn [syndrome]. by rewrite cxor_assoc.
Qed.

Lemma code_error_clean (dat : list Z) : code_error (dat, nand_calculate_ecc dat) = (0, 0, 0).
Proof. apply cxor_self. Qed.

Lemma spoil_block (e : wrong_bit) (x : list Z * (Z * Z * Z)) : block x.1 -> block (spoil e x).1.
Proof. destruct x, e; [apply flip_block|done]. Qed.

(** ** Properties *)

(** C24: a block that is read back right is left alone, and any one wrong bit in the
    256 data bytes or in the stored code is corrected. *)
Theorem ecc_corrects_one (dat : list Z) (e : wrong_bit) : block dat -> wrong_ok e ->
  read_back (dat, nand_calculate_ecc dat) = (0, dat) /\
  read_back (spoil e (dat, nand_calculate_ecc dat)) = (1, dat).
Proof.
  intros Hb He. rewrite !read_back_judge, code_error_spoil, code_error_clean, cxor_zero by done.
  split; [done|]. destruct e as [i j|k]; cbn [spoil fst].
  - destruct He as [Hi Hj]. destruct (data_judged i j Hi Hj) as [-> _]. cbn [act]. by rewrite flip_flip.
  - cbn [syndrome]. by rewrite code_judged.
Qed.

(** two different wrong bits, in the data or in the code, are never taken for
    another error: they are reported with -1, or, if one is a code bit that is not
    used, corrected; two wrong data bits are always reported. *)
Theorem ecc_detects_two (dat : list Z) (e e' : wrong_bit) : block dat -> wrong_ok e -> wrong_ok e' -> e ≠ e' ->
  let x := spoil e (spoil e' (dat, nand_calculate_ecc dat)) in
  (read_back x = (-1, x.1) \/ read_back x = (1, dat)) /\
  (forall i j i' j', e = DataBit i j -> e' = DataBit i' j' -> read_back x = (-1, x.1)).
Proof.
  intros Hb He He' Hne. cbv zeta. set (x := spoil e _).
  assert (E : code_error x = cxor (syndrome e') (syndrome e)).
  { unfold x. rewrite !code_error_spoil, code_error_clean, cxor_zero by (done || by apply spoil_block). done. }
  rewrite read_back_judge, E. destruct e as [i j|k], e' as [i' j'|k']; cbn [wrong_ok] in *.
  - rewrite two_data_judged by (tauto || congruence). split; [by left|done].
  - rewrite cxor_comm. change (syndrome (CodeBit k')) with (code_bit k'). rewrite mixed_judged by tauto. split; [|done].
    destruct (unused_bit k'); [right|by left]. unfold x. cbn [act spoil fst]. by rewrite flip_flip by tauto.
  - change (syndrome (CodeBit k)) with (code_bit k). rewrite mixed_judged by tauto. split; [|done].
    destruct (unused_bit k); [right|by left]. unfold x. cbn [act spoil fst]. by rewrite flip_flip by tauto.
  - cbn [syndrome]. rewrite two_code_judged by (done || congruence). split; [by left|done].
Qed.

Definition demo_block : list Z := map (fun i => i) (seqZ 0 256).

Lemma demo_block_ok : block demo_block.
Proof.
  split; [vm_compute; reflexivity|]. apply Forall_forall. intros d Hd.
  apply list_elem_of_fmap in Hd as (i & -> & Hi%elem_of_seqZ). lia.
Qed.

Lemma ecc_corrects_one_witness : block demo_block /\
  read_back (spoil (DataBit 77 5) (demo_block, nand_calculate_ecc demo_block)) = (1, demo_block).
Proof.
  split; [exact demo_block_ok|]. apply (ecc_corrects_one demo_block (DataBit 77 5) demo_block_ok). split; lia.
Defined.

Lemma ecc_detects_two_witness : block demo_block /\
  exists d, read_back (spoil (DataBit 77 5) (spoil (DataBit 77 6) (demo_block, nand_calculate_ecc demo_block))) = (-1, d).
Proof.
  split; [exact demo_block_ok|]. eexists.
  apply (ecc_detects_two demo_block (DataBit 77 5) (DataBit 77 6) demo_block_ok) with (i := 77) (j := 5) (i' := 77) (j' := 6);
    first [split; lia | discriminate | reflexivity].
Defined.
