(* ===== verification/Console.v ===== *)
(** * The console's receive path (os/getchar.c, os/common_fun.c)
    The UART's interrupt handler moves the received characters into a ring buffer and
    [getchar] takes them out; [getstr] and [gets] read lines.  The device is the queue
    of the characters that it has received; each read of its data register takes the
    oldest. *)

From S2P Require Import Prelude CStr Ring.

Definition UART_BUF_SIZE : Z := 16.
Definition IIR_RXTOUT : Z := 0xc.
Definition IIR_RXRDY : Z := 0x4.

Record rt_serial_rx_fifo := Fifo {
  buffer : list Z;
  put_index : Z;
  get_index : Z;
  is_full : Z }.

(** The part of [uart2GetCharInit] that sets the buffer up. *)
Definition uart2GetCharInit : rt_serial_rx_fifo := Fifo (repeat 0 (Z.to_nat UART_BUF_SIZE)) 0 0 0.

(** ** The interrupt handler *)

Definition next_index (i : Z) : Z := let i := u16 (i + 1) in if i >=? UART_BUF_SIZE then 0 else i.

(** One character is received: the body of the handler's loop. *)
Definition rx_char (ch : Z) (f : rt_serial_rx_fifo) : rt_serial_rx_fifo :=
  let f := Fifo (<[Z.to_nat (put_index f) := u8 ch]> (buffer f)) (put_index f) (get_index f) (is_full f) in
  let f := Fifo (buffer f) (next_index (put_index f)) (get_index f) (is_full f) in
  if put_index f =? get_index f
  then Fifo (buffer f) (put_index f) (next_index (get_index f)) 1
  else f.

(** The character, or -1, and the device afterwards. *)
Definition ls1c_uart_getc (dev : list Z) : Z * list Z :=
  match dev with
  | [] => (-1, [])
  | c :: dev => (u8 c, dev)
  end.

(** The loop ends when the device is empty. *)
Fixpoint rt_hw_serial_isr (dev : list Z) (f : rt_serial_rx_fifo) : rt_serial_rx_fifo :=
  let ch := fst (ls1c_uart_getc dev) in
  if ch =? -1 then f
  else match dev with
       | [] => f
       | _ :: dev => rt_hw_serial_isr dev (rx_char ch f)
       end.

(** The device and the buffer afterwards. *)
Definition uart_irq_handler (iir : Z) (dev : list Z) (f : rt_serial_rx_fifo) : list Z * rt_serial_rx_fifo :=
  if negb (Z.land IIR_RXTOUT iir =? 0) || negb (Z.land IIR_RXRDY iir =? 0)
  then ([], rt_hw_serial_isr dev f) else (dev, f).

(** ** Reading *)

(** The characters that are there, [length] at most. *)
Fixpoint _serial_int_rx (length : nat) (f : rt_serial_rx_fifo) : list Z * rt_serial_rx_fifo :=
  match length with
  | O => ([], f)
  | S length =>
      if (get_index f =? put_index f) && (is_full f =? 0) then ([], f)
      else
        let ch := znth 0 (buffer f) (get_index f) in
        let f := Fifo (buffer f) (put_index f) (next_index (get_index f)) (is_full f) in
        let f := if is_full f =? 1 then Fifo (buffer f) (put_index f) (get_index f) 0 else f in
        let '(data, f) := _serial_int_rx length f in (Z.land ch 0xff :: data, f)
  end.

(** [getchar] tries until an interrupt has brought a character.  [irqs] are the
    characters of the interrupts that are still to come; [None] when [getchar] waits
    after the last. *)
Fixpoint getchar (irqs : list (list Z)) (f : rt_serial_rx_fifo) : option (Z * list (list Z) * rt_serial_rx_fifo) :=
  match _serial_int_rx 1 f with
  | ([ch], f) => Some (s8 ch, irqs, f)
  | _ => match irqs with
         | [] => None
         | dev :: irqs => getchar irqs (snd (uart_irq_handler IIR_RXRDY dev f))
         end
  end.

(** ** Lines *)


(** [getstr]: the characters stored in [dst]; [n] is [max - 1]. *)
Fixpoint getstr_loop (n : nat) (irqs : list (list Z)) (f : rt_serial_rx_fifo) :
    option (list Z * list (list Z) * rt_serial_rx_fifo) :=
  match n with
  | O => Some ([], irqs, f)
  | S n =>
      match getchar irqs f with
      | None => None
      | Some (c, irqs, f) =>
          if c =? 0 then Some ([], irqs, f)
          else if c =? 10 then Some ([c], irqs, f)
          else match getstr_loop n irqs f with
               | None => None
               | Some (s, irqs, f) => Some (c :: s, irqs, f)
               end
      end
  end.

(** The string and whether the result is not [NULL]. *)
Definition getstr (max : Z) (irqs : list (list Z)) (f : rt_serial_rx_fifo) :
    option (list Z * bool * list (list Z) * rt_serial_rx_fifo) :=
  match getstr_loop (Z.to_nat (max - 1)) irqs f with
  | None => None
  | Some (s, irqs, f) => Some (s, negb (bool_decide (s = [])), irqs, f)
  end.

Definition gets (irqs : list (list Z)) (f : rt_serial_rx_fifo) :
    option (list Z * bool * list (list Z) * rt_serial_rx_fifo) :=
  match getstr MAXLN irqs f with
  | Some (s, true, irqs, f) =>
      Some (if (List.last s 0 =? 10) then removelast s else s, true, irqs, f)
  | r => r
  end.

(** ** The queue that the buffer holds *)

(** The queue [q], oldest character first. *)
Record holds (f : rt_serial_rx_fifo) (q : list Z) : Prop := {
  ho_size : length (buffer f) = 16%nat;
  ho_get : 0 <= get_index f < 16;
  ho_len : (length q <= 15)%nat;
  ho_put : put_index f = (get_index f + Z.of_nat (length q)) mod 16;
  ho_queue : q = ring_slice (buffer f) 16 (get_index f) (Z.of_nat (length q));
  ho_chars : Forall (fun c => u8 c = c) q;
  ho_full : is_full f = 0 \/ is_full f = 1 /\ q <> [] }.

Lemma holds_init : holds uart2GetCharInit [].
Proof. split; simpl; (done || lia || by left). Qed.

Lemma next_index_ok (i : Z) : 0 <= i < 16 -> next_index i = (i + 1) mod 16.
Proof. intros Hi. unfold next_index. rewrite u16_small by lia. by apply slice_next. Qed.

(** Reception drops the oldest of sixteen characters. *)
Lemma rx_char_ok (f : rt_serial_rx_fifo) (q : list Z) (ch : Z) : holds f q ->
  holds (rx_char ch f) (lastn 15 (q ++ [u8 ch])).
Proof.
  intros [H1 H2 H3 H4 H5 H6 H7]. set (n := Z.of_nat (length q)) in *.
  assert (Hp : 0 <= put_index f < 16) by (rewrite H4; apply Z.mod_pos_bound; lia).
  assert (Hpush : ring_slice (<[Z.to_nat (put_index f) := u8 ch]> (buffer f)) 16 (get_index f) (n + 1) = q ++ [u8 ch]).
  { rewrite H4. rewrite slice_push by lia. by rewrite <- H5. }
  assert (Hch : Forall (fun c => u8 c = c) (q ++ [u8 ch])).
  { apply Forall_app. split; [done|]. constructor; [|done]. apply Z.mod_mod. lia. }
  assert (Hnext : (put_index f + 1) mod 16 = (get_index f + (n + 1)) mod 16).
  { rewrite H4, Zplus_mod_idemp_l. f_equal. lia. }
  unfold rx_char. cbn [buffer put_index get_index is_full]. rewrite !next_index_ok by lia.
  destruct (Z.eqb_spec ((put_index f + 1) mod 16) (get_index f)) as [E|E].
  - assert (En : n = 15).
    { rewrite Hnext in E. rewrite <- (Z.mod_small (get_index f) 16) in E at 2 by lia.
      assert (n + 1 = 16 \/ n + 1 < 16) as [?|Hlt] by lia; [lia|].
      replace (get_index f mod 16) with ((get_index f + 0) mod 16) in E by (f_equal; lia).
      apply mod_distinct in E; lia. }
    rewrite (slice_pop _ 16 (get_index f) (n + 1)) in Hpush by lia.
    destruct q as [|c q]; [simpl in *; lia|]. injection Hpush as Ec Eq.
    assert (El : lastn 15 ((c :: q) ++ [u8 ch]) = q ++ [u8 ch]).
    { unfold lastn. replace (length ((c :: q) ++ [u8 ch]) - 15)%nat with 1%nat; [done|].
      rewrite length_app. simpl in *. lia. }
    rewrite El. inversion_clear Hch. split; cbn [buffer put_index get_index is_full].
    + by rewrite length_insert.
    + apply Z.mod_pos_bound. lia.
    + rewrite length_app. simpl in *. lia.
    + rewrite Hnext, Zplus_mod_idemp_l. f_equal. rewrite length_app. simpl in *. lia.
    + rewrite <- Eq at 1. f_equal. rewrite length_app. simpl in *. lia.
    + done.
    + right. split; [done|]. by destruct q.
  - assert (En : n < 15).
    { destruct (Z.eq_dec n 15) as [En|]; [|lia]. exfalso. apply E. rewrite Hnext, En.
      replace (get_index f + (15 + 1)) with (get_index f + 1 * 16) by lia. rewrite Z.mod_add by lia. by apply Z.mod_small. }
    assert (El : lastn 15 (q ++ [u8 ch]) = q ++ [u8 ch]).
    { unfold lastn. replace (length (q ++ [u8 ch]) - 15)%nat with 0%nat; [done|].
      rewrite length_app. simpl. lia. }
    rewrite El. assert (Hlen : Z.of_nat (length (q ++ [u8 ch])) = n + 1) by (rewrite length_app; simpl; lia).
    split; cbn [buffer put_index get_index is_full]; try done.
    + by rewrite length_insert.
    + lia.
    + by rewrite Hlen.
    + by rewrite Hlen.
    + destruct H7 as [?|[? ?]]; [by left|right; split; [done|by destruct q]].
Qed.

Lemma lastn_le (n : nat) (l : list Z) : (length (lastn n l) <= n)%nat.
Proof. unfold lastn. rewrite length_drop. lia. Qed.

Lemma lastn_all (n : nat) (l : list Z) : (length l <= n)%nat -> lastn n l = l.
Proof. intros H. unfold lastn. by replace (length l - n)%nat with 0%nat by lia. Qed.

(** Keeping the last elements at every step or once at the end is the same. *)
Lemma lastn_lastn_app (n : nat) (l1 l2 : list Z) : lastn n (lastn n l1 ++ l2) = lastn n (l1 ++ l2).
Proof.
  unfold lastn. rewrite !length_app, !drop_app, drop_drop, length_drop. f_equal; f_equal; lia.
Qed.

Lemma isr_ok (dev : list Z) : forall f q, holds f q ->
  holds (rt_hw_serial_isr dev f) (lastn 15 (q ++ map u8 dev)).
Proof.
  induction dev as [|c dev IH]; intros f q Hq; cbn [rt_hw_serial_isr ls1c_uart_getc fst].
  - simpl. rewrite app_nil_r. by rewrite lastn_all by apply Hq.
  - destruct (Z.eqb_spec (u8 c) (-1)) as [E|_]; [pose proof (u8_range c); lia|].
    cbn [map]. replace (q ++ u8 c :: map u8 dev) with ((q ++ [u8 c]) ++ map u8 dev) by by rewrite <- app_assoc.
    rewrite <- lastn_lastn_app. apply IH. replace (u8 c) with (u8 (u8 c)) at 2 by (apply Z.mod_mod; lia).
    by apply rx_char_ok.
Qed.

(** Taking the oldest character out. *)
Lemma rx_one (n : nat) (f : rt_serial_rx_fifo) (q : list Z) : holds f q ->
  (q = [] -> _serial_int_rx (S n) f = ([], f)) /\
  (forall c q', q = c :: q' -> exists f', holds f' q' /\
     _serial_int_rx (S n) f = (let '(data, f) := _serial_int_rx n f' in (c :: data, f))).
Proof.
  intros [H1 H2 H3 H4 H5 H6 H7]. cbn [_serial_int_rx]. split.
  - intros ->. simpl in H4. rewrite Z.add_0_r, Z.mod_small in H4 by lia.
    destruct H7 as [E|[_ ?]]; [|done]. by rewrite H4, E, !Z.eqb_refl.
  - intros c q' ->. set (n' := Z.of_nat (length (c :: q'))) in *.
    assert (Hn : 0 < n' <= 15) by (unfold n'; simpl in *; lia).
    assert (Hne : (get_index f =? put_index f) = false).
    { apply Z.eqb_neq. rewrite H4. intros E. rewrite <- (Z.mod_small (get_index f) 16) in E at 1 by lia.
      replace (get_index f mod 16) with ((get_index f + 0) mod 16) in E by (f_equal; lia).
      apply mod_distinct in E; lia. }
    rewrite (slice_pop _ 16 (get_index f) n') in H5 by lia. injection H5 as Ec Eq.
    apply Forall_cons in H6 as [Hc H6].
    rewrite Hne. cbn [andb]. rewrite <- Ec, next_index_ok by lia.
    assert (Eff : Z.land c 0xff = c) by (by rewrite land_0xff).
    rewrite Eff. cbn [buffer put_index get_index is_full].
    set (f' := if is_full f =? 1 then _ else _).
    exists f'. split; [|done].
    assert (Ef : buffer f' = buffer f /\ put_index f' = put_index f /\
      get_index f' = (get_index f + 1) mod 16 /\ is_full f' = 0).
    { unfold f'. destruct (Z.eqb_spec (is_full f) 1); simpl; split_and!; try done.
      destruct H7 as [?|[? _]]; [done|lia]. }
    destruct Ef as (E1 & E2 & E3 & E4).
    assert (En : n' - 1 = Z.of_nat (length q')) by (unfold n'; simpl; lia).
    split; rewrite ?E1, ?E2, ?E3, ?E4; try done.
    + apply Z.mod_pos_bound. lia.
    + simpl in *. lia.
    + rewrite H4, Zplus_mod_idemp_l. f_equal. lia.
    + by rewrite <- En.
    + by left.
Qed.

Lemma rx_ok (n : nat) : forall f q, holds f q ->
  exists f', _serial_int_rx n f = (take n q, f') /\ holds f' (drop n q).
Proof.
  induction n as [|n IH]; intros f q Hq; [by exists f; rewrite take_0, drop_0|].
  destruct (rx_one n f q Hq) as [R1 R2]. destruct q as [|c q].
  - exists f. by rewrite R1.
  - destruct (R2 c q eq_refl) as (f' & Hf' & ->). destruct (IH f' q Hf') as (f2 & -> & H2). by exists f2.
Qed.

(** ** Any order of interrupts and reads *)

Inductive event := Irq (cs : list Z) | ReadUpTo (n : nat).

(** The characters that the reads return. *)
Fixpoint run (es : list event) (f : rt_serial_rx_fifo) : list (list Z) :=
  match es with
  | [] => []
  | Irq cs :: es => run es (snd (uart_irq_handler IIR_RXRDY cs f))
  | ReadUpTo n :: es => let '(data, f) := _serial_int_rx n f in data :: run es f
  end.

(** The same with a queue that keeps the last fifteen characters. *)
Fixpoint run_queue (es : list event) (q : list Z) : list (list Z) :=
  match es with
  | [] => []
  | Irq cs :: es => run_queue es (lastn 15 (q ++ map u8 cs))
  | ReadUpTo n :: es => take n q :: run_queue es (drop n q)
  end.

Lemma run_refines (es : list event) : forall f q, holds f q -> run es f = run_queue es q.
Proof.
  induction es as [|[cs|n] es IH]; intros f q Hq; [done|..]; cbn [run run_queue].
  - apply IH. by apply isr_ok.
  - destruct (rx_ok n f q Hq) as (f' & -> & Hq'). f_equal. by apply IH.
Qed.

(** C25: the receive buffer refines a queue of fifteen characters that drops the oldest:
    for every sequence of interrupts and reads the reads return the same characters. *)
Theorem console_refines_queue (es : list event) : run es uart2GetCharInit = run_queue es [].
Proof. apply run_refines, holds_init. Qed.

(** Sixteen characters at once: the first is lost. *)
Example burst_of_16 :
  run [Irq (seqZ 65 16); ReadUpTo 20] uart2GetCharInit = [seqZ 66 15].
Proof. vm_compute. reflexivity. Qed.

(** ** Lines *)

(** What is still to be read: the buffer and the interrupts to come. *)
Definition stream (q : list Z) (irqs : list (list Z)) : list Z := q ++ map u8 (concat irqs).

(** Interrupts that bring a few characters each lose nothing to a reader that waits. *)
Definition short (irqs : list (list Z)) : Prop := Forall (fun cs => (length cs <= 15)%nat) irqs.

Lemma getchar_ok (irqs : list (list Z)) : forall f q c s, holds f q -> short irqs -> stream q irqs = c :: s ->
  exists f' q' irqs', getchar irqs f = Some (s8 c, irqs', f') /\ holds f' q' /\ short irqs' /\ stream q' irqs' = s.
Proof.
  induction irqs as [|cs irqs IH]; intros f q c s Hq Hs E.
  - unfold stream in E. simpl in E. rewrite app_nil_r in E. subst q.
    destruct (rx_one 0 f (c :: s) Hq) as [_ R]. destruct (R c s eq_refl) as (f' & Hf' & E').
    exists f', s, []. cbn [getchar]. rewrite E'. cbn [_serial_int_rx]. split_and!; try done.
    unfold stream. simpl. by rewrite app_nil_r.
  - cbn [getchar]. destruct (rx_one 0 f q Hq) as [R1 R2]. destruct q as [|c' q].
    + rewrite R1 by done. apply Forall_cons in Hs as [Hc Hs]. apply (IH _ (map u8 cs)); [|done|].
      * replace (map u8 cs) with (lastn 15 ([] ++ map u8 cs)); [by apply isr_ok|].
        apply lastn_all. by rewrite length_map.
      * unfold stream in *. simpl in E. by rewrite map_app in E.
    + unfold stream in E. cbn [app] in E. injection E as -> E.
      destruct (R2 c q eq_refl) as (f' & Hf' & ->). exists f', q, (cs :: irqs). done.
Qed.

(** The end of a line, or the space for it. *)
Lemma getstr_ok (line : list Z) : forall n f q irqs rest, holds f q -> short irqs ->
  Forall (fun c => s8 c <> 0 /\ s8 c <> 10) line -> (length line < n)%nat ->
  stream q irqs = line ++ 10 :: rest ->
  exists f' q' irqs', getstr_loop n irqs f = Some (map s8 line ++ [10], irqs', f') /\ holds f' q' /\
    short irqs' /\ stream q' irqs' = rest.
Proof.
  induction line as [|c line IH]; intros n f q irqs rest Hq Hs Hl Hn E;
    (destruct n as [|n]; [simpl in Hn; lia|]); cbn [getstr_loop].
  - destruct (getchar_ok irqs f q 10 rest Hq Hs E) as (f' & q' & irqs' & -> & Hq' & Hs' & E').
    change (s8 10) with 10. cbn [Z.eqb]. by exists f', q', irqs'.
  - destruct (getchar_ok irqs f q c (line ++ 10 :: rest) Hq Hs E) as (f' & q' & irqs' & -> & Hq' & Hs' & E').
    apply Forall_cons in Hl as [[H0 H10] Hl].
    rewrite (proj2 (Z.eqb_neq _ _) H0), (proj2 (Z.eqb_neq _ _) H10).
    destruct (IH n f' q' irqs' rest Hq' Hs' Hl ltac:(simpl in Hn; lia) E') as (f2 & q2 & irqs2 & -> & R).
    by exists f2, q2, irqs2.
Qed.

(** when the next line to come has at most 254 characters, [gets] returns it without
    its newline, whatever interrupts bring it (of at most 15 characters each), and leaves
    the characters behind it to be read. *)
Theorem gets_line (line rest : list Z) (irqs : list (list Z)) :
  short irqs -> map u8 (concat irqs) = line ++ 10 :: rest ->
  Forall (fun c => s8 c <> 0 /\ s8 c <> 10) line -> (length line <= 254)%nat ->
  exists f q irqs', gets irqs uart2GetCharInit = Some (map s8 line, true, irqs', f) /\ holds f q /\
    stream q irqs' = rest.
Proof.
  intros Hs E Hl Hn.
  destruct (getstr_ok line 255 uart2GetCharInit [] irqs rest holds_init Hs Hl ltac:(lia) E)
    as (f & q & irqs' & E1 & Hq & _ & Er).
  exists f, q, irqs'. unfold gets, getstr. change (Z.to_nat (MAXLN - 1)) with 255%nat. rewrite E1.
  rewrite bool_decide_false by (by destruct (map s8 line)). cbn [negb].
  rewrite List.last_last, Z.eqb_refl, removelast_last. done.
Qed.

Lemma gets_line_witness : short [[104; 105]; [10; 120]] /\
  exists f, gets [[104; 105]; [10; 120]] uart2GetCharInit = Some ([104; 105], true, [], f).
Proof.
  split; [repeat constructor; simpl; lia|].
  destruct (gets_line [104; 105] [120] [[104; 105]; [10; 120]]) as (f & q & irqs' & E & _).
  - repeat constructor; simpl; lia.
  - reflexivity.
  - repeat constructor; discriminate.
  - simpl. lia.
  - exists f. rewrite E. vm_compute in E. injection E as <- _. reflexivity.
Defined.
