(* ===== verification/Format.v ===== *)
(** * Formatted output (libc/vsprintf.c, libc/str_fmt.c)
    [vsprintf] for characters, strings and integers.  The string under construction is
    its list of characters; [None] is an access that C leaves undefined (an argument of
    another type, a format that ends inside of a conversion, a negative precision, a
    conversion that writes nothing).  The floating-point conversions are not modelled
    and are [None] too. *)

From S2P Require Import Prelude CStr CType NumConv.

(** ** Strings *)

Fixpoint strchr (p : list Z) (c : Z) : option (list Z) :=
  match p with
  | [] => None
  | d :: p' => if d =? c then Some p else strchr p' c
  end.

(** A pointer as a condition. *)
Definition found {A} (p : option A) : bool := match p with Some _ => true | None => false end.

Definition strcat (dst src : list Z) : list Z := dst ++ src.

(** A character in front of a string. *)
Definition strichr (p : list Z) (c : Z) : list Z := c :: p.

Definition FMT_RJUST : Z := 0.
Definition FMT_LJUST : Z := 1.
Definition FMT_RJUST0 : Z := 2.
Definition FMT_CENTER : Z := 3.

(** [for (n = ...; n > 0; n--)] *)
Definition repeatedly (n : Z) (f : list Z -> list Z) (p : list Z) : list Z := Nat.iter (Z.to_nat n) f p.

Definition str_fmt (p : list Z) (size fmt : Z) : list Z :=
  let len := strlen p in
  if fmt =? FMT_RJUST then repeatedly (size - len) (fun p => strichr p 32) p
  else if fmt =? FMT_LJUST then repeatedly (size - len) (fun p => strcat p [32]) p
  else if fmt =? FMT_RJUST0 then repeatedly (size - len) (fun p => strichr p 48) p
  else if fmt =? FMT_CENTER then
    let m := Z.quot (size - len) 2 in
    let n := size - (len + m) in
    repeatedly n (fun p => strichr p 32) (repeatedly m (fun p => strcat p [32]) p)
  else p.

(** ** Conversions *)

(** A variable argument; a pointer to a string may be [NULL]. *)
Inductive arg :=
  | AInt (n : Z)
  | ALongLong (n : Z)
  | AStr (p : option (list Z)).

Record spec := Spec { fmt : Z; width : Z; trunc : Z; haddot : bool }.

(** The characters that end the flags, and those that convert an integer. *)
Definition CONVERSIONS : list Z := [100; 111; 98; 112; 120; 88; 117; 108; 115; 99; 101; 102; 103; 37].
Definition INT_CONVERSIONS : list Z := [100; 111; 98; 112; 120; 88; 117].
Definition NULL_TEXT : list Z := [40; 110; 117; 108; 108; 41].

Fixpoint span_digits (s : list Z) : list Z * list Z :=
  match s with
  | [] => ([], [])
  | c :: s' => if isdigit c then let '(ds, r) := span_digits s' in (c :: ds, r) else ([], s)
  end.

(** A number among the flags, through [tmp] of 40 characters. *)
Definition flag_number (ds : list Z) : option Z :=
  if 40 <=? Z.of_nat (length ds) then None else s32 <$> atob ds 10.

(** The flags, width and precision, up to the conversion or the end. *)
Fixpoint flags (fuel : nat) (s : list Z) (f : spec) (ap : list arg) : option (list Z * spec * list arg) :=
  match fuel with
  | O => None
  | S fuel =>
      match s with
      | [] => Some ([], f, ap)
      | c :: s' =>
          if found (strchr CONVERSIONS c) then Some (s, f, ap)
          else if c =? 45 then flags fuel s' (Spec FMT_LJUST (width f) (trunc f) (haddot f)) ap
          else if c =? 48 then flags fuel s' (Spec FMT_RJUST0 (width f) (trunc f) (haddot f)) ap
          else if c =? 126 then flags fuel s' (Spec FMT_CENTER (width f) (trunc f) (haddot f)) ap
          else if c =? 42 then
            match ap with
            | AInt n :: ap =>
                flags fuel s' (if haddot f then Spec (fmt f) (width f) n true else Spec (fmt f) n (trunc f) false) ap
            | _ => None
            end
          else if (49 <=? c) && (c <=? 57) then
            let '(ds, r) := span_digits s in
            n ← flag_number ds;
            flags fuel r (if haddot f then Spec (fmt f) (width f) n true else Spec (fmt f) n (trunc f) false) ap
          else if c =? 46 then flags fuel s' (Spec (fmt f) (width f) (trunc f) true) ap
          else flags fuel s' f ap
      end
  end.

Definition base_of (c : Z) : Z :=
  if c =? 100 then -10
  else if c =? 117 then 10
  else if (c =? 120) || (c =? 88) || (c =? 112) then 16
  else if c =? 111 then 8
  else 2.

(** An integer conversion: what is written in front, the field, and the flags after it. *)
Definition int_conversion (c n : Z) (f : spec) : list Z * list Z * spec :=
  let '(pre, f) := if c =? 112 then ([48; 120], Spec FMT_RJUST0 8 (trunc f) (haddot f)) else ([], f) in
  let d := btoa n (base_of c) in
  (pre, if c =? 88 then strtoupper d else d, f).

(** The conversion at the start of [s], with the rest of the format. *)
Definition convert (s : list Z) (f : spec) (ap : list arg) :
    option (list Z * list Z * spec * list Z * list arg) :=
  match s with
  | [] => None
  | c :: s =>
      if c =? 37 then Some ([37], [], f, s, ap)
      else if c =? 115 then
        match ap with
        | AStr p :: ap => Some ([], default NULL_TEXT p, f, s, ap)
        | _ => None
        end
      else if c =? 99 then
        match ap with
        | AInt n :: ap => Some ([], if s8 n =? 0 then [] else [s8 n], f, s, ap)
        | _ => None
        end
      else
        '(c, s, longlong) ←
          (if c =? 108 then
             match s with
             | 108 :: c :: s => Some (c, s, true)
             | c :: s => Some (c, s, false)
             | [] => None
             end
           else Some (c, s, false));
        if found (strchr INT_CONVERSIONS c) then
          match longlong, ap with
          | true, ALongLong n :: ap | false, AInt n :: ap =>
              let '(pre, d, f) := int_conversion c n f in Some (pre, d, f, s, ap)
          | _, _ => None
          end
        else None
  end.

(** The string that is written; [vsprintf] returns its length. [fuel] is more than the
    length of the format. *)
Fixpoint vsprintf_loop (fuel : nat) (s : list Z) (ap : list arg) : option (list Z) :=
  match fuel with
  | O => None
  | S fuel =>
      match s with
      | [] => Some []
      | c :: s =>
          if c =? 37 then
            '(s, f, ap) ← flags (S (length s)) s (Spec FMT_RJUST 0 0 false) ap;
            '(pre, d, f, s, ap) ← convert s f ap;
            d ← (if trunc f =? 0 then Some d
                 else if trunc f <? 0 then None else Some (take (Z.to_nat (trunc f)) d));
            let d := if width f =? 0 then d else str_fmt d (width f) (fmt f) in
            out ← vsprintf_loop fuel s ap;
            Some (pre ++ d ++ out)
          else out ← vsprintf_loop fuel s ap; Some (c :: out)
      end
  end.

Definition vsprintf (s : list Z) (ap : list arg) : option (list Z) := vsprintf_loop (S (length s)) s ap.

(** The string and the result. *)
Definition sprintf (s : list Z) (ap : list arg) : option (list Z * Z) :=
  d ← vsprintf s ap; Some (d, Z.of_nat (length d)).
