(* ===== verification/FormatSpec.v ===== *)
(** * What a format means
    A format as the list of its items, its text, and the string that it stands for. *)

From S2P Require Import Prelude CStr CType NumConv Format.

Inductive justification := RightJ | LeftJ | ZeroJ | CenterJ.

Inductive conversion :=
  | Percent | Text | Char
  | Int (c : Z)        (* an [int] *)
  | Long (c : Z).      (* a [long long] *)

(** A width or precision of 0 is none. *)
Inductive item :=
  | Lit (c : Z)
  | Dir (j : justification) (w p : Z) (k : conversion).

(** ** The text of a format *)

Definition just_text (j : justification) : list Z :=
  match j with RightJ => [] | LeftJ => [45] | ZeroJ => [48] | CenterJ => [126] end.
Definition number_text (n : Z) : list Z := if n =? 0 then [] else btoa n 10.
Definition conv_text (k : conversion) : list Z :=
  match k with Percent => [37] | Text => [115] | Char => [99] | Int c => [c] | Long c => [108; 108; c] end.
Definition item_text (i : item) : list Z :=
  match i with
  | Lit c => [c]
  | Dir j w p k => 37 :: just_text j ++ number_text w ++ (if p =? 0 then [] else 46 :: number_text p) ++ conv_text k
  end.
Definition format_text (l : list item) : list Z := flat_map item_text l.

(** ** What it stands for *)

Definition justify (j : justification) (w : Z) (d : list Z) : list Z :=
  let gap := Z.to_nat (w - Z.of_nat (length d)) in
  match j with
  | RightJ => repeat 32 gap ++ d
  | LeftJ => d ++ repeat 32 gap
  | ZeroJ => repeat 48 gap ++ d
  | CenterJ => repeat 32 (gap - gap / 2) ++ d ++ repeat 32 (gap / 2)
  end.

Definition upcase (c : Z) : Z := if in_range 97 122 c then c - 32 else c.

(** A number of 32 bits in the base of the conversion. *)
Definition int_text (c n : Z) : list Z :=
  if c =? 100 then if s32 n <? 0 then 45 :: btoa (- s32 n) 10 else btoa (s32 n) 10
  else if c =? 117 then btoa n 10
  else if c =? 111 then btoa n 8
  else if c =? 98 then btoa n 2
  else if c =? 88 then map upcase (btoa n 16)
  else btoa n 16.

(** The field of a conversion and the arguments that are left. *)
Definition field (k : conversion) (ap : list arg) : option (list Z * list arg) :=
  match k, ap with
  | Percent, ap => Some ([], ap)
  | Text, AStr p :: ap => Some (default NULL_TEXT p, ap)
  | Char, AInt n :: ap => Some (if s8 n =? 0 then [] else [s8 n], ap)
  | Int c, AInt n :: ap | Long c, ALongLong n :: ap => Some (int_text c n, ap)
  | _, _ => None
  end.

Definition is_pointer (k : conversion) : bool := match k with Int c | Long c => c =? 112 | _ => false end.

Definition item_string (i : item) (ap : list arg) : option (list Z * list arg) :=
  match i with
  | Lit c => Some ([c], ap)
  | Dir j w p k =>
      '(d, ap) ← field k ap;
      let d := if p =? 0 then d else take (Z.to_nat p) d in
      let pre := match k with Percent => [37] | _ => if is_pointer k then [48; 120] else [] end in
      Some (pre ++ (if is_pointer k then justify ZeroJ 8 d else justify j w d), ap)
  end.

Fixpoint format_string (l : list item) (ap : list arg) : option (list Z) :=
  match l with
  | [] => Some []
  | i :: l => '(d, ap) ← item_string i ap; out ← format_string l ap; Some (d ++ out)
  end.

Definition conv_ok (k : conversion) : Prop := match k with Int c | Long c => c ∈ INT_CONVERSIONS | _ => True end.
Definition item_ok (i : item) : Prop :=
  match i with
  | Lit c => c <> 37
  | Dir j w p k => 0 <= w < 2 ^ 31 /\ 0 <= p < 2 ^ 31 /\ conv_ok k
  end.
Definition arg_ok (a : arg) : Prop := match a with AStr (Some p) => Z.of_nat (length p) < 2 ^ 31 | _ => True end.

(** ** Justification *)

Lemma iter_front (c : Z) (n : nat) (p : list Z) : Nat.iter n (fun p => strichr p c) p = repeat c n ++ p.
Proof. induction n as [|n IH]; [done|]. simpl. by rewrite IH. Qed.

Lemma iter_back (c : Z) (n : nat) (p : list Z) : Nat.iter n (fun p => strcat p [c]) p = p ++ repeat c n.
Proof.
  induction n as [|n IH]; simpl; [by rewrite app_nil_r|]. rewrite IH. unfold strcat. rewrite <- app_assoc. f_equal.
  by rewrite <- repeat_cons.
Qed.

Definition just_code (j : justification) : Z :=
  match j with RightJ => FMT_RJUST | LeftJ => FMT_LJUST | ZeroJ => FMT_RJUST0 | CenterJ => FMT_CENTER end.

Lemma str_fmt_justify (j : justification) (w : Z) (d : list Z) : Z.of_nat (length d) < 2 ^ 31 ->
  str_fmt d w (just_code j) = justify j w d.
Proof.
  intros Hd. unfold str_fmt, justify, repeatedly. rewrite strlen_spec by done. set (len := Z.of_nat (length d)).
  destruct j; cbn [just_code]; [apply iter_front|apply iter_back|apply iter_front|].
  change (FMT_CENTER =? FMT_RJUST) with false. change (FMT_CENTER =? FMT_LJUST) with false.
  change (FMT_CENTER =? FMT_RJUST0) with false. change (FMT_CENTER =? FMT_CENTER) with true. cbv iota zeta.
  rewrite iter_front, iter_back. destruct (Z.le_gt_cases 0 (w - len)) as [Hge|Hlt].
  - rewrite Z.quot_div_nonneg by lia. pose proof (Z.div_mod (w - len) 2 ltac:(lia)).
    pose proof (Z.mod_pos_bound (w - len) 2 ltac:(lia)).
    assert (E : Z.to_nat ((w - len) / 2) = (Z.to_nat (w - len) / 2)%nat) by (rewrite Z2Nat.inj_div by lia; done).
    rewrite <- E. do 2 f_equal. lia.
  - pose proof (Z.quot_le_mono (w - len) 0 2 ltac:(lia) ltac:(lia)) as Hq. change (Z.quot 0 2) with 0 in Hq.
    assert (Hm : w - len <= Z.quot (w - len) 2) by (pose proof (Z.quot_rem' (w - len) 2); pose proof (Z.rem_nonpos (w - len) 2 ltac:(lia) ltac:(lia)); lia).
    replace (Z.to_nat (w - len)) with 0%nat by lia.
    replace (Z.to_nat (Z.quot (w - len) 2)) with 0%nat by lia. by replace (Z.to_nat (w - (len + Z.quot (w - len) 2))) with 0%nat by lia.
Qed.

(** ** Numbers *)

Lemma btoa_loop_length (fuel : nat) : forall value base, (length (btoa_loop fuel value base) <= fuel)%nat.
Proof. induction fuel as [|fuel IH]; intros value base; cbn [btoa_loop]; [done|]. destruct (value =? 0); simpl; [lia|]. by apply le_n_S. Qed.

Lemma btoa_length (value base : Z) : (length (btoa value base) <= 33)%nat.
Proof.
  unfold btoa. destruct (u32 value =? 0); [simpl; lia|].
  destruct (if base =? -10 then _ else _) as [[b v] neg]. rewrite length_rev.
  pose proof (btoa_loop_length 32 v b). generalize dependent (btoa_loop 32 v b). intros l Hl. destruct neg; rewrite ?length_app; simpl; lia.
Qed.

(** A signed number. *)
Lemma btoa_signed (n : Z) : btoa n (-10) = if s32 n <? 0 then 45 :: btoa (- s32 n) 10 else btoa (s32 n) 10.
Proof.
  unfold btoa at 1. destruct (Z.eqb_spec (u32 n) 0) as [E|E].
  { assert (s32 n = 0) as -> by zlia. done. }
  change (-10 =? -10) with true. cbv iota. rewrite sign_bit by apply u32_range.
  destruct (Z.leb_spec (2 ^ 31) (u32 n)) as [Hs|Hs].
  - assert (Hn : s32 n < 0) by zlia. rewrite (proj2 (Z.ltb_lt _ _) Hn). unfold btoa.
    assert (Ev : u32 (- s32 n) = u32 (not32 (u32 n) + 1)).
    { assert (s32 n = u32 n - 2 ^ 32) as -> by zlia. unfold not32, u32. rewrite Zplus_mod_idemp_l. unfold Z.lnot.
      rewrite <- (Z.mod_add (Z.pred _ + 1) 1) by lia. f_equal. lia. }
    rewrite <- Ev. rewrite (proj2 (Z.eqb_neq _ 0)) by zlia. change (10 =? -10) with false. cbv iota.
    rewrite rev_app_distr. done.
  - assert (Hn : 0 <= s32 n) by zlia. rewrite (proj2 (Z.ltb_ge _ _) Hn). unfold btoa.
    assert (Ev : u32 (s32 n) = u32 n) by zlia. rewrite Ev, (proj2 (Z.eqb_neq _ 0)) by done. done.
Qed.

Lemma btoa_number (n : Z) : 0 < n < 2 ^ 31 -> exists c s, btoa n 10 = c :: s /\
  49 <= c <= 57 /\ Forall (fun c => 48 <= c <= 57) s /\ flag_number (btoa n 10) = Some n.
Proof.
  intros Hn. destruct (btoa_spells n 10 ltac:(lia) ltac:(lia)) as (ds & E & Hd & En & Hne & H0).
  assert (Hat : flag_number (btoa n 10) = Some n).
  { unfold flag_number. pose proof (btoa_length n 10). rewrite (proj2 (Z.leb_gt _ _)) by lia. rewrite E.
    rewrite (atob_digits _ ds) by (try lia; by apply (spells_btoa _ _ 16); [apply btoa_digit_hex|lia|]).
    rewrite En, u32_small by lia. simpl. by rewrite s32_small by lia. }
  destruct ds as [|d ds]; [done|]. apply Forall_cons in Hd as [Hd Hds].
  exists (btoa_digit d), (map btoa_digit ds). split_and!; [done| | | |done].
  - assert (d <> 0) by (intros ->; specialize (H0 ds eq_refl) as ->; cbn in En; lia). unfold btoa_digit. destruct (Z.leb_spec d 9); lia.
  - unfold btoa_digit. destruct (Z.leb_spec d 9); lia.
  - apply Forall_map. eapply Forall_impl; [exact Hds|]. intros x Hx. simpl in *. unfold btoa_digit. destruct (Z.leb_spec x 9); lia.
Qed.

Lemma span_digits_ok (s r : list Z) : Forall (fun c => 48 <= c <= 57) s ->
  (forall c r', r = c :: r' -> isdigit c = false) -> span_digits (s ++ r) = (s, r).
Proof.
  intros Hs Hr. induction Hs as [|c s Hc _ IH]; cbn [app span_digits].
  - destruct r as [|c r]; [done|]. cbn [span_digits]. by rewrite (Hr c r).
  - destruct (classes c) as (-> & _); [lia|]. unfold in_range.
    rewrite (proj2 (Z.leb_le _ _)), (proj2 (Z.leb_le _ _)) by lia. cbn [andb]. by rewrite IH.
Qed.

(** ** Flags *)

Lemma found_strchr (p : list Z) (c : Z) : found (strchr p c) = bool_decide (c ∈ p).
Proof.
  induction p as [|d p IH]; cbn [strchr]; [done|]. destruct (Z.eqb_spec d c) as [->|Hne].
  - rewrite bool_decide_true by apply list_elem_of_here. done.
  - rewrite IH. apply bool_decide_ext. rewrite elem_of_cons. naive_solver.
Qed.

Lemma flag_step (c : Z) : c ∉ CONVERSIONS -> found (strchr CONVERSIONS c) = false.
Proof. intros H. by rewrite found_strchr, bool_decide_false. Qed.

Lemma flags_stop (fuel : nat) (c : Z) (r : list Z) (f : spec) (ap : list arg) : c ∈ CONVERSIONS ->
  flags (S fuel) (c :: r) f ap = Some (c :: r, f, ap).
Proof. intros H. cbn [flags]. by rewrite found_strchr, bool_decide_true by done. Qed.

Definition not_digit_first (r : list Z) : Prop := forall c r', r = c :: r' -> isdigit c = false.

Lemma flags_number (fuel : nat) (n : Z) (r : list Z) (f : spec) (ap : list arg) : 0 <= n < 2 ^ 31 -> not_digit_first r ->
  (length (number_text n ++ r) < fuel)%nat -> (if n =? 0 then (if haddot f then trunc f else width f) = 0 else True) ->
  exists fuel', (length r < fuel')%nat /\ flags fuel (number_text n ++ r) f ap =
    flags fuel' r (if haddot f then Spec (fmt f) (width f) n true else Spec (fmt f) n (trunc f) false) ap.
Proof.
  intros Hn Hr Hf H0. unfold number_text in *. destruct (Z.eqb_spec n 0) as [->|Hne].
  { exists fuel. split; [done|]. cbn [app]. f_equal. destruct f as [a b c d]; destruct d; cbn in *; by rewrite H0. }
  destruct (btoa_number n) as (c & s & E & Hc & Hs & Hnum); [lia|]. destruct fuel as [|fuel]; [lia|]. exists fuel. rewrite E in *.
  split; [rewrite length_app in Hf; simpl in Hf; lia|]. cbn [app flags].
  assert (Hflag : c ∉ CONVERSIONS) by (unfold CONVERSIONS; intros Hx; repeat (apply elem_of_cons in Hx as [Hx|Hx]; [lia|]); by apply elem_of_nil in Hx).
  rewrite (flag_step c Hflag).
  rewrite !(proj2 (Z.eqb_neq c _)) by lia. rewrite !(proj2 (Z.leb_le _ _)) by lia. cbn [andb].
  change (c :: s ++ r) with ((c :: s) ++ r). rewrite span_digits_ok; [|constructor; [lia|done]|done].
  rewrite Hnum. done.
Qed.

Lemma mem_true (c : Z) (l : list Z) : bool_decide (c ∈ l) = true -> c ∈ l.
Proof. apply bool_decide_eq_true_1. Qed.

Lemma mem_false (c : Z) (l : list Z) : bool_decide (c ∈ l) = false -> c ∉ l.
Proof. apply bool_decide_eq_false_1. Qed.

Lemma int_conversions (c : Z) (P : Z -> Prop) : Forall P INT_CONVERSIONS -> c ∈ INT_CONVERSIONS -> P c.
Proof. intros H. by apply Forall_forall. Qed.

Lemma conv_head (k : conversion) : conv_ok k -> exists c t, conv_text k = c :: t /\ c ∈ CONVERSIONS /\ isdigit c = false.
Proof.
  destruct k as [| | |c|c]; simpl; intros Hc.
  4: exists c, []; split; [done|]; apply (int_conversions c (fun c => c ∈ CONVERSIONS /\ isdigit c = false)); [|done];
     repeat constructor; by apply mem_true.
  all: eexists _, _; split; [reflexivity|]; split; [by apply mem_true|done].
Qed.

Lemma flags_text (fuel : nat) (j : justification) (w p : Z) (k : conversion) (r : list Z) (ap : list arg) :
  0 <= w < 2 ^ 31 -> 0 <= p < 2 ^ 31 -> conv_ok k ->
  let s := just_text j ++ number_text w ++ (if p =? 0 then [] else 46 :: number_text p) ++ conv_text k ++ r in
  (length s < fuel)%nat ->
  flags fuel s (Spec FMT_RJUST 0 0 false) ap = Some (conv_text k ++ r, Spec (just_code j) w p (negb (p =? 0)), ap).
Proof.
  intros Hw Hp Hk s Hf. destruct (conv_head k Hk) as (c & t & Ek & Hc & Hdig).
  set (tail := (if p =? 0 then [] else 46 :: number_text p) ++ conv_text k ++ r) in *.
  assert (Hj : exists fuel', (length (number_text w ++ tail) < fuel')%nat /\
    flags fuel s (Spec FMT_RJUST 0 0 false) ap = flags fuel' (number_text w ++ tail) (Spec (just_code j) 0 0 false) ap).
  { subst s. destruct j; cbn [just_text app just_code] in *; [by exists fuel|..];
      (destruct fuel as [|fuel]; [simpl in Hf; lia|]; exists fuel; split; [simpl in Hf; lia|done]). }
  destruct Hj as (f1 & Hf1 & ->).
  destruct (flags_number f1 w tail (Spec (just_code j) 0 0 false) ap Hw) as (f2 & Hf2 & ->); [|done|cbn; by case_match|].
  { subst tail. intros x r'. destruct (p =? 0); [rewrite Ek; by intros [= <- _]|]. by intros [= <- _]. }
  cbn [haddot fmt trunc]. subst tail. destruct (Z.eqb_spec p 0) as [->|Hp0]; cbn [app negb] in *.
  { rewrite Ek. cbn [app]. destruct f2 as [|f2]; [lia|]. by apply flags_stop. }
  destruct f2 as [|f2]; [lia|]. cbn [flags]. rewrite flag_step by (by apply mem_false).
  change (46 =? 45) with false. change (46 =? 48) with false. change (46 =? 126) with false. change (46 =? 42) with false.
  change ((49 <=? 46) && (46 <=? 57)) with false. change (46 =? 46) with true. cbv iota. cbn [fmt width trunc].
  destruct (flags_number f2 p (conv_text k ++ r) (Spec (just_code j) w 0 true) ap Hp) as (f3 & Hf3 & ->).
  - intros x r'. rewrite Ek. by intros [= <- _].
  - simpl in Hf2. lia.
  - by rewrite (proj2 (Z.eqb_neq _ _)).
  - cbn [haddot fmt width]. rewrite Ek. cbn [app]. destruct f3 as [|f3]; [lia|]. by apply flags_stop.
Qed.

(** ** Conversions *)

Lemma strtoupper_number (n : Z) : strtoupper (btoa n 16) = map upcase (btoa n 16).
Proof.
  unfold strtoupper. destruct (btoa_spells (u32 n) 16 (u32_range n) ltac:(lia)) as (ds & E & Hd & _).
  assert (Eb : btoa n 16 = map btoa_digit ds) by (rewrite <- E; unfold btoa; by rewrite (u32_small (u32 n)) by apply u32_range).
  rewrite Eb. rewrite !map_map. apply map_ext_Forall. eapply Forall_impl; [exact Hd|]. intros d Hd'. simpl in *.
  apply toupper_ascii. pose proof (btoa_digit_range d). lia.
Qed.

Lemma int_conversion_text (c n : Z) (f : spec) : c ∈ INT_CONVERSIONS ->
  int_conversion c n f = (if c =? 112 then [48; 120] else [], int_text c n,
    if c =? 112 then Spec FMT_RJUST0 8 (trunc f) (haddot f) else f).
Proof.
  intros Hc. revert c Hc. apply Forall_forall. unfold int_conversion, int_text.
  repeat (constructor; [cbn; rewrite ?btoa_signed, ?strtoupper_number; done|]). constructor.
Qed.

Lemma convert_text (k : conversion) (r : list Z) (f : spec) (ap : list arg) : conv_ok k ->
  convert (conv_text k ++ r) f ap = '(d, ap) ← field k ap;
    Some (match k with Percent => [37] | _ => if is_pointer k then [48; 120] else [] end, d,
          if is_pointer k then Spec FMT_RJUST0 8 (trunc f) (haddot f) else f, r, ap).
Proof.
  intros Hk. destruct k as [| | |c|c]; cbn [conv_text app].
  - done.
  - destruct ap as [|[n|n|p] ap]; done.
  - destruct ap as [|[n|n|p] ap]; done.
  - simpl in Hk. unfold convert.
    assert (H : (c =? 37) = false /\ (c =? 115) = false /\ (c =? 99) = false /\ (c =? 108) = false).
    { revert c Hk. apply Forall_forall. repeat constructor. }
    destruct H as (-> & -> & -> & ->). cbn [mbind option_bind]. rewrite found_strchr, bool_decide_true by done.
    destruct ap as [|[n|n|p] ap]; try done. rewrite int_conversion_text by done. done.
  - simpl in Hk. unfold convert. change (108 =? 37) with false. change (108 =? 115) with false. change (108 =? 99) with false.
    change (108 =? 108) with true. cbv iota. cbn [mbind option_bind]. rewrite found_strchr, bool_decide_true by done.
    destruct ap as [|[n|n|p] ap]; try done. rewrite int_conversion_text by done. done.
Qed.

Lemma int_text_length (c n : Z) : (length (int_text c n) <= 34)%nat.
Proof.
  unfold int_text. repeat case_match; rewrite ?length_cons, ?length_map;
    match goal with |- context [btoa ?x ?b] => pose proof (btoa_length x b); lia end.
Qed.

Lemma field_ok (k : conversion) (ap ap' : list arg) (d : list Z) : Forall arg_ok ap -> field k ap = Some (d, ap') ->
  Z.of_nat (length d) < 2 ^ 31 /\ Forall arg_ok ap'.
Proof.
  intros Ha E. destruct k as [| | |c|c]; destruct ap as [|[n|n|p] ap]; simpl in E; try done; injection E as <- <-;
    try (by split; simpl; [lia|]); apply Forall_cons in Ha as [Ha Hap]; (split; [|done]).
  - destruct p as [p|]; simpl in *; [done|lia].
  - destruct (s8 n =? 0); simpl; lia.
  - pose proof (int_text_length c n). lia.
  - pose proof (int_text_length c n). lia.
Qed.

(** ** Whole formats *)

Definition conv_pre (k : conversion) : list Z := match k with Percent => [37] | _ => if is_pointer k then [48; 120] else [] end.

(** What [vsprintf] does with the field of a conversion. *)
Lemma field_string (j : justification) (w p : Z) (k : conversion) (d : list Z) :
  0 <= w < 2 ^ 31 -> 0 <= p < 2 ^ 31 -> Z.of_nat (length d) < 2 ^ 31 ->
  let f := Spec (just_code j) w p (negb (p =? 0)) in
  let f := if is_pointer k then Spec FMT_RJUST0 8 (trunc f) (haddot f) else f in
  let d' := if p =? 0 then d else take (Z.to_nat p) d in
  trunc f = p /\
  (if width f =? 0 then d' else str_fmt d' (width f) (fmt f)) = if is_pointer k then justify ZeroJ 8 d' else justify j w d'.
Proof.
  intros Hw Hp Hd f0 f d'. subst f0. assert (Hd' : Z.of_nat (length d') < 2 ^ 31)
    by (subst d'; destruct (p =? 0); [done|rewrite length_take; lia]).
  subst f. destruct (is_pointer k); cbn [trunc haddot width fmt]; (split; [done|]).
  - change (8 =? 0) with false. cbv iota. by apply (str_fmt_justify ZeroJ).
  - destruct (Z.eqb_spec w 0) as [->|_]; [|by apply str_fmt_justify].
    unfold justify. replace (Z.to_nat (0 - Z.of_nat (length d'))) with 0%nat by lia. destruct j; cbn; by rewrite ?app_nil_r.
Qed.

Lemma vsprintf_loop_ok (l : list item) : Forall item_ok l -> forall fuel ap, (length (format_text l) < fuel)%nat ->
  Forall arg_ok ap -> vsprintf_loop fuel (format_text l) ap = format_string l ap.
Proof.
  induction 1 as [|i l Hi _ IH]; intros fuel ap Hf Ha; (destruct fuel as [|fuel]; [lia|]); [done|].
  cbn [format_text flat_map format_string]. change (flat_map item_text l) with (format_text l).
  change (format_text (i :: l)) with (item_text i ++ format_text l) in Hf.
  destruct i as [c|j w p k]; cbn [item_text item_string app vsprintf_loop] in *.
  - rewrite (proj2 (Z.eqb_neq c 37)) by done. cbn [mbind option_bind]. rewrite IH; [done|simpl in Hf; lia|done].
  - destruct Hi as (Hw & Hp & Hk). change (37 =? 37) with true. cbv iota. rewrite <- !app_assoc in *.
    rewrite flags_text by (done || (simpl; lia)). cbn [mbind option_bind].
    rewrite convert_text by done. destruct (field k ap) as [[d ap']|] eqn:Ef; [|done]. cbn [mbind option_bind].
    destruct (field_ok k ap ap' d Ha Ef) as [Hd Ha'].
    destruct (field_string j w p k d Hw Hp Hd) as [Et Es]. cbn [trunc haddot] in *. rewrite Et.
    rewrite (proj2 (Z.ltb_ge p 0)) by lia.
    replace (if p =? 0 then Some d else Some (take (Z.to_nat p) d)) with
      (Some (if p =? 0 then d else take (Z.to_nat p) d)) by by destruct (p =? 0).
    cbn [mbind option_bind]. rewrite Es. rewrite IH; [|simpl in Hf; rewrite !length_app in Hf; simpl in Hf; lia|done].
    destruct (format_string l ap') as [out|]; [|done]. cbn [mbind option_bind]. by rewrite <- app_assoc.
Qed.

(** C27: [vsprintf] writes what the items of its format stand for, one after another:
    plain characters as they are, a conversion as the text of its argument, cut to the
    precision, and filled up to the width at the side that the flag says; it has no
    result exactly when an argument is missing or of another type. *)
Theorem vsprintf_format (l : list item) (ap : list arg) (Hl : Forall item_ok l) (Ha : Forall arg_ok ap) :
  vsprintf (format_text l) ap = format_string l ap.
Proof. apply vsprintf_loop_ok; [done|lia|done]. Qed.

(** A number below zero in a field with leading zeros: the zeros come before the sign. *)
Lemma vsprintf_format_witness :
  let l := [Dir ZeroJ 5 0 (Int 100); Lit 124; Dir LeftJ 6 2 Text; Dir CenterJ 4 0 (Long 88)] in
  format_text l = [37; 48; 53; 100; 124; 37; 45; 54; 46; 50; 115; 37; 126; 52; 108; 108; 88] /\
  vsprintf (format_text l) [AInt (-42); AStr (Some [97; 98; 99]); ALongLong 254] =
    Some ([48; 48; 45; 52; 50] ++ [124] ++ [97; 98; 32; 32; 32; 32] ++ [32; 70; 69; 32]).
Proof.
  intros l. split; [vm_compute; reflexivity|]. rewrite (vsprintf_format l [AInt (-42); AStr (Some [97; 98; 99]); ALongLong 254]).
  - vm_compute. reflexivity.
  - unfold l. rewrite !Forall_cons. cbn [item_ok conv_ok]. split_and!; first [lia|by apply mem_true|done].
  - repeat constructor.
Defined.
