(* ===== verification/Scan.v ===== *)
(** * Formatted input (libc/scanf.c)
    [vsscanf] on a string.  The result is the count and what is stored, one entry for
    each pointer that is used up: a string, a number, or nothing where the text is no
    number.  [None] is an access behind the end of the input, of the format or of the
    buffer for numbers. *)

From S2P Require Import Prelude CStr CType NumConv Console Format FormatSpec.

Definition ISSPACE : list Z := [32; 9; 10; 13; 12; 11].
Definition SCAN_CONVERSIONS : list Z := [100; 105; 98; 111; 117; 120; 99; 115; 101; 102; 103; 37].
Definition SCAN_INTS : list Z := [100; 111; 98; 120; 117].

(** The length of the part without any of the characters [s]. *)
Fixpoint strcspn (p s : list Z) : Z :=
  match p with
  | [] => 0
  | c :: p => if found (strchr s c) then 0 else 1 + strcspn p s
  end.

Inductive stored :=
  | SInt (n : option Z)
  | SText (s : list Z).

(** [noassign], [width] and the rest from the conversion on. *)
Fixpoint scan_flags (fuel : nat) (s : list Z) (noassign : bool) (width : Z) : option (list Z * bool * Z) :=
  match fuel with
  | O => None
  | S fuel =>
      match s with
      | [] => Some ([], noassign, width)
      | c :: s' =>
          if found (strchr SCAN_CONVERSIONS c) then Some (s, noassign, width)
          else if c =? 42 then scan_flags fuel s' true width
          else if (c =? 108) || (c =? 76) then scan_flags fuel s' noassign width
          else if (49 <=? c) && (c <=? 57) then
            let '(ds, r) := span_digits s in
            if Z.of_nat (length ds) >=? MAXLN then None
            else n ← atob ds 10; scan_flags fuel r noassign (s32 n)
          else scan_flags fuel s' noassign width
      end
  end.

(** [strncpy(t, buf, width); t[width] = 0; buf += width]: the pointer may pass the end,
    as long as nothing is read from there. *)
Definition take_field (width : Z) (buf : list Z) : option (list Z * option (list Z)) :=
  if width <? 0 then None
  else Some (take (Z.to_nat width) buf,
             if width <=? Z.of_nat (length buf) then Some (drop (Z.to_nat width) buf) else None).

Definition scan_base (c : Z) : Z :=
  if (c =? 100) || (c =? 117) then 10 else if c =? 120 then 16 else if c =? 111 then 8 else 2.

(** The width of a number: up to the next blank, or to the next character of the format. *)
Definition int_width (s buf : list Z) : option Z :=
  match s with
  | [] => Some (strcspn buf ISSPACE)
  | c :: _ =>
      if isspace c then Some (strcspn buf ISSPACE)
      else r ← strchr buf c; Some (Z.of_nat (length buf) - Z.of_nat (length r))
  end.

(** A conversion [c] in front of the format [s]: the rest of the input and the store. *)
Definition scan_conversion (c : Z) (s : list Z) (noassign : bool) (width : Z) (buf : list Z) :
    option (option (list Z) * list stored) :=
  if c =? 115 then
    let buf := skip_while isspace buf in
    let width := if width =? 0 then strcspn buf ISSPACE else width in
    '(t, buf) ← take_field width buf;
    Some (buf, if noassign then [] else [SText t])
  else if c =? 99 then
    '(t, buf) ← take_field (if width =? 0 then 1 else width) buf;
    Some (buf, if noassign then [] else [SText t])
  else if found (strchr SCAN_INTS c) then
    let buf := skip_while isspace buf in
    width ← (if width =? 0 then int_width s buf else Some width);
    if width >=? MAXLN then None
    else
      '(t, buf) ← take_field width buf;
      Some (buf, if noassign then [] else [SInt (atob t (scan_base c))])
  else Some (Some buf, []).

Fixpoint vsscanf_loop (fuel : nat) (buf : option (list Z)) (s : list Z) (count : Z) : option (Z * list stored) :=
  match fuel with
  | O => None
  | S fuel =>
      if bool_decide (s = []) then Some (count, [])
      else
        buf ← buf;
        if bool_decide (buf = []) then Some (count, []) else
        let s := skip_while isspace s in
        if default 0 (head s) =? 37 then
          let s := tail s in
          '(s, noassign, width) ← scan_flags (S (length s)) s false 0;
          match s with
          | [] => None
          | c :: s =>
              '(buf, st) ← scan_conversion c s noassign width buf;
              let count := if (noassign : bool) then count else count + 1 in
              '(count, sts) ← vsscanf_loop fuel buf s count;
              Some (count, st ++ sts)
          end
        else
          match s, skip_while isspace buf with
          | c :: s, d :: buf => if negb (c =? d) then Some (count, []) else vsscanf_loop fuel (Some buf) s count
          | [], [] => None
          | _, _ => Some (count, [])
          end
  end.

Definition sscanf (buf s : list Z) : option (Z * list stored) := vsscanf_loop (S (length s)) (Some buf) s 0.

(** ** What [sprintf] writes, [sscanf] reads *)

(** Numbers with the character [sep] between them: the items for the output, the text of
    the format, and what is read. *)
Fixpoint sep_items (sep : Z) (l : list (Z * Z)) : list item :=
  match l with
  | [] => []
  | [(c, _)] => [Dir RightJ 0 0 (Int c)]
  | (c, _) :: l => Dir RightJ 0 0 (Int c) :: Lit sep :: sep_items sep l
  end.

(** A conversion and a number of its type: signed for d. *)
Definition number_ok (x : Z * Z) : Prop :=
  let '(c, n) := x in c ∈ SCAN_INTS /\ (if c =? 100 then - 2 ^ 31 <= n < 2 ^ 31 else 0 <= n < 2 ^ 32).

(** What is stored for a number: a sign is not read. *)
Definition read_back (x : Z * Z) : stored := SInt (if snd x <? 0 then None else Some (snd x)).

(** A separator is a blank, or a character that neither a number nor a conversion has. *)
Definition sep_ok (sep : Z) : Prop :=
  - 128 <= sep < 128 /\ sep <> 0 /\ sep <> 37 /\ alnum_digit sep = None.

(** A minus sign between numbers that have none. *)
Definition sign_ok (sep : Z) (x : Z * Z) : Prop := sep = 45 -> 0 <= snd x.

Fixpoint joined (sep : Z) (l : list (Z * Z)) : list Z :=
  match l with
  | [] => []
  | [(c, n)] => int_text c n
  | (c, n) :: l => int_text c n ++ sep :: joined sep l
  end.

(** The text of a number: no blank, no separator, and what [atob] reads. *)
Record numeral_text (sep : Z) (v : option Z) (b : Z) (t : list Z) : Prop := {
  nt_head : exists c t', t = c :: t';
  nt_chars : Forall (fun c => 45 <= c <= 122 /\ isspace c = false /\ c <> sep) t;
  nt_length : (length t <= 34)%nat;
  nt_value : atob t b = v }.

Lemma btoa_text (sep n b : Z) : alnum_digit sep = None -> 0 <= n < 2 ^ 32 -> 2 <= b <= 16 -> numeral_text sep (Some n) b (btoa n b).
Proof.
  intros Hsep Hn Hb. destruct (btoa_spells n b Hn ltac:(lia)) as (ds & E & Hd & En & Hne & _). split.
  - rewrite E. destruct ds; [done|]. by eexists _, _.
  - rewrite E. apply Forall_map. eapply Forall_impl; [exact Hd|]. intros d Hd'. simpl in *.
    pose proof (btoa_digit_alnum d ltac:(lia)) as Ha. pose proof (btoa_digit_range d ltac:(lia)).
    split; [lia|]. split; [|congruence]. by apply (alnum_plain _ d); [lia|].
  - pose proof (btoa_length n b). lia.
  - rewrite E, (atob_digits _ ds) by (try lia; by apply (spells_btoa _ _ 16); [apply btoa_digit_hex|lia|]).
    by rewrite En, u32_small.
Qed.

(** A minus sign is no digit. *)
Lemma minus_text (sep n : Z) : alnum_digit sep = None -> sep <> 45 -> 0 <= n < 2 ^ 32 -> numeral_text sep None 10 (45 :: btoa n 10).
Proof.
  intros Hsep Hs Hn. destruct (btoa_text sep n 10 Hsep Hn) as [_ Hc Hl _]; [lia|]. split; [by eexists _, _| | |].
  - constructor; [|done]. split; [lia|]. split; [done|congruence].
  - rewrite length_cons. pose proof (btoa_length n 10). lia.
  - done.
Qed.

Lemma scan_ints (P : Z -> Prop) : P 100 -> P 111 -> P 98 -> P 120 -> P 117 -> forall c, c ∈ SCAN_INTS -> P c.
Proof. intros. by apply (proj1 (Forall_forall P SCAN_INTS)); [repeat constructor|]. Qed.

Lemma conversion_facts (c : Z) : c ∈ SCAN_INTS -> 2 <= scan_base c <= 16 /\ c ∈ INT_CONVERSIONS /\
  c ∈ SCAN_CONVERSIONS /\ (c =? 112) = false /\ (c =? 115) = false /\ (c =? 99) = false.
Proof. revert c. apply scan_ints; split_and!; first [done|by apply mem_true]. Qed.

(** What [sprintf] writes for a number. *)
Lemma int_text_numeral (sep c n : Z) : number_ok (c, n) -> sep_ok sep -> sign_ok sep (c, n) ->
  numeral_text sep (if n <? 0 then None else Some n) (scan_base c) (int_text c n).
Proof.
  intros [Hc Hn] (_ & _ & _ & Hsep) Hsign. unfold sign_ok in Hsign. cbn [snd] in Hsign. revert c Hc Hn.
  apply (scan_ints (fun c => (if c =? 100 then - 2 ^ 31 <= n < 2 ^ 31 else 0 <= n < 2 ^ 32) -> numeral_text sep (if n <? 0 then None else Some n) (scan_base c) (int_text c n)));
    unfold int_text; cbn [Z.eqb Pos.eqb]; intros Hn; [|by rewrite (proj2 (Z.ltb_ge n 0)) by lia; apply btoa_text..].
  rewrite s32_small by lia. destruct (Z.ltb_spec n 0); [apply minus_text; (done || lia)|apply btoa_text; (done || lia)].
Qed.

Lemma strchr_skip (t r : list Z) (x : Z) : x ∉ t -> strchr (t ++ x :: r) x = Some (x :: r).
Proof.
  intros Hx. induction t as [|c t IH]; cbn [app strchr]; [by rewrite Z.eqb_refl|].
  apply not_elem_of_cons in Hx as [Hc Hx]. rewrite (proj2 (Z.eqb_neq c x)) by done. by apply IH.
Qed.

Lemma space_listed (c : Z) : - 128 <= c < 128 -> found (strchr ISSPACE c) = isspace c.
Proof.
  intros Hc. pose proof (range_check 256 (fun i => let c := i - 128 in
      Bool.eqb (found (strchr ISSPACE c)) (isspace c))
    ltac:(vm_compute; reflexivity) (c + 128) ltac:(lia)) as H. cbv beta zeta in H.
  replace (c + 128 - 128) with c in H by lia. by apply Bool.eqb_prop in H.
Qed.

Lemma strcspn_field (sep : Z) (t r : list Z) : Forall (fun c => 45 <= c <= 122 /\ isspace c = false /\ c <> sep) t ->
  (forall c r', r = c :: r' -> - 128 <= c < 128 /\ isspace c = true) -> strcspn (t ++ r) ISSPACE = Z.of_nat (length t).
Proof.
  intros Ht Hr. induction Ht as [|c t (Hc & Hs & _) _ IH]; cbn [app strcspn].
  - destruct r as [|c r]; [done|]. destruct (Hr c r eq_refl) as [Hc Hs]. cbn [strcspn]. by rewrite space_listed, Hs.
  - rewrite space_listed, Hs by lia. rewrite IH, length_cons. lia.
Qed.

Lemma numeral_not_sep (sep b : Z) (v : option Z) (t : list Z) : numeral_text sep v b t -> sep ∉ t.
Proof. intros [_ Ht _ _] Hi. by destruct (proj1 (Forall_forall _ _) Ht sep Hi) as (_ & _ & H). Qed.

Lemma numeral_head (sep b : Z) (v : option Z) (t r : list Z) : numeral_text sep v b t -> forall c s, t ++ r = c :: s -> isspace c = false.
Proof.
  intros [(x & t' & ->) Ht _ _] c s [= <- _]. by apply Forall_cons in Ht as [(_ & Hs & _) _].
Qed.

(** A number that ends where the input does, or at the separator. *)
Lemma scan_number (c sep : Z) (v : option Z) (sp t r s : list Z) : c ∈ SCAN_INTS -> sep_ok sep ->
  Forall (fun c => isspace c = true) sp -> numeral_text sep v (scan_base c) t ->
  (s = [] /\ r = [] \/ (exists s', s = sep :: s') /\ exists r', r = sep :: r') ->
  scan_conversion c s false 0 (sp ++ t ++ r) = Some (Some r, [SInt v]).
Proof.
  intros Hn (Hr & Hs0 & Hs1 & Hsep) Hsp Ht Hend. destruct (conversion_facts c Hn) as (_ & _ & _ & _ & E1 & E2).
  unfold scan_conversion. rewrite E1, E2, found_strchr, bool_decide_true by done.
  rewrite skip_spaces by (done || exact (numeral_head _ _ _ _ r Ht)). change (0 =? 0) with true. cbv iota.
  assert (Hw : int_width s (t ++ r) = Some (Z.of_nat (length t))).
  { destruct Hend as [[-> ->]|[[s' ->] [r' ->]]]; cbn [int_width].
    - f_equal. apply (strcspn_field sep); [apply Ht|done].
    - destruct (isspace sep) eqn:Es.
      + f_equal. apply (strcspn_field sep); [apply Ht|]. by intros x r0 [= <- _].
      + rewrite strchr_skip by (by eapply numeral_not_sep). cbn [mbind option_bind]. f_equal. rewrite length_app. lia. }
  rewrite Hw. cbn [mbind option_bind]. pose proof (nt_length _ _ _ _ Ht).
  rewrite Z.geb_leb, (proj2 (Z.leb_gt _ _)) by (unfold MAXLN; lia).
  unfold take_field. rewrite (proj2 (Z.ltb_ge _ _)), (proj2 (Z.leb_le _ _)) by (rewrite ?length_app; lia).
  rewrite Nat2Z.id, take_app_length, drop_app_length. cbn [mbind option_bind]. by rewrite (nt_value _ _ _ _ Ht).
Qed.

Definition sep_format (sep : Z) (l : list (Z * Z)) : list Z := format_text (sep_items sep l).

Lemma sep_format_cons (sep c n : Z) (l : list (Z * Z)) :
  sep_format sep ((c, n) :: l) = 37 :: c :: match l with [] => [] | _ => sep :: sep_format sep l end.
Proof. unfold sep_format. destruct l as [|x l]; done. Qed.

Lemma joined_cons (sep c n : Z) (l : list (Z * Z)) :
  joined sep ((c, n) :: l) = int_text c n ++ match l with [] => [] | _ => sep :: joined sep l end.
Proof. destruct l; cbn [joined]; [by rewrite app_nil_r|done]. Qed.

Lemma scan_flags_stop (fuel : nat) (c : Z) (s : list Z) (b : bool) (w : Z) : c ∈ SCAN_CONVERSIONS ->
  scan_flags (S fuel) (c :: s) b w = Some (c :: s, b, w).
Proof. intros H. cbn [scan_flags]. by rewrite found_strchr, bool_decide_true. Qed.

Lemma vsscanf_loop_ok (sep : Z) (l : list (Z * Z)) : sep_ok sep -> Forall number_ok l -> Forall (sign_ok sep) l ->
  forall fuel spb sps count, l <> [] -> Forall (fun c => isspace c = true) spb -> Forall (fun c => isspace c = true) sps ->
  (length (sep_format sep l) < fuel)%nat ->
  vsscanf_loop fuel (Some (spb ++ joined sep l)) (sps ++ sep_format sep l) count =
    Some (count + Z.of_nat (length l), map read_back l).
Proof.
  intros Hsep. induction 1 as [|[c n] l Hn Hl IH]; intros Hsign fuel spb sps count Hne Hb Hs Hf; [done|]. apply Forall_cons in Hsign as [Hsn Hsign]. specialize (IH Hsign).
  destruct (conversion_facts c (proj1 Hn)) as (_ & _ & Hconv & _).
  pose proof (int_text_numeral sep c n Hn Hsep Hsn) as Ht. destruct (nt_head _ _ _ _ Ht) as (x & t' & Et).
  destruct fuel as [|fuel]; [lia|]. cbn [vsscanf_loop]. rewrite sep_format_cons in *. rewrite joined_cons.
  rewrite (bool_decide_false (sps ++ _ = [])) by (by destruct sps).
  cbn [mbind option_bind]. rewrite (bool_decide_false (spb ++ _ = [])) by (rewrite Et; by destruct spb).
  rewrite skip_spaces by (done || by intros y r [= <- _]). cbn [head default from_option tail].
  change (id 37 =? 37) with true. cbv iota zeta. rewrite scan_flags_stop by done. cbn [mbind option_bind].
  rewrite (scan_number c sep _ _ _ _ _ (proj1 Hn) Hsep Hb Ht) by (done || (destruct l; [by left|right; split; by eexists])). cbn [mbind option_bind].
  destruct l as [|y l].
  { destruct fuel as [|fuel]; [simpl in Hf; lia|]. cbn [vsscanf_loop]. rewrite bool_decide_true by done. done. }
  assert (Hlen : (length (sep_format sep (y :: l)) + 3 <= fuel + 1)%nat) by (rewrite !length_cons in Hf; simpl in *; lia).
  assert (Hgoal : forall r, r = Some (count + 1 + Z.of_nat (length (y :: l)), map read_back (y :: l)) ->
    r ≫= (fun '(count, sts) => Some (count, [read_back (c, n)] ++ sts)) =
      Some (count + Z.of_nat (length ((c, n) :: y :: l)), map read_back ((c, n) :: y :: l))).
  { intros r ->. cbn [mbind option_bind]. f_equal. f_equal. rewrite (length_cons (c, n)). lia. }
  apply Hgoal. destruct (isspace sep) eqn:Es.
  - apply (IH fuel [sep] [sep]); [done|by constructor|by constructor|lia].
  - destruct fuel as [|fuel]; [lia|]. cbn [vsscanf_loop]. rewrite (bool_decide_false (sep :: sep_format sep (y :: l) = [])) by done. cbn [mbind option_bind].
    rewrite bool_decide_false by done. cbn [skip_while]. rewrite Es.
    cbn [head default from_option]. destruct Hsep as (H1 & H2 & H3 & H4). rewrite (proj2 (Z.eqb_neq (id sep) 37)) by done.
    rewrite Z.eqb_refl. cbn [negb]. apply (IH fuel [] []); [done|constructor|constructor|lia].
Qed.

Lemma sep_items_ok (sep : Z) (l : list (Z * Z)) : sep_ok sep -> Forall number_ok l -> Forall item_ok (sep_items sep l).
Proof.
  intros (_ & _ & Hsep & _). induction 1 as [|[c n] l Hn _ IH]; [constructor|].
  destruct (conversion_facts c (proj1 Hn)) as (_ & Hc & _). assert (Hd : item_ok (Dir RightJ 0 0 (Int c))) by (cbn [item_ok conv_ok]; lia || (split_and!; first [lia|done])).
  destruct l as [|y l]; [by apply Forall_singleton|].
  change (sep_items sep ((c, n) :: y :: l)) with (Dir RightJ 0 0 (Int c) :: Lit sep :: sep_items sep (y :: l)).
  constructor; [exact Hd|]. constructor; [exact Hsep|exact IH].
Qed.

Lemma sep_string (sep : Z) (l : list (Z * Z)) : Forall number_ok l ->
  format_string (sep_items sep l) (map (fun x => AInt (snd x)) l) = Some (joined sep l).
Proof.
  induction 1 as [|[c n] l Hn _ IH]; [done|]. destruct (conversion_facts c (proj1 Hn)) as (_ & _ & _ & Ep & _).
  assert (Ei : forall ap, item_string (Dir RightJ 0 0 (Int c)) (AInt n :: ap) = Some (int_text c n, ap)).
  { intros ap. cbn [item_string field mbind option_bind is_pointer]. rewrite Ep. cbn [app]. f_equal. f_equal.
    unfold justify. by replace (Z.to_nat (0 - _)) with 0%nat by lia. }
  destruct l as [|y l].
  - cbn [sep_items map format_string snd]. rewrite Ei. cbn [mbind option_bind joined]. by rewrite app_nil_r.
  - change (sep_items sep ((c, n) :: y :: l)) with (Dir RightJ 0 0 (Int c) :: Lit sep :: sep_items sep (y :: l)).
    rewrite joined_cons. cbn [map]. change (snd (c, n)) with n. cbn [format_string]. rewrite Ei. cbn [mbind option_bind item_string].
    cbn [map] in IH. by rewrite IH.
Qed.

(** C28: numbers written by [sprintf] with any of the conversions d u x o b, with a
    character between them that is no letter, digit or percent sign (a blank or a comma,
    say), and [sscanf] with the same format: every conversion is counted, and every number
    that is not negative is read back with its value.  For a negative number, which d writes
    with its sign, the conversion is counted too, but nothing is stored.  A minus sign can be
    the character between numbers when none of them is negative. *)
Theorem sscanf_sprintf (sep : Z) (l : list (Z * Z)) (Hsep : sep_ok sep) (Hl : Forall number_ok l) (Hsign : Forall (sign_ok sep) l) :
  exists out, vsprintf (sep_format sep l) (map (fun x => AInt (snd x)) l) = Some out /\
    sscanf out (sep_format sep l) = Some (Z.of_nat (length l), map (fun x => SInt (if snd x <? 0 then None else Some (snd x))) l).
Proof.
  exists (joined sep l). split.
  - unfold vsprintf, sep_format. rewrite vsprintf_loop_ok; [by apply sep_string|by apply sep_items_ok|lia|].
    apply Forall_map. by apply Forall_true.
  - destruct l as [|y l]; [done|]. unfold sscanf.
    apply (vsscanf_loop_ok sep (y :: l) Hsep Hl Hsign (S (length (sep_format sep (y :: l)))) [] [] 0); [done|constructor|constructor|lia].
Qed.

(** 12,ff,-7,101 in three bases; a blank between them does as well. *)
Lemma sscanf_sprintf_witness :
  let l := [(100, 12); (120, 255); (100, -7); (98, 5)] in
  sep_ok 44 /\ Forall number_ok l /\ sep_format 44 l = [37; 100; 44; 37; 120; 44; 37; 100; 44; 37; 98] /\
  exists out, vsprintf (sep_format 44 l) [AInt 12; AInt 255; AInt (-7); AInt 5] = Some out /\
    sscanf out (sep_format 44 l) = Some (4, [SInt (Some 12); SInt (Some 255); SInt None; SInt (Some 5)]).
Proof.
  intros l. assert (Hs : sep_ok 44) by (split; [lia|split; [lia|split; [lia|reflexivity]]]).
  assert (Hl : Forall number_ok l).
  { unfold l. rewrite !Forall_cons. cbn [number_ok]. split_and!; first [by apply mem_true|cbn; lia|done]. }
  split; [exact Hs|]. split; [exact Hl|]. split; [reflexivity|]. apply (sscanf_sprintf 44 l Hs Hl). by repeat constructor.
Defined.

(** A width of more than the input passes its end, which matters only when the format
    goes on. *)
Example width_past_the_end : sscanf [97; 98] [37; 53; 115] = Some (1, [SText [97; 98]]) /\
  sscanf [97; 98] [37; 53; 115; 37; 99] = None.
Proof. split; vm_compute; reflexivity. Qed.

(** A blank at the end of the format and of the input: both are read on behind their ends. *)
Example blank_at_the_end : sscanf [53; 32] [37; 100; 32] = None.
Proof. vm_compute. reflexivity. Qed.
