(* ===== verification/Mem.v ===== *)
(** * Byte memory (libc/memcpy.c, os/mem.c)
    Memory is a function from addresses to signed characters.  The copying loops are
    translated byte by byte, in the order in which they read and write, so that
    overlapping operands behave as in C. *)

From S2P Require Import Prelude.

Definition memory : Type := Z -> Z.

(** ** The routines *)

(** [while (n-- > 0) *t++ = *f++;] *)
Fixpoint copy_up (n : nat) (t f : Z) (m : memory) : memory :=
  match n with
  | O => m
  | S n => copy_up n (t +u 1) (f +u 1) (fupd m t (m f))
  end.

(** [while (n-- > 0) *--t = *--f;] *)
Fixpoint copy_down (n : nat) (t f : Z) (m : memory) : memory :=
  match n with
  | O => m
  | S n => let t := t +u -1 in let f := f +u -1 in copy_down n t f (fupd m t (m f))
  end.

Definition memcpy (s1 s2 n : Z) (m : memory) : memory :=
  if s2 <? s1 then copy_down (Z.to_nat n) (s1 +u n) (s2 +u n) m
  else copy_up (Z.to_nat n) s1 s2 m.

Definition memmove (dest src n : Z) (m : memory) : memory :=
  if (src <? dest) && (dest <? src +u n)
  then copy_down (Z.to_nat n) (dest +u n) (src +u n) m
  else copy_up (Z.to_nat n) dest src m.

(** [while (count--) *xs++ = c;] *)
Fixpoint set_up (n : nat) (xs c : Z) (m : memory) : memory :=
  match n with
  | O => m
  | S n => set_up n (xs +u 1) c (fupd m xs (s8 c))
  end.

Definition memset (s c count : Z) (m : memory) : memory := set_up (Z.to_nat count) s c m.

Fixpoint memcmp_loop (n : nat) (su1 su2 : Z) (m : memory) : Z :=
  match n with
  | O => 0
  | S n => let res := u8 (m su1) - u8 (m su2) in
           if negb (res =? 0) then res else memcmp_loop n (su1 +u 1) (su2 +u 1) m
  end.

Definition memcmp (cs ct count : Z) (m : memory) : Z := memcmp_loop (Z.to_nat count) cs ct m.

(** ** Specification *)

(** The bytes of a block, as they are before the call, moved to another address. *)
Definition blit (t f n : Z) (m : memory) : memory :=
  fun a => if (t <=? a) && (a <? t + n) then m (f + (a - t)) else m a.

Definition fill (t n c : Z) (m : memory) : memory :=
  fun a => if (t <=? a) && (a <? t + n) then c else m a.

(** A block that does not reach past the end of the address space. *)
Definition in_space (a n : Z) : Prop := 0 <= a /\ 0 <= n /\ a + n < 2 ^ 32.

(** Copying upwards is right when the destination does not start inside the source. *)
Lemma copy_up_spec (n : nat) : forall t f m, in_space t (Z.of_nat n) -> in_space f (Z.of_nat n) ->
  (t <= f \/ f + Z.of_nat n <= t) ->
  forall a, copy_up n t f m a = blit t f (Z.of_nat n) m a.
Proof.
  unfold in_space. induction n as [|n IH]; intros t f m Ht Hf Ho a; simpl copy_up.
  - unfold blit. change (Z.of_nat 0) with 0. by replace ((t <=? a) && (a <? t + 0)) with false by lia.
  - rewrite IH; [|rewrite !u32_small; lia..]. rewrite !u32_small by lia. unfold blit.
    destruct (Z.leb_spec (t + 1) a), (Z.ltb_spec a (t + 1 + Z.of_nat n)),
      (Z.leb_spec t a), (Z.ltb_spec a (t + Z.of_nat (S n))); try lia; simpl.
    + rewrite fupd_ne by lia. f_equal. lia.
    + by rewrite fupd_ne by lia.
    + assert (a = t) as -> by lia. rewrite fupd_eq. f_equal. lia.
    + by rewrite fupd_ne by lia.
Qed.

(** Copying downwards is right when the destination does not end inside the source. *)
Lemma copy_down_spec (n : nat) : forall t f m, in_space t (Z.of_nat n) -> in_space f (Z.of_nat n) ->
  (f <= t \/ t + Z.of_nat n <= f) ->
  forall a, copy_down n (t + Z.of_nat n) (f + Z.of_nat n) m a = blit t f (Z.of_nat n) m a.
Proof.
  unfold in_space. induction n as [|n IH]; intros t f m Ht Hf Ho a; simpl copy_down.
  - unfold blit. change (Z.of_nat 0) with 0. by replace ((t <=? a) && (a <? t + 0)) with false by lia.
  - rewrite !u32_small by lia.
    replace (t + Z.of_nat (S n) + -1) with (t + Z.of_nat n) by lia.
    replace (f + Z.of_nat (S n) + -1) with (f + Z.of_nat n) by lia.
    rewrite IH by lia. unfold blit.
    destruct (Z.leb_spec t a), (Z.ltb_spec a (t + Z.of_nat n)), (Z.ltb_spec a (t + Z.of_nat (S n)));
      try lia; simpl.
    + by rewrite fupd_ne by lia.
    + assert (a = t + Z.of_nat n) as -> by lia. rewrite fupd_eq. f_equal. lia.
    + by rewrite fupd_ne by lia.
    + by rewrite fupd_ne by lia.
Qed.

Lemma set_up_spec (n : nat) : forall t c m, in_space t (Z.of_nat n) ->
  forall a, set_up n t c m a = fill t (Z.of_nat n) (s8 c) m a.
Proof.
  unfold in_space. induction n as [|n IH]; intros t c m Ht a; simpl set_up.
  - unfold fill. change (Z.of_nat 0) with 0. by replace ((t <=? a) && (a <? t + 0)) with false by lia.
  - rewrite IH; [|rewrite !u32_small; lia..]. rewrite !u32_small by lia. unfold fill.
    destruct (Z.leb_spec (t + 1) a), (Z.ltb_spec a (t + 1 + Z.of_nat n)),
      (Z.leb_spec t a), (Z.ltb_spec a (t + Z.of_nat (S n))); try lia; simpl; try done.
    + by rewrite fupd_ne by lia.
    + assert (a = t) as -> by lia. by rewrite fupd_eq.
    + by rewrite fupd_ne by lia.
Qed.

Lemma memcpy_blit (s1 s2 n : Z) (m : memory) : in_space s1 n -> in_space s2 n ->
  forall a, memcpy s1 s2 n m a = blit s1 s2 n m a.
Proof.
  intros H1 H2 a. unfold in_space in *. unfold memcpy. destruct (Z.ltb_spec s2 s1).
  - rewrite !u32_small by lia. replace n with (Z.of_nat (Z.to_nat n)) at 2 3 4 by lia.
    apply copy_down_spec; unfold in_space; lia.
  - replace n with (Z.of_nat (Z.to_nat n)) at 2 by lia. apply copy_up_spec; unfold in_space; lia.
Qed.

Lemma memmove_blit (d s n : Z) (m : memory) : in_space d n -> in_space s n ->
  forall a, memmove d s n m a = blit d s n m a.
Proof.
  intros H1 H2 a. unfold in_space in *. unfold memmove. rewrite (u32_small (s + n)) by lia.
  destruct (Z.ltb_spec s d), (Z.ltb_spec d (s + n)); simpl.
  - rewrite !u32_small by lia. replace n with (Z.of_nat (Z.to_nat n)) at 2 3 4 by lia.
    apply copy_down_spec; unfold in_space; lia.
  - replace n with (Z.of_nat (Z.to_nat n)) at 2 by lia. apply copy_up_spec; unfold in_space; lia.
  - replace n with (Z.of_nat (Z.to_nat n)) at 2 by lia. apply copy_up_spec; unfold in_space; lia.
  - replace n with (Z.of_nat (Z.to_nat n)) at 2 by lia. apply copy_up_spec; unfold in_space; lia.
Qed.

Lemma memset_fill (s c n : Z) (m : memory) : in_space s n ->
  forall a, memset s c n m a = fill s n (s8 c) m a.
Proof.
  intros H a. unfold memset. unfold in_space in *.
  replace n with (Z.of_nat (Z.to_nat n)) at 2 by lia. apply set_up_spec. unfold in_space. lia.
Qed.

(** A memory holds signed characters. *)
Definition chars (m : memory) : Prop := forall a, - 128 <= m a < 128.

Lemma u8_char_inj (c d : Z) : - 128 <= c < 128 -> - 128 <= d < 128 -> u8 c = u8 d <-> c = d.
Proof. intros Hc Hd. split; [|congruence]. unfold u8. zlia. Qed.

Lemma memcmp_loop_spec (n : nat) : forall a b m, chars m -> in_space a (Z.of_nat n) ->
  in_space b (Z.of_nat n) ->
  memcmp_loop n a b m = 0 /\ (forall i, 0 <= i < Z.of_nat n -> m (a + i) = m (b + i)) \/
  exists i, 0 <= i < Z.of_nat n /\ (forall j, 0 <= j < i -> m (a + j) = m (b + j)) /\
    m (a + i) ≠ m (b + i) /\ memcmp_loop n a b m = u8 (m (a + i)) - u8 (m (b + i)).
Proof.
  unfold in_space. induction n as [|n IH]; intros a b m Hm Ha Hb; cbn [memcmp_loop].
  - left. split; [done|lia].
  - pose proof (u8_char_inj (m a) (m b) (Hm a) (Hm b)) as Hinj.
    destruct (Z.eqb_spec (u8 (m a) - u8 (m b)) 0) as [E|E]; simpl negb; cbv iota.
    + assert (E0 : m a = m b) by (apply Hinj; lia). rewrite !u32_small by lia.
      destruct (IH (a + 1) (b + 1) m Hm) as [[H1 H2]|(i & H1 & H2 & H3 & H4)]; [lia|lia| |].
      * left. split; [done|]. intros i Hi. destruct (decide (i = 0)) as [->|Hi0]; [by rewrite !Z.add_0_r|].
        specialize (H2 (i - 1)). replace (a + 1 + (i - 1)) with (a + i) in H2 by lia.
        replace (b + 1 + (i - 1)) with (b + i) in H2 by lia. apply H2. lia.
      * right. exists (i + 1). replace (a + (i + 1)) with (a + 1 + i) by lia.
        replace (b + (i + 1)) with (b + 1 + i) by lia. split_and!; [lia|lia| |done|done].
        intros j Hj. destruct (decide (j = 0)) as [->|Hj0]; [by rewrite !Z.add_0_r|].
        specialize (H2 (j - 1)). replace (a + 1 + (j - 1)) with (a + j) in H2 by lia.
        replace (b + 1 + (j - 1)) with (b + j) in H2 by lia. apply H2. lia.
    + right. exists 0. rewrite !Z.add_0_r. split_and!; [lia|lia|intros j Hj; lia| |done]. intros E0. apply E. rewrite E0. lia.
Qed.

(** ** Properties *)

(** C23: [memcpy] and [memmove] copy correctly however source and destination overlap,
    as if the block were read before any byte is written, and [memset] fills exactly
    its block; no byte outside the destination changes. *)
Theorem copy_any_overlap (d s n c : Z) (m : memory) : in_space d n -> in_space s n ->
  (forall a, memcpy d s n m a = blit d s n m a) /\
  (forall a, memmove d s n m a = blit d s n m a) /\
  (forall a, memset d c n m a = fill d n (s8 c) m a).
Proof. auto using memcpy_blit, memmove_blit, memset_fill. Qed.

Lemma copy_any_overlap_witness : in_space 0x1002 4 /\ in_space 0x1000 4 /\
  map (memcpy 0x1002 0x1000 4 (fun a => a - 0x1000)) [0x1000; 0x1001; 0x1002; 0x1003; 0x1004; 0x1005]
    = [0; 1; 0; 1; 2; 3].
Proof.
  assert (H1 : in_space 0x1002 4) by (unfold in_space; lia).
  assert (H2 : in_space 0x1000 4) by (unfold in_space; lia).
  split; [exact H1|split; [exact H2|]].
  destruct (copy_any_overlap 0x1002 0x1000 4 0 (fun a => a - 0x1000) H1 H2) as (H & _).
  simpl map. rewrite !H. vm_compute. reflexivity.
Defined.

(** [memcmp] is zero exactly for equal blocks; otherwise it is the difference, as
    unsigned bytes, at the first place where they differ. *)
Lemma memcmp_spec (a b n : Z) (m : memory) : chars m -> in_space a n -> in_space b n ->
  (memcmp a b n m = 0 <-> forall i, 0 <= i < n -> m (a + i) = m (b + i)) /\
  (forall i, 0 <= i < n -> (forall j, 0 <= j < i -> m (a + j) = m (b + j)) ->
     m (a + i) ≠ m (b + i) -> memcmp a b n m = u8 (m (a + i)) - u8 (m (b + i))).
Proof.
  intros Hm Ha Hb. unfold memcmp, in_space in *.
  destruct (memcmp_loop_spec (Z.to_nat n) a b m Hm) as [[H1 H2]|(i & H1 & H2 & H3 & H4)];
    [unfold in_space; lia|unfold in_space; lia| |].
  - split; [split; [|done]; intros _ i Hi; apply H2; lia|].
    intros i Hi _ Hne. exfalso. apply Hne, H2. lia.
  - assert (Hnz : u8 (m (a + i)) - u8 (m (b + i)) ≠ 0).
    { intros E. apply H3, u8_char_inj; [done..|lia]. }
    rewrite H4. split.
    + split; [lia|]. intros Hall. exfalso. apply H3, Hall. lia.
    + intros k Hk Hlow Hne. assert (Eki : k = i); [|by subst k].
      destruct (Z.lt_total k i) as [H|[H|H]]; [|done|].
      * exfalso. apply Hne, H2. lia.
      * exfalso. apply H3, Hlow. lia.
Qed.

