(* ===== verification/UsbStorage.v ===== *)
(** * Reading from a USB mass storage device (os/hardware/usb_storage.c)
    The commands that [usb_stor_read] sends to a device and the way it assembles what
    comes back.  The wire is a parameter: a transport takes a command block of twelve
    bytes and a length and returns a status and the bytes that have arrived. *)

From S2P Require Import Prelude Mem.

Definition DEV_BSIZE : Z := 512.
Definition USB_MAX_DEVICE : nat := 32.
Definition USB_MAX_READ_BLK : Z := 16.
Definition USB_STOR_TRANSPORT_GOOD : Z := 0.
Definition SCSI_TST_U_RDY : Z := 0x00.
Definition SCSI_REQ_SENSE : Z := 0x03.
Definition SCSI_READ10 : Z := 0x28.

Definition btodb (x : Z) : Z := Z.shiftr x 9.
Definition howmany (x y : Z) : Z := (x +u (y - 1)) / y.

Record block_dev_desc := { target : Z; lun : Z; blksz : Z }.

(** The tables filled when the devices were found: [usb_dev[i].devnum] and
    [usb_dev_desc]; where the bounce buffer [bulkbuf] lies. *)
Record usb_tables := {
  devnum : Z -> Z;
  usb_dev_desc : Z -> block_dev_desc;
  bulkbuf : Z }.

(** [ss->transport] for the device at an index of [usb_dev]. *)
Class UsbTransport (U : Type) := transport : Z -> list Z -> Z -> U -> U * Z * list Z.

(** What arrives is written to memory. *)
Definition store (t : Z) (l : list Z) (m : memory) : memory :=
  fun a => if (t <=? a) && (a <? t + Z.of_nat (length l)) then s8 (znth 0 l (a - t)) else m a.

Section UsbStorage.
Context {U : Type} `{UsbTransport U} (tb : usb_tables).

Definition scsi_cmd (op lun : Z) (rest : list Z) : list Z := op :: u8 (Z.shiftl lun 5) :: rest.

Definition usb_read_10 (ss lun start blocks datalen : Z) (u : U) : U * Z * list Z :=
  transport ss (scsi_cmd SCSI_READ10 lun
    [Z.land (u8 (Z.shiftr start 24)) 0xff; Z.land (u8 (Z.shiftr start 16)) 0xff;
     Z.land (u8 (Z.shiftr start 8)) 0xff; Z.land (u8 start) 0xff; 0;
     Z.land (u8 (Z.shiftr blocks 8)) 0xff; Z.land (u8 blocks) 0xff; 0; 0; 0]) datalen u.

Definition usb_request_sense (ss lun : Z) (u : U) : U :=
  (transport ss (scsi_cmd SCSI_REQ_SENSE lun [0; 0; 18; 0; 0; 0; 0; 0; 0; 0]) 18 u).1.1.

Fixpoint unit_ready_loop (retries : nat) (ss lun : Z) (u : U) : U * Z :=
  let '(u, status, _) := transport ss (scsi_cmd SCSI_TST_U_RDY lun [0; 0; 0; 0; 0; 0; 0; 0; 0; 0]) 0 u in
  if status =? USB_STOR_TRANSPORT_GOOD then (u, 0)
  else let u := usb_request_sense ss lun u in
       match retries with O => (u, -1) | S retries => unit_ready_loop retries ss lun u end.

Definition usb_test_unit_ready (ss lun : Z) (u : U) : U * Z := unit_ready_loop 10 ss lun u.

(** The device with the number [target]; [None] at an entry that is not in use, and the
    last device when none of them has the number. *)
Fixpoint find_dev (n : nat) (i target : Z) : option Z :=
  match n with
  | O => Some (i - 1)
  | S n => if (devnum tb i =? -1) || (devnum tb i =? 0) then None
           else if devnum tb i =? target then Some i else find_dev n (i + 1) target
  end.

(** [retry_it]: whether one of the tries succeeds. *)
Fixpoint retry_it (retry : nat) (ss lun start smallblks datalen buf_addr : Z) (u : U) (m : memory) : bool * U * memory :=
  let '(u, status, data) := usb_read_10 ss lun start smallblks datalen u in
  let m := store buf_addr data m in
  if status =? 0 then (true, u, m)
  else match retry with O => (false, u, m) | S retry => retry_it retry ss lun start smallblks datalen buf_addr u m end.

(** The loop over the chunks; [cp] is where the bounce buffer is copied to, if it is used. *)
Fixpoint chunk_loop (fuel : nat) (ss : Z) (d : block_dev_desc) (start blks blkcnt buf_addr : Z) (cp : option Z) (u : U) (m : memory)
  : Z * U * memory :=
  match fuel with
  | O => (blkcnt, u, m)
  | S fuel =>
      let smallblks := if blks >? USB_MAX_READ_BLK then USB_MAX_READ_BLK else u16 blks in
      let datalen := blksz d *u smallblks in
      let '(good, u, m) := retry_it 2 ss (lun d) start smallblks datalen buf_addr u m in
      if (good : bool) then
        let start := start +u smallblks in
        let blks := blks -u smallblks in
        let '(m, buf_addr, cp) :=
          match cp with
          | Some c => (memcpy c buf_addr datalen m, buf_addr, Some (c +u datalen))
          | None => (m, buf_addr +u datalen, None)
          end in
        if negb (blks =? 0) then chunk_loop fuel ss d start blks blkcnt buf_addr cp u m else (blkcnt, u, m)
      else (blkcnt -u blks, u, m)
  end.

(** Every round but the last takes sixteen blocks; [blkcnt] rounds are enough. *)
Definition usb_stor_read (device blknr blkcnt buffer : Z) (cp : option Z) (u : U) (m : memory) : Z * U * memory :=
  if blkcnt =? 0 then (0, u, m)
  else
    let d := usb_dev_desc tb (Z.land device 0xff) in
    match find_dev USB_MAX_DEVICE 0 (target d) with
    | None => (0, u, m)
    | Some ss =>
        let '(u, r) := usb_test_unit_ready ss (lun d) u in
        if negb (r =? 0) then (0, u, m)
        else chunk_loop (Z.to_nat blkcnt) ss d blknr blkcnt blkcnt buffer cp u m
    end.

(** [dev_index] and [offs] are those of [opendevs[fd]]. *)
Definition usb_read_dst (dev_index offs buf blen : Z) (u : U) (m : memory) : U * memory :=
  let blkno := u32 (btodb offs) in
  let d_secsize := blksz (usb_dev_desc tb dev_index) in
  if (d_secsize =? 512) || (d_secsize =? 1024) || (d_secsize =? 2048) then
    let blkno := blkno / (d_secsize / DEV_BSIZE) in
    let blkcnt := howmany blen d_secsize in
    let '(_, u, m) :=
      if negb (Z.land buf 0x7f =? 0) then usb_stor_read dev_index blkno blkcnt (bulkbuf tb) (Some buf) u m
      else usb_stor_read dev_index blkno blkcnt buf None u m in
    (u, m)
  else (u, m).
End UsbStorage.

(** ** What is asked of the device *)

Definition be32 (b3 b2 b1 b0 : Z) : Z := 2 ^ 24 * b3 + 2 ^ 16 * b2 + 2 ^ 8 * b1 + b0.

(** A disk of 512-byte blocks that obeys the SCSI commands: while it is [ready] it answers
    TEST UNIT READY with good status and READ(10), for the big-endian block number and
    count of the command block, with the bytes of these blocks. *)
Class ScsiDisk (U : Type) `{UsbTransport U} (ss : Z) := {
  disk : Z -> Z;
  ready : U -> Prop;
  disk_ready (u : U) (cmd : list Z) : ready u -> cmd !! 0%nat = Some SCSI_TST_U_RDY ->
    exists u' data, transport ss cmd 0 u = (u', USB_STOR_TRANSPORT_GOOD, data) /\ ready u';
  disk_read10 (u : U) (c1 b3 b2 b1 b0 c6 n1 n0 : Z) (rest : list Z) (datalen : Z) :
    let start := be32 b3 b2 b1 b0 in let blocks := 2 ^ 8 * n1 + n0 in
    ready u -> datalen = 512 * blocks ->
    exists u', transport ss (SCSI_READ10 :: c1 :: b3 :: b2 :: b1 :: b0 :: c6 :: n1 :: n0 :: rest) datalen u
      = (u', USB_STOR_TRANSPORT_GOOD, map disk (seqZ (512 * start) datalen)) /\ ready u' }.

(** ** The bytes of the disk in memory *)

Section Load.
Context (dk : Z -> Z).

(** The [n] bytes of the disk from [d] on are at [t]. *)
Definition load (t d n : Z) (m : memory) : memory :=
  fun a => if (t <=? a) && (a <? t + n) then s8 (dk (d + (a - t))) else m a.

Lemma store_load (t d n : Z) (m : memory) : 0 <= n -> forall a, store t (map dk (seqZ d n)) m a = load t d n m a.
Proof.
  intros Hn a. unfold store, load. rewrite length_map, length_seqZ, Z2Nat.id by done.
  destruct ((t <=? a) && (a <? t + n)) eqn:E; [|done]. apply andb_true_iff in E as [H1%Z.leb_le H2%Z.ltb_lt].
  unfold znth. rewrite list_lookup_fmap, (lookup_seqZ_lt d n) by lia. cbn. f_equal. f_equal. lia.
Qed.

Lemma load_load (t d n n' : Z) (m : memory) : 0 <= n -> 0 <= n' ->
  forall a, load (t + n) (d + n) n' (load t d n m) a = load t d (n + n') m a.
Proof.
  intros H H' a. unfold load. destruct (Z.leb_spec (t + n) a), (Z.ltb_spec a (t + n + n')), (Z.leb_spec t a), (Z.ltb_spec a (t + n)),
    (Z.ltb_spec a (t + (n + n'))); try lia; cbn; try done; f_equal; f_equal; lia.
Qed.

Lemma load_0 (t d : Z) (m : memory) (a : Z) : load t d 0 m a = m a.
Proof. unfold load. destruct (Z.leb_spec t a), (Z.ltb_spec a (t + 0)); try lia; done. Qed.

Lemma load_in (t d n : Z) (m : memory) (a : Z) : t <= a < t + n -> load t d n m a = s8 (dk (d + (a - t))).
Proof. intros [H1 H2]. unfold load. by rewrite (proj2 (Z.leb_le t a)), (proj2 (Z.ltb_lt a (t + n))). Qed.

Lemma load_out (t d n : Z) (m : memory) (a : Z) : a < t \/ t + n <= a -> load t d n m a = m a.
Proof. intros Ha. unfold load. destruct (Z.leb_spec t a), (Z.ltb_spec a (t + n)); try lia; done. Qed.
End Load.

(** ** Reads of a disk *)

Lemma be32_bytes (x : Z) : 0 <= x < 2 ^ 32 ->
  be32 (Z.land (u8 (Z.shiftr x 24)) 0xff) (Z.land (u8 (Z.shiftr x 16)) 0xff) (Z.land (u8 (Z.shiftr x 8)) 0xff) (Z.land (u8 x) 0xff) = x.
Proof. intros Hx. rewrite !land_0xff, !Z.shiftr_div_pow2 by lia. unfold be32. zlia. Qed.

Lemma be16_bytes (x : Z) : 0 <= x < 2 ^ 16 -> 2 ^ 8 * Z.land (u8 (Z.shiftr x 8)) 0xff + Z.land (u8 x) 0xff = x.
Proof. intros Hx. rewrite !land_0xff, !Z.shiftr_div_pow2 by lia. zlia. Qed.

Section Reads.
Context {U : Type} `{UsbTransport U} (tb : usb_tables) (ss : Z) `{!ScsiDisk U ss}.

Lemma usb_read_10_ok (lun start blocks : Z) (u : U) : ready u -> 0 <= start < 2 ^ 32 -> 0 <= blocks < 2 ^ 16 ->
  exists u', usb_read_10 ss lun start blocks (512 * blocks) u = (u', 0, map disk (seqZ (512 * start) (512 * blocks))) /\ ready u'.
Proof.
  intros Hu Hs Hb. unfold usb_read_10, scsi_cmd.
  pose proof (disk_read10 u (u8 (Z.shiftl lun 5)) (Z.land (u8 (Z.shiftr start 24)) 0xff) (Z.land (u8 (Z.shiftr start 16)) 0xff)
    (Z.land (u8 (Z.shiftr start 8)) 0xff) (Z.land (u8 start) 0xff) 0 (Z.land (u8 (Z.shiftr blocks 8)) 0xff) (Z.land (u8 blocks) 0xff)
    [0; 0; 0] (512 * blocks)) as D. cbv zeta in D. rewrite be32_bytes, be16_bytes in D by done. by apply D.
Qed.

Lemma retry_it_ok (retry : nat) (lun start blocks t : Z) (u : U) (m : memory) : ready u -> 0 <= start < 2 ^ 32 -> 0 <= blocks < 2 ^ 16 ->
  exists u' m', retry_it retry ss lun start blocks (512 * blocks) t u m = (true, u', m') /\ ready u' /\
    forall a, m' a = load disk t (512 * start) (512 * blocks) m a.
Proof.
  intros Hu Hs Hb. destruct (usb_read_10_ok lun start blocks u Hu Hs Hb) as (u' & E & Hu').
  exists u'. eexists. split; [destruct retry; cbn [retry_it]; rewrite E; reflexivity|]. split; [done|].
  intros a. apply store_load. lia.
Qed.

Lemma unit_ready_ok (lun : Z) (u : U) : ready u -> exists u', usb_test_unit_ready ss lun u = (u', 0) /\ ready u'.
Proof.
  intros Hu. unfold usb_test_unit_ready. cbn [unit_ready_loop].
  destruct (disk_ready u (scsi_cmd SCSI_TST_U_RDY lun [0; 0; 0; 0; 0; 0; 0; 0; 0; 0]) Hu eq_refl) as (u' & data & E & Hu').
  rewrite E. cbn. eauto.
Qed.

(** What the chunk loop takes at once. *)
Lemma chunk_size (blks : Z) : 0 < blks < 2 ^ 32 ->
  let s := if blks >? USB_MAX_READ_BLK then USB_MAX_READ_BLK else u16 blks in 0 < s <= 16 /\ s <= blks.
Proof. intros Hb. cbv zeta. destruct (Z.gtb_spec blks USB_MAX_READ_BLK); unfold USB_MAX_READ_BLK in *; [lia|]. rewrite u16_small by lia. lia. Qed.

(** Straight into the buffer. *)
Lemma chunk_loop_direct (d : block_dev_desc) (blkcnt : Z) (fuel : nat) : blksz d = 512 -> forall start blks t u m,
  ready u -> 0 < blks <= Z.of_nat fuel -> 0 <= start -> start + blks < 2 ^ 32 -> in_space t (512 * blks) ->
  exists u' m', chunk_loop fuel ss d start blks blkcnt t None u m = (blkcnt, u', m') /\ ready u' /\
    forall a, m' a = load disk t (512 * start) (512 * blks) m a.
Proof.
  intros Hsz. induction fuel as [|fuel IH]; intros start blks t u m Hu Hb Hs Hsb Ht; [lia|].
  cbn [chunk_loop]. unfold in_space in Ht.
  pose proof (chunk_size blks ltac:(lia)) as Hc. cbv zeta in Hc.
  set (s := if blks >? USB_MAX_READ_BLK then USB_MAX_READ_BLK else u16 blks) in *.
  rewrite Hsz, (u32_small (512 * s)) by lia.
  destruct (retry_it_ok 2 (lun d) start s t u m Hu ltac:(lia) ltac:(lia)) as (u1 & m1 & -> & Hu1 & Hm1).
  rewrite !u32_small by lia. destruct (Z.eqb_spec (blks - s) 0) as [E|E]; cbn [negb].
  - exists u1, m1. split_and!; [done|done|]. intros a. rewrite Hm1. f_equal; lia.
  - destruct (IH (start + s) (blks - s) (t + 512 * s) u1 m1 Hu1) as (u2 & m2 & -> & Hu2 & Hm2); unfold in_space; [lia..|].
    exists u2, m2. split_and!; [done|done|]. intros a. rewrite Hm2.
    replace (512 * (start + s)) with (512 * start + 512 * s) by lia.
    transitivity (load disk (t + 512 * s) (512 * start + 512 * s) (512 * (blks - s)) (load disk t (512 * start) (512 * s) m) a).
    + unfold load at 1 2. by rewrite Hm1.
    + rewrite load_load by lia. f_equal; lia.
Qed.

Definition bulkbuf_size : Z := 24 * 1024.

Definition disjoint (a n b m : Z) : Prop := a + n <= b \/ b + m <= a.

(** By way of the bounce buffer, which holds sixteen blocks of 512 bytes. *)
Lemma chunk_loop_bounce (d : block_dev_desc) (blkcnt bk : Z) (fuel : nat) : blksz d = 512 -> in_space bk bulkbuf_size -> forall start blks c u m,
  ready u -> 0 < blks <= Z.of_nat fuel -> 0 <= start -> start + blks < 2 ^ 32 -> in_space c (512 * blks) ->
  disjoint c (512 * blks) bk bulkbuf_size ->
  exists u' m', chunk_loop fuel ss d start blks blkcnt bk (Some c) u m = (blkcnt, u', m') /\ ready u' /\
    forall a, ~ (bk <= a < bk + bulkbuf_size) -> m' a = load disk c (512 * start) (512 * blks) m a.
Proof.
  intros Hsz Hbk. induction fuel as [|fuel IH]; intros start blks c u m Hu Hb Hs Hsb Hc Hd; [lia|].
  cbn [chunk_loop]. unfold in_space, disjoint, bulkbuf_size in *.
  pose proof (chunk_size blks ltac:(lia)) as Hsz'. cbv zeta in Hsz'.
  set (s := if blks >? USB_MAX_READ_BLK then USB_MAX_READ_BLK else u16 blks) in *.
  rewrite Hsz, (u32_small (512 * s)) by lia.
  destruct (retry_it_ok 2 (lun d) start s bk u m Hu ltac:(lia) ltac:(lia)) as (u1 & m1 & -> & Hu1 & Hm1).
  rewrite !u32_small by lia. set (m2 := memcpy c bk (512 * s) m1).
  assert (forall a, ~ (bk <= a < bk + 24 * 1024) -> m2 a = load disk c (512 * start) (512 * s) m a) as Hm2.
  { intros a Ha. unfold m2. rewrite memcpy_blit by (unfold in_space; lia). unfold blit, load at 1.
    destruct (Z.leb_spec c a), (Z.ltb_spec a (c + 512 * s)); cbn [andb]; rewrite Hm1; try (apply load_out; lia).
    rewrite load_in by lia. f_equal. f_equal. lia. }
  destruct (Z.eqb_spec (blks - s) 0) as [E|E]; cbn [negb].
  - exists u1, m2. split_and!; [done|done|]. intros a Ha. rewrite Hm2 by done. f_equal; lia.
  - destruct (IH (start + s) (blks - s) (c + 512 * s) u1 m2 Hu1) as (u2 & m3 & -> & Hu2 & Hm3); unfold in_space; [lia..|].
    exists u2, m3. split_and!; [done|done|]. intros a Ha. rewrite Hm3 by done.
    replace (512 * (start + s)) with (512 * start + 512 * s) by lia.
    transitivity (load disk (c + 512 * s) (512 * start + 512 * s) (512 * (blks - s)) (load disk c (512 * start) (512 * s) m) a).
    + unfold load at 1 2. by rewrite Hm2.
    + rewrite load_load by lia. f_equal; lia.
Qed.

(** The device is among those that were found. *)
Definition usb_found (dev_index : Z) : Prop :=
  0 <= dev_index < 5 /\ blksz (usb_dev_desc tb dev_index) = 512 /\
  find_dev tb USB_MAX_DEVICE 0 (target (usb_dev_desc tb dev_index)) = Some ss /\ in_space (bulkbuf tb) bulkbuf_size.

(** Whole blocks, from the block that holds [offs]. *)
Lemma usb_read_dst_ok (dev_index offs buf blocks : Z) (u : U) (m : memory) : usb_found dev_index -> ready u ->
  0 <= offs -> 0 < blocks -> offs / 512 + blocks < 2 ^ 32 -> in_space buf (512 * blocks) -> disjoint buf (512 * blocks) (bulkbuf tb) bulkbuf_size ->
  exists u' m', usb_read_dst tb dev_index offs buf (512 * blocks) u m = (u', m') /\ ready u' /\
    forall a, ~ (bulkbuf tb <= a < bulkbuf tb + bulkbuf_size) -> m' a = load disk buf (512 * (offs / 512)) (512 * blocks) m a.
Proof.
  intros (Hi & Hsz & Hfd & Hbk) Hu Ho Hb Hob Hsp Hd. unfold usb_read_dst. rewrite Hsz. cbn [Z.eqb orb].
  change (512 =? 512) with true. cbn [orb]. change (512 / DEV_BSIZE) with 1. rewrite Z.div_1_r.
  unfold btodb. rewrite Z.shiftr_div_pow2 by lia. change (2 ^ 9) with 512. pose proof (Z.div_pos offs 512 Ho ltac:(lia)) as Hq.
  rewrite (u32_small (offs / 512)) by lia. unfold in_space in Hsp.
  assert (howmany (512 * blocks) 512 = blocks) as ->.
  { unfold howmany. rewrite u32_small by lia. rewrite (Z.mul_comm 512), Z.div_add_l by lia. rewrite (Z.div_small (512 - 1)); lia. }
  unfold usb_stor_read. rewrite (proj2 (Z.eqb_neq blocks 0)) by lia.
  replace (Z.land dev_index 255) with dev_index by (rewrite land_0xff, u8_small by lia; done). rewrite Hfd.
  destruct (unit_ready_ok (lun (usb_dev_desc tb dev_index)) u Hu) as (u1 & -> & Hu1). cbn [Z.eqb negb].
  destruct (negb (Z.land buf 127 =? 0)).
  - destruct (chunk_loop_bounce (usb_dev_desc tb dev_index) blocks (bulkbuf tb) (Z.to_nat blocks) Hsz Hbk (offs / 512) blocks buf u1 m Hu1)
      as (u2 & m2 & -> & Hu2 & Hm2); [lia|lia|lia|done|done|]. eauto.
  - destruct (chunk_loop_direct (usb_dev_desc tb dev_index) blocks (Z.to_nat blocks) Hsz (offs / 512) blocks buf u1 m Hu1)
      as (u2 & m2 & -> & Hu2 & Hm2); [lia|lia|lia|done|]. eauto.
Qed.
End Reads.

(** ** A disk in memory
    A transport that obeys the commands, for a given content. *)

Section RamDisk.
Context (dk : Z -> Z).

Definition ram_transport : UsbTransport unit := fun ss cmd datalen u =>
  match cmd with
  | op :: _ :: b3 :: b2 :: b1 :: b0 :: _ =>
      (u, USB_STOR_TRANSPORT_GOOD, if op =? SCSI_READ10 then map dk (seqZ (512 * be32 b3 b2 b1 b0) datalen) else [])
  | op :: _ => (u, USB_STOR_TRANSPORT_GOOD, [])
  | [] => (u, -2, [])
  end.

Definition ram_disk (ss : Z) : @ScsiDisk unit ram_transport ss.
Proof.
  refine (@Build_ScsiDisk unit ram_transport ss dk (fun _ => True) _ _).
  - intros u cmd _ Hc. destruct cmd as [|op [|c1 [|b3 [|b2 [|b1 [|b0 cmd]]]]]]; [done|unfold transport, ram_transport; eauto..].
  - intros u c1 b3 b2 b1 b0 c6 n1 n0 rest datalen start blocks _ _. by exists u.
Defined.
End RamDisk.
