(* ===== verification/Devfs.v ===== *)
(** * Raw devices as byte streams (os/filesys/devfs.c)
    [devio_read] reads any range of bytes from a device that transfers whole blocks of 512
    bytes.  A name opens the USB disk that was found under it. *)

From S2P Require Import Prelude CStr Mem UsbStorage.

Definition MAXPHYS : Z := 32 * 1024.
Definition BLOCK_DEV_USB_STOR_FLAG : Z := 0.
Definition EINVAL : Z := 22.

(** [off_t]: 64 bits. *)
Definition s64 (x : Z) : Z := (x + 2 ^ 63) mod 2 ^ 64 - 2 ^ 63.

Lemma s64_small (x : Z) : - 2 ^ 63 <= x < 2 ^ 63 -> s64 x = x.
Proof. intros. unfold s64. rewrite Z.mod_small; lia. Qed.

Record biodev := Biodev { dev_type : Z; dev_index : Z; opened_flag : Z; base : Z; offs : Z; end_ : Z }.

(** The state of the layer: [opendevs], the aligned half of [_lbuff], [errno], memory and
    the devices. *)
Record devfs (U : Type) := Devfs {
  opendevs : Z -> biodev;
  lbuff : Z;
  errno : Z;
  mem : memory;
  wire : U }.
Arguments Devfs {U}.
Arguments opendevs {U}. Arguments lbuff {U}. Arguments errno {U}. Arguments mem {U}. Arguments wire {U}.

Section Devfs.
Context {U : Type} `{UsbTransport U} (tb : usb_tables).
(** [usb_found_devs]: names and indices of the disks; where [_lbuff] lies. *)
Context (usb_found_devs : list (list Z * Z)) (_lbuff : Z).
Implicit Type (d : devfs U).

Definition set_dev (fd : Z) (b : biodev) (d : devfs U) : devfs U := Devfs (fupd (opendevs d) fd b) (lbuff d) (errno d) (mem d) (wire d).
Definition set_errno (e : Z) (d : devfs U) : devfs U := Devfs (opendevs d) (lbuff d) e (mem d) (wire d).
Definition set_mem (m : memory) (d : devfs U) : devfs U := Devfs (opendevs d) (lbuff d) (errno d) m (wire d).
Definition with_wire (u : U) (m : memory) (d : devfs U) : devfs U := Devfs (opendevs d) (lbuff d) (errno d) m u.
Definition set_lbuff (l : Z) (d : devfs U) : devfs U := Devfs (opendevs d) l (errno d) (mem d) (wire d).

Definition with_offs (o : Z) (b : biodev) : biodev := Biodev (dev_type b) (dev_index b) (opened_flag b) (base b) o (end_ b).
Definition set_offs (fd o : Z) d : devfs U := set_dev fd (with_offs (s64 o) (opendevs d fd)) d.

(** [_dev_index] is set in the entry also when nothing is opened. *)
Fixpoint find_usb_device (l : list (list Z * Z)) (name : list Z) (b : biodev) : Z * biodev :=
  match l with
  | [] => (-1, b)
  | (n, index) :: l =>
      if negb (striequ name n =? 0)
      then (index, Biodev BLOCK_DEV_USB_STOR_FLAG index (opened_flag b) (base b) (offs b) (end_ b))
      else find_usb_device l name b
  end.

Definition slash_dev : list Z := [47; 100; 101; 118; 47].
Definition disk_slash : list Z := [100; 105; 115; 107; 47].

(** [if (strncmp(pname, prefix, 5) == 0) pname += 5;] *)
Definition skip_prefix (prefix s : list Z) : list Z := if decide (prefix `prefix_of` s) then drop (length prefix) s else s.

Definition find_device (name : list Z) (b : biodev) : Z * biodev :=
  let pname := skip_prefix disk_slash (skip_prefix slash_dev name) in
  let pname := match pname with c :: p => if c =? 47 then p else pname | [] => pname end in
  let '(retDev, b) := find_usb_device usb_found_devs pname b in
  if negb (retDev =? -1) then (1, b) else (0, b).

Definition devio_open (fd : Z) (name : list Z) d : Z * devfs U :=
  if opened_flag (opendevs d fd) =? 1 then (0, d)
  else
    let d := set_lbuff (Z.land (_lbuff +u (DEV_BSIZE - 1)) (not32 (DEV_BSIZE - 1))) d in
    let '(r, b) := find_device name (opendevs d fd) in
    if negb (r =? 0) then (1, set_dev fd (Biodev (dev_type b) (dev_index b) 1 0 0 0x10000000000) d)
    else (0, set_dev fd b d).

Definition devio_close (fd : Z) d : devfs U :=
  let b := opendevs d fd in set_dev fd (Biodev (dev_type b) (dev_index b) 0 (base b) (offs b) (end_ b)) d.

Definition read_device (fd buf blen : Z) d : Z * devfs U :=
  let biodevOpened := opendevs d fd in
  let d :=
    if (opened_flag biodevOpened =? 1) && (dev_type biodevOpened =? BLOCK_DEV_USB_STOR_FLAG) then
      let '(u, m) := usb_read_dst tb (dev_index biodevOpened) (offs biodevOpened) buf blen (wire d) (mem d) in with_wire u m d
    else d in
  (s32 blen, d).

(** Nothing is written. *)
Definition write_device (fd buf blen : Z) d : Z * devfs U := (s32 blen, d).

Fixpoint read_loop (fuel : nat) (fd buf leftlen ret : Z) d : option (Z * Z * devfs U) :=
  if leftlen =? 0 then Some (ret, leftlen, d) else
  match fuel with
  | O => None
  | S fuel =>
      if negb (Z.land (offs (opendevs d fd)) (DEV_BSIZE - 1) =? 0) || (leftlen <? DEV_BSIZE) then
        let suboffs := Z.land (offs (opendevs d fd)) (DEV_BSIZE - 1) in
        let n := if DEV_BSIZE - suboffs <? leftlen then DEV_BSIZE - suboffs else leftlen in
        let d := set_offs fd (Z.land (offs (opendevs d fd)) (Z.lnot (DEV_BSIZE - 1))) d in
        let '(ret, d) := read_device fd (lbuff d) DEV_BSIZE d in
        if ret <? 0 then Some (ret, leftlen, d)
        else
          let d := set_mem (memcpy buf (lbuff d +u suboffs) n (mem d)) d in
          let d := set_offs fd (offs (opendevs d fd) + (suboffs + n)) d in
          read_loop fuel fd (buf +u n) (leftlen -u n) ret d
      else
        let whole := if negb (Z.land leftlen (DEV_BSIZE - 1) =? 0) then Z.land leftlen (not32 (DEV_BSIZE - 1)) else leftlen in
        let n := if whole <? MAXPHYS then whole else MAXPHYS in
        let '(ret, d) := read_device fd buf n d in
        if ret <? 0 then Some (ret, leftlen, d)
        else
          let d := set_offs fd (offs (opendevs d fd) + n) d in
          read_loop fuel fd (buf +u n) (leftlen -u n) ret d
  end.

(** Every round reads at least one byte. *)
Definition devio_read (fd buf blen : Z) d : option (Z * devfs U) :=
  if offs (opendevs d fd) <? base (opendevs d fd) then Some (-1, set_errno EINVAL d)
  else if blen =? 0 then Some (0, d)
  else
    match read_loop (Z.to_nat blen) fd buf blen 0 d with
    | Some (ret, leftlen, d) => Some (if ret <? 0 then ret else s32 (blen -u leftlen), d)
    | None => None
    end.

Fixpoint write_loop (fuel : nat) (fd buf leftlen ret : Z) d : option (Z * Z * devfs U) :=
  if leftlen =? 0 then Some (ret, leftlen, d) else
  match fuel with
  | O => None
  | S fuel =>
      if negb (Z.land (offs (opendevs d fd)) (DEV_BSIZE - 1) =? 0) || (leftlen <? DEV_BSIZE) then
        let suboffs := Z.land (offs (opendevs d fd)) (DEV_BSIZE - 1) in
        let n := if DEV_BSIZE - suboffs <? leftlen then DEV_BSIZE - suboffs else leftlen in
        let d := set_offs fd (Z.land (offs (opendevs d fd)) (Z.lnot (DEV_BSIZE - 1))) d in
        let '(ret, d) := if negb (suboffs =? 0) || (n <? DEV_BSIZE) then read_device fd (lbuff d) DEV_BSIZE d else (ret, d) in
        if (negb (suboffs =? 0) || (n <? DEV_BSIZE)) && (ret <? 0) then Some (ret, leftlen, d)
        else
          let d := set_mem (memcpy (lbuff d +u suboffs) buf n (mem d)) d in
          let '(ret, d) := write_device fd (lbuff d) DEV_BSIZE d in
          if ret <? 0 then Some (ret, leftlen, d)
          else
            let d := set_offs fd (offs (opendevs d fd) + (suboffs + n)) d in
            write_loop fuel fd (buf +u n) (leftlen -u n) ret d
      else
        let whole := if negb (Z.land leftlen (DEV_BSIZE - 1) =? 0) then Z.land leftlen (not32 (DEV_BSIZE - 1)) else leftlen in
        let n := if whole <? MAXPHYS then whole else MAXPHYS in
        let '(ret, d) := write_device fd buf n d in
        if ret <? 0 then Some (ret, leftlen, d)
        else
          let d := set_offs fd (offs (opendevs d fd) + n) d in
          write_loop fuel fd (buf +u n) (leftlen -u n) ret d
  end.

Definition devio_write (fd buf blen : Z) d : option (Z * devfs U) :=
  if blen =? 0 then Some (0, d)
  else
    match write_loop (Z.to_nat blen) fd buf blen 0 d with
    | Some (ret, leftlen, d) => Some (if ret <? 0 then ret else s32 (blen -u leftlen), d)
    | None => None
    end.

Definition devio_lseek (fd o whence : Z) d : Z * devfs U :=
  let d := if whence =? 0 then set_offs fd (base (opendevs d fd) + o) d
           else set_offs fd (offs (opendevs d fd) + o) d in
  (s64 (offs (opendevs d fd) - base (opendevs d fd)), d).
End Devfs.

(** ** Reading is reading the disk *)

Section Reading.
Context {U : Type} `{UsbTransport U} (tb : usb_tables) (ss : Z) `{!ScsiDisk U ss}.
Implicit Type (d : devfs U).

(** Memory the layer may use for itself: the bounce buffer and the block buffer. *)
Definition scratch (d : devfs U) (a : Z) : Prop :=
  bulkbuf tb <= a < bulkbuf tb + bulkbuf_size \/ lbuff d <= a < lbuff d + DEV_BSIZE.

(** The device behind [fd] is an open disk that is ready. *)
Record disk_open (fd : Z) (d : devfs U) : Prop := {
  do_flag : opened_flag (opendevs d fd) = 1;
  do_type : dev_type (opendevs d fd) = BLOCK_DEV_USB_STOR_FLAG;
  do_found : usb_found tb ss (dev_index (opendevs d fd));
  do_ready : ready (wire d);
  do_lbuff : in_space (lbuff d) DEV_BSIZE;
  do_disjoint : disjoint (lbuff d) DEV_BSIZE (bulkbuf tb) bulkbuf_size }.

(** A block that the layer does not use for itself. *)
Definition spare_block (d : devfs U) (a n : Z) : Prop :=
  in_space a n /\ disjoint a n (bulkbuf tb) bulkbuf_size /\ disjoint a n (lbuff d) DEV_BSIZE.

(** [d'] is [d] after reading [n] bytes from [o] into [buf]. *)
Record have_read (fd buf o n : Z) (d d' : devfs U) : Prop := {
  hr_dev : opendevs d' fd = with_offs (o + n) (opendevs d fd);
  hr_other fd' : fd' <> fd -> opendevs d' fd' = opendevs d fd';
  hr_lbuff : lbuff d' = lbuff d;
  hr_errno : errno d' = errno d;
  hr_ready : ready (wire d');
  hr_mem a : ~ scratch d a -> mem d' a = load disk buf o n (mem d) a }.

Lemma have_read_open (fd buf o n : Z) (d d' : devfs U) : disk_open fd d -> have_read fd buf o n d d' -> disk_open fd d'.
Proof.
  intros [] []. split; rewrite ?hr_dev0, ?hr_lbuff0; done.
Qed.

Lemma have_read_trans (fd buf o n n' : Z) (d d1 d2 : devfs U) : 0 <= n -> 0 <= n' ->
  have_read fd buf o n d d1 -> have_read fd (buf + n) (o + n) n' d1 d2 -> have_read fd buf o (n + n') d d2.
Proof.
  intros Hn Hn' [] []. split.
  - rewrite hr_dev1, hr_dev0. unfold with_offs. cbn. f_equal. lia.
  - intros fd' Hne. rewrite hr_other1, hr_other0; done.
  - congruence.
  - congruence.
  - done.
  - intros a Ha. rewrite hr_mem1 by (unfold scratch in *; by rewrite hr_lbuff0).
    rewrite <- load_load by lia. unfold load at 1 2. by rewrite hr_mem0.
Qed.

Lemma free_block_sub (d : devfs U) (a n a' n' : Z) : spare_block d a n -> a <= a' -> 0 <= n' -> a' + n' <= a + n -> spare_block d a' n'.
Proof. unfold spare_block, in_space, disjoint. lia. Qed.

(** Whole blocks from an offset on a block boundary. *)
Lemma read_device_ok (fd buf blocks : Z) (d : devfs U) : disk_open fd d -> 0 < blocks < 2 ^ 20 -> 0 <= offs (opendevs d fd) ->
  offs (opendevs d fd) mod 512 = 0 -> offs (opendevs d fd) + 512 * blocks <= 2 ^ 40 ->
  in_space buf (512 * blocks) -> disjoint buf (512 * blocks) (bulkbuf tb) bulkbuf_size ->
  exists u m, read_device tb fd buf (512 * blocks) d = (512 * blocks, with_wire u m d) /\ ready u /\
    forall a, ~ (bulkbuf tb <= a < bulkbuf tb + bulkbuf_size) -> m a = load disk buf (offs (opendevs d fd)) (512 * blocks) (mem d) a.
Proof.
  intros [] Hb Ho Hal Hlim Hsp Hd. unfold read_device. rewrite do_flag0, do_type0. cbn [Z.eqb andb].
  change ((1 =? 1) && (BLOCK_DEV_USB_STOR_FLAG =? BLOCK_DEV_USB_STOR_FLAG)) with true. cbv iota.
  pose proof (Z.div_mod (offs (opendevs d fd)) 512 ltac:(lia)) as Hdm.
  destruct (usb_read_dst_ok tb ss _ (offs (opendevs d fd)) buf blocks (wire d) (mem d) do_found0 do_ready0) as (u & m & -> & Hu & Hm);
    [lia|lia|lia|done|done|].
  exists u, m. rewrite s32_small by lia. split_and!; [done|done|]. intros a Ha. rewrite Hm by done. f_equal. lia.
Qed.

(** One round by way of the block buffer. *)
Lemma round_buffered (fd buf n : Z) (d : devfs U) : let o := offs (opendevs d fd) in
  disk_open fd d -> 0 <= o -> o + n <= 2 ^ 40 - 512 -> 0 < n <= 512 - o mod 512 -> spare_block d buf n ->
  let d0 := set_offs fd (Z.land o (Z.lnot (DEV_BSIZE - 1))) d in
  exists d1, read_device tb fd (lbuff d0) DEV_BSIZE d0 = (512, d1) /\
    have_read fd buf o n d (let d2 := set_mem (memcpy buf (lbuff d1 +u Z.land o (DEV_BSIZE - 1)) n (mem d1)) d1 in
                            set_offs fd (offs (opendevs d2 fd) + (Z.land o (DEV_BSIZE - 1) + n)) d2).
Proof.
  intros o Hop Ho Hlim Hn Hfree d0. pose proof (Z.mod_pos_bound o 512 ltac:(lia)) as Hmod. pose proof (Z.mod_le o 512 Ho ltac:(lia)) as Hle.
  assert (Z.land o (DEV_BSIZE - 1) = o mod 512) as Elow by apply (land_pow2 9 o ltac:(lia)).
  assert (Z.land o (Z.lnot (DEV_BSIZE - 1)) = o - o mod 512) as Ehigh.
  { rewrite <- Z.ldiff_land. change (DEV_BSIZE - 1) with (Z.ones 9). rewrite Z.ldiff_ones_r by lia.
    rewrite Z.shiftl_mul_pow2, Z.shiftr_div_pow2 by lia. change (2 ^ 9) with 512. pose proof (Z.div_mod o 512). lia. }
  rewrite Elow. subst d0. rewrite Ehigh. set (d0 := set_offs fd (o - o mod 512) d).
  assert (opendevs d0 fd = with_offs (o - o mod 512) (opendevs d fd)) as Edev.
  { unfold d0, set_offs, set_dev. cbn. rewrite fupd_eq, s64_small by lia. done. }
  assert (disk_open fd d0) as Hop0.
  { destruct Hop. split; cbn -[opendevs]; rewrite ?Edev; done. }
  assert (lbuff d0 = lbuff d /\ mem d0 = mem d /\ errno d0 = errno d) as (El & Em & Ee) by done.
  assert (forall fd', fd' <> fd -> opendevs d0 fd' = opendevs d fd') as Eother.
  { intros fd' Hne. unfold d0, set_offs, set_dev. cbn. by rewrite fupd_ne. }
  clearbody d0.
  destruct (read_device_ok fd (lbuff d0) 1 d0 Hop0) as (u & m & E & Hu & Hm); [lia|..].
  { rewrite Edev. cbn. lia. }
  { rewrite Edev. cbn. pose proof (Z.div_mod o 512). replace (o - o mod 512) with (o / 512 * 512) by lia. apply Z.mod_mul. lia. }
  { rewrite Edev. cbn. lia. }
  { by destruct Hop0. }
  { by destruct Hop0. }
  change DEV_BSIZE with (512 * 1). rewrite E. eexists. split; [reflexivity|]. rewrite Edev in Hm. cbn [with_offs offs] in Hm.
  destruct Hop, Hfree as (Hsp & Hd1 & Hd2). unfold in_space, disjoint, DEV_BSIZE in *.
  split; cbn -[Z.add].
  - rewrite fupd_eq, Edev. unfold with_offs. cbn. f_equal. rewrite s64_small; lia.
  - intros fd' Hne. rewrite fupd_ne by done. by apply Eother.
  - done.
  - done.
  - done.
  - intros a Ha. unfold scratch, DEV_BSIZE in Ha. rewrite El, Em in *. rewrite (u32_small (lbuff d + o mod 512)) by lia.
    rewrite memcpy_blit by (unfold in_space; lia). unfold blit, load at 1.
    destruct (Z.leb_spec buf a), (Z.ltb_spec a (buf + n)); cbn [andb]; rewrite Hm by lia; cbn; try (apply load_out; cbn; lia).
    rewrite load_in by (cbn; lia). f_equal. f_equal. cbn. lia.
Qed.

(** One round straight into the caller's buffer. *)
Lemma round_direct (fd buf n : Z) (d : devfs U) : let o := offs (opendevs d fd) in
  disk_open fd d -> 0 <= o -> o mod 512 = 0 -> n mod 512 = 0 -> 0 < n <= MAXPHYS -> o + n <= 2 ^ 40 -> spare_block d buf n ->
  exists d1, read_device tb fd buf n d = (n, d1) /\ have_read fd buf o n d (set_offs fd (offs (opendevs d1 fd) + n) d1).
Proof.
  intros o Hop Ho Hal Hn0 Hn Hlim (Hsp & Hd1 & Hd2). pose proof (Z.div_mod n 512 ltac:(lia)) as Hdm. unfold MAXPHYS in Hn.
  assert (n = 512 * (n / 512)) as En by lia. rewrite En in Hsp, Hd1 |- *.
  destruct (read_device_ok fd buf (n / 512) d Hop) as (u & m & E & Hu & Hm); [lia|done|done|fold o; lia|done|done|].
  rewrite E. eexists. split; [reflexivity|]. fold o in Hm. split; cbn -[Z.add Z.mul Z.div].
  - rewrite fupd_eq. unfold with_offs. cbn -[Z.add Z.mul Z.div]. f_equal. rewrite s64_small; fold o; lia.
  - intros fd' Hne. by rewrite fupd_ne.
  - done.
  - done.
  - done.
  - intros a Ha. apply Hm. unfold scratch in Ha. tauto.
Qed.

Lemma not32_511 (x : Z) : 0 <= x < 2 ^ 32 -> Z.land x (not32 (DEV_BSIZE - 1)) = x - x mod 512.
Proof. intros Hx. apply (land_not_pow2 9); lia. Qed.

Lemma read_loop_ok (fuel : nat) (fd : Z) : forall buf leftlen ret d, disk_open fd d -> 0 <= leftlen <= Z.of_nat fuel -> leftlen < 2 ^ 31 -> 0 <= ret ->
  0 <= offs (opendevs d fd) -> offs (opendevs d fd) + leftlen <= 2 ^ 40 - 512 -> spare_block d buf leftlen ->
  exists ret' d', read_loop tb fuel fd buf leftlen ret d = Some (ret', 0, d') /\ 0 <= ret' /\
    have_read fd buf (offs (opendevs d fd)) leftlen d d'.
Proof.
  induction fuel as [|fuel IH]; intros buf leftlen ret d Hop Hl Hl32 Hret Ho Hlim Hfree; cbn [read_loop].
  all: destruct (Z.eqb_spec leftlen 0) as [->|Hne]; [exists ret, d; split_and!; [done|done|]|try lia].
  1, 2: destruct Hop; split; try done; [unfold with_offs; rewrite Z.add_0_r; by destruct (opendevs d fd)|intros a _; by rewrite load_0].
  set (o := offs (opendevs d fd)) in *.
  assert (Z.land o (DEV_BSIZE - 1) = o mod 512) as Elow by apply (land_pow2 9 o ltac:(lia)). rewrite Elow.
  pose proof (Z.mod_pos_bound o 512 ltac:(lia)) as Hmod.
  assert (forall r n d1, 0 <= r -> 0 < n <= leftlen -> have_read fd buf o n d d1 ->
    exists ret' d', read_loop tb fuel fd (buf +u n) (leftlen -u n) r d1 = Some (ret', 0, d') /\ 0 <= ret' /\ have_read fd buf o leftlen d d') as Hnext.
  { intros r n d1 Hr Hn Hrd. pose proof (hr_dev _ _ _ _ _ _ Hrd) as Edev. pose proof (hr_lbuff _ _ _ _ _ _ Hrd) as Elb.
    destruct Hfree as (Hsp & Hd1 & Hd2). unfold in_space in Hsp. rewrite !u32_small by lia.
    destruct (IH (buf + n) (leftlen - n) r d1) as (ret' & d' & -> & Hret' & Hrd').
    - by eapply have_read_open.
    - lia.
    - lia.
    - done.
    - rewrite Edev. cbn. lia.
    - rewrite Edev. cbn. lia.
    - unfold spare_block, in_space, disjoint in *. rewrite Elb. lia.
    - exists ret', d'. split_and!; [done|done|]. rewrite Edev in Hrd'. cbn [with_offs offs] in Hrd'.
      replace leftlen with (n + (leftlen - n)) by lia. eapply have_read_trans; [lia|lia|done|done]. }
  destruct (negb (o mod 512 =? 0) || (leftlen <? DEV_BSIZE)) eqn:Ebr.
  - set (n := if DEV_BSIZE - o mod 512 <? leftlen then DEV_BSIZE - o mod 512 else leftlen).
    assert (0 < n <= 512 - o mod 512 /\ n <= leftlen) as [Hn Hnl].
    { unfold n, DEV_BSIZE. destruct (Z.ltb_spec (512 - o mod 512) leftlen); lia. }
    destruct (round_buffered fd buf n d Hop Ho ltac:(fold o; lia) Hn) as (d1 & E & Hrd).
    { eapply free_block_sub; [done|lia..]. }
    fold o in E, Hrd. rewrite E. cbn [Z.ltb Z.compare]. change (512 <? 0) with false. cbv iota.
    rewrite Elow in Hrd. apply Hnext; [lia|lia|exact Hrd].
  - apply orb_false_iff in Ebr as [E1%negb_false_iff%Z.eqb_eq E2%Z.ltb_ge]. unfold DEV_BSIZE in E2.
    set (whole := if negb (Z.land leftlen (DEV_BSIZE - 1) =? 0) then Z.land leftlen (not32 (DEV_BSIZE - 1)) else leftlen).
    assert (whole = leftlen - leftlen mod 512) as Ew.
    { unfold whole. rewrite not32_511 by lia. replace (Z.land leftlen (DEV_BSIZE - 1)) with (leftlen mod 512) by (symmetry; apply (land_pow2 9); lia).
      destruct (Z.eqb_spec (leftlen mod 512) 0); cbn [negb]; lia. }
    pose proof (Z.mod_pos_bound leftlen 512 ltac:(lia)) as Hlm.
    set (n := if whole <? MAXPHYS then whole else MAXPHYS).
    assert (0 < n <= MAXPHYS /\ n <= leftlen /\ n mod 512 = 0) as (Hn & Hnl & Hn0).
    { unfold n. rewrite Ew. unfold MAXPHYS. destruct (Z.ltb_spec (leftlen - leftlen mod 512) (32 * 1024)); split_and!; try lia.
      - rewrite Zminus_mod_idemp_r, Z.sub_diag. done.
      - done. }
    destruct (round_direct fd buf n d Hop Ho E1 Hn0 Hn ltac:(fold o; lia)) as (d1 & E & Hrd).
    { eapply free_block_sub; [done|lia..]. }
    rewrite E. rewrite (proj2 (Z.ltb_ge n 0)) by lia. apply Hnext; [lia|lia|done].
Qed.

(** [devio_read] from an open disk reads the bytes at its offset, whatever the offset and
    the length, into the buffer and nowhere else but the scratch buffers, and advances. *)
Lemma devio_read_ok (fd buf blen : Z) (d : devfs U) : let o := offs (opendevs d fd) in disk_open fd d -> 0 <= base (opendevs d fd) <= o ->
  0 <= blen < 2 ^ 31 -> o + blen <= 2 ^ 40 - 512 -> spare_block d buf blen ->
  exists d', devio_read tb fd buf blen d = Some (blen, d') /\ have_read fd buf o blen d d'.
Proof.
  intros o Hop Hb Hl Hlim Hfree. unfold devio_read. rewrite (proj2 (Z.ltb_ge _ _)) by apply Hb.
  destruct (read_loop_ok (Z.to_nat blen) fd buf blen 0 d Hop) as (ret & d' & E & Hret & Hrd); [lia|lia|lia|fold o; lia|done|done|].
  exists d'. split; [|done]. destruct (Z.eqb_spec blen 0) as [->|Hne]; [injection E as <- <-; done|]. rewrite E.
  rewrite (proj2 (Z.ltb_ge _ _)) by done. rewrite Z.sub_0_r, u32_small, s32_small by lia. done.
Qed.
End Reading.

(** ** The interface to the file systems *)

(** A device that can be opened by its name, closed, and read at any place; [raw_read]
    returns what the buffer of the caller holds after the call, and the result. *)
Class RawDevice (D : Type) := {
  raw_devopen : Z -> list Z -> D -> Z * D;
  raw_close : Z -> D -> D;
  raw_lseek : Z -> Z -> Z -> D -> D;
  raw_read : Z -> Z -> D -> option (list Z * Z * D) }.

(** What a disk promises: it is opened once by its name, for reading from its start; up to
    [raw_limit] bytes at any place are read in full; after a close it can be opened again. *)
Class RawDisk (D : Type) `{RawDevice D} := {
  raw_byte : Z -> Z;
  raw_named : list Z -> Prop;
  raw_closed : Z -> D -> Prop;
  raw_open : Z -> D -> Prop;
  raw_limit : Z;
  raw_octet a : 0 <= raw_byte a < 2 ^ 8;
  raw_open_new fd name d : raw_closed fd d -> raw_named name ->
    exists d', raw_devopen fd name d = (1, d') /\ raw_open fd d' /\
      forall n, 0 <= n <= raw_limit -> n <= 2 ^ 40 - 512 ->
        exists d'', raw_read fd n d' = Some (map raw_byte (seqZ 0 n), n, d'') /\ raw_open fd d'';
  raw_open_busy fd name d : raw_open fd d -> raw_devopen fd name d = (0, d);
  raw_close_ok fd d : raw_open fd d -> raw_closed fd (raw_close fd d);
  raw_read_at fd o n d : raw_open fd d -> 0 <= o -> 0 <= n <= raw_limit -> o + n <= 2 ^ 40 - 512 ->
    exists d', raw_read fd n (raw_lseek fd o 0 d) = Some (map raw_byte (seqZ o n), n, d') /\ raw_open fd d' }.

Definition bytes_at (m : memory) (a n : Z) : list Z := map (fun i => u8 (m (a + i))) (seqZ 0 n).

Section Interface.
Context {U : Type} `{UsbTransport U} (tb : usb_tables) (usb_found_devs : list (list Z * Z)) (_lbuff buf limit : Z).

#[export] Instance devfs_raw : RawDevice (devfs U) := {
  raw_devopen fd name d := devio_open usb_found_devs _lbuff fd name d;
  raw_close fd d := devio_close fd d;
  raw_lseek fd o whence d := (devio_lseek fd o whence d).2;
  raw_read fd n d := match devio_read tb fd buf n d with Some (r, d) => Some (bytes_at (mem d) buf n, r, d) | None => None end }.

Context (ss : Z) `{!ScsiDisk U ss}.

Definition lbuff_aligned : Z := Z.land (_lbuff +u (DEV_BSIZE - 1)) (not32 (DEV_BSIZE - 1)).

(** The buffers lie apart from each other. *)
Definition buffers_ok : Prop :=
  in_space lbuff_aligned DEV_BSIZE /\ disjoint lbuff_aligned DEV_BSIZE (bulkbuf tb) bulkbuf_size /\
  0 <= limit < 2 ^ 31 /\ in_space buf limit /\ disjoint buf limit (bulkbuf tb) bulkbuf_size /\ disjoint buf limit lbuff_aligned DEV_BSIZE.

(** [name] is that of a disk that was found. *)
Definition names_disk (name : list Z) : Prop :=
  exists index, usb_found tb ss index /\ forall b, find_device usb_found_devs name b
    = (1, Biodev BLOCK_DEV_USB_STOR_FLAG index (opened_flag b) (base b) (offs b) (end_ b)).

Definition devfs_open (fd : Z) (d : devfs U) : Prop :=
  disk_open tb ss fd d /\ base (opendevs d fd) = 0 /\ lbuff d = lbuff_aligned /\ buffers_ok.

Lemma devfs_read_ok (fd o n : Z) (d : devfs U) : devfs_open fd d -> offs (opendevs d fd) = o -> 0 <= o -> 0 <= n <= limit -> o + n <= 2 ^ 40 - 512 ->
  exists d', raw_read fd n d = Some (map (fun a => u8 (disk a)) (seqZ o n), n, d') /\ devfs_open fd d'.
Proof.
  intros (Hop & Hb & Hlb & Hbuf) Eo Ho Hn Hon. pose proof Hbuf as (_ & _ & Hlim & Hsp & Hd1 & Hd2).
  destruct (devio_read_ok tb ss fd buf n d Hop) as (d' & E & Hrd); [lia|lia|lia| |].
  { unfold spare_block, in_space, disjoint in *. rewrite Hlb. lia. }
  unfold raw_read, devfs_raw. rewrite E. exists d'. rewrite Eo in Hrd. split.
  - repeat f_equal. unfold bytes_at. apply list_eq. intros i.
    rewrite !list_lookup_fmap. destruct (decide (i < Z.to_nat n)%nat) as [Hi|Hi].
    + rewrite !lookup_seqZ_lt by lia. cbn. f_equal. rewrite (hr_mem _ _ _ _ _ _ _ _ Hrd).
      2:{ unfold scratch. unfold disjoint in *. rewrite Hlb. lia. }
      rewrite load_in by lia.
      match goal with |- u8 (s8 (disk ?x)) = u8 (disk ?y) => replace x with y by lia; generalize (disk y) end.
      intros x. unfold u8, s8. zlia.
    + rewrite !lookup_seqZ_ge by lia. done.
  - split; [by eapply have_read_open|]. split; [|split; [|done]].
    + rewrite (hr_dev _ _ _ _ _ _ _ _ Hrd). done.
    + rewrite (hr_lbuff _ _ _ _ _ _ _ _ Hrd). done.
Qed.

(** The layer keeps the promise for a buffer outside of its own. *)
#[export] Program Instance devfs_raw_disk : RawDisk (devfs U) := {
  raw_byte a := u8 (disk a);
  raw_named := names_disk;
  raw_closed fd d := opened_flag (opendevs d fd) <> 1 /\ ready (wire d) /\ buffers_ok;
  raw_open := devfs_open;
  raw_limit := limit }.
Next Obligation. intros a. apply u8_range. Qed.
Next Obligation.
  cbn beta. intros fd name d (Hfl & Hu & Hbuf) (index & Hfound & Hname). unfold raw_devopen, devfs_raw, devio_open. rewrite (proj2 (Z.eqb_neq _ _)) by done.
  fold lbuff_aligned. rewrite Hname. cbn [negb]. change (negb (1 =? 0)) with true. cbv iota. eexists. split; [reflexivity|].
  match goal with |- devfs_open fd ?x /\ _ => set (d1 := x) end.
  assert (opendevs d1 fd = Biodev BLOCK_DEV_USB_STOR_FLAG index 1 0 0 0x10000000000) as Edev by (unfold d1; cbn; by rewrite fupd_eq).
  assert (devfs_open fd d1) as Hop.
  { split; [|split; [by rewrite Edev|split; [done|done]]]. split; rewrite ?Edev; cbn; try done; by destruct Hbuf as (? & ? & _). }
  split; [done|]. intros n Hn Hn2. apply (devfs_read_ok fd 0 n d1 Hop); [by rewrite Edev|lia|lia|lia].
Qed.
Next Obligation.
  cbn beta. intros fd name d (Hop & _). unfold raw_devopen, devfs_raw, devio_open. destruct Hop. by rewrite do_flag0.
Qed.
Next Obligation.
  cbn beta. intros fd d (Hop & _ & _ & Hbuf). split; [|split; [by destruct Hop|done]]. cbn. by rewrite fupd_eq.
Qed.
Next Obligation.
  cbn beta. intros fd o n d (Hop & Hb & Hlb & Hbuf) Ho Hn Hon. unfold raw_lseek, devfs_raw at 1, devio_lseek. cbn [Z.eqb snd]. change (0 =? 0) with true. cbv iota.
  set (d0 := set_offs fd (base (opendevs d fd) + o) d).
  assert (opendevs d0 fd = with_offs o (opendevs d fd)) as Edev.
  { unfold d0, set_offs, set_dev. cbn. rewrite fupd_eq, Hb, s64_small by lia. done. }
  apply (devfs_read_ok fd o n d0); [|by rewrite Edev|lia|lia|lia].
  split; [|split; [by rewrite Edev|split; [done|done]]]. destruct Hop. split; cbn -[opendevs]; rewrite ?Edev; done.
Qed.
End Interface.

(** ** Properties *)

(** C38: [devio_lseek] and [devio_read] make a byte stream of a disk that transfers whole
    blocks: after a seek to [o], a read of [blen] bytes ends, returns [blen] and has put the
    bytes [o], ..., [o + blen - 1] of the disk into the buffer, for every offset and
    length, aligned or not, and whether or not the bounce buffer is used; no other byte of
    memory but the two scratch buffers changes, no other open device is touched, and the
    next read goes on where this one ended. *)
Theorem devio_read_bytes {U : Type} `{UsbTransport U} (tb : usb_tables) (ss : Z) `{!ScsiDisk U ss} (fd buf o blen : Z) (d : devfs U) :
  disk_open tb ss fd d -> base (opendevs d fd) = 0 -> 0 <= o -> 0 <= blen < 2 ^ 31 -> o + blen <= 2 ^ 40 - 512 -> spare_block tb d buf blen ->
  let '(pos, d1) := devio_lseek fd o 0 d in
  exists d2, devio_read tb fd buf blen d1 = Some (blen, d2) /\ pos = o /\
    (forall i, 0 <= i < blen -> mem d2 (buf + i) = s8 (disk (o + i))) /\
    (forall a, ~ (buf <= a < buf + blen) -> ~ scratch tb d a -> mem d2 a = mem d a) /\
    offs (opendevs d2 fd) = o + blen /\ (forall fd', fd' <> fd -> opendevs d2 fd' = opendevs d fd') /\ disk_open tb ss fd d2.
Proof.
  intros Hop Hb Ho Hl Hlim Hfree. unfold devio_lseek. change (0 =? 0) with true. cbv iota.
  set (d1 := set_offs fd (base (opendevs d fd) + o) d).
  assert (opendevs d1 fd = with_offs o (opendevs d fd)) as Edev.
  { unfold d1, set_offs, set_dev. cbn. rewrite fupd_eq, Hb, s64_small by lia. done. }
  assert (disk_open tb ss fd d1) as Hop1 by (destruct Hop; split; cbn -[opendevs]; rewrite ?Edev; done).
  rewrite Edev. cbn [offs base with_offs].
  destruct (devio_read_ok tb ss fd buf blen d1 Hop1) as (d2 & E & Hrd); rewrite ?Edev; cbn [with_offs offs base]; [lia|lia|lia|done|].
  rewrite Edev in Hrd. cbn [with_offs offs] in Hrd. pose proof (have_read_open _ _ _ _ _ _ _ _ Hop1 Hrd) as Hop2. destruct Hrd.
  exists d2. split; [done|]. split; [rewrite s64_small; lia|]. split; [|split; [|split; [|split]]].
  - intros i Hi. rewrite hr_mem0, load_in by (try lia; destruct Hfree as (? & ? & ?); unfold scratch, disjoint, DEV_BSIZE in *; cbn; lia).
    f_equal. f_equal. lia.
  - intros a Ha Hs. rewrite hr_mem0 by done. apply load_out. lia.
  - rewrite hr_dev0, Edev. done.
  - intros fd' Hne. rewrite hr_other0 by done. unfold d1, set_offs, set_dev. cbn. by rewrite fupd_ne.
  - done.
Qed.

(** A stick with one partition of bytes that count up, read from the middle of a block over
    two block boundaries into an address that is not aligned. *)
Definition stick_tables : usb_tables :=
  {| devnum := fun i => i + 1; usb_dev_desc := fun _ => {| target := 2; lun := 0; blksz := 512 |}; bulkbuf := 0x10000 |}.

Definition stick_byte (a : Z) : Z := a mod 251.

Definition stick_open : devfs unit := Devfs (fun _ => Biodev 0 0 1 0 0 0x10000000000) 0x20000 0 (fun _ => 7) tt.

Lemma stick_is_open (fd : Z) : @disk_open unit (ram_transport stick_byte) stick_tables 1 (ram_disk stick_byte 1) fd stick_open.
Proof. split; unfold usb_found, in_space, disjoint; cbn; unfold bulkbuf_size, DEV_BSIZE; split_and?; try done; lia. Qed.

Lemma devio_read_bytes_witness :
  exists d2, devio_read (H := ram_transport stick_byte) stick_tables 3 0x3001 2000 (devio_lseek 3 700 0 stick_open).2 = Some (2000, d2) /\
    mem d2 0x3001 = s8 (stick_byte 700) /\ mem d2 (0x3001 + 1999) = s8 (stick_byte 2699) /\ mem d2 0x3000 = 7.
Proof.
  destruct (@devio_read_bytes unit (ram_transport stick_byte) stick_tables 1 (ram_disk stick_byte 1) 3 0x3001 700 2000 stick_open)
    as (d2 & E & _ & Hin & Hout & _).
  - apply stick_is_open.
  - reflexivity.
  - lia.
  - lia.
  - lia.
  - unfold spare_block, in_space, disjoint, stick_tables, stick_open, bulkbuf_size, DEV_BSIZE. cbn. lia.
  - exists d2. split; [exact E|]. split; [|split].
    + apply (Hin 0). lia.
    + apply (Hin 1999). lia.
    + rewrite Hout; [reflexivity|lia|unfold scratch, stick_tables, stick_open, bulkbuf_size, DEV_BSIZE; cbn; lia].
Defined.
