(* ===== verification/Fat.v ===== *)
(** * The FAT file system: tables, chains and file data (os/filesys/fatfs.c)
    Reading of 12, 16 and 32-bit allocation tables, the chain of clusters of a file, and
    [fat_read], which transfers runs of adjacent clusters at once. *)

From S2P Require Import Prelude Mem UsbStorage Devfs.

Definition SECTORSIZE : Z := 512.
Definition TYPE_FAT12 : Z := 1.
Definition TYPE_FAT16 : Z := 2.
Definition TYPE_FAT32 : Z := 3.
Definition CLUST_EOFE : Z := 0xffffffff.
Definition FAT12_MASK : Z := 0x00000fff.
Definition FAT16_MASK : Z := 0x0000ffff.
Definition FAT32_MASK : Z := 0x0fffffff.

Record fatchain := Fatchain { start : Z; entries : list Z; count : Z }.

Record fat_fileentry := Fileentry {
  longName : list Z; shortName : list Z; HighClust : Z; StartCluster : Z; FileSize : Z; Chain : fatchain }.

(** The fields of [struct fat_sc] that [fat_init] sets once. *)
Record geometry := Geometry {
  fd : Z; FatType : Z; BytesPerSec : Z; SecPerClust : Z; ResSectors : Z; NumFATs : Z; RootDirEnts : Z; TotalSectors : Z; FATsecs : Z;
  RootDirSectors : Z; CountOfClusters : Z; ClusterSize : Z; FirstRootDirSecNum : Z; DataSectors : Z; DataSectorBase : Z;
  PartitionStart : Z; RootClus : Z; BytesPerClust : Z }.

(** [struct fat_sc]: buffers are what they hold.  [LastSectorBuffer] is what the block holds
    that was allocated for it; [fat_init] has freed this block when a file is open, so that
    other blocks may lie in it.  [entries_at] is where [Chain.entries] is, in bytes from the
    start of the block: from 0 to its length when [malloc] put the entries into it. *)
Record fat_sc := FatSc {
  geo : geometry;
  FatBuffer : list Z; FatCacheNum : Z;
  DirBuffer : list Z; DirCacheNum : Z;
  file : fat_fileentry;
  LastSector : Z; LastSectorBuffer : list Z;
  BytesOfBuffer : Z; SectorsOfBuffer : Z;
  nextBytesOfBuffer : Z; nextSectorsOfBuffer : Z;
  entries_at : Z }.

Definition set_fat_buffer (b : list Z) (n : Z) (f : fat_sc) : fat_sc :=
  FatSc (geo f) b n (DirBuffer f) (DirCacheNum f) (file f) (LastSector f) (LastSectorBuffer f) (BytesOfBuffer f) (SectorsOfBuffer f) (nextBytesOfBuffer f) (nextSectorsOfBuffer f) (entries_at f).
Definition set_dir_buffer (b : list Z) (f : fat_sc) : fat_sc :=
  FatSc (geo f) (FatBuffer f) (FatCacheNum f) b (DirCacheNum f) (file f) (LastSector f) (LastSectorBuffer f) (BytesOfBuffer f) (SectorsOfBuffer f) (nextBytesOfBuffer f) (nextSectorsOfBuffer f) (entries_at f).
Definition set_dir_cache (n : Z) (f : fat_sc) : fat_sc :=
  FatSc (geo f) (FatBuffer f) (FatCacheNum f) (DirBuffer f) n (file f) (LastSector f) (LastSectorBuffer f) (BytesOfBuffer f) (SectorsOfBuffer f) (nextBytesOfBuffer f) (nextSectorsOfBuffer f) (entries_at f).
Definition set_file (e : fat_fileentry) (f : fat_sc) : fat_sc :=
  FatSc (geo f) (FatBuffer f) (FatCacheNum f) (DirBuffer f) (DirCacheNum f) e (LastSector f) (LastSectorBuffer f) (BytesOfBuffer f) (SectorsOfBuffer f) (nextBytesOfBuffer f) (nextSectorsOfBuffer f) (entries_at f).
Definition set_last (sector : Z) (b : list Z) (bytes sectors : Z) (f : fat_sc) : fat_sc :=
  FatSc (geo f) (FatBuffer f) (FatCacheNum f) (DirBuffer f) (DirCacheNum f) (file f) sector b bytes sectors (nextBytesOfBuffer f) (nextSectorsOfBuffer f) (entries_at f).
Definition set_next (bytes sectors : Z) (f : fat_sc) : fat_sc :=
  FatSc (geo f) (FatBuffer f) (FatCacheNum f) (DirBuffer f) (DirCacheNum f) (file f) (LastSector f) (LastSectorBuffer f) (BytesOfBuffer f) (SectorsOfBuffer f) bytes sectors (entries_at f).

(** ** Entries in the block of the buffer *)

(** An entry of the chain, little-endian at [off] from the start of the block, after [b] has
    been written to the front of the block. *)
Definition clobber_entry (off : Z) (b : list Z) (entry : Z) : Z :=
  if Z.max 0 off <? Z.min (Z.of_nat (length b)) (off + 4) then
    let byte j := if (0 <=? off + j) && (off + j <? Z.of_nat (length b)) then znth 0 b (off + j) else Z.land (Z.shiftr entry (8 * j)) 0xFF in
    byte 0 + 2 ^ 8 * byte 1 + 2 ^ 16 * byte 2 + 2 ^ 24 * byte 3
  else entry.

Definition clobber (off : Z) (b l : list Z) : list Z := imap (fun i entry => clobber_entry (off + 4 * Z.of_nat i) b entry) l.

(** The open file, after [b] has been written to the front of its buffer. *)
Definition clobber_file (b : list Z) (f : fat_sc) : fat_sc :=
  let e := file f in
  let c := Chain e in
  set_file (Fileentry (longName e) (shortName e) (HighClust e) (StartCluster e) (FileSize e) (Fatchain (start c) (clobber (entries_at f) b (entries c)) (count c))) f.

Section Fat.
Context {D : Type} `{RawDevice D}.
Implicit Types (g : geometry) (f : fat_sc) (d : D).

(** The result and what is in the buffer. *)
Definition readsector g (sector cnt : Z) d : option (Z * list Z * D) :=
  let res := s64 (PartitionStart g * SECTORSIZE + SECTORSIZE * sector) in
  let d := raw_lseek (fd g) res 0 d in
  match raw_read (fd g) (u32 (SECTORSIZE * cnt)) d with
  | Some (b, res, d) => Some (if res =? s32 (SECTORSIZE * cnt) then 1 else -1, b, d)
  | None => None
  end.

(** A sector of the table is read into [FatBuffer]. *)
Definition read_fat_sector (fatsect : Z) f d : option (Z * fat_sc * D) :=
  match readsector (geo f) (s32 (fatsect +u ResSectors (geo f))) 1 d with
  | Some (res, b, d) => Some (if res <? 0 then (res, set_fat_buffer b (FatCacheNum f) f, d) else (res, set_fat_buffer b (s32 fatsect) f, d))
  | None => None
  end.

(** [if (fsc->FatCacheNum != fatsect)] *)
Definition cache_fat_sector (fatsect : Z) f d : option (Z * fat_sc * D) :=
  if negb (u32 (FatCacheNum f) =? fatsect) then read_fat_sector fatsect f d else Some (1, f, d).

Definition fat_at f (i : Z) : Z := znth 0 (FatBuffer f) i.

(** A byte of the table that may lie in the next sector. *)
Definition spill (fatsect fatoffset k : Z) f d : option (Z * Z * fat_sc * D) :=
  if fatoffset +u k >=? SECTORSIZE then
    match read_fat_sector (fatsect +u 1) f d with
    | Some (res, f, d) => Some (res, if res <? 0 then fatoffset else fatoffset -u SECTORSIZE, f, d)
    | None => None
    end
  else Some (1, fatoffset, f, d).

Definition getFatEntry12 (entry : Z) f d : option (Z * fat_sc * D) :=
  let odd := Z.land entry 1 in
  let byteoffset := u32 (Z.quot (s32 (Z.land entry (Z.lnot 1) * 3)) 2) in
  let fatsect := byteoffset / SECTORSIZE in
  let fatoffset := byteoffset mod SECTORSIZE in
  match cache_fat_sector fatsect f d with
  | None => None
  | Some (res, f, d) =>
      if res <? 0 then Some (u32 res, f, d)
      else
        let b1 := fat_at f fatoffset in
        match spill fatsect fatoffset 1 f d with
        | None => None
        | Some (res, fatoffset, f, d) =>
            if res <? 0 then Some (u32 res, f, d)
            else
              let b2 := fat_at f (fatoffset +u 1) in
              match spill fatsect fatoffset 2 f d with
              | None => None
              | Some (res, fatoffset, f, d) =>
                  if res <? 0 then Some (u32 res, f, d)
                  else
                    let b3 := fat_at f (fatoffset +u 2) in
                    Some (if negb (odd =? 0) then u32 (Z.shiftl b3 4) +u Z.shiftr (Z.land b2 0xF0) 4
                          else u32 (Z.shiftl (Z.land b2 0x0F) 8) +u b1, f, d)
              end
        end
  end.

Definition getFatEntry16 (entry : Z) f d : option (Z * fat_sc * D) :=
  let byteoffset := u32 (s32 (entry * 2)) in
  let fatsect := byteoffset / SECTORSIZE in
  let fatoffset := byteoffset mod SECTORSIZE in
  match cache_fat_sector fatsect f d with
  | None => None
  | Some (res, f, d) =>
      if res <? 0 then Some (u32 res, f, d)
      else Some (fat_at f fatoffset +u u32 (Z.shiftl (fat_at f (fatoffset +u 1)) 8), f, d)
  end.

Definition getFatEntry32 (entry : Z) f d : option (Z * fat_sc * D) :=
  let byteoffset := u32 (s32 (entry * 4)) in
  let fatsect := byteoffset / SECTORSIZE in
  let fatoffset := byteoffset mod SECTORSIZE in
  match cache_fat_sector fatsect f d with
  | None => None
  | Some (res, f, d) =>
      if res <? 0 then Some (u32 res, f, d)
      else Some (fat_at f fatoffset +u u32 (Z.shiftl (fat_at f (fatoffset +u 1)) 8)
                 +u u32 (Z.shiftl (fat_at f (fatoffset +u 2)) 16) +u u32 (Z.shiftl (fat_at f (fatoffset +u 3)) 24), f, d)
  end.

Definition getFatEntry (entry : Z) f d : option (Z * fat_sc * D) :=
  if FatType (geo f) =? TYPE_FAT12 then getFatEntry12 entry f d
  else if FatType (geo f) =? TYPE_FAT16 then getFatEntry16 entry f d
  else if FatType (geo f) =? TYPE_FAT32 then getFatEntry32 entry f d
  else Some (0, f, d).

Definition fat_mask g : Z :=
  if FatType g =? TYPE_FAT12 then FAT12_MASK else if FatType g =? TYPE_FAT16 then FAT16_MASK else if FatType g =? TYPE_FAT32 then FAT32_MASK else 0.

Definition is_bad (mask entry : Z) : bool := entry =? Z.land (Z.land CLUST_EOFE mask) 0xfffffff7.
Definition is_eof (mask entry : Z) : bool := entry >=? Z.land (Z.land CLUST_EOFE mask) 0xfffffff8.

(** The first loop counts the links; [None] at a bad cluster. *)
Fixpoint count_chain (fuel : nat) (mask flag cnt : Z) f d : option (option Z * fat_sc * D) :=
  match fuel with
  | O => None
  | S fuel =>
      match getFatEntry flag f d with
      | None => None
      | Some (entry, f, d) =>
          if is_bad mask entry then Some (None, f, d)
          else if is_eof mask entry then Some (Some cnt, f, d)
          else count_chain fuel mask (s32 entry) (s32 (cnt + 1)) f d
      end
  end.

(** [chain->entries[i] = v] *)
Definition set_entry (i v : Z) (l : list Z) : option (list Z) :=
  if (0 <=? i) && (i <? Z.of_nat (length l)) then Some (<[Z.to_nat i := v]> l) else None.

(** The second one notes them. *)
Fixpoint fill_chain (fuel : nat) (mask flag i : Z) (l : list Z) f d : option (Z * list Z * fat_sc * D) :=
  match fuel with
  | O => None
  | S fuel =>
      match getFatEntry flag f d with
      | None => None
      | Some (entry, f, d) =>
          match set_entry (i + 1) entry l with
          | None => None
          | Some l =>
              if is_bad mask entry then Some (-1, l, f, d)
              else if is_eof mask entry then Some (1, l, f, d)
              else fill_chain fuel mask (s32 entry) (s32 (i + 1)) l f d
          end
      end
  end.

(** [chain] comes in as the caller left it, and stays so when the first loop meets a bad
    cluster.  The allocation of the entries succeeds. *)
Definition fat_getChain (fuel : nat) (strt : Z) (chain : fatchain) f d : option (Z * fatchain * fat_sc * D) :=
  let mask := fat_mask (geo f) in
  match count_chain fuel mask strt 0 f d with
  | None => None
  | Some (None, f, d) => Some (-1, chain, f, d)
  | Some (Some cnt, f, d) =>
      let cnt := s32 (cnt + 1) in
      match set_entry 0 (u32 strt) (replicate (Z.to_nat (cnt + 128)) 0) with
      | None => None
      | Some l =>
          match fill_chain fuel mask strt 0 l f d with
          | Some (r, l, f, d) => Some (r, Fatchain strt l cnt, f, d)
          | None => None
          end
      end
  end.

(** ** Where the data is *)

Definition getSectorIndex f (chain : fatchain) (index clust_num : Z) : option Z :=
  let g := geo f in
  let clusterIndex := Z.quot index (SecPerClust g) in
  let sectorIndex := Z.rem index (SecPerClust g) in
  let sector entry := s32 (DataSectorBase g +u s32 (s32 (entry - 2) * SecPerClust g) +u sectorIndex) in
  if clusterIndex <? count chain then
    if clust_num <? 0 then None else entry ← entries chain !! Z.to_nat clust_num; Some (sector (s32 entry))
  else Some (sector (-1)).

(** The loop over the clusters that follow each other, [n] of them at most: how many there
    are, and the first. *)
Fixpoint run_loop (n : nat) (i clusterIndex : Z) (chain : fatchain) (entry0 lastentry : Z) : option (Z * Z) :=
  match n with
  | O => Some (i, entry0)
  | S n =>
      if clusterIndex <? count chain then
        if clusterIndex <? 0 then None
        else
          match entries chain !! Z.to_nat clusterIndex with
          | None => None
          | Some entry =>
              let entry := s32 entry in
              let entry0 := if i =? 0 then entry else entry0 in
              if negb (i =? 0) && negb (s32 (lastentry + 1) =? entry) then Some (i, entry0)
              else run_loop n (i + 1) (s32 (clusterIndex + 1)) chain entry0 entry
          end
      else Some (i, entry0)
  end.

Definition min32 (a b : Z) : Z := if a <? b then a else b.

(** [MAX_BUFSZ_CLUSTS] is one variable for all files. *)
Definition getSectorIndex_read (MAX_BUFSZ_CLUSTS : Z) (chain : fatchain) (index need : Z) f : option (Z * fat_sc) :=
  let g := geo f in
  let sectorIndex := Z.rem index (SecPerClust g) in
  match run_loop (Z.to_nat (min32 (Z.quot (s32 (need + SecPerClust g - 1)) (SecPerClust g)) MAX_BUFSZ_CLUSTS))
          0 (Z.quot index (SecPerClust g)) chain 0 0 with
  | None => None
  | Some (i, entry0) =>
      let next := min32 (s32 (i * SecPerClust g - sectorIndex)) need in
      let sector := s32 (DataSectorBase g +u s32 (s32 (entry0 - 2) * SecPerClust g) +u sectorIndex) in
      Some (sector, set_next (u32 (u32 next * SECTORSIZE)) (u32 next) f)
  end.

(** What is read goes to the front of the buffer.  The rest of what the block holds does not
    matter: [fat_read] copies nothing but bytes that it has read before. *)
Definition overwrite (b old : list Z) : option (list Z) :=
  if (length b <=? length old)%nat then Some (b ++ drop (length b) old) else None.

(** The loop of [fat_read]; [out] is what has been copied to the caller.  A copy from
    outside of the buffer has no result.  The sectors that are read go into the freed block,
    and over the entries of the chain if they are there. *)
Fixpoint fat_read_loop (fuel : nat) (MAX_BUFSZ_CLUSTS posn len totalcopy : Z) (out : list Z) f d : option (Z * Z * list Z * Z * fat_sc * D) :=
  if len =? 0 then Some (0, totalcopy, out, posn, f, d) else
  match fuel with
  | O => None
  | S fuel =>
      let sectorIndex := s32 (Z.quot posn SECTORSIZE) in
      match getSectorIndex_read MAX_BUFSZ_CLUSTS (Chain (file f)) sectorIndex (s32 ((len +u SECTORSIZE -u 1) / SECTORSIZE)) f with
      | None => None
      | Some (sector, f) =>
          match
            (if (LastSector f =? -1) || (sector <? LastSector f) || (u32 sector >=? LastSector f +u SectorsOfBuffer f) then
               match readsector (geo f) sector (s32 (nextSectorsOfBuffer f)) d with
               | None => None
               | Some (res, b, d) =>
                   match overwrite b (LastSectorBuffer f) with
                   | None => None
                   | Some b' => Some (res, set_last sector b' (nextBytesOfBuffer f) (nextSectorsOfBuffer f) (clobber_file b f), d)
                   end
               end
             else Some (0, f, d))
          with
          | None => None
          | Some (res, f, d) =>
              if res <? 0 then Some (res, totalcopy, out, posn, f, d)
              else
                let offset := s32 (s32 (s32 (sector - LastSector f) * SECTORSIZE) + Z.rem posn SECTORSIZE) in
                let copylen := s32 len in
                let copylen := if u32 copylen >? BytesOfBuffer f -u offset then s32 (BytesOfBuffer f -u offset) else copylen in
                if (offset <? 0) || (copylen <? 0) || (Z.of_nat (length (LastSectorBuffer f)) <? offset + copylen) then None
                else
                  fat_read_loop fuel MAX_BUFSZ_CLUSTS (s64 (posn + copylen)) (len -u copylen) (s32 (totalcopy + copylen))
                    (out ++ take (Z.to_nat copylen) (drop (Z.to_nat offset) (LastSectorBuffer f))) f d
          end
      end
  end.

(** [posn] is [_file[fd].posn]: the result, the bytes copied, and the state. *)
Definition fat_read (MAX_BUFSZ_CLUSTS posn len : Z) f d : option (Z * list Z * Z * fat_sc * D) :=
  let origpos := s32 posn in
  if posn >=? FileSize (file f) then Some (-1, [], posn, f, d)
  else
    let len := if s64 (posn + len) >? FileSize (file f) then u32 (FileSize (file f) - posn) else len in
    match fat_read_loop (Z.to_nat len) MAX_BUFSZ_CLUSTS posn len 0 [] f d with
    | None => None
    | Some (res, totalcopy, out, posn, f, d) =>
        if res <? 0 then Some (res, out, origpos, f, d) else Some (totalcopy, out, posn, f, d)
    end.

(** The result, the position and whether [errno] is set to [EINVAL]. *)
Definition fat_lseek (offset whence posn : Z) f : Z * Z * bool :=
  if whence =? 0 then (offset, offset, false)
  else if whence =? 1 then let p := s64 (posn + offset) in (p, p, false)
  else if whence =? 2 then let p := s64 (FileSize (file f) + offset) in (p, p, false)
  else (-1, posn, true).
End Fat.
