(* ===== verification/FatTable.v ===== *)
(** * The allocation table and the chains of clusters, specified
    What [getFatEntry] and [fat_getChain] compute, in terms of the bytes of the disk. *)

From S2P Require Import Prelude Mem UsbStorage Devfs Fat.

Section Spec.
Context {D : Type} `{RawDisk D}.
Implicit Types (g : geometry) (f : fat_sc) (d : D).

(** The table begins behind the reserved sectors. *)
Definition table_byte g (k : Z) : Z := raw_byte ((PartitionStart g + ResSectors g) * 512 + k).

Definition le16 g (k : Z) : Z := table_byte g k + 2 ^ 8 * table_byte g (k + 1).
Definition le32 g (k : Z) : Z := le16 g k + 2 ^ 16 * le16 g (k + 2).

(** Entry [n]: the low or the high twelve bits of the word that begins at byte [1.5 * n],
    or a little-endian word of 16 or 32 bits. *)
Definition fat_entry g (n : Z) : Z :=
  if FatType g =? TYPE_FAT12 then
    let w := le16 g (n + n / 2) in if Z.even n then w mod 2 ^ 12 else w / 2 ^ 4
  else if FatType g =? TYPE_FAT16 then le16 g (2 * n)
  else if FatType g =? TYPE_FAT32 then le32 g (4 * n)
  else 0.

(** One more than the last number of a cluster. *)
Definition entries_max g : Z :=
  if FatType g =? TYPE_FAT12 then 2 ^ 12 else if FatType g =? TYPE_FAT16 then 2 ^ 16 else 2 ^ 28.

Record geo_ok g : Prop := {
  ok_type : FatType g = TYPE_FAT12 \/ FatType g = TYPE_FAT16 \/ FatType g = TYPE_FAT32;
  ok_part : 0 <= PartitionStart g < 2 ^ 30;
  ok_res : 0 <= ResSectors g < 2 ^ 16;
  ok_limit : 512 <= raw_limit }.

(** The cache holds the sector of the table it says, if any. *)
Definition sector_bytes g (s cnt : Z) : list Z := map raw_byte (seqZ (512 * (PartitionStart g + s)) (512 * cnt)).

Definition cache_ok f : Prop :=
  FatCacheNum f = -1 \/ 0 <= FatCacheNum f < 2 ^ 22 /\ FatBuffer f = sector_bytes (geo f) (ResSectors (geo f) + FatCacheNum f) 1.

(** [f'] is [f] but for the cache of the table. *)
Definition but_cache f f' : Prop := f' = set_fat_buffer (FatBuffer f') (FatCacheNum f') f.

Lemma but_cache_refl f : but_cache f f.
Proof. by destruct f. Qed.

Lemma but_cache_trans f1 f2 f3 : but_cache f1 f2 -> but_cache f2 f3 -> but_cache f1 f3.
Proof. unfold but_cache, set_fat_buffer. destruct f1, f2, f3. cbn. congruence. Qed.

Lemma but_cache_geo f f' : but_cache f f' -> geo f' = geo f.
Proof. unfold but_cache. by intros ->. Qed.

(** After a step that may have changed the cache only. *)
Definition table_state f d f' d' : Prop := but_cache f f' /\ cache_ok f' /\ raw_open (fd (geo f)) d'.

Lemma table_state_trans f1 d1 f2 d2 f3 d3 : table_state f1 d1 f2 d2 -> table_state f2 d2 f3 d3 -> table_state f1 d1 f3 d3.
Proof.
  intros (H1 & _ & _) (H2 & H3 & H4). split_and!; [by eapply but_cache_trans|done|]. by rewrite (but_cache_geo _ _ H1) in H4.
Qed.

Lemma sector_bytes_lookup g (s cnt i : Z) : 0 <= i < 512 * cnt -> znth 0 (sector_bytes g s cnt) i = raw_byte (512 * (PartitionStart g + s) + i).
Proof. intros Hi. unfold znth, sector_bytes. rewrite list_lookup_fmap, lookup_seqZ_lt by lia. cbn. f_equal. lia. Qed.

Lemma sector_bytes_length g (s cnt : Z) : length (sector_bytes g s cnt) = Z.to_nat (512 * cnt).
Proof. unfold sector_bytes. by rewrite length_map, length_seqZ. Qed.

Lemma readsector_ok g (s cnt : Z) d : raw_open (fd g) d -> 0 <= PartitionStart g + s -> 0 <= cnt -> 512 * cnt <= raw_limit -> 512 * cnt < 2 ^ 31 ->
  PartitionStart g + s + cnt < 2 ^ 31 -> exists d', readsector g s cnt d = Some (1, sector_bytes g s cnt, d') /\ raw_open (fd g) d'.
Proof.
  intros Hop Hs Hc Hlim Hc32 Hb. unfold readsector, SECTORSIZE. rewrite s64_small by lia. rewrite u32_small by lia.
  replace (PartitionStart g * 512 + 512 * s) with (512 * (PartitionStart g + s)) by lia.
  destruct (raw_read_at (fd g) (512 * (PartitionStart g + s)) (512 * cnt) d Hop) as (d' & E & Hop'); [lia|lia|lia|].
  exists d'. rewrite E, s32_small, Z.eqb_refl by lia. done.
Qed.

Lemma read_fat_sector_ok (c : Z) f d : geo_ok (geo f) -> raw_open (fd (geo f)) d -> 0 <= c < 2 ^ 22 ->
  exists f' d', read_fat_sector c f d = Some (1, f', d') /\ table_state f d f' d' /\ FatCacheNum f' = c.
Proof.
  intros [] Hop Hc. unfold read_fat_sector. rewrite u32_small, s32_small by lia.
  destruct (readsector_ok (geo f) (c + ResSectors (geo f)) 1 d Hop) as (d' & -> & Hop'); [lia|lia|lia|lia|lia|].
  cbn [Z.ltb Z.compare]. rewrite s32_small by lia. eexists _, d'. split; [reflexivity|]. split; [|done]. split_and!; [done| |done].
  right. cbn. split; [lia|]. f_equal. lia.
Qed.

Lemma cache_fat_sector_ok (c : Z) f d : geo_ok (geo f) -> raw_open (fd (geo f)) d -> cache_ok f -> 0 <= c < 2 ^ 22 ->
  exists f' d', cache_fat_sector c f d = Some (1, f', d') /\ table_state f d f' d' /\ FatCacheNum f' = c.
Proof.
  intros Hg Hop Hc Hb. unfold cache_fat_sector. destruct (Z.eqb_spec (u32 (FatCacheNum f)) c) as [E|E]; cbn [negb].
  - exists f, d. split; [done|]. split; [split_and!; [apply but_cache_refl|done|done]|].
    destruct Hc as [Ec|[Hr _]]; [rewrite Ec in E; change (u32 (-1)) with 4294967295 in E; lia|]. rewrite u32_small in E; lia.
  - by apply read_fat_sector_ok.
Qed.

(** A byte of the table from the cache. *)
Lemma fat_at_ok (i : Z) f : cache_ok f -> 0 <= FatCacheNum f -> 0 <= i < 512 -> fat_at f i = table_byte (geo f) (512 * FatCacheNum f + i).
Proof.
  intros [Hc|[_ Hc]] Hn0 Hi; [lia|]. unfold fat_at. rewrite Hc, sector_bytes_lookup by lia. unfold table_byte. f_equal. lia.
Qed.

Lemma table_byte_range g (k : Z) : 0 <= table_byte g k < 2 ^ 8.
Proof. apply raw_octet. Qed.

Lemma le16_range g (k : Z) : 0 <= le16 g k < 2 ^ 16.
Proof. unfold le16. pose proof (table_byte_range g k). pose proof (table_byte_range g (k + 1)). lia. Qed.

Lemma le32_range g (k : Z) : 0 <= le32 g k < 2 ^ 32.
Proof. unfold le32. pose proof (le16_range g k). pose proof (le16_range g (k + 2)). lia. Qed.

(** The place of a byte. *)
Lemma place (k : Z) : 0 <= k -> 512 * (k / SECTORSIZE) + k mod SECTORSIZE = k /\ 0 <= k mod SECTORSIZE < 512.
Proof. intros Hk. unfold SECTORSIZE. zlia. Qed.

(** ** Entries *)

Lemma shift_byte (b k : Z) : 0 <= b < 2 ^ 8 -> 0 <= k <= 24 -> u32 (Z.shiftl b k) = 2 ^ k * b.
Proof.
  intros Hb Hk. rewrite Z.shiftl_mul_pow2 by lia. pose proof (Z.pow_le_mono_r 2 k 24 ltac:(lia) ltac:(lia)).
  pose proof (Z.pow_pos_nonneg 2 k). rewrite u32_small; [lia|nia].
Qed.

Lemma word16 (b1 b2 : Z) : 0 <= b1 < 2 ^ 8 -> 0 <= b2 < 2 ^ 8 -> b1 +u u32 (Z.shiftl b2 8) = b1 + 2 ^ 8 * b2.
Proof. intros. rewrite shift_byte, u32_small by lia. done. Qed.

Lemma word32 (b1 b2 b3 b4 : Z) : 0 <= b1 < 2 ^ 8 -> 0 <= b2 < 2 ^ 8 -> 0 <= b3 < 2 ^ 8 -> 0 <= b4 < 2 ^ 8 ->
  b1 +u u32 (Z.shiftl b2 8) +u u32 (Z.shiftl b3 16) +u u32 (Z.shiftl b4 24) = b1 + 2 ^ 8 * b2 + 2 ^ 16 * (b3 + 2 ^ 8 * b4).
Proof. intros. rewrite word16, !shift_byte by lia. rewrite (u32_small (b1 + 2 ^ 8 * b2 + 2 ^ 16 * b3)), u32_small by lia. lia. Qed.

(** The cached sector serves the bytes of an entry that does not cross its end. *)
Lemma fat_at_entry (k i : Z) f : cache_ok f -> 0 <= k -> FatCacheNum f = k / SECTORSIZE -> 0 <= i -> k mod SECTORSIZE + i < 512 ->
  fat_at f (k mod SECTORSIZE +u i) = table_byte (geo f) (k + i).
Proof.
  intros Hc Hk Hn Hi Hb. destruct (place k Hk) as [Hpl Hoff]. assert (0 <= k / SECTORSIZE) by (apply Z.div_pos; unfold SECTORSIZE; lia).
  rewrite u32_small by lia. rewrite fat_at_ok by (done || lia). f_equal. lia.
Qed.

Lemma getFatEntry16_ok (n : Z) f d : geo_ok (geo f) -> raw_open (fd (geo f)) d -> cache_ok f -> 0 <= n < 2 ^ 16 ->
  exists f' d', getFatEntry16 n f d = Some (le16 (geo f) (2 * n), f', d') /\ table_state f d f' d'.
Proof.
  intros Hg Hop Hc Hn. unfold getFatEntry16. rewrite s32_small, u32_small by lia.
  assert (0 <= n * 2 / SECTORSIZE < 2 ^ 22 /\ (n * 2) mod SECTORSIZE + 1 < 512 /\ 0 <= (n * 2) mod SECTORSIZE) as (Hs & Hb & Hm) by (unfold SECTORSIZE; zlia).
  destruct (cache_fat_sector_ok (n * 2 / SECTORSIZE) f d Hg Hop Hc Hs) as (f' & d' & -> & Hst & Hnum). change (1 <? 0) with false. cbv iota.
  exists f', d'. split; [|done]. destruct Hst as (Hbc & Hc' & _).
  pose proof (fat_at_entry (n * 2) 0 f' Hc' ltac:(lia) Hnum ltac:(lia) ltac:(lia)) as E0. rewrite !Z.add_0_r, (u32_small (_ mod _)) in E0 by lia.
  rewrite E0, fat_at_entry by (done || lia). rewrite word16 by apply table_byte_range. rewrite (but_cache_geo _ _ Hbc). unfold le16. by rewrite (Z.mul_comm n 2).
Qed.

Lemma getFatEntry32_ok (n : Z) f d : geo_ok (geo f) -> raw_open (fd (geo f)) d -> cache_ok f -> 0 <= n < 2 ^ 28 ->
  exists f' d', getFatEntry32 n f d = Some (le32 (geo f) (4 * n), f', d') /\ table_state f d f' d'.
Proof.
  intros Hg Hop Hc Hn. unfold getFatEntry32. rewrite s32_small, u32_small by lia.
  assert (0 <= n * 4 / SECTORSIZE < 2 ^ 22 /\ (n * 4) mod SECTORSIZE + 3 < 512 /\ 0 <= (n * 4) mod SECTORSIZE) as (Hs & Hb & Hm) by (unfold SECTORSIZE; zlia).
  destruct (cache_fat_sector_ok (n * 4 / SECTORSIZE) f d Hg Hop Hc Hs) as (f' & d' & -> & Hst & Hnum). change (1 <? 0) with false. cbv iota.
  exists f', d'. split; [|done]. destruct Hst as (Hbc & Hc' & _).
  pose proof (fat_at_entry (n * 4) 0 f' Hc' ltac:(lia) Hnum ltac:(lia) ltac:(lia)) as E0. rewrite !Z.add_0_r, (u32_small (_ mod _)) in E0 by lia.
  rewrite E0, !fat_at_entry by (done || lia). rewrite word32 by apply table_byte_range. rewrite (but_cache_geo _ _ Hbc). unfold le32, le16.
  rewrite (Z.mul_comm n 4), <- !(Z.add_assoc (4 * n)). cbn [Z.add Pos.add Pos.succ]. done.
Qed.

(** The bytes of a 12-bit entry: the cached sector [c] holds byte [k + j - 1], and after
    [spill] one that holds byte [k + j]; the offset is that of [k], and wraps around when
    [k] is in the sector before. *)
Lemma spill_ok (k j c : Z) f d : geo_ok (geo f) -> raw_open (fd (geo f)) d -> cache_ok f -> 0 <= k < 2 ^ 20 -> 1 <= j <= 2 ->
  FatCacheNum f = c -> 512 * c <= k + j - 1 < 512 * c + 512 -> k / SECTORSIZE <= c ->
  exists f' d' c', spill (k / SECTORSIZE) (u32 (k - 512 * c)) j f d = Some (1, u32 (k - 512 * c'), f', d') /\ table_state f d f' d' /\
    FatCacheNum f' = c' /\ 512 * c' <= k + j < 512 * c' + 512 /\ k / SECTORSIZE <= c'.
Proof.
  intros Hg Hop Hc Hk Hj Hn Hb Hs. assert (0 <= k / SECTORSIZE /\ 512 * (k / SECTORSIZE) <= k < 512 * (k / SECTORSIZE) + 512) as (Hs0 & Hs1) by (unfold SECTORSIZE; zlia).
  unfold spill. assert (u32 (k - 512 * c) +u j = k + j - 512 * c) as -> by (unfold u32; rewrite Zplus_mod_idemp_l, Z.mod_small; lia).
  destruct (Z.geb_spec (k + j - 512 * c) SECTORSIZE) as [Hge|Hlt]; unfold SECTORSIZE in Hge || unfold SECTORSIZE in Hlt.
  - assert (c = k / SECTORSIZE) as -> by lia. rewrite (u32_small (_ + 1)) by lia.
    destruct (read_fat_sector_ok (k / SECTORSIZE + 1) f d Hg Hop) as (f' & d' & -> & Hst & Hn'); [lia|].
    change (1 <? 0) with false. cbv iota. exists f', d', (k / SECTORSIZE + 1).
    split; [|split_and!; [done|done|lia|lia|lia]].
    assert (u32 (k - 512 * (k / SECTORSIZE)) -u SECTORSIZE = u32 (k - 512 * (k / SECTORSIZE + 1))) as ->; [|done].
    change SECTORSIZE with 512. unfold u32. rewrite Zminus_mod_idemp_l. f_equal. lia.
  - exists f, d, c. split_and!; [done| |done|lia|lia|done]. split_and!; [apply but_cache_refl|done|done].
Qed.

Lemma fat_at_spilled (k j c : Z) f : cache_ok f -> 0 <= k < 2 ^ 20 -> 0 <= j <= 2 -> FatCacheNum f = c -> 0 <= c -> 512 * c <= k + j < 512 * c + 512 ->
  fat_at f (u32 (k - 512 * c) +u j) = table_byte (geo f) (k + j).
Proof.
  intros Hc Hk Hj Hn Hc0 Hb. assert (u32 (k - 512 * c) +u j = k + j - 512 * c) as -> by (unfold u32; rewrite Zplus_mod_idemp_l, Z.mod_small; lia).
  rewrite fat_at_ok by (done || lia). f_equal. lia.
Qed.

Lemma nibbles (b1 b2 b3 : Z) : 0 <= b1 < 2 ^ 8 -> 0 <= b2 < 2 ^ 8 -> 0 <= b3 < 2 ^ 8 ->
  u32 (Z.shiftl b3 4) +u Z.shiftr (Z.land b2 0xF0) 4 = (b2 + 2 ^ 8 * b3) / 2 ^ 4 /\
  u32 (Z.shiftl (Z.land b2 0x0F) 8) +u b1 = (b1 + 2 ^ 8 * b2) mod 2 ^ 12.
Proof.
  intros H1 H2 H3.
  replace (Z.land b2 0xF0) with (b2 - b2 mod 16) by (symmetry; apply Z.eqb_eq, (range_check 256 (fun b => Z.land b 0xF0 =? b - b mod 16)); [by vm_compute|lia]).
  replace (Z.land b2 0x0F) with (b2 mod 16) by (symmetry; apply (land_pow2 4); lia).
  rewrite Z.shiftr_div_pow2, !Z.shiftl_mul_pow2 by lia. rewrite !(u32_small (_ * _)) by zlia. rewrite !u32_small by zlia. zlia.
Qed.

Lemma getFatEntry12_ok (n : Z) f d : geo_ok (geo f) -> raw_open (fd (geo f)) d -> cache_ok f -> 0 <= n < 2 ^ 12 ->
  exists f' d', getFatEntry12 n f d =
    Some (let w := le16 (geo f) (n + n / 2) in if Z.even n then w mod 2 ^ 12 else w / 2 ^ 4, f', d') /\ table_state f d f' d'.
Proof.
  intros Hg Hop Hc Hn. unfold getFatEntry12. set (k := 3 * (n / 2)).
  assert (u32 (Z.quot (s32 (Z.land n (Z.lnot 1) * 3)) 2) = k) as ->.
  { assert (Z.land n (Z.lnot 1) = 2 * (n / 2)) as ->.
    { rewrite <- Z.ldiff_land. change 1 with (Z.ones 1). rewrite Z.ldiff_ones_r, Z.shiftl_mul_pow2, Z.shiftr_div_pow2 by lia. change (2 ^ 1) with 2. lia. }
    rewrite s32_small by zlia. replace (2 * (n / 2) * 3) with (k * 2) by (unfold k; lia). rewrite Z.quot_mul, u32_small; unfold k; zlia. }
  assert (0 <= k < 2 ^ 14) as Hk by (unfold k; zlia).
  assert (0 <= k / SECTORSIZE < 2 ^ 5 /\ 512 * (k / SECTORSIZE) <= k < 512 * (k / SECTORSIZE) + 512) as (Hs0 & Hs1) by (unfold SECTORSIZE; zlia).
  assert (k mod SECTORSIZE = u32 (k - 512 * (k / SECTORSIZE))) as -> by (unfold SECTORSIZE in *; rewrite u32_small; [rewrite Z.mod_eq; lia|lia]).
  destruct (cache_fat_sector_ok (k / SECTORSIZE) f d Hg Hop Hc ltac:(lia)) as (f1 & d1 & -> & Hst1 & Hn1). change (1 <? 0) with false. cbv iota.
  pose proof Hst1 as (Hbc1 & Hc1 & Hop1). pose proof (but_cache_geo _ _ Hbc1) as Hg1. rewrite <- Hg1 in Hop1, Hg.
  destruct (spill_ok k 1 (k / SECTORSIZE) f1 d1 Hg Hop1 Hc1) as (f2 & d2 & c2 & -> & Hst2 & Hn2 & Hb2 & Hk2); [lia|lia|done|lia|lia|].
  change (1 <? 0) with false. cbv iota.
  pose proof Hst2 as (Hbc2 & Hc2 & Hop2). pose proof (but_cache_geo _ _ Hbc2) as Hg2. rewrite <- Hg2 in Hop2, Hg.
  destruct (spill_ok k 2 c2 f2 d2 Hg Hop2 Hc2) as (f3 & d3 & c3 & -> & Hst3 & Hn3 & Hb3 & Hk3); [lia|lia|done|lia|lia|].
  change (1 <? 0) with false. cbv iota.
  pose proof Hst3 as (Hbc3 & Hc3 & Hop3). pose proof (but_cache_geo _ _ Hbc3) as Hg3.
  exists f3, d3. split; [|by eapply table_state_trans, table_state_trans].
  rewrite (fat_at_spilled k 2 c3 f3), (fat_at_spilled k 1 c2 f2) by (done || lia).
  pose proof (fat_at_spilled k 0 (k / SECTORSIZE) f1 Hc1 ltac:(lia) ltac:(lia) Hn1 ltac:(lia) ltac:(lia)) as E0.
  rewrite !Z.add_0_r, u32_small in E0 by apply u32_range. rewrite E0, Hg3, Hg2, Hg1.
  destruct (nibbles (table_byte (geo f) k) (table_byte (geo f) (k + 1)) (table_byte (geo f) (k + 2))) as [Eodd Eeven]; [apply table_byte_range..|].
  change (Z.land n 1) with (Z.land n (Z.ones 1)). rewrite Z.land_ones by lia. change (2 ^ 1) with 2. rewrite Zmod_even. unfold le16.
  destruct (Z.even n) eqn:Ev; cbn [Z.eqb negb].
  - rewrite Eeven. apply Z.even_spec in Ev as [m Em]. replace (n + n / 2) with k by (unfold k; subst n; rewrite (Z.mul_comm 2 m), Z.div_mul; lia). done.
  - change (1 =? 0) with false. cbn [negb]. rewrite Eodd. assert (Z.odd n = true) as Od by (by rewrite <- Z.negb_even, Ev).
    apply Z.odd_spec in Od as [m Em]. replace (n + n / 2) with (k + 1) by (unfold k; zlia).
    replace (k + 1 + 1) with (k + 2) by lia. done.
Qed.

(** [getFatEntry] is the table, and changes nothing but the cache. *)
Lemma getFatEntry_ok (n : Z) f d : geo_ok (geo f) -> raw_open (fd (geo f)) d -> cache_ok f -> 0 <= n < entries_max (geo f) ->
  exists f' d', getFatEntry n f d = Some (fat_entry (geo f) n, f', d') /\ table_state f d f' d'.
Proof.
  intros Hg Hop Hc Hn. unfold getFatEntry, fat_entry. unfold entries_max in Hn. destruct (ok_type _ Hg) as [E|[E|E]]; rewrite E in *.
  - by apply getFatEntry12_ok.
  - by apply getFatEntry16_ok.
  - by apply getFatEntry32_ok.
Qed.
End Spec.
