(* ===== verification/FatChain.v ===== *)
(** * Chains of clusters
    [fat_getChain] follows the table from a first cluster. *)

From S2P Require Import Prelude Mem UsbStorage Devfs Fat FatTable.

Section Chain.
Context {D : Type} `{RawDisk D}.
Implicit Types (g : geometry) (f : fat_sc) (d : D).

(** The clusters from [c] on; [true]: to the end of a chain, [false]: to a link to a bad
    cluster. *)
Inductive walk g : Z -> list Z -> bool -> Prop :=
  | walk_bad c : is_bad (fat_mask g) (fat_entry g c) = true -> walk g c [c] false
  | walk_end c : is_bad (fat_mask g) (fat_entry g c) = false -> is_eof (fat_mask g) (fat_entry g c) = true -> walk g c [c] true
  | walk_link c l b : is_bad (fat_mask g) (fat_entry g c) = false -> is_eof (fat_mask g) (fat_entry g c) = false ->
      walk g (fat_entry g c) l b -> walk g c (c :: l) b.

Lemma walk_det g (c : Z) (l l' : list Z) (b b' : bool) : walk g c l b -> walk g c l' b' -> l = l' /\ b = b'.
Proof.
  intros Hw. revert l' b'. induction Hw as [c E|c E1 E2|c l b E1 E2 Hw IH]; intros l' b' Hw'; inversion Hw'; subst; try congruence; try done.
  match goal with Hx : walk g (fat_entry g c) _ _ |- _ => destruct (IH _ _ Hx) as [-> ->] end. done.
Qed.

Lemma walk_suffix g (c x : Z) (l : list Z) (b : bool) : walk g c l b -> x ∈ l -> exists l', walk g x l' b /\ l' `suffix_of` l.
Proof.
  intros Hw. induction Hw as [c E|c E1 E2|c l b E1 E2 Hw IH]; intros Hx.
  - apply list_elem_of_singleton in Hx as ->. exists [c]. split; [by constructor|done].
  - apply list_elem_of_singleton in Hx as ->. exists [c]. split; [by constructor|done].
  - apply elem_of_cons in Hx as [->|Hx]; [exists (c :: l); split; [by constructor|done]|].
    destruct (IH Hx) as (l' & Hl' & Hs). exists l'. split; [done|]. by apply suffix_cons_r.
Qed.

(** A chain that ends has no cluster twice. *)
Lemma walk_nodup g (c : Z) (l : list Z) (b : bool) : walk g c l b -> NoDup l.
Proof.
  intros Hw. pose proof Hw as Hw0. induction Hw as [c E|c E1 E2|c l b E1 E2 Hw IH]; [apply NoDup_singleton..|].
  constructor; [|by apply IH]. intros Hin. destruct (walk_suffix _ _ _ _ _ Hw Hin) as (l' & Hl' & Hs).
  destruct (walk_det _ _ _ _ _ _ Hw0 Hl') as [<- _]. apply suffix_length in Hs. cbn in Hs. lia.
Qed.

Lemma link_range g (c : Z) : geo_ok g -> is_eof (fat_mask g) (fat_entry g c) = false -> 0 <= fat_entry g c < entries_max g.
Proof.
  intros [Ht _ _ _] He. split.
  - unfold fat_entry. pose proof (le16_range g (c + c / 2)). pose proof (le16_range g (2 * c)). pose proof (le32_range g (4 * c)).
    repeat case_match; try lia; [apply Z.mod_pos_bound|apply Z.div_pos]; lia.
  - assert (Z.land (Z.land CLUST_EOFE (fat_mask g)) 0xfffffff8 <= entries_max g) as Hle.
    { unfold fat_mask, entries_max. destruct Ht as [E|[E|E]]; rewrite E; by vm_compute. }
    unfold is_eof in He. rewrite Z.geb_leb, Z.leb_gt in He. lia.
Qed.

Lemma walk_range g (c : Z) (l : list Z) (b : bool) : geo_ok g -> walk g c l b -> 0 <= c < entries_max g -> Forall (fun x => 0 <= x < entries_max g) l.
Proof.
  intros Hg Hw. induction Hw as [c E|c E1 E2|c l b E1 E2 Hw IH]; intros Hc; constructor; try done; [by constructor..|].
  apply IH. by apply link_range.
Qed.

Lemma entries_max_small g : entries_max g <= 2 ^ 28.
Proof. unfold entries_max. repeat case_match; lia. Qed.

Lemma count_chain_ok (fuel : nat) (l : list Z) (b : bool) : forall c cnt f d, geo_ok (geo f) -> raw_open (fd (geo f)) d -> cache_ok f ->
  walk (geo f) c l b -> 0 <= c < entries_max (geo f) -> (length l <= fuel)%nat -> 0 <= cnt -> cnt + Z.of_nat (length l) < 2 ^ 31 ->
  exists f' d', count_chain fuel (fat_mask (geo f)) c cnt f d = Some (if b then Some (cnt + Z.of_nat (length l) - 1) else None, f', d') /\
    table_state f d f' d'.
Proof.
  revert l. induction fuel as [|fuel IH]; intros l c cnt f d Hg Hop Hc Hw Hr Hf Hcnt Hlim; [inversion Hw; subst; cbn in Hf; lia|].
  cbn [count_chain]. destruct (getFatEntry_ok c f d Hg Hop Hc Hr) as (f1 & d1 & -> & Hst1).
  inversion Hw as [c' E|c' E1 E2|c' l' b' E1 E2 Hw']; subst.
  - rewrite E. eauto.
  - rewrite E1, E2. exists f1, d1. split; [|done]. cbn [length]. repeat f_equal. lia.
  - rewrite E1, E2. pose proof (link_range _ _ Hg E2) as Hr'. pose proof (entries_max_small (geo f)).
    pose proof Hst1 as (Hbc & Hc1 & Hop1). pose proof (but_cache_geo _ _ Hbc) as Eg. cbn [length] in *. rewrite !s32_small by lia. rewrite <- Eg in *.
    destruct (IH l' (fat_entry (geo f1) c) (cnt + 1) f1 d1) as (f2 & d2 & -> & Hst2); [done..|lia|lia|lia|].
    exists f2, d2. split; [|by eapply table_state_trans]. replace (cnt + Z.of_nat (S (length l')) - 1) with (cnt + 1 + Z.of_nat (length l') - 1) by lia. done.
Qed.

(** A table that leads round in circles keeps the loop going. *)
Lemma count_chain_none (fuel : nat) : forall c cnt f d, geo_ok (geo f) -> raw_open (fd (geo f)) d -> cache_ok f -> 0 <= c < entries_max (geo f) ->
  (forall l b, ~ walk (geo f) c l b) -> count_chain fuel (fat_mask (geo f)) c cnt f d = None.
Proof.
  induction fuel as [|fuel IH]; intros c cnt f d Hg Hop Hc Hr Hno; [done|].
  cbn [count_chain]. destruct (getFatEntry_ok c f d Hg Hop Hc Hr) as (f1 & d1 & -> & Hst1).
  destruct (is_bad (fat_mask (geo f)) (fat_entry (geo f) c)) eqn:E1; [destruct (Hno [c] false); by constructor|].
  destruct (is_eof (fat_mask (geo f)) (fat_entry (geo f) c)) eqn:E2; [destruct (Hno [c] true); by constructor|].
  pose proof (link_range _ _ Hg E2) as Hr'. pose proof (entries_max_small (geo f)).
  destruct Hst1 as (Hbc & Hc1 & Hop1). pose proof (but_cache_geo _ _ Hbc) as Eg. rewrite (s32_small (fat_entry _ _)) by lia. rewrite <- Eg in *.
  apply IH; [done..|]. intros l b Hw. apply (Hno (c :: l) b). by constructor.
Qed.

Lemma set_entry_app (p : list Z) (x v : Z) (r : list Z) (i : Z) : i = Z.of_nat (length p) -> set_entry i v (p ++ x :: r) = Some (p ++ v :: r).
Proof.
  intros ->. unfold set_entry. rewrite length_app. cbn [length]. rewrite (proj2 (Z.leb_le _ _)), (proj2 (Z.ltb_lt _ _)) by lia. cbn [andb].
  by rewrite Nat2Z.id, insert_app_r_alt, Nat.sub_diag by done.
Qed.

(** The entries that are noted: [p] ends in the present cluster. *)
Lemma fill_chain_ok (fuel : nat) (l : list Z) : forall c p r f d, geo_ok (geo f) -> raw_open (fd (geo f)) d -> cache_ok f ->
  walk (geo f) c l true -> 0 <= c < entries_max (geo f) -> (length l <= fuel)%nat -> (length l <= length r)%nat -> p <> [] ->
  Z.of_nat (length (p ++ r)) < 2 ^ 31 ->
  exists f' d' e r', fill_chain fuel (fat_mask (geo f)) c (Z.of_nat (length p) - 1) (p ++ r) f d = Some (1, p ++ tail l ++ e :: r', f', d') /\
    table_state f d f' d'.
Proof.
  revert l. induction fuel as [|fuel IH]; intros l c p r f d Hg Hop Hc Hw Hr Hf Hlen Hp Hlim; [inversion Hw; subst; cbn in Hf; lia|].
  cbn [fill_chain]. destruct (getFatEntry_ok c f d Hg Hop Hc Hr) as (f1 & d1 & -> & Hst1).
  destruct r as [|x r]; [inversion Hw; subst; cbn in Hlen; lia|]. rewrite set_entry_app by lia.
  inversion Hw as [|c' E1 E2|c' l' b' E1 E2 Hw']; subst.
  - rewrite E1, E2. exists f1, d1. eauto.
  - rewrite E1, E2. pose proof (link_range _ _ Hg E2) as Hr'. pose proof (entries_max_small (geo f)).
    pose proof Hst1 as (Hbc & Hc1 & Hop1). pose proof (but_cache_geo _ _ Hbc) as Eg. rewrite length_app in Hlim. cbn [length] in *.
    assert (0 < length p)%nat by (destruct p; [done|cbn; lia]). rewrite !s32_small by lia. rewrite <- Eg in *.
    change (p ++ ?a :: r) with (p ++ [a] ++ r). rewrite app_assoc.
    destruct (IH l' (fat_entry (geo f1) c) (p ++ [fat_entry (geo f1) c]) r f1 d1) as (f2 & d2 & e & r' & E & Hst2); [done..|lia|lia|by destruct p| |].
    { rewrite !length_app. cbn. lia. }
    rewrite length_app in E. cbn [length] in E. replace (Z.of_nat (length p + 1) - 1) with (Z.of_nat (length p) - 1 + 1) in E by lia. rewrite E.
    exists f2, d2, e, r'. split; [|by eapply table_state_trans]. cbn [tail]. rewrite <- app_assoc. cbn [app].
    inversion Hw'; subst; done.
Qed.

(** The chain that is found. *)
Lemma fat_getChain_ok (fuel : nat) (c : Z) (l : list Z) (chain : fatchain) f d : geo_ok (geo f) -> raw_open (fd (geo f)) d -> cache_ok f ->
  walk (geo f) c l true -> 0 <= c < entries_max (geo f) -> (length l <= fuel)%nat -> Z.of_nat (length l) + 128 < 2 ^ 31 ->
  exists f' d' rest, fat_getChain fuel c chain f d = Some (1, Fatchain c (l ++ rest) (Z.of_nat (length l)), f', d') /\ rest <> [] /\ table_state f d f' d'.
Proof.
  intros Hg Hop Hc Hw Hr Hf Hlim. unfold fat_getChain.
  destruct (count_chain_ok fuel l true c 0 f d Hg Hop Hc Hw Hr Hf) as (f1 & d1 & -> & Hst1); [lia|lia|].
  pose proof Hst1 as (Hbc & Hc1 & Hop1). pose proof (but_cache_geo _ _ Hbc) as Eg. pose proof (entries_max_small (geo f)).
  assert (exists l', l = c :: l') as [l' ->] by (inversion Hw; eauto). cbn [length] in *. rewrite (s32_small (0 + _ - 1 + 1)) by lia. rewrite u32_small by lia.
  replace (0 + Z.of_nat (S (length l')) - 1 + 1) with (Z.of_nat (S (length l'))) by lia.
  replace (Z.to_nat (Z.of_nat (S (length l')) + 128)) with (S (length l' + 128)) by lia. cbn [replicate].
  rewrite (set_entry_app [] 0 _ _ 0 eq_refl : set_entry 0 c (0 :: replicate (length l' + 128) 0) = Some (c :: replicate (length l' + 128) 0)). rewrite <- Eg in *.
  destruct (fill_chain_ok fuel (c :: l') c [c] (replicate (length l' + 128) 0) f1 d1) as (f2 & d2 & e & r' & E & Hst2); [done..| |done| |].
  - rewrite length_replicate. cbn. lia.
  - rewrite length_app, length_replicate. cbn. lia.
  - cbn [length] in E. change (Z.of_nat 1 - 1) with 0 in E. cbn [app] in E. rewrite E. exists f2, d2, (e :: r'). split; [|split; [done|]].
    + done.
    + by eapply table_state_trans.
Qed.

Lemma fat_getChain_bad (fuel : nat) (c : Z) (l : list Z) (chain : fatchain) f d : geo_ok (geo f) -> raw_open (fd (geo f)) d -> cache_ok f ->
  walk (geo f) c l false -> 0 <= c < entries_max (geo f) -> (length l <= fuel)%nat -> Z.of_nat (length l) + 128 < 2 ^ 31 ->
  exists f' d', fat_getChain fuel c chain f d = Some (-1, chain, f', d') /\ table_state f d f' d'.
Proof.
  intros Hg Hop Hc Hw Hr Hf Hlim. unfold fat_getChain.
  destruct (count_chain_ok fuel l false c 0 f d Hg Hop Hc Hw Hr Hf) as (f1 & d1 & -> & Hst1); [lia|lia|]. eauto.
Qed.

(** C37: [fat_getChain] from a cluster of the table. When the links lead to an end mark, it
    ends and notes exactly the clusters of the chain, in order and each once, in both
    passes and for all three widths of entries, also where a 12-bit entry lies across two
    sectors; when they lead to a bad cluster it returns -1 and leaves the chain of the
    caller as it was; and when they do neither, because they go round in a circle, it
    never returns. *)
Theorem fat_getChain_spec (c : Z) (chain : fatchain) f d : geo_ok (geo f) -> raw_open (fd (geo f)) d -> cache_ok f -> 0 <= c < entries_max (geo f) ->
  (forall l, walk (geo f) c l true -> Z.of_nat (length l) + 128 < 2 ^ 31 -> NoDup l /\
     forall fuel, (length l <= fuel)%nat -> exists f' d' rest,
       fat_getChain fuel c chain f d = Some (1, Fatchain c (l ++ rest) (Z.of_nat (length l)), f', d') /\ table_state f d f' d') /\
  (forall l, walk (geo f) c l false -> Z.of_nat (length l) + 128 < 2 ^ 31 ->
     forall fuel, (length l <= fuel)%nat -> exists f' d', fat_getChain fuel c chain f d = Some (-1, chain, f', d') /\ table_state f d f' d') /\
  ((forall l b, ~ walk (geo f) c l b) -> forall fuel, fat_getChain fuel c chain f d = None).
Proof.
  intros Hg Hop Hc Hr. split; [|split].
  - intros l Hw Hlim. split; [by eapply walk_nodup|]. intros fuel Hf.
    destruct (fat_getChain_ok fuel c l chain f d Hg Hop Hc Hw Hr Hf Hlim) as (f' & d' & rest & E & _ & Hst). eauto.
  - intros l Hw Hlim fuel Hf. by eapply fat_getChain_bad.
  - intros Hno fuel. unfold fat_getChain. by rewrite count_chain_none.
Qed.
End Chain.

(** A volume with 12-bit entries on a stick: 3, 341, 5; the entry of 341 begins in the last
    byte of the first sector of the table. *)
Definition table12 (a : Z) : Z :=
  if a =? 512 + 4 then 0x50 else if a =? 512 + 5 then 0x15 else if a =? 512 + 511 then 0x50 else if a =? 512 + 7 then 0xF0
  else if a =? 512 + 8 then 0xFF else 0.

Definition geometry12 : geometry := Geometry 0 TYPE_FAT12 512 1 1 1 16 400 2 1 396 512 3 396 4 0 0 512.

Definition no_file : fat_fileentry := Fileentry [] [] 0 0 0 (Fatchain 0 [] 0).

Definition volume12 : fat_sc := FatSc geometry12 [] (-1) [] 0 no_file (-1) [] 0 0 0 0 0.

(** The layers below: a transport that obeys the commands, and [devio_read] with a buffer of
    a megabyte. *)
Definition stick_names : list (list Z * Z) := [([117; 115; 98; 48], 0)].

Definition stick_raw (dk : Z -> Z) : RawDevice (devfs unit) := @devfs_raw unit (ram_transport dk) stick_tables stick_names 0x20000 0x100000.

Definition stick_disk (dk : Z -> Z) : @RawDisk (devfs unit) (stick_raw dk) :=
  @devfs_raw_disk unit (ram_transport dk) stick_tables stick_names 0x20000 0x100000 (2 ^ 20) 1 (ram_disk dk 1).

Lemma stick_buffers : buffers_ok stick_tables 0x20000 0x100000 (2 ^ 20).
Proof.
  unfold buffers_ok. change (lbuff_aligned 0x20000) with 0x20000.
  unfold in_space, disjoint, bulkbuf_size, DEV_BSIZE, stick_tables. cbn. lia.
Qed.

Lemma stick_raw_open (dk : Z -> Z) (fd : Z) : @raw_open _ _ (stick_disk dk) fd stick_open.
Proof.
  split; [|split; [done|split; [done|apply stick_buffers]]].
  split; unfold usb_found, in_space, disjoint; cbn; unfold bulkbuf_size, DEV_BSIZE; split_and?; try done; lia.
Qed.

Lemma geometry12_ok (dk : Z -> Z) : @geo_ok _ _ (stick_disk dk) geometry12.
Proof. split; [by left|cbn; lia|cbn; lia|cbn; lia]. Qed.

Lemma walk12 : @walk _ _ (stick_disk table12) geometry12 3 [3; 341; 5] true.
Proof.
  apply walk_link; [vm_compute; reflexivity..|]. change (@fat_entry _ _ (stick_disk table12) geometry12 3) with 341.
  apply walk_link; [vm_compute; reflexivity..|]. change (@fat_entry _ _ (stick_disk table12) geometry12 341) with 5.
  apply walk_end; vm_compute; reflexivity.
Qed.

Lemma fat_getChain_spec_witness : exists f' d' rest,
  @fat_getChain _ (stick_raw table12) 3 3 (Fatchain 0 [] 0) volume12 stick_open = Some (1, Fatchain 3 ([3; 341; 5] ++ rest) 3, f', d').
Proof.
  destruct (@fat_getChain_spec _ _ (stick_disk table12) 3 (Fatchain 0 [] 0) volume12 stick_open) as (Hok & _ & _).
  - apply geometry12_ok.
  - apply stick_raw_open.
  - left. reflexivity.
  - vm_compute. split; congruence.
  - destruct (Hok [3; 341; 5]) as [_ Hres]; [apply walk12|cbn; lia|].
    destruct (Hres 3%nat) as (f' & d' & rest & E & _); [cbn; lia|]. exists f', d', rest. exact E.
Defined.
