(* ===== verification/FatRead.v ===== *)
(** * Reading a file
    [fat_read] returns the bytes of the file, however the buffer of adjacent clusters is
    filled and used. *)

From S2P Require Import Prelude Mem UsbStorage Devfs Fat FatTable FatChain.

(** ** Where the bytes of a file are *)

(** Sector [k] of the file whose clusters are [l]. *)
Definition file_sector (g : geometry) (l : list Z) (k : Z) : Z :=
  DataSectorBase g + (znth 0 l (k / SecPerClust g) - 2) * SecPerClust g + k mod SecPerClust g.

Section Read.
Context {D : Type} `{RawDisk D}.
Implicit Types (g : geometry) (f : fat_sc) (d : D) (l : list Z).

Definition file_byte g l (p : Z) : Z := raw_byte (512 * (PartitionStart g + file_sector g l (p / 512)) + p mod 512).

(** A volume and the clusters of a file on it, for a buffer of [mx] clusters. *)
Record layout_ok g l (mx : Z) : Prop := {
  lo_geo : geo_ok g;
  lo_spc : 1 <= SecPerClust g <= 128;
  lo_base : 0 <= DataSectorBase g;
  lo_nodup : NoDup l;
  lo_clusters : Forall (fun c => 2 <= c < 2 ^ 28 /\ PartitionStart g + DataSectorBase g + c * SecPerClust g < 2 ^ 30) l;
  lo_length : Z.of_nat (length l) * SecPerClust g < 2 ^ 30;
  lo_max : 1 <= mx;
  lo_limit : 512 * (SecPerClust g * mx) <= raw_limit;
  lo_small : 512 * (SecPerClust g * mx) < 2 ^ 30 }.

Lemma cluster_of g l (mx k : Z) : layout_ok g l mx -> 0 <= k < Z.of_nat (length l) * SecPerClust g ->
  exists c, l !! Z.to_nat (k / SecPerClust g) = Some c /\ znth 0 l (k / SecPerClust g) = c /\ 2 <= c < 2 ^ 28 /\
    PartitionStart g + DataSectorBase g + c * SecPerClust g < 2 ^ 30 /\ 0 <= k / SecPerClust g < Z.of_nat (length l).
Proof.
  intros [] Hk. assert (0 <= k / SecPerClust g < Z.of_nat (length l)) as Hq.
  { split; [apply Z.div_pos; lia|]. apply Z.div_lt_upper_bound; lia. }
  destruct (lookup_lt_is_Some_2 l (Z.to_nat (k / SecPerClust g))) as [c Hc]; [lia|]. exists c. split; [done|].
  unfold znth. rewrite Hc. pose proof (proj1 (Forall_lookup _ _) lo_clusters0 _ _ Hc) as Hr. cbn in Hr. cbn. tauto.
Qed.

Lemma file_sector_range g l (mx k : Z) : layout_ok g l mx -> 0 <= k < Z.of_nat (length l) * SecPerClust g ->
  0 <= file_sector g l k /\ PartitionStart g + file_sector g l k < 2 ^ 30.
Proof.
  intros Hlo Hk. destruct (cluster_of g l mx k Hlo Hk) as (c & _ & Ec & Hc & Hlim & _). destruct Hlo. unfold file_sector. rewrite Ec.
  pose proof (Z.mod_pos_bound k (SecPerClust g) ltac:(lia)). nia.
Qed.

(** No sector belongs to two places of the file. *)
Lemma file_sector_inj g l (mx k k' : Z) : layout_ok g l mx -> 0 <= k < Z.of_nat (length l) * SecPerClust g ->
  0 <= k' < Z.of_nat (length l) * SecPerClust g -> file_sector g l k = file_sector g l k' -> k = k'.
Proof.
  intros Hlo Hk Hk' E. destruct (cluster_of g l mx k Hlo Hk) as (c & Hc & Ec & _ & _ & Hq). destruct (cluster_of g l mx k' Hlo Hk') as (c' & Hc' & Ec' & _ & _ & Hq').
  destruct Hlo. unfold file_sector in E. rewrite Ec, Ec' in E. set (s := SecPerClust g) in *.
  pose proof (Z.mod_pos_bound k s ltac:(lia)) as Hm. pose proof (Z.mod_pos_bound k' s ltac:(lia)) as Hm'.
  assert (c = c') as <- by (destruct (Z.lt_trichotomy c c') as [?|[?|?]]; [nia|done|nia]). assert (k mod s = k' mod s) as Em by lia.
  pose proof (proj1 (NoDup_alt _) lo_nodup0 _ _ _ Hc Hc') as Ei. assert (k / s = k' / s) by lia.
  pose proof (Z.div_mod k s ltac:(lia)). pose proof (Z.div_mod k' s ltac:(lia)). congruence.
Qed.

(** ** Runs of clusters *)

(** The clusters [ci], ..., [ci + i - 1] follow one another from [e0]. *)
Definition cluster_run l (ci i e0 : Z) : Prop := forall j, 0 <= j < i -> l !! Z.to_nat (ci + j) = Some (e0 + j).

Lemma run_loop_ok (strt : Z) l rest (n : nat) : Forall (fun c => 2 <= c < 2 ^ 28) l -> Z.of_nat (length l) < 2 ^ 30 -> forall i ci e0,
  1 <= i -> 0 <= ci -> ci + i <= Z.of_nat (length l) -> cluster_run l ci i e0 ->
  exists i', run_loop n i (ci + i) (Fatchain strt (l ++ rest) (Z.of_nat (length l))) e0 (e0 + i - 1) = Some (i', e0) /\
    i <= i' <= i + Z.of_nat n /\ ci + i' <= Z.of_nat (length l) /\ cluster_run l ci i' e0.
Proof.
  intros Hl Hlen. induction n as [|n IH]; intros i ci e0 Hi Hci Hle Hrun; cbn [run_loop count entries].
  { exists i. split_and!; [done|lia|lia|lia|done]. }
  destruct (Z.ltb_spec (ci + i) (Z.of_nat (length l))) as [Hlt|Hge]; [|exists i; split_and!; [done|lia|lia|lia|done]].
  rewrite (proj2 (Z.ltb_ge _ _)) by lia. rewrite lookup_app_l by lia.
  destruct (lookup_lt_is_Some_2 l (Z.to_nat (ci + i))) as [e He]; [lia|]. rewrite He.
  pose proof (proj1 (Forall_lookup _ _) Hl _ _ He) as Hr. cbn in Hr. rewrite (s32_small e) by lia.
  rewrite (proj2 (Z.eqb_neq i 0)) by lia. cbn [negb andb].
  assert (2 <= e0 < 2 ^ 28) as Hr0.
  { specialize (Hrun 0 ltac:(lia)). rewrite !Z.add_0_r in Hrun. apply (proj1 (Forall_lookup _ _) Hl _ _ Hrun). }
  assert (e0 + i - 1 < 2 ^ 28) as Hr1.
  { specialize (Hrun (i - 1) ltac:(lia)). pose proof (proj1 (Forall_lookup _ _) Hl _ _ Hrun) as Hx. cbn in Hx. lia. }
  rewrite (s32_small (e0 + i - 1 + 1)) by lia. destruct (Z.eqb_spec (e0 + i - 1 + 1) e) as [<-|Hne]; cbn [negb].
  2:{ exists i. split_and!; [done|lia|lia|lia|done]. }
  rewrite s32_small by lia. replace (ci + i + 1) with (ci + (i + 1)) by lia. replace (e0 + i - 1 + 1) with (e0 + (i + 1) - 1) by lia.
  destruct (IH (i + 1) ci e0) as (i' & -> & H1 & H2 & H3); [lia|lia|lia| |].
  - intros j Hj. destruct (decide (j < i)) as [Hji|Hji]; [apply Hrun; lia|]. replace j with i by lia. rewrite He. f_equal. lia.
  - exists i'. split_and!; [done|lia|lia|lia|done].
Qed.

(** From the start of the loop. *)
Lemma run_loop_start (strt : Z) l rest (n : nat) (ci : Z) : Forall (fun c => 2 <= c < 2 ^ 28) l -> Z.of_nat (length l) < 2 ^ 30 -> 0 <= ci < Z.of_nat (length l) ->
  exists i e0, run_loop (S n) 0 ci (Fatchain strt (l ++ rest) (Z.of_nat (length l))) 0 0 = Some (i, e0) /\ 1 <= i <= Z.of_nat (S n) /\
    ci + i <= Z.of_nat (length l) /\ cluster_run l ci i e0.
Proof.
  intros Hl Hlen Hci. cbn [run_loop count entries]. rewrite (proj2 (Z.ltb_lt ci _)), (proj2 (Z.ltb_ge ci 0)) by lia. rewrite lookup_app_l by lia.
  destruct (lookup_lt_is_Some_2 l (Z.to_nat ci)) as [e He]; [lia|]. rewrite He.
  pose proof (proj1 (Forall_lookup _ _) Hl _ _ He) as Hr. cbn in Hr. rewrite (s32_small e), (s32_small (ci + 1)) by lia. cbn [Z.eqb negb andb].
  destruct (run_loop_ok strt l rest n Hl Hlen 1 ci e) as (i & E & H1 & H2 & H3); [lia|lia|lia| |].
  - intros j Hj. replace j with 0 by lia. rewrite !Z.add_0_r. done.
  - replace (e + 1 - 1) with e in E by lia. change (0 + 1) with 1. rewrite E. exists i, e. split_and!; [done|lia|lia|lia|done].
Qed.

(** Sectors of a run are adjacent on the disk. *)
Lemma run_sectors g l (index i e0 j : Z) : 1 <= SecPerClust g -> 0 <= index -> cluster_run l (index / SecPerClust g) i e0 -> 0 <= j ->
  j < i * SecPerClust g - index mod SecPerClust g ->
  file_sector g l (index + j) = DataSectorBase g + (e0 - 2) * SecPerClust g + index mod SecPerClust g + j.
Proof.
  intros Hs Hi Hrun Hj Hlt. set (s := SecPerClust g) in *. pose proof (Z.mod_pos_bound index s ltac:(lia)) as Hm.
  pose proof (Z.div_mod index s ltac:(lia)) as Hdm. unfold file_sector. fold s.
  set (q := (index mod s + j) / s). assert ((index + j) / s = index / s + q) as ->.
  { unfold q. rewrite Hdm at 1. rewrite <- Z.add_assoc, (Z.mul_comm s), Z.div_add_l by lia. done. }
  assert (0 <= q < i) as Hq by (unfold q; split; [apply Z.div_pos; lia|apply Z.div_lt_upper_bound; lia]).
  unfold znth. rewrite (Hrun q Hq). cbn [default from_option]. assert ((index + j) mod s = index mod s + j - q * s) as ->; [|unfold default, id; lia].
  unfold q. rewrite Hdm at 1. rewrite <- Z.add_assoc, Z.add_comm, (Z.mul_comm s), Z.mod_add by lia. rewrite Z.mod_eq by lia. lia.
Qed.

(** The sector of the file, and how many follow it. *)
Lemma getSectorIndex_read_ok g l (mx strt index need : Z) rest f : layout_ok g l mx -> geo f = g ->
  0 <= index < Z.of_nat (length l) * SecPerClust g -> 1 <= need < 2 ^ 30 ->
  exists next, getSectorIndex_read mx (Fatchain strt (l ++ rest) (Z.of_nat (length l))) index need f
      = Some (file_sector g l index, set_next (512 * next) next f) /\
    1 <= next <= SecPerClust g * mx /\ index + next <= Z.of_nat (length l) * SecPerClust g /\
    forall j, 0 <= j < next -> file_sector g l (index + j) = file_sector g l index + j.
Proof.
  intros Hlo Eg Hi Hn. pose proof (cluster_of g l mx index Hlo Hi) as (c & _ & _ & _ & _ & Hq). pose proof (file_sector_range g l mx index Hlo Hi) as [Hfs0 Hfs1].
  destruct Hlo. unfold getSectorIndex_read. rewrite Eg. set (s := SecPerClust g) in *. pose proof (Z.mod_pos_bound index s ltac:(lia)) as Hm.
  rewrite Z.rem_mod_nonneg, (Z.quot_div_nonneg index) by lia. rewrite s32_small, Z.quot_div_nonneg by lia.
  set (bound := min32 ((need + s - 1) / s) mx).
  assert (1 <= bound <= mx) as Hbound.
  { assert (1 <= (need + s - 1) / s) by (apply Z.div_le_lower_bound; lia). unfold bound, min32. case_match; lia. }
  replace (Z.to_nat bound) with (S (Z.to_nat (bound - 1))) by lia.
  destruct (run_loop_start strt l rest (Z.to_nat (bound - 1)) (index / s)) as (i & e0 & -> & Hi1 & Hi2 & Hrun); [| |lia|].
  { eapply Forall_impl; [exact lo_clusters0|]. cbn. tauto. }
  { nia. }
  assert (i * s <= s * mx) as His by nia. pose proof (Z.div_mod index s ltac:(lia)) as Hdm.
  assert (i * s - index mod s >= 1) as Hge by nia.
  rewrite (s32_small (i * s - _)) by lia. set (next := min32 (i * s - index mod s) need).
  assert (1 <= next <= i * s - index mod s /\ next <= need) as [Hnext Hnext2] by (unfold next, min32; case_match; lia).
  assert (file_sector g l index = DataSectorBase g + (e0 - 2) * s + index mod s) as Efs.
  { rewrite <- (Z.add_0_r index) at 1. rewrite (run_sectors g l index i e0 0) by (fold s; done || lia). fold s. lia. }
  assert (2 <= e0 < 2 ^ 28) as He0.
  { specialize (Hrun 0 ltac:(lia)). pose proof (proj1 (Forall_lookup _ _) lo_clusters0 _ _ Hrun) as Hx. cbn in Hx. lia. }
  assert (PartitionStart g + DataSectorBase g + e0 * s < 2 ^ 30) as He1.
  { specialize (Hrun 0 ltac:(lia)). pose proof (proj1 (Forall_lookup _ _) lo_clusters0 _ _ Hrun) as Hx. cbn in Hx. fold s in Hx. lia. }
  pose proof (ok_part _ lo_geo0) as Hps.
  exists next. split; [|split_and!].
  - pose proof (Z.mul_nonneg_nonneg (e0 - 2) s ltac:(lia) ltac:(lia)) as Hp. pose proof (Z.mul_sub_distr_r e0 2 s) as Hp2. assert (512 * next < 2 ^ 30) as Hnx by lia.
    rewrite (s32_small (e0 - 2)) by lia. rewrite (s32_small ((e0 - 2) * s)) by lia. rewrite (u32_small (DataSectorBase g + _)) by lia.
    rewrite <- Efs, u32_small, s32_small by lia. rewrite !(u32_small next) by lia. unfold SECTORSIZE. rewrite (Z.mul_comm next), u32_small by lia. done.
  - lia.
  - lia.
  - pose proof (Z.mul_le_mono_nonneg_l (index / s + i) (Z.of_nat (length l)) s ltac:(lia) Hi2). lia.
  - intros j Hj. rewrite Efs. rewrite (run_sectors g l index i e0 j) by (fold s; done || lia). fold s. lia.
Qed.

(** ** The buffer *)

(** The buffer is empty, or holds [n] sectors of the file from sector [k] on, which are
    adjacent on the disk. *)
Definition buf_ok g l (mx : Z) f : Prop :=
  LastSector f = -1 \/
  exists k n, 0 <= k /\ 1 <= n <= SecPerClust g * mx /\ k + n <= Z.of_nat (length l) * SecPerClust g /\
    (forall j, 0 <= j < n -> file_sector g l (k + j) = LastSector f + j) /\
    SectorsOfBuffer f = n /\ BytesOfBuffer f = 512 * n /\ take (Z.to_nat (512 * n)) (LastSectorBuffer f) = sector_bytes g (LastSector f) n.

(** The entries of the chain lie outside of the block of the buffer. *)
Definition entries_apart f : Prop :=
  entries_at f + 4 * Z.of_nat (length (entries (Chain (file f)))) <= 0 \/ Z.of_nat (length (LastSectorBuffer f)) <= entries_at f.

(** An open file: its chain is [l], its size is at most what the clusters hold, and its
    entries are not in the block of the buffer. *)
Record reading g l (mx : Z) f d : Prop := {
  rd_layout : layout_ok g l mx;
  rd_geo : geo f = g;
  rd_chain : exists strt rest, Chain (file f) = Fatchain strt (l ++ rest) (Z.of_nat (length l));
  rd_size : 0 <= FileSize (file f) <= 512 * (Z.of_nat (length l) * SecPerClust g) /\ FileSize (file f) < 2 ^ 31;
  rd_capacity : length (LastSectorBuffer f) = Z.to_nat (512 * (SecPerClust g * mx));
  rd_buf : buf_ok g l mx f;
  rd_apart : entries_apart f;
  rd_open : raw_open (fd g) d }.

Lemma clobber_apart (off : Z) (b l : list Z) : off + 4 * Z.of_nat (length l) <= 0 \/ Z.of_nat (length b) <= off -> clobber off b l = l.
Proof.
  intros Hoff. unfold clobber. apply list_eq. intros i. rewrite list_lookup_imap. destruct (l !! i) as [e|] eqn:E; [|done]. cbn. f_equal.
  pose proof (lookup_lt_Some _ _ _ E) as Hi. unfold clobber_entry. by rewrite (proj2 (Z.ltb_ge _ _)) by lia.
Qed.

Lemma clobber_entry_nil (off e : Z) : clobber_entry off [] e = e.
Proof. unfold clobber_entry. cbn [length Z.of_nat]. by rewrite (proj2 (Z.ltb_ge _ _)) by lia. Qed.

Lemma clobber_file_same (b : list Z) f : clobber (entries_at f) b (entries (Chain (file f))) = entries (Chain (file f)) -> clobber_file b f = f.
Proof. unfold clobber_file. intros ->. by destruct f as [? ? ? ? ? [? ? ? ? ? []] ? ? ? ? ? ? ?]. Qed.

(** Where the entries are apart, reading does not touch them. *)
Lemma clobber_file_apart (b : list Z) f : entries_apart f -> (length b <= length (LastSectorBuffer f))%nat -> clobber_file b f = f.
Proof. intros Ha Hb. apply clobber_file_same, clobber_apart. destruct Ha; [left|right]; lia. Qed.

Lemma clobber_file_nil f : clobber_file [] f = f.
Proof.
  apply clobber_file_same. unfold clobber. apply list_eq. intros i. rewrite list_lookup_imap. destruct (_ !! i) as [e|]; [|done]. cbn. by rewrite clobber_entry_nil.
Qed.

Lemma take_drop_sectors g (s n o c : Z) (b : list Z) : take (Z.to_nat (512 * n)) b = sector_bytes g s n -> 0 <= o -> 0 <= c -> o + c <= 512 * n ->
  take (Z.to_nat c) (drop (Z.to_nat o) b) = map raw_byte (seqZ (512 * (PartitionStart g + s) + o) c).
Proof.
  intros E Ho Hc Hb. transitivity (take (Z.to_nat c) (drop (Z.to_nat o) (take (Z.to_nat (512 * n)) b))).
  - rewrite !take_drop_commute, take_take. do 2 f_equal. lia.
  - rewrite E. unfold sector_bytes. apply list_eq. intros i. rewrite list_lookup_fmap. destruct (decide (i < Z.to_nat c)%nat) as [Hi|Hi].
    + rewrite lookup_take_lt, lookup_drop, list_lookup_fmap by lia. rewrite !lookup_seqZ_lt by lia. cbn. f_equal. f_equal. lia.
    + rewrite lookup_take_ge, lookup_seqZ_ge by lia. done.
Qed.

(** Some bytes of the file in one window of the buffer. *)
Lemma window_bytes g l (k n last posn c : Z) : 0 <= k -> (forall j, 0 <= j < n -> file_sector g l (k + j) = last + j) ->
  512 * k <= posn -> 0 <= c -> posn + c <= 512 * (k + n) ->
  map raw_byte (seqZ (512 * (PartitionStart g + last) + (posn - 512 * k)) c) = map (file_byte g l) (seqZ posn c).
Proof.
  intros Hk Hadj Hp Hc Hb. apply list_eq. intros i. rewrite !list_lookup_fmap. destruct (decide (i < Z.to_nat c)%nat) as [Hi|Hi].
  - rewrite !lookup_seqZ_lt by lia. cbn. f_equal. unfold file_byte. set (p := posn + Z.of_nat i).
    assert (0 <= p / 512 - k < n) as Hq by (unfold p; zlia). replace (p / 512) with (k + (p / 512 - k)) by lia. rewrite (Hadj _ Hq). f_equal.
    pose proof (Z.div_mod p 512). lia.
  - rewrite !lookup_seqZ_ge by lia. done.
Qed.

(** The test whether the sector is in the buffer. *)
Lemma buffer_hit g l (mx index : Z) f d : reading g l mx f d -> 0 <= index < Z.of_nat (length l) * SecPerClust g ->
  (LastSector f =? -1) || (file_sector g l index <? LastSector f) || (u32 (file_sector g l index) >=? LastSector f +u SectorsOfBuffer f) = false ->
  exists k n, 0 <= k <= index /\ index < k + n /\ 1 <= n <= SecPerClust g * mx /\ k + n <= Z.of_nat (length l) * SecPerClust g /\
    (forall j, 0 <= j < n -> file_sector g l (k + j) = LastSector f + j) /\
    SectorsOfBuffer f = n /\ BytesOfBuffer f = 512 * n /\ take (Z.to_nat (512 * n)) (LastSectorBuffer f) = sector_bytes g (LastSector f) n.
Proof.
  intros [Hlo Eg _ _ _ Hbuf _ _] Hi Ht. rewrite !orb_false_iff in Ht. destruct Ht as [[H1%Z.eqb_neq H2%Z.ltb_ge] H3]. rewrite Z.geb_leb, Z.leb_gt in H3.
  destruct Hbuf as [?|(k & n & Hk & Hn & Hkn & Hadj & En & Eb & Et)]; [done|].
  pose proof (file_sector_range g l mx index Hlo Hi) as [Hf0 Hf1]. pose proof (ok_part _ (lo_geo _ _ _ Hlo)) as Hps.
  pose proof (file_sector_range g l mx k Hlo ltac:(lia)) as [Hk0 Hk1]. pose proof (Hadj 0 ltac:(lia)) as Ek. rewrite !Z.add_0_r in Ek.
  pose proof (lo_small _ _ _ Hlo) as Hsm. rewrite !u32_small in H3 by lia. rewrite En in H3.
  assert (index = k + (file_sector g l index - LastSector f)) as Ei.
  { apply (file_sector_inj g l mx _ _ Hlo Hi); [lia|]. rewrite Hadj by lia. lia. }
  exists k, n. split_and!; [lia|lia|lia|lia|lia|lia|done|done|done|done].
Qed.

(** What is left of a window. *)
Lemma copy_length (len n offset : Z) : 0 < len < 2 ^ 31 -> 0 <= offset < 512 * n -> 512 * n < 2 ^ 30 ->
  let c := if u32 (s32 len) >? 512 * n -u offset then s32 (512 * n -u offset) else s32 len in
  c = Z.min len (512 * n - offset).
Proof.
  intros Hl Ho Hn. cbv zeta. rewrite (s32_small len), (u32_small len), (u32_small (_ - _)) by lia.
  destruct (Z.gtb_spec len (512 * n - offset)); [rewrite s32_small by lia|]; lia.
Qed.

(** One round, once the sector is in the buffer. *)
Lemma copy_round g l (mx k n posn len : Z) (fuel : nat) (total : Z) (out : list Z) f d : layout_ok g l mx ->
  length (LastSectorBuffer f) = Z.to_nat (512 * (SecPerClust g * mx)) ->
  0 <= k <= posn / 512 -> posn / 512 < k + n -> 1 <= n <= SecPerClust g * mx -> k + n <= Z.of_nat (length l) * SecPerClust g ->
  (forall j, 0 <= j < n -> file_sector g l (k + j) = LastSector f + j) -> BytesOfBuffer f = 512 * n ->
  take (Z.to_nat (512 * n)) (LastSectorBuffer f) = sector_bytes g (LastSector f) n -> 0 < len -> posn + len < 2 ^ 31 -> 0 <= total -> total + len < 2 ^ 31 ->
  let c := Z.min len (512 * (k + n) - posn) in 0 < c /\
  let offset := s32 (s32 (s32 (file_sector g l (posn / 512) - LastSector f) * SECTORSIZE) + Z.rem posn SECTORSIZE) in
  let copylen := s32 len in
  let copylen := if u32 copylen >? BytesOfBuffer f -u offset then s32 (BytesOfBuffer f -u offset) else copylen in
  (if (offset <? 0) || (copylen <? 0) || (Z.of_nat (length (LastSectorBuffer f)) <? offset + copylen) then None
   else fat_read_loop fuel mx (s64 (posn + copylen)) (len -u copylen) (s32 (total + copylen))
          (out ++ take (Z.to_nat copylen) (drop (Z.to_nat offset) (LastSectorBuffer f))) f d)
  = fat_read_loop fuel mx (posn + c) (len - c) (total + c) (out ++ map (file_byte g l) (seqZ posn c)) f d.
Proof.
  intros Hlo Hcap Hk Hkn Hn Hlen Hadj Eb Et Hl Hpl Ht Htl c. pose proof (Z.div_mod posn 512 ltac:(lia)) as Hdm.
  pose proof (Z.mod_pos_bound posn 512 ltac:(lia)) as Hm. split; [unfold c; lia|]. pose proof (lo_small _ _ _ Hlo) as Hsm.
  assert (file_sector g l (posn / 512) - LastSector f = posn / 512 - k) as ->.
  { replace (posn / 512) with (k + (posn / 512 - k)) at 1 by lia. rewrite Hadj by lia. lia. }
  rewrite (s32_small (posn / 512 - k)) by lia. change SECTORSIZE with 512. rewrite (s32_small (_ * 512)) by lia.
  rewrite Z.rem_mod_nonneg by lia. rewrite s32_small by lia. cbv zeta. set (offset := (posn / 512 - k) * 512 + posn mod 512).
  rewrite Eb. pose proof (copy_length len n offset ltac:(lia) ltac:(unfold offset; lia) ltac:(lia)) as Ec. cbv zeta in Ec. rewrite Ec.
  replace (Z.min len (512 * n - offset)) with c by (unfold c, offset; lia). clear Ec.
  assert (0 <= offset) by (unfold offset; lia). assert (offset + c <= 512 * n) by (unfold offset, c; lia). assert (0 < c <= len) by (unfold c; lia).
  rewrite (proj2 (Z.ltb_ge offset 0)), (proj2 (Z.ltb_ge c 0)), (proj2 (Z.ltb_ge (Z.of_nat _) _)) by lia. cbn [orb].
  rewrite s64_small, u32_small, s32_small by lia. rewrite (take_drop_sectors g (LastSector f) n offset c) by (done || lia).
  replace offset with (posn - 512 * k) by (unfold offset; lia). rewrite (window_bytes g l k n) by (done || unfold c; lia). done.
Qed.

(** [f'] is [f] but for the buffer of sectors. *)
Definition but_buffer f f' : Prop :=
  geo f' = geo f /\ file f' = file f /\ FatBuffer f' = FatBuffer f /\ FatCacheNum f' = FatCacheNum f /\ DirBuffer f' = DirBuffer f /\ DirCacheNum f' = DirCacheNum f.

(** The sector of the present position gets into the buffer. *)
Lemma fill_round g l (mx posn need : Z) f d : reading g l mx f d -> 0 <= posn < FileSize (file f) -> 1 <= need < 2 ^ 30 ->
  exists f1, getSectorIndex_read mx (Chain (file f)) (posn / 512) need f = Some (file_sector g l (posn / 512), f1) /\
  exists res f2 d2, (if (LastSector f1 =? -1) || (file_sector g l (posn / 512) <? LastSector f1) || (u32 (file_sector g l (posn / 512)) >=? LastSector f1 +u SectorsOfBuffer f1) then
               match readsector (geo f1) (file_sector g l (posn / 512)) (s32 (nextSectorsOfBuffer f1)) d with
               | None => None
               | Some (res, b, d) =>
                   match overwrite b (LastSectorBuffer f1) with
                   | None => None
                   | Some b' => Some (res, set_last (file_sector g l (posn / 512)) b' (nextBytesOfBuffer f1) (nextSectorsOfBuffer f1) (clobber_file b f1), d)
                   end
               end
             else Some (0, f1, d)) = Some (res, f2, d2) /\ 0 <= res /\ reading g l mx f2 d2 /\ but_buffer f f2 /\
    exists k n, 0 <= k <= posn / 512 /\ posn / 512 < k + n /\ 1 <= n <= SecPerClust g * mx /\ k + n <= Z.of_nat (length l) * SecPerClust g /\
      (forall j, 0 <= j < n -> file_sector g l (k + j) = LastSector f2 + j) /\ BytesOfBuffer f2 = 512 * n /\
      take (Z.to_nat (512 * n)) (LastSectorBuffer f2) = sector_bytes g (LastSector f2) n.
Proof.
  intros Hrd Hp Hneed. pose proof Hrd as [Hlo Eg (strt & rest & Ech) [Hsz Hsz2] Hcap Hbuf Hap Hop].
  assert (0 <= posn / 512 < Z.of_nat (length l) * SecPerClust g) as Hi.
  { split; [apply Z.div_pos; lia|]. apply Z.div_lt_upper_bound; lia. }
  rewrite Ech. destruct (getSectorIndex_read_ok g l mx strt (posn / 512) need rest f Hlo Eg Hi Hneed) as (next & -> & Hn & Hin & Hadj).
  eexists. split; [reflexivity|]. set (f1 := set_next (512 * next) next f).
  assert (reading g l mx f1 d) as Hrd1 by (split; try done; by exists strt, rest).
  destruct (_ || _ || _) eqn:Ht.
  - pose proof (file_sector_range g l mx _ Hlo Hi) as [Hf0 Hf1]. pose proof (lo_small _ _ _ Hlo). pose proof (lo_limit _ _ _ Hlo).
    pose proof (ok_part _ (lo_geo _ _ _ Hlo)). cbn [f1 set_next geo nextSectorsOfBuffer nextBytesOfBuffer]. rewrite s32_small, Eg by lia.
    destruct (readsector_ok g (file_sector g l (posn / 512)) next d Hop) as (d2 & -> & Hop2); [lia|lia|lia|lia|lia|].
    unfold overwrite. change (LastSectorBuffer f1) with (LastSectorBuffer f). rewrite sector_bytes_length, Hcap. rewrite (proj2 (Nat.leb_le _ _)) by lia.
    rewrite clobber_file_apart by (exact Hap || rewrite sector_bytes_length; change (LastSectorBuffer f1) with (LastSectorBuffer f); rewrite Hcap; lia).
    eexists _, _, d2. split; [reflexivity|]. split; [lia|]. split; [|split].
    + split; try done.
      * by exists strt, rest.
      * cbn. rewrite length_app, sector_bytes_length, length_drop, Hcap. lia.
      * right. exists (posn / 512), next. cbn. split_and!; try done; try lia.
        rewrite take_app_le by (rewrite sector_bytes_length; lia). apply take_ge. rewrite sector_bytes_length. lia.
      * unfold entries_apart. cbn. rewrite length_app, sector_bytes_length, length_drop, Hcap. destruct Hap as [?|Hap]; [by left|right; rewrite Hcap in Hap; lia].
    + done.
    + exists (posn / 512), next. cbn. split_and!; try done; try lia.
      rewrite take_app_le by (rewrite sector_bytes_length; lia). apply take_ge. rewrite sector_bytes_length. lia.
  - destruct (buffer_hit g l mx (posn / 512) f1 d Hrd1 Hi Ht) as (k & n & H1 & H2 & H3 & H4 & H5 & _ & H6 & H7).
    exists 0, f1, d. split; [done|]. split; [done|]. split; [done|]. split; [done|]. exists k, n. split_and!; done || lia.
Qed.

Lemma but_buffer_trans f1 f2 f3 : but_buffer f1 f2 -> but_buffer f2 f3 -> but_buffer f1 f3.
Proof. unfold but_buffer. intros (-> & -> & -> & -> & -> & ->) (-> & -> & -> & -> & -> & ->). done. Qed.

Lemma fat_read_loop_ok g l (mx : Z) (fuel : nat) : forall posn len total out f d, reading g l mx f d -> 0 <= posn -> 0 <= len <= Z.of_nat fuel ->
  posn + len <= FileSize (file f) -> 0 <= total -> total + len < 2 ^ 31 ->
  exists f' d', fat_read_loop fuel mx posn len total out f d = Some (0, total + len, out ++ map (file_byte g l) (seqZ posn len), posn + len, f', d') /\
    reading g l mx f' d' /\ but_buffer f f'.
Proof.
  induction fuel as [|fuel IH]; intros posn len total out f d Hrd Hp Hl Hsz Ht Htl; cbn [fat_read_loop].
  all: destruct (Z.eqb_spec len 0) as [->|Hne]; [exists f, d; rewrite !Z.add_0_r, app_nil_r; split_and!; done|try lia].
  pose proof Hrd as [_ _ _ [_ Hs31] _ _ _ _]. unfold SECTORSIZE at 1 2 3. change SECTORSIZE with 512.
  assert (s32 (Z.quot posn 512) = posn / 512) as -> by (rewrite Z.quot_div_nonneg by lia; apply s32_small; zlia).
  assert (len +u 512 -u 1 = len + 511) as -> by (rewrite (u32_small (len + 512)), u32_small by lia; lia).
  assert (1 <= (len + 511) / 512 < 2 ^ 30) as Hneed by zlia. rewrite (s32_small ((len + 511) / 512)) by lia.
  destruct (fill_round g l mx posn ((len + 511) / 512) f d Hrd ltac:(lia) Hneed) as (f1 & -> & res & f2 & d2 & -> & Hres & Hrd2 & Hbut & k & n & Hk & Hkn & Hn & Hlen & Hadj & Eb & Et).
  rewrite (proj2 (Z.ltb_ge res 0)) by done. pose proof Hrd2 as [Hlo2 _ _ _ Hcap2 _ _ _].
  destruct (copy_round g l mx k n posn len fuel total out f2 d2 Hlo2 Hcap2 Hk Hkn Hn Hlen Hadj Eb Et) as [Hc E]; [lia..|]. cbv zeta in Hc, E.
  change SECTORSIZE with 512 in E. rewrite E. clear E. set (c := Z.min len (512 * (k + n) - posn)) in *.
  assert (file f2 = file f) as Ef by apply Hbut.
  destruct (IH (posn + c) (len - c) (total + c) (out ++ map (file_byte g l) (seqZ posn c)) f2 d2 Hrd2) as (f3 & d3 & -> & Hrd3 & Hbut3); [lia|lia|rewrite Ef; lia|lia|lia|].
  exists f3, d3. split; [|split; [done|by eapply but_buffer_trans]].
  replace (total + c + (len - c)) with (total + len) by lia. replace (posn + c + (len - c)) with (posn + len) by lia.
  rewrite <- app_assoc, <- map_app. do 5 f_equal. replace len with (c + (len - c)) at 2 by lia. rewrite seqZ_app by lia. done.
Qed.

(** ** Properties *)

Lemma fat_read_ok g l (mx posn len : Z) f d : reading g l mx f d -> 0 <= posn < 2 ^ 62 -> 0 <= len < 2 ^ 32 ->
  if posn <? FileSize (file f) then
    let n := Z.min len (FileSize (file f) - posn) in
    exists f' d', fat_read mx posn len f d = Some (n, map (file_byte g l) (seqZ posn n), posn + n, f', d') /\
      reading g l mx f' d' /\ but_buffer f f'
  else fat_read mx posn len f d = Some (-1, [], posn, f, d).
Proof.
  intros Hrd Hp Hl. unfold fat_read. rewrite Z.geb_leb. pose proof Hrd as [_ _ _ [_ Hs31] _ _ _ _].
  destruct (Z.ltb_spec posn (FileSize (file f))) as [Hlt|Hge]; [|by rewrite (proj2 (Z.leb_le _ _))].
  rewrite (proj2 (Z.leb_gt _ _)) by done. cbv zeta. rewrite s64_small by lia. set (n := Z.min len (FileSize (file f) - posn)).
  assert ((if posn + len >? FileSize (file f) then u32 (FileSize (file f) - posn) else len) = n) as ->.
  { unfold n. destruct (Z.gtb_spec (posn + len) (FileSize (file f))); [rewrite u32_small by lia|]; lia. }
  destruct (fat_read_loop_ok g l mx (Z.to_nat n) posn n 0 [] f d Hrd) as (f' & d' & E & Hrd' & Hbut); [lia|lia|lia|lia|lia|].
  rewrite E. exists f', d'. split_and!; done.
Qed.

(** Reads one after another, with the lengths [lens]. *)
Fixpoint fat_reads (mx : Z) (lens : list Z) (posn : Z) f d : option (list Z * Z * fat_sc * D) :=
  match lens with
  | [] => Some ([], posn, f, d)
  | len :: lens =>
      match fat_read mx posn len f d with
      | None => None
      | Some (_, out, posn, f, d) =>
          match fat_reads mx lens posn f d with Some (outs, posn, f, d) => Some (out ++ outs, posn, f, d) | None => None end
      end
  end.

(** A file that is read in pieces is read in full. *)
Lemma fat_reads_pieces g l (mx : Z) (lens : list Z) : forall posn f d, reading g l mx f d -> 0 <= posn <= FileSize (file f) -> Forall (fun n => 0 <= n < 2 ^ 32) lens ->
  exists n f' d', n = Z.min (foldr Z.add 0 lens) (FileSize (file f) - posn) /\
    fat_reads mx lens posn f d = Some (map (file_byte g l) (seqZ posn n), posn + n, f', d').
Proof.
  induction lens as [|len lens IH]; intros posn f d Hrd Hp Hlens; cbn [fat_reads foldr].
  { exists 0, f, d. split; [lia|]. by rewrite Z.add_0_r. }
  apply Forall_cons in Hlens as [Hl Hlens]. pose proof Hrd as [_ _ _ [_ Hs31] _ _ _ _].
  assert (0 <= foldr Z.add 0 lens) as Hsum by (clear -Hlens; induction Hlens; cbn; lia).
  pose proof (fat_read_ok g l mx posn len f d Hrd ltac:(lia) Hl) as Hspec. destruct (Z.ltb_spec posn (FileSize (file f))) as [Hlt|Hge].
  - destruct Hspec as (f1 & d1 & -> & Hrd1 & Hbut). set (n := Z.min len (FileSize (file f) - posn)) in *. assert (file f1 = file f) as Ef by apply Hbut.
    destruct (IH (posn + n) f1 d1 Hrd1) as (m & f2 & d2 & Em & E); [rewrite Ef; lia|done|]. rewrite E, Ef in *. exists (n + m), f2, d2. split; [lia|].
    rewrite <- map_app, Z.add_assoc. do 5 f_equal. rewrite seqZ_app by lia. done.
  - rewrite Hspec. destruct (IH posn f d Hrd ltac:(lia) Hlens) as (m & f2 & d2 & Em & E). rewrite E. exists m, f2, d2. split; [lia|done].
Qed.

(** A size in the directory that is more than the chain holds: at the end of the chain
    [fat_read_loop] transfers nothing, over and over. *)
Lemma fat_read_hangs g l (mx len total : Z) (out : list Z) (fuel : nat) f d : layout_ok g l mx -> geo f = g -> raw_open (fd g) d ->
  (exists strt rest, Chain (file f) = Fatchain strt (l ++ rest) (Z.of_nat (length l))) -> 2 * SecPerClust g <= DataSectorBase g < 2 ^ 29 ->
  0 < len < 2 ^ 31 -> LastSector f = -1 \/ SectorsOfBuffer f = 0 /\ LastSector f = DataSectorBase g - 2 * SecPerClust g ->
  fat_read_loop fuel mx (512 * (Z.of_nat (length l) * SecPerClust g)) len total out f d = None.
Proof.
  intros Hlo Eg Hop (strt & rest & Ech) Hbase Hlen. revert f d total out Eg Hop Ech.
  induction fuel as [|fuel IH]; intros f d total out Eg Hop Ech Hbuf; cbn [fat_read_loop]; rewrite (proj2 (Z.eqb_neq len 0)) by lia; [done|].
  pose proof (lo_spc _ _ _ Hlo) as Hspc. pose proof (lo_length _ _ _ Hlo) as Hll. pose proof (ok_part _ (lo_geo _ _ _ Hlo)) as Hps.
  pose proof (ok_limit _ (lo_geo _ _ _ Hlo)) as Hlim. set (N := Z.of_nat (length l) * SecPerClust g) in *. change SECTORSIZE with 512.
  assert (0 <= N) by (unfold N; lia). rewrite Z.quot_div_nonneg by lia. rewrite (Z.mul_comm 512 N) at 1. rewrite Z.div_mul, s32_small by lia.
  assert (exists need, s32 ((len +u 512 -u 1) / 512) = need /\ 0 < need) as (need & -> & Hneed).
  { eexists. split; [reflexivity|]. rewrite (u32_small (len + 512)), u32_small by lia. rewrite s32_small; zlia. }
  assert (getSectorIndex_read mx (Chain (file f)) N need f = Some (DataSectorBase g - 2 * SecPerClust g, set_next 0 0 f)) as ->.
  { unfold getSectorIndex_read. rewrite Ech, Eg. rewrite (Z.quot_div_nonneg N), Z.rem_mod_nonneg by lia.
    assert (N / SecPerClust g = Z.of_nat (length l)) as -> by (unfold N; apply Z.div_mul; lia).
    assert (N mod SecPerClust g = 0) as -> by (unfold N; apply Z.mod_mul; lia).
    assert (forall n, run_loop n 0 (Z.of_nat (length l)) (Fatchain strt (l ++ rest) (Z.of_nat (length l))) 0 0 = Some (0, 0)) as ->.
    { intros [|n]; [done|]. cbn [run_loop count]. by rewrite Z.ltb_irrefl. }
    change (s32 (0 * SecPerClust g - 0)) with 0. unfold min32. rewrite (proj2 (Z.ltb_lt 0 need)) by done. change (s32 (0 - 2)) with (-2).
    rewrite (s32_small (-2 * SecPerClust g)), (u32_small (DataSectorBase g + _)), Z.add_0_r, u32_small, s32_small by lia. change (u32 (u32 0 * SECTORSIZE)) with 0.
    change (u32 0) with 0. do 2 f_equal. lia. }
  set (sector := DataSectorBase g - 2 * SecPerClust g) in *. cbn [set_next LastSector SectorsOfBuffer LastSectorBuffer nextSectorsOfBuffer nextBytesOfBuffer geo].
  assert ((LastSector f =? -1) || (sector <? LastSector f) || (u32 sector >=? LastSector f +u SectorsOfBuffer f) = true) as ->.
  { destruct Hbuf as [->|[-> ->]]; [done|]. rewrite Z.add_0_r, Z.geb_leb, Z.leb_refl. apply orb_true_r. }
  rewrite Eg. change (s32 0) with 0.
  destruct (readsector_ok g sector 0 d Hop) as (d2 & -> & Hop2); [unfold sector; lia|lia|lia|lia|unfold sector; lia|].
  change (sector_bytes g sector 0) with (@nil Z). cbn [overwrite length Nat.leb app drop]. change (1 <? 0) with false. cbv iota.
  rewrite clobber_file_nil.
  cbn [set_last set_next LastSector SectorsOfBuffer LastSectorBuffer BytesOfBuffer]. rewrite Z.sub_diag. change (s32 (s32 0 * 512)) with 0.
  rewrite Z.rem_mod_nonneg by lia. assert ((512 * N) mod 512 = 0) as -> by (rewrite Z.mul_comm; apply Z.mod_mul; lia). change (s32 (0 + 0)) with 0. change (0 -u 0) with 0.
  rewrite (s32_small len), (u32_small len) by lia. replace (len >? 0) with true by (symmetry; apply Z.gtb_lt; lia). cbv iota. change (s32 0) with 0. change (0 <? 0) with false. cbn [orb].
  rewrite (proj2 (Z.ltb_ge (Z.of_nat _) _)) by lia. rewrite Z.add_0_r, Z.sub_0_r, s64_small, u32_small by lia. apply IH; [done..|]. right. done.
Qed.

(** C35: [fat_read] of [len] bytes at a position in an open file, whose entries lie outside
    of the block of the buffer, returns [n], the smaller of
    [len] and what is left of the file, and the [n] bytes of the file from there on, the
    file being its clusters in the order of the chain; the position advances by [n].  It
    always ends, whatever has been read before: the buffer, filled with a run of adjacent
    clusters of any length and used again as long as the sector lies in it, always holds
    what its sectors say, never overflows, and is found again for no other sector.  At the
    end of the file the result is -1 and nothing changes.  A file that is read in pieces of
    any lengths is read in full. *)
Theorem fat_read_spec g l (mx posn : Z) f d : reading g l mx f d -> 0 <= posn < 2 ^ 62 ->
  (forall len, 0 <= len < 2 ^ 32 ->
    if posn <? FileSize (file f) then
      let n := Z.min len (FileSize (file f) - posn) in
      exists f' d', fat_read mx posn len f d = Some (n, map (file_byte g l) (seqZ posn n), posn + n, f', d') /\
        reading g l mx f' d' /\ but_buffer f f'
    else fat_read mx posn len f d = Some (-1, [], posn, f, d)) /\
  (forall lens, posn <= FileSize (file f) -> Forall (fun n => 0 <= n < 2 ^ 32) lens ->
    exists f' d', let n := Z.min (foldr Z.add 0 lens) (FileSize (file f) - posn) in
      fat_reads mx lens posn f d = Some (map (file_byte g l) (seqZ posn n), posn + n, f', d')).
Proof.
  intros Hrd Hp. split.
  - intros len Hl. by apply fat_read_ok.
  - intros lens Hle Hlens. destruct (fat_reads_pieces g l mx lens posn f d Hrd ltac:(lia) Hlens) as (n & f' & d' & -> & E). eauto.
Qed.
End Read.

(** A file of 1200 bytes in the clusters 3, 341 and 5 of a stick. *)
Definition file12 : fat_sc :=
  FatSc geometry12 [] (-1) [] 0 (Fileentry [] [] 0 3 1200 (Fatchain 3 ([3; 341; 5] ++ [0xFFF]) 3)) (-1) (replicate 2048 0) 0 0 0 0 2048.

Lemma file12_reading : @reading _ _ (stick_disk stick_byte) geometry12 [3; 341; 5] 4 file12 stick_open.
Proof.
  split; [split| | | | | | |]; try done.
  - apply geometry12_ok.
  - by apply (bool_decide_eq_true_1 (NoDup [3; 341; 5])).
  - repeat (apply Forall_cons; split; [cbn; lia|]). by apply Forall_nil.
  - by exists 3, [0xFFF].
  - by left.
  - right. by vm_compute.
  - apply stick_raw_open.
Qed.

(** The same file with its entries at the start of the block, where [malloc] puts them when
    there is no free block below (HeapSpec.v, [freed_block_reused]).  The first two bytes
    are right.  The sector that was read for them has become the clusters of the chain, and
    the next two bytes come from somewhere else on the disk. *)
Definition file12_inside : fat_sc :=
  FatSc geometry12 [] (-1) [] 0 (file file12) (-1) (replicate 2048 0) 0 0 0 0 0.

Lemma entries_in_the_buffer :
  match @fat_read _ (stick_raw stick_byte) 4 0 2 file12_inside stick_open with
  | Some (_, out, p, f, d) =>
      match @fat_read _ (stick_raw stick_byte) 4 p 2 f d with Some (r, out', _, _, _) => Some (out, r, out') | None => None end
  | None => None
  end = Some ([50; 51], 2, [245; 246]) /\
  map (@file_byte _ _ (stick_disk stick_byte) geometry12 [3; 341; 5]) (seqZ 0 4) = [50; 51; 52; 53].
Proof. split; vm_compute; reflexivity. Qed.

Lemma fat_read_spec_witness : exists f' d',
  @fat_read _ (stick_raw stick_byte) 4 300 1000 file12 stick_open
    = Some (900, map (@file_byte _ _ (stick_disk stick_byte) geometry12 [3; 341; 5]) (seqZ 300 900), 1200, f', d') /\
  @file_byte _ _ (stick_disk stick_byte) geometry12 [3; 341; 5] 511 = u8 (stick_byte (5 * 512 + 511)) /\
  @file_byte _ _ (stick_disk stick_byte) geometry12 [3; 341; 5] 512 = u8 (stick_byte (343 * 512)).
Proof.
  destruct (@fat_read_spec _ _ (stick_disk stick_byte) geometry12 [3; 341; 5] 4 300 file12 stick_open) as [Hread _].
  - apply file12_reading.
  - lia.
  - destruct (Hread 1000) as (f' & d' & E & _ & _); [lia|]. exists f', d'. split; [exact E|]. split; vm_compute; reflexivity.
Defined.
