(* ===== verification/FatDir.v ===== *)
(** * The FAT file system: directories (os/filesys/fatfs.c)
    Names of eight and three characters, long names spread over several entries, and the
    search for a path.  The listing that the search prints for a path that ends in a slash
    is left out. *)

From S2P Require Import Prelude Mem CStr CType Shell UsbStorage Devfs Fat.

Definition MAX_DIRBUF : Z := 10.
Definition SLOT_EMPTY : Z := 0x00.
Definition SLOT_DELETED : Z := 0xe5.
Definition ATTR_VOLUME : Z := 0x08.
Definition ATTR_WIN95 : Z := 0x0f.

(** ** Entries: 32 bytes *)

Definition bytes (o n : nat) (e : list Z) : list Z := take n (drop o e).
Definition word (o : Z) (e : list Z) : Z := znth 0 e o + 2 ^ 8 * znth 0 e (o + 1).

Definition dirName (e : list Z) : list Z := bytes 0 8 e.
Definition dirExtension (e : list Z) : list Z := bytes 8 3 e.
Definition dirAttributes (e : list Z) : Z := znth 0 e 11.
Definition dirHighClust (e : list Z) : Z := word 20 e.
Definition dirStartCluster (e : list Z) : Z := word 26 e.
Definition dirFileSize (e : list Z) : Z := word 28 e + 2 ^ 16 * word 30 e.
Definition wePart1 (e : list Z) : list Z := bytes 1 10 e.
Definition wePart2 (e : list Z) : list Z := bytes 14 12 e.
Definition wePart3 (e : list Z) : list Z := bytes 28 4 e.

(** The characters before the padding. *)
Fixpoint until_space (l : list Z) : list Z :=
  match l with
  | c :: l => if c =? 32 then [] else c :: until_space l
  | [] => []
  end.

Definition parseShortFilename (e : list Z) : list Z :=
  until_space (dirName e) ++ (if negb (znth 0 (dirExtension e) 0 =? 32) then [46] else []) ++ until_space (dirExtension e).

(** The sum is computed of the first eleven bytes of the name in its C form, and dropped. *)
Fixpoint shortNameChkSum (len : nat) (name : list Z) (sum : Z) : Z :=
  match len with
  | O => sum
  | S len => shortNameChkSum len (tail name)
               (u8 ((if negb (Z.land sum 1 =? 0) then 0x80 else 0) + Z.shiftr sum 1 + default 0 (head name)))
  end.

(** The thirteen characters of a part of a long name, the low byte of each. *)
Fixpoint low_bytes (l : list Z) : list Z :=
  match l with
  | c :: _ :: l => c :: low_bytes l
  | _ => []
  end.

Definition long_part (e : list Z) : list Z := low_bytes (wePart1 e ++ wePart2 e ++ wePart3 e).

(** [longName[c] == '\n'] is replaced. *)
Definition no_newline (c : Z) : Z := if c =? 10 then 95 else c.

(** The parts from [dirbuf[dirc - 1]] down to [dirbuf[0]], up to the terminator. *)
Fixpoint long_chars (dirc : nat) (dirbuf : list (list Z)) : list Z :=
  match dirc with
  | O => []
  | S i => map no_newline (long_part (default [] (dirbuf !! i))) ++ long_chars i dirbuf
  end.

(** Without parts the long name stays what it was. *)
Definition fat_parseDirEntries (dirc : nat) (dirbuf : list (list Z)) (filee : fat_fileentry) : fat_fileentry :=
  let dire := default [] (dirbuf !! dirc) in
  Fileentry (if (dirc =? 0)%nat then longName filee else cstr (long_chars dirc dirbuf))
    (parseShortFilename dire) (dirHighClust dire) (dirStartCluster dire) (dirFileSize dire) (Chain filee).

(** ** The scan of a directory *)

(** [dirbuf] belongs to all scans. *)
Record scan := Scan { long_name : nat; filee : fat_fileentry; dirbuf : list (list Z) }.

Definition new_filee : fat_fileentry := Fileentry [] [] 0 0 0 (Fatchain 0 [] 0).

Inductive scan_verdict :=
  | Continue (s : scan)
  | Found (s : scan)
  | End (s : scan).

Definition same_name (name : list Z) (e : fat_fileentry) : bool :=
  (strcasecmp name (cstr (shortName e)) =? 0) || (strcasecmp name (longName e) =? 0).

Definition scan_entry (name : list Z) (dir_list : bool) (dire : list Z) (s : scan) : scan_verdict :=
  if znth 0 dire 0 =? SLOT_EMPTY then End s
  else if znth 0 dire 0 =? SLOT_DELETED then Continue s
  else if dirAttributes dire =? ATTR_VOLUME then Continue s
  else
    let dirbuf := <[long_name s := dire]> (dirbuf s) in
    if dirAttributes dire =? ATTR_WIN95 then
      let n := S (long_name s) in Continue (Scan (if Z.of_nat n >? MAX_DIRBUF - 1 then O else n) (filee s) dirbuf)
    else
      let e := fat_parseDirEntries (long_name s) dirbuf (filee s) in
      let s := Scan O e dirbuf in
      if dir_list then Continue s else if same_name name e then Found s else Continue s.

(** The sixteen entries of [DirBuffer]. *)
Fixpoint scan_sector (n : nat) (name : list Z) (dir_list : bool) (b : list Z) (s : scan) : scan_verdict :=
  match n with
  | O => Continue s
  | S n => match scan_entry name dir_list (take 32 b) s with
           | Continue s => scan_sector n name dir_list (drop 32 b) s
           | v => v
           end
  end.

(** The part of a path before the first slash, and what follows it. *)
Fixpoint split_path (name : list Z) : list Z * option (list Z) :=
  match name with
  | [] => ([], None)
  | c :: name => if c =? 47 then ([], Some name) else let '(p, r) := split_path name in (c :: p, r)
  end.

Section Dir.
Context {D : Type} `{RawDevice D}.
Implicit Types (f : fat_sc) (d : D).

(** A read that fails goes unnoticed: the result is compared with 0 and is 1 or -1. *)
Definition scan_at (sector : Z) (name : list Z) (dir_list : bool) (s : scan) f d : option (scan_verdict * fat_sc * D) :=
  match readsector (geo f) sector 1 d with
  | None => None
  | Some (_, b, d) => Some (scan_sector 16 name dir_list b s, set_dir_buffer b f, d)
  end.

(** The sectors of the clusters of a chain: [for (i ...) for (j ...)]. *)
Fixpoint scan_clusters (places : list (Z * Z)) (chain : fatchain) (name : list Z) (dir_list : bool) (s : scan) f d : option (scan_verdict * fat_sc * D) :=
  match places with
  | [] => Some (Continue s, f, d)
  | (i, j) :: places =>
      match getSectorIndex f chain j i with
      | None => None
      | Some sector =>
          match scan_at sector name dir_list s f d with
          | Some (Continue s, f, d) => scan_clusters places chain name dir_list s f d
          | r => r
          end
      end
  end.

Definition places (cnt spc : Z) : list (Z * Z) := flat_map (fun i => map (pair i) (seqZ 0 spc)) (seqZ 0 cnt).

(** The sectors of a root directory of fixed size, one more than it has. *)
Fixpoint scan_root (sectors : list Z) (name : list Z) (dir_list : bool) (s : scan) f d : option (scan_verdict * fat_sc * D) :=
  match sectors with
  | [] => Some (Continue s, f, d)
  | sector :: sectors =>
      match scan_at (s32 sector) name dir_list s (set_dir_cache sector f) d with
      | Some (Continue s, f, d) => scan_root sectors name dir_list s f d
      | r => r
      end
  end.

Definition first_cluster (e : fat_fileentry) : Z := s32 (Z.lor (StartCluster e) (s32 (Z.shiftl (HighClust e) 16))).

(** The entry becomes the file. *)
Definition found_file (fuel : nat) (e : fat_fileentry) f d : option (Z * fat_sc * D) :=
  match fat_getChain fuel (first_cluster e) (Chain (file f)) f d with
  | None => None
  | Some (_, chain, f, d) =>
      Some (1, set_file (Fileentry (longName (file f)) (shortName e) (HighClust e) (StartCluster e) (FileSize e) chain) f, d)
  end.

(** [stack] is what a [struct fatchain] on the stack happens to hold, before
    [fat_getChain], whose result is not looked at.  [fuel] bounds the length of chains. *)
Fixpoint fat_subdirscan (depth fuel : nat) (stack : fatchain) (name : list Z) (chain : fatchain) (dirbuf0 : list (list Z)) f d : option (Z * list (list Z) * fat_sc * D) :=
  match depth with
  | O => None
  | S depth =>
      let '(name, dpath) := split_path name in
      let dir_list := match dpath, name with None, [] => true | _, _ => false end in
      match scan_clusters (places (count chain) (SecPerClust (geo f))) chain name dir_list (Scan O new_filee dirbuf0) f d with
      | None => None
      | Some (Continue s, f, d) => Some (0, dirbuf s, f, d)
      | Some (End s, f, d) => Some (if (dir_list : bool) then 2 else 0, dirbuf s, f, d)
      | Some (Found s, f, d) =>
          match dpath with
          | None => match found_file fuel (filee s) f d with Some (r, f, d) => Some (r, dirbuf s, f, d) | None => None end
          | Some dpath =>
              match fat_getChain fuel (first_cluster (filee s)) stack f d with
              | None => None
              | Some (_, chain, f, d) => fat_subdirscan depth fuel stack dpath chain (dirbuf s) f d
              end
          end
      end
  end.

Definition fat_findfile (fuel : nat) (stack : fatchain) (name : list Z) (dirbuf0 : list (list Z)) f d : option (Z * list (list Z) * fat_sc * D) :=
  let depth := S (length name) in
  if FatType (geo f) =? TYPE_FAT32 then
    match fat_getChain fuel (s32 (RootClus (geo f))) stack f d with
    | None => None
    | Some (_, chain, f, d) => fat_subdirscan depth fuel stack name chain dirbuf0 f d
    end
  else
    let '(name, dpath) := split_path name in
    let dir_list := match dpath, name with None, [] => true | _, _ => false end in
    let g := geo f in
    match scan_root (seqZ (FirstRootDirSecNum g) (RootDirSectors g + 1)) name dir_list (Scan O new_filee dirbuf0) f d with
    | None => None
    | Some (Continue s, f, d) => Some (2, dirbuf s, f, d)
    | Some (End s, f, d) => Some (if (dir_list : bool) then 2 else 0, dirbuf s, f, d)
    | Some (Found s, f, d) =>
        match dpath with
        | None => match found_file fuel (filee s) f d with Some (r, f, d) => Some (r, dirbuf s, f, d) | None => None end
        | Some dpath =>
            match fat_getChain fuel (first_cluster (filee s)) stack f d with
            | None => None
            | Some (_, chain, f, d) => fat_subdirscan depth fuel stack dpath chain (dirbuf s) f d
            end
        end
    end.
End Dir.
