(* ===== verification/FatLookup.v ===== *)
(** * Looking up a name in a directory, specified
    A directory is a list of entries up to an end mark; a file goes by its short name and by
    the long name whose parts stand before its entry. *)

From S2P Require Import Prelude Mem CStr CType Shell UsbStorage Devfs Fat FatTable FatChain FatRead FatDir.

(** ** Comparing names *)

Definition nul_free8 (s : list Z) : Prop := Forall (fun c => u8 c <> 0) s.

Lemma lower_zero (c : Z) : u8 c <> 0 -> lower c <> lower 0.
Proof.
  intros Hc. unfold lower. pose proof (u8_range c) as Hr. intros E.
  assert ((u8 c =? 0) || negb (znth 0 _C_tolower_ (1 + u8 c) =? znth 0 _C_tolower_ (1 + u8 0)) = true) as Hb.
  { apply (range_check 256 (fun x => (x =? 0) || negb (znth 0 _C_tolower_ (1 + x) =? znth 0 _C_tolower_ (1 + u8 0)))); [by vm_compute|lia]. }
  rewrite E, Z.eqb_refl in Hb. cbn in Hb. rewrite orb_false_r in Hb. apply Z.eqb_eq in Hb. done.
Qed.

(** [strcasecmp] compares up to the case. *)
Lemma strcasecmp_eq (s1 s2 : list Z) : nul_free8 s1 -> nul_free8 s2 -> strcasecmp s1 s2 = 0 <-> map lower s1 = map lower s2.
Proof.
  intros H1. revert s2. induction H1 as [|c s1 Hc _ IH]; intros [|d s2] H2; cbn [strcasecmp map].
  - done.
  - apply Forall_cons in H2 as [Hd _]. apply lower_zero in Hd. split; [lia|done].
  - apply lower_zero in Hc. split; [lia|done].
  - apply Forall_cons in H2 as [Hd H2]. destruct (Z.eqb_spec (lower c) (lower d)) as [E|E].
    + rewrite IH by done. rewrite E. split; [by intros ->|by injection 1].
    + split; [lia|by injection 1].
Qed.

Lemma strcasecmp_nil (name : list Z) : nul_free8 name -> name <> [] -> strcasecmp name [] <> 0.
Proof. intros Hn Hne. rewrite strcasecmp_eq by (done || constructor). by destruct name. Qed.

(** ** Entries *)

(** The long name that the parts spell, the last part first. *)
Definition long_text (parts : list (list Z)) : list Z := cstr (concat (map (fun e => map no_newline (long_part e)) parts)).

Definition entry_matches (name : list Z) (parts : list (list Z)) (e : list Z) : bool :=
  (strcasecmp name (cstr (parseShortFilename e)) =? 0) ||
  (match parts with [] => false | _ => strcasecmp name (long_text parts) =? 0 end).

Inductive lookup_result :=
  | LFound (e : list Z)
  | LEnd
  | LOut.

(** The first entry with the name; [parts]: those of the long name that have come by. *)
Fixpoint dir_lookup (name : list Z) (parts : list (list Z)) (es : list (list Z)) : lookup_result :=
  match es with
  | [] => LOut
  | e :: es =>
      if znth 0 e 0 =? SLOT_EMPTY then LEnd
      else if (znth 0 e 0 =? SLOT_DELETED) || (dirAttributes e =? ATTR_VOLUME) then dir_lookup name parts es
      else if dirAttributes e =? ATTR_WIN95 then dir_lookup name (e :: parts) es
      else if entry_matches name parts e then LFound e else dir_lookup name [] es
  end.

(** No long name has more than nine parts, 117 characters. *)
Fixpoint parts_fit (k : nat) (es : list (list Z)) : bool :=
  match es with
  | [] => true
  | e :: es =>
      if znth 0 e 0 =? SLOT_EMPTY then true
      else if (znth 0 e 0 =? SLOT_DELETED) || (dirAttributes e =? ATTR_VOLUME) then parts_fit k es
      else if dirAttributes e =? ATTR_WIN95 then (k <? 9)%nat && parts_fit (S k) es
      else parts_fit 0 es
  end.

(** ** The scan finds what the lookup finds *)

Fixpoint scan_list (name : list Z) (es : list (list Z)) (s : scan) : scan_verdict :=
  match es with
  | [] => Continue s
  | e :: es => match scan_entry name false e s with Continue s => scan_list name es s | v => v end
  end.

Lemma scan_list_app (name : list Z) (es es' : list (list Z)) (s : scan) :
  scan_list name (es ++ es') s = match scan_list name es s with Continue s => scan_list name es' s | v => v end.
Proof. revert s. induction es as [|e es IH]; intros s; cbn [scan_list app]; [done|]. by destruct (scan_entry name false e s). Qed.

(** The parts are in [dirbuf], in the order they came, and the long name that is left over
    from an earlier entry is not the one that is looked for. *)
Record scan_ok (name : list Z) (parts : list (list Z)) (s : scan) : Prop := {
  so_count : long_name s = length parts;
  so_fit : (length parts <= 9)%nat;
  so_size : length (dirbuf s) = 10%nat;
  so_parts i : (i < length parts)%nat -> dirbuf s !! i = rev parts !! i;
  so_stale : strcasecmp name (longName (filee s)) <> 0 }.

Lemma long_chars_rev (parts : list (list Z)) (b : list (list Z)) : (forall i, (i < length parts)%nat -> b !! i = rev parts !! i) ->
  long_chars (length parts) b = concat (map (fun e => map no_newline (long_part e)) parts).
Proof.
  revert b. induction parts as [|e parts IH]; intros b Hb; [done|]. cbn [length long_chars map concat].
  rewrite (Hb (length parts)) by (cbn; lia). cbn [rev]. rewrite lookup_app_r, length_rev, Nat.sub_diag by (rewrite length_rev; lia). cbn [default]. f_equal.
  apply IH. intros i Hi. rewrite Hb by (cbn; lia). cbn [rev]. rewrite lookup_app_l; [done|]. by rewrite length_rev.
Qed.

(** The information of an entry. *)
Definition describes (e : list Z) (x : fat_fileentry) : Prop :=
  shortName x = parseShortFilename e /\ HighClust x = dirHighClust e /\ StartCluster x = dirStartCluster e /\ FileSize x = dirFileSize e.

(** An entry that is neither a part of a long name nor skipped. *)
Lemma scan_short (name : list Z) (parts : list (list Z)) (e : list Z) (s : scan) : scan_ok name parts s ->
  let b := <[long_name s := e]> (dirbuf s) in let x := fat_parseDirEntries (long_name s) b (filee s) in
  same_name name x = entry_matches name parts e /\ describes e x /\ (same_name name x = false -> scan_ok name [] (Scan O x b)).
Proof.
  intros [Ec Hfit Hsize Hparts Hstale]. cbv zeta. set (b := <[long_name s := e]> (dirbuf s)).
  assert (b !! long_name s = Some e) as Eb by (apply list_lookup_insert_eq; lia).
  assert (longName (fat_parseDirEntries (long_name s) b (filee s)) = match parts with [] => longName (filee s) | _ => long_text parts end) as El.
  { unfold fat_parseDirEntries. cbn [longName]. rewrite Ec. destruct parts as [|p parts]; [done|]. cbn [length Nat.eqb]. unfold long_text. f_equal.
    apply (long_chars_rev (p :: parts)). intros i Hi. rewrite <- Hparts by done. unfold b. apply list_lookup_insert_ne. rewrite Ec. cbn in Hi |- *. lia. }
  assert (same_name name (fat_parseDirEntries (long_name s) b (filee s)) = entry_matches name parts e) as Em.
  { unfold same_name, entry_matches. rewrite El. unfold fat_parseDirEntries. cbn [shortName]. rewrite Eb. cbn [default]. f_equal.
    destruct parts; [by apply Z.eqb_neq|done]. }
  split; [done|]. split.
  - unfold describes, fat_parseDirEntries. cbn. by rewrite Eb.
  - intros Hno. split; cbn -[fat_parseDirEntries].
    + done.
    + lia.
    + unfold b. by rewrite length_insert.
    + lia.
    + unfold same_name in Hno. apply orb_false_iff in Hno as [_ Hno]. by apply Z.eqb_neq.
Qed.

Lemma scan_part (name : list Z) (parts : list (list Z)) (e : list Z) (s : scan) : scan_ok name parts s -> (length parts < 9)%nat ->
  let n := S (long_name s) in
  scan_ok name (e :: parts) (Scan (if Z.of_nat n >? MAX_DIRBUF - 1 then O else n) (filee s) (<[long_name s := e]> (dirbuf s))).
Proof.
  intros [Ec Hfit Hsize Hparts Hstale] Hlt. cbv zeta. rewrite Ec. replace (Z.of_nat (S (length parts)) >? MAX_DIRBUF - 1) with false.
  2:{ symmetry. rewrite Z.gtb_ltb. apply Z.ltb_ge. unfold MAX_DIRBUF. lia. }
  split; cbn.
  - done.
  - lia.
  - by rewrite length_insert.
  - intros i Hi. destruct (decide (i = length parts)) as [->|Hne].
    + rewrite list_lookup_insert_eq by lia. rewrite lookup_app_r, length_rev, Nat.sub_diag by (rewrite length_rev; lia). done.
    + rewrite list_lookup_insert_ne by done. rewrite lookup_app_l by (rewrite length_rev; lia). apply Hparts. lia.
  - done.
Qed.

Lemma scan_list_ok (name : list Z) (es : list (list Z)) : forall parts s, scan_ok name parts s -> parts_fit (length parts) es = true ->
  match dir_lookup name parts es with
  | LFound e => exists s', scan_list name es s = Found s' /\ describes e (filee s')
  | LEnd => exists s', scan_list name es s = End s'
  | LOut => exists s', scan_list name es s = Continue s'
  end.
Proof.
  induction es as [|e es IH]; intros parts s Hs Hfit; cbn [dir_lookup scan_list parts_fit] in *; [eauto|]. unfold scan_entry.
  destruct (znth 0 e 0 =? SLOT_EMPTY); [eauto|]. destruct (znth 0 e 0 =? SLOT_DELETED); cbn [orb] in *; [by apply IH|].
  destruct (dirAttributes e =? ATTR_VOLUME); [by apply IH|]. destruct (dirAttributes e =? ATTR_WIN95).
  - apply andb_true_iff in Hfit as [Hlt%Nat.ltb_lt Hfit]. apply (IH (e :: parts)); [|done]. by apply scan_part.
  - destruct (scan_short name parts e s Hs) as (Em & Hd & Hs'). cbn zeta. cbv iota. rewrite Em in *. destruct (entry_matches name parts e) eqn:E.
    + eexists. split; [reflexivity|]. done.
    + apply (IH []); [by apply Hs'|done].
Qed.
