(* ===== verification/FatPath.v ===== *)
(** * Finding a file by its path
    [fat_findfile] goes down the directories of a path as the specification does. *)

From S2P Require Import Prelude Mem CStr CType Shell UsbStorage Devfs Fat FatTable FatChain FatRead FatDir FatLookup.

(** ** A directory on the disk *)

(** [n] entries at the start of a buffer. *)
Fixpoint chunks (n : nat) (b : list Z) : list (list Z) :=
  match n with
  | O => []
  | S n => take 32 b :: chunks n (drop 32 b)
  end.

Lemma scan_sector_list (n : nat) (name b : list Z) (s : scan) : scan_sector n name false b s = scan_list name (chunks n b) s.
Proof. revert b s. induction n as [|n IH]; intros b s; cbn [scan_sector chunks scan_list]; [done|]. by destruct (scan_entry name false (take 32 b) s). Qed.

Lemma flat_map_seqZ (n spc : Z) : 0 <= n -> 0 <= spc -> map (fun '(i, j) => i * spc + j) (places n spc) = seqZ 0 (n * spc).
Proof.
  intros Hn Hs. replace n with (Z.of_nat (Z.to_nat n)) by lia. generalize (Z.to_nat n). clear n Hn. intros n. unfold places.
  induction n as [|n IH]; [done|]. replace (Z.of_nat (S n)) with (Z.of_nat n + 1) by lia. rewrite Z.mul_add_distr_r, Z.mul_1_l, !seqZ_app by lia.
  rewrite flat_map_app, map_app, IH. f_equal. rewrite !Z.add_0_l. change (seqZ (Z.of_nat n) 1) with [Z.of_nat n]. cbn [flat_map]. rewrite app_nil_r, map_map.
  pose proof (fmap_add_seqZ (Z.of_nat n * spc) 0 spc) as E. rewrite Z.add_0_r in E. exact E.
Qed.

Definition octets (e : list Z) : Prop := Forall (fun b => 0 <= b < 2 ^ 8) e.

Section Path.
Context {D : Type} `{RawDisk D}.
Implicit Types (g : geometry) (f : fat_sc) (d : D) (l : list Z) (es : list (list Z)).

Definition sector_entries g (k : Z) : list (list Z) := chunks 16 (sector_bytes g k 1).
Definition dir_entries g (sectors : list Z) : list (list Z) := flat_map (sector_entries g) sectors.

(** The directory whose clusters are [l], and the root directory of fixed size. *)
Definition cluster_entries g l : list (list Z) := dir_entries g (map (file_sector g l) (seqZ 0 (Z.of_nat (length l) * SecPerClust g))).
Definition root_entries g : list (list Z) := dir_entries g (seqZ (FirstRootDirSecNum g) (RootDirSectors g)).

Lemma dir_entries_octets g (sectors : list Z) : Forall octets (dir_entries g sectors).
Proof.
  unfold dir_entries. apply Forall_flat_map, Forall_forall. intros k _. unfold sector_entries.
  assert (octets (sector_bytes g k 1)) as Hb.
  { unfold octets, sector_bytes. apply Forall_map, Forall_forall. intros x _. apply raw_octet. }
  revert Hb. generalize (sector_bytes g k 1), 16%nat. intros b m. revert b. induction m as [|n IH]; intros b Hb; cbn [chunks]; constructor; [by apply Forall_take|]. apply IH. by apply Forall_drop.
Qed.

Lemma lookup_in (name : list Z) es (parts : list (list Z)) (e : list Z) : dir_lookup name parts es = LFound e -> e ∈ es.
Proof.
  revert parts. induction es as [|e' es IH]; intros parts; cbn [dir_lookup]; [done|]. repeat case_match; try done; try (intros E; apply elem_of_cons; right; by eapply IH).
  injection 1 as <-. by left.
Qed.

(** ** Scanning *)

(** What the search leaves alone. *)
Record dir_state f d f' d' : Prop := {
  ds_geo : geo f' = geo f;
  ds_file : file f' = file f;
  ds_buffer : LastSectorBuffer f' = LastSectorBuffer f;
  ds_cache : cache_ok f';
  ds_open : raw_open (fd (geo f)) d' }.

Lemma dir_state_trans f1 d1 f2 d2 f3 d3 : dir_state f1 d1 f2 d2 -> dir_state f2 d2 f3 d3 -> dir_state f1 d1 f3 d3.
Proof. intros [G1 F1 B1 _ _] [G2 F2 B2 C2 O2]. split; [congruence..|done|]. by rewrite G1 in O2. Qed.

Lemma table_dir_state f d f' d' : table_state f d f' d' -> dir_state f d f' d'.
Proof. intros (Hb & Hc & Ho). unfold but_cache in Hb. rewrite Hb in *. by split. Qed.

Definition sector_ok g (k : Z) : Prop := 0 <= k /\ PartitionStart g + k < 2 ^ 30.

Lemma scan_at_ok (k : Z) (name : list Z) (s : scan) f d : geo_ok (geo f) -> raw_open (fd (geo f)) d -> cache_ok f -> sector_ok (geo f) k ->
  exists f' d', scan_at k name false s f d = Some (scan_list name (sector_entries (geo f) k) s, f', d') /\ dir_state f d f' d'.
Proof.
  intros Hg Hop Hc [Hk Hk2]. unfold scan_at. pose proof (ok_part _ Hg). pose proof (ok_limit _ Hg).
  destruct (readsector_ok (geo f) k 1 d Hop) as (d' & -> & Hop'); [lia..|]. rewrite scan_sector_list. eexists _, d'. split; [reflexivity|]. by split.
Qed.

Lemma scan_root_ok (sectors : list Z) (name : list Z) : forall (s : scan) f d, geo_ok (geo f) -> raw_open (fd (geo f)) d -> cache_ok f -> Forall (sector_ok (geo f)) sectors ->
  exists f' d', scan_root sectors name false s f d = Some (scan_list name (dir_entries (geo f) sectors) s, f', d') /\ dir_state f d f' d'.
Proof.
  induction sectors as [|k sectors IH]; intros s f d Hg Hop Hc Hs; cbn [scan_root].
  { exists f, d. split; [done|]. by split. }
  apply Forall_cons in Hs as [Hk Hs]. pose proof (ok_part _ Hg). rewrite s32_small by (unfold sector_ok in Hk; lia).
  destruct (scan_at_ok k name s (set_dir_cache k f) d) as (f1 & d1 & -> & Hst1); [done..|].
  assert (dir_state f d f1 d1) as Hst by (destruct Hst1; by split). change (geo (set_dir_cache k f)) with (geo f).
  change (dir_entries (geo f) (k :: sectors)) with (sector_entries (geo f) k ++ dir_entries (geo f) sectors). rewrite scan_list_app.
  destruct (scan_list name (sector_entries (geo f) k) s) as [s'|s'|s']; [|by eexists _, _..].
  pose proof (ds_geo _ _ _ _ Hst) as Eg. destruct (IH s' f1 d1) as (f2 & d2 & -> & Hst2); rewrite ?Eg; [done|apply Hst|apply Hst|done|].
  exists f2, d2. split; [done|by eapply dir_state_trans].
Qed.

Lemma getSectorIndex_ok g l (mx strt i j : Z) rest f : layout_ok g l mx -> geo f = g -> 0 <= i < Z.of_nat (length l) -> 0 <= j < SecPerClust g ->
  getSectorIndex f (Fatchain strt (l ++ rest) (Z.of_nat (length l))) j i = Some (file_sector g l (i * SecPerClust g + j)) /\
  sector_ok g (file_sector g l (i * SecPerClust g + j)).
Proof.
  intros Hlo Eg Hi Hj. set (k := i * SecPerClust g + j). pose proof (lo_spc _ _ _ Hlo) as Hspc.
  assert (0 <= k < Z.of_nat (length l) * SecPerClust g) as Hk by (unfold k; nia). pose proof (file_sector_range g l mx k Hlo Hk) as Hr.
  destruct (cluster_of g l mx k Hlo Hk) as (c & Hc & Ec & Hcr & Hlim & _). pose proof (ok_part _ (lo_geo _ _ _ Hlo)) as Hps. pose proof (lo_base _ _ _ Hlo) as Hb.
  assert (k / SecPerClust g = i) as Ei by (unfold k; rewrite Z.div_add_l, Z.div_small by lia; lia). assert (k mod SecPerClust g = j) as Ej by (unfold k; rewrite Z.add_comm, Z.mod_add, Z.mod_small by lia; lia).
  rewrite Ei in Hc. split; [|done]. unfold getSectorIndex. rewrite Eg. cbn [count entries]. rewrite Z.quot_div_nonneg, Z.rem_mod_nonneg, Z.div_small, Z.mod_small by lia.
  rewrite (proj2 (Z.ltb_lt 0 _)), (proj2 (Z.ltb_ge i 0)) by lia. rewrite lookup_app_l by lia. rewrite Hc. cbn [mbind option_bind].
  unfold file_sector in Hr |- *. rewrite Ec, Ej in *. f_equal. pose proof (Z.mul_nonneg_nonneg (c - 2) (SecPerClust g) ltac:(lia) ltac:(lia)). pose proof (Z.mul_sub_distr_r c 2 (SecPerClust g)).
  rewrite (s32_small c), (s32_small (c - 2)) by lia. rewrite (s32_small ((c - 2) * _)) by lia. rewrite (u32_small (DataSectorBase g + _)), u32_small, s32_small by lia. done.
Qed.

Lemma scan_clusters_ok g l (mx strt : Z) rest (ps : list (Z * Z)) (name : list Z) : forall (s : scan) f d, layout_ok g l mx -> geo f = g -> raw_open (fd g) d -> cache_ok f ->
  Forall (fun '(i, j) => 0 <= i < Z.of_nat (length l) /\ 0 <= j < SecPerClust g) ps ->
  exists f' d', scan_clusters ps (Fatchain strt (l ++ rest) (Z.of_nat (length l))) name false s f d
      = Some (scan_list name (dir_entries g (map (fun '(i, j) => file_sector g l (i * SecPerClust g + j)) ps)) s, f', d') /\ dir_state f d f' d'.
Proof.
  induction ps as [|[i j] ps IH]; intros s f d Hlo Eg Hop Hc Hps; cbn [scan_clusters map].
  { exists f, d. split; [done|]. split; try done. by rewrite Eg. }
  apply Forall_cons in Hps as [[Hi Hj] Hps]. destruct (getSectorIndex_ok g l mx strt i j rest f Hlo Eg Hi Hj) as [-> Hk].
  destruct (scan_at_ok (file_sector g l (i * SecPerClust g + j)) name s f d) as (f1 & d1 & -> & Hst1); rewrite ?Eg; [by apply Hlo|done..|].
  change (dir_entries g (?k :: ?r)) with (sector_entries g k ++ dir_entries g r). rewrite scan_list_app.
  destruct (scan_list name (sector_entries g _) s) as [s'|s'|s']; [|by eexists _, _..].
  pose proof Hst1 as [Eg1 _ _ Hc1 Ho1]. rewrite Eg in *. destruct (IH s' f1 d1) as (f2 & d2 & -> & Hst2); [done..|].
  exists f2, d2. split; [done|by eapply dir_state_trans].
Qed.

Lemma scan_directory_ok g l (mx strt : Z) rest (name : list Z) (s : scan) f d : layout_ok g l mx -> geo f = g -> raw_open (fd g) d -> cache_ok f ->
  exists f' d', scan_clusters (places (Z.of_nat (length l)) (SecPerClust g)) (Fatchain strt (l ++ rest) (Z.of_nat (length l))) name false s f d
      = Some (scan_list name (cluster_entries g l) s, f', d') /\ dir_state f d f' d'.
Proof.
  intros Hlo Eg Hop Hc. pose proof (lo_spc _ _ _ Hlo) as Hspc.
  destruct (scan_clusters_ok g l mx strt rest (places (Z.of_nat (length l)) (SecPerClust g)) name s f d Hlo Eg Hop Hc) as (f' & d' & -> & Hst).
  { unfold places. apply Forall_flat_map, Forall_forall. intros i Hi%elem_of_seqZ. apply Forall_map, Forall_forall. intros j Hj%elem_of_seqZ. lia. }
  exists f', d'. split; [|done]. unfold cluster_entries. rewrite <- flat_map_seqZ by lia. rewrite map_map.
  match goal with |- Some (scan_list _ (dir_entries _ ?a) _, _, _) = Some (scan_list _ (dir_entries _ ?b) _, _, _) => assert (a = b) as ->; [|done] end.
  apply map_ext. by intros [i j].
Qed.

(** ** Paths *)

(** The first cluster, from the two halves in the entry. *)
Definition dir_cluster (e : list Z) : Z := dirStartCluster e + 2 ^ 16 * dirHighClust e.

Lemma word_range (e : list Z) (o : Z) : octets e -> 0 <= word o e < 2 ^ 16.
Proof.
  intros He. assert (forall i, 0 <= znth 0 e i < 2 ^ 8) as Hb.
  { intros i. unfold znth. destruct (e !! Z.to_nat i) as [b|] eqn:E; cbn; [|lia]. by apply (proj1 (Forall_lookup _ _) He _ _ E). }
  unfold word. pose proof (Hb o). pose proof (Hb (o + 1)). lia.
Qed.

Lemma first_cluster_ok (e : list Z) (x : fat_fileentry) : octets e -> describes e x -> dir_cluster e < 2 ^ 28 -> first_cluster x = dir_cluster e /\ 0 <= dir_cluster e.
Proof.
  intros He (_ & Eh & Es & _) Hlt. unfold first_cluster, dir_cluster in *. rewrite Eh, Es. pose proof (word_range e 20 He) as Hh. pose proof (word_range e 26 He) as Hs.
  change (word 20 e) with (dirHighClust e) in Hh. change (word 26 e) with (dirStartCluster e) in Hs. split; [|lia].
  rewrite Z.shiftl_mul_pow2 by lia. rewrite (s32_small (dirHighClust e * 2 ^ 16)) by lia.
  assert (Z.land (dirStartCluster e) (dirHighClust e * 2 ^ 16) = 0) as El.
  { apply Z.bits_inj'. intros i Hi. rewrite Z.land_spec, Z.bits_0. destruct (Z.ltb_spec i 16).
    - rewrite Z.mul_pow2_bits_low by lia. apply andb_false_r.
    - rewrite (bits_below 16 (dirStartCluster e)) by lia. done. }
  pose proof (Z.add_lor_land (dirStartCluster e) (dirHighClust e * 2 ^ 16)) as Ea. rewrite El, Z.add_0_r in Ea. rewrite Ea.
  rewrite s32_small; lia.
Qed.

Definition name_ok (name : list Z) : Prop := name <> [] /\ nul_free8 name /\ 47 ∉ name.

Lemma split_path_ok (name rest : list Z) : 47 ∉ name -> split_path name = (name, None) /\ split_path (name ++ 47 :: rest) = (name, Some rest).
Proof.
  induction name as [|c name IH]; intros Hn; [done|]. apply not_elem_of_cons in Hn as [Hc Hn]. cbn [split_path app].
  rewrite (proj2 (Z.eqb_neq c 47)) by done. by destruct (IH Hn) as [-> ->].
Qed.

(** The volume below a directory: [fuel] bounds the length of its chains, and [mx] is that
    of the buffer. *)
Section Resolve.
Context (g : geometry) (mx : Z) (fuel : nat).

(** The component [comp] is an entry of [es] whose chain is [l]. *)
Definition component es (comp e : list Z) l : Prop :=
  name_ok comp /\ parts_fit 0 es = true /\ dir_lookup comp [] es = LFound e /\
  dir_cluster e < entries_max g /\ walk g (dir_cluster e) l true /\ (length l <= fuel)%nat.

Inductive resolves : list (list Z) -> list Z -> list Z -> list Z -> Prop :=
  | resolves_file es comp e l : component es comp e l -> resolves es comp e l
  | resolves_dir es comp e l rest e' l' : component es comp e l -> layout_ok g l mx -> resolves (cluster_entries g l) rest e' l' ->
      resolves es (comp ++ 47 :: rest) e' l'.

(** A component that is in none of the entries. *)
Inductive missing : list (list Z) -> list Z -> Prop :=
  | missing_file es comp : name_ok comp -> parts_fit 0 es = true -> (forall e, dir_lookup comp [] es <> LFound e) -> missing es comp
  | missing_dir es comp rest : name_ok comp -> parts_fit 0 es = true -> (forall e, dir_lookup comp [] es <> LFound e) -> missing es (comp ++ 47 :: rest)
  | missing_below es comp e l rest : component es comp e l -> layout_ok g l mx -> missing (cluster_entries g l) rest -> missing es (comp ++ 47 :: rest).
End Resolve.

Lemma new_scan_ok (name : list Z) (b : list (list Z)) : name_ok name -> length b = 10%nat -> scan_ok name [] (Scan 0 new_filee b).
Proof. intros (Hne & Hnf & _) Hb. split; [done|cbn; lia|done|cbn; lia|]. by apply strcasecmp_nil. Qed.

(** The file that has been found. *)
Record file_found (e l : list Z) f d f' d' : Prop := {
  ff_geo : geo f' = geo f;
  ff_buffer : LastSectorBuffer f' = LastSectorBuffer f;
  ff_cache : cache_ok f';
  ff_open : raw_open (fd (geo f)) d';
  ff_size : FileSize (file f') = dirFileSize e;
  ff_chain : exists strt rest, Chain (file f') = Fatchain strt (l ++ rest) (Z.of_nat (length l)) }.

Lemma file_found_after (e l : list Z) f d f1 d1 f2 d2 : dir_state f d f1 d1 -> file_found e l f1 d1 f2 d2 -> file_found e l f d f2 d2.
Proof. intros [G1 F1 B1 _ _] [G2 B2 C2 O2 S2 L2]. split; try done; [congruence|congruence|]. by rewrite G1 in O2. Qed.

Lemma found_file_ok (fuel : nat) g es (comp e l : list Z) (x : fat_fileentry) f d : geo_ok g -> geo f = g -> cache_ok f -> raw_open (fd g) d ->
  component g fuel es comp e l -> Forall octets es -> describes e x -> Z.of_nat fuel + 128 < 2 ^ 31 ->
  exists f' d', found_file fuel x f d = Some (1, f', d') /\ file_found e l f d f' d'.
Proof.
  intros Hg Eg Hc Hop (_ & _ & He & Hlt & Hw & Hfuel) Hoct Hd Hf31. pose proof (entries_max_small g). pose proof (lookup_in _ _ _ _ He) as Hin.
  pose proof (proj1 (Forall_forall _ _) Hoct _ Hin) as Hoe. destruct (first_cluster_ok e x Hoe Hd ltac:(lia)) as [Ecl H0']. unfold found_file. rewrite Ecl. subst g.
  destruct (fat_getChain_ok fuel (dir_cluster e) l (Chain (file f)) f d Hg Hop Hc Hw ltac:(lia) Hfuel ltac:(lia)) as (f1 & d1 & rest & -> & _ & Hst).
  eexists _, d1. split; [reflexivity|]. apply table_dir_state in Hst as [G1 F1 B1 C1 O1]. split; cbn; try done; [apply Hd|]. by exists (dir_cluster e), rest.
Qed.

Definition scan_of (v : scan_verdict) : scan := match v with Continue s | Found s | End s => s end.

Lemma scan_list_size (name : list Z) es (s : scan) : length (dirbuf (scan_of (scan_list name es s))) = length (dirbuf s).
Proof.
  revert s. induction es as [|e es IH]; intros s; cbn [scan_list scan_of]; [done|].
  assert (length (dirbuf (scan_of (scan_entry name false e s))) = length (dirbuf s)) as He.
  { unfold scan_entry. repeat case_match; cbn -[fat_parseDirEntries]; try done; by rewrite length_insert. }
  destruct (scan_entry name false e s) as [s'|s'|s'] eqn:E; cbn [scan_of] in He |- *; [by rewrite IH|done|done].
Qed.

(** The scan for a component. *)
Lemma scan_component g (fuel : nat) es (comp e : list Z) l (b : list (list Z)) : component g fuel es comp e l -> length b = 10%nat ->
  exists s, scan_list comp es (Scan 0 new_filee b) = Found s /\ describes e (filee s) /\ length (dirbuf s) = 10%nat.
Proof.
  intros (Hn & Hfit & He & _) Hb. pose proof (scan_list_ok comp es [] _ (new_scan_ok comp b Hn Hb) Hfit) as Hs. rewrite He in Hs. destruct Hs as (s & E & Hd).
  exists s. split_and!; [done..|]. pose proof (scan_list_size comp es (Scan 0 new_filee b)) as Hsz. rewrite E in Hsz. cbn in Hsz. congruence.
Qed.

Lemma scan_missing es (comp : list Z) (b : list (list Z)) : name_ok comp -> parts_fit 0 es = true -> (forall e, dir_lookup comp [] es <> LFound e) -> length b = 10%nat ->
  exists s, (scan_list comp es (Scan 0 new_filee b) = Continue s /\ dir_lookup comp [] es = LOut \/ scan_list comp es (Scan 0 new_filee b) = End s) /\ length (dirbuf s) = 10%nat.
Proof.
  intros Hn Hfit Hno Hb. pose proof (scan_list_ok comp es [] _ (new_scan_ok comp b Hn Hb) Hfit) as Hs.
  pose proof (scan_list_size comp es (Scan 0 new_filee b)) as Hsz.
  destruct (dir_lookup comp [] es) as [e| |] eqn:El; [by destruct (Hno e)| |]; destruct Hs as (s & E); exists s; rewrite E in Hsz; cbn in Hsz; (split; [|congruence]); auto.
Qed.

(** The chain of a directory that has been found. *)
Lemma component_chain (fuel : nat) g es (comp e l : list Z) (x : fat_fileentry) (stack : fatchain) f d : geo_ok g -> geo f = g -> cache_ok f -> raw_open (fd g) d ->
  component g fuel es comp e l -> Forall octets es -> describes e x -> Z.of_nat fuel + 128 < 2 ^ 31 ->
  exists strt rest f' d', fat_getChain fuel (first_cluster x) stack f d = Some (1, Fatchain strt (l ++ rest) (Z.of_nat (length l)), f', d') /\ dir_state f d f' d'.
Proof.
  intros Hg Eg Hc Hop (_ & _ & He & Hlt & Hw & Hfuel) Hoct Hd Hf31. pose proof (entries_max_small g). pose proof (lookup_in _ _ _ _ He) as Hin.
  pose proof (proj1 (Forall_forall _ _) Hoct _ Hin) as Hoe. destruct (first_cluster_ok e x Hoe Hd ltac:(lia)) as [-> H0']. subst g.
  destruct (fat_getChain_ok fuel (dir_cluster e) l stack f d Hg Hop Hc Hw ltac:(lia) Hfuel ltac:(lia)) as (f1 & d1 & rest & -> & _ & Hst).
  eexists _, _, f1, d1. split; [done|]. by apply table_dir_state.
Qed.

Lemma comp_not_listing (comp : list Z) : name_ok comp -> match comp with [] => true | _ :: _ => false end = false.
Proof. intros (Hne & _). by destruct comp. Qed.

(** What [fat_subdirscan] does when the scan of a directory is over. *)
Definition after_scan (depth fuel : nat) (stack : fatchain) (dpath : option (list Z)) (nothing : Z) (r : option (scan_verdict * fat_sc * D)) : option (Z * list (list Z) * fat_sc * D) :=
  match r with
  | None => None
  | Some (Continue s, f, d) => Some (nothing, dirbuf s, f, d)
  | Some (End s, f, d) => Some (0, dirbuf s, f, d)
  | Some (Found s, f, d) =>
      match dpath with
      | None => match found_file fuel (filee s) f d with Some (r, f, d) => Some (r, dirbuf s, f, d) | None => None end
      | Some dpath =>
          match fat_getChain fuel (first_cluster (filee s)) stack f d with
          | None => None
          | Some (_, chain, f, d) => fat_subdirscan depth fuel stack dpath chain (dirbuf s) f d
          end
      end
  end.

Lemma fat_subdirscan_eq (depth fuel : nat) (stack chain : fatchain) (comp : list Z) (rest : option (list Z)) (b : list (list Z)) f d : name_ok comp ->
  fat_subdirscan (S depth) fuel stack (comp ++ match rest with Some r => 47 :: r | None => [] end) chain b f d =
  after_scan depth fuel stack rest 0 (scan_clusters (places (count chain) (SecPerClust (geo f))) chain comp false (Scan 0 new_filee b) f d).
Proof.
  intros Hn. pose proof Hn as (_ & _ & Hsl). destruct (split_path_ok comp (default [] rest) Hsl) as [E1 E2]. pose proof (comp_not_listing comp Hn) as El.
  cbn [fat_subdirscan]. destruct rest as [r|]; cbn [default from_option id] in E2; unfold default in E2; cbn in E2.
  - rewrite E2. done.
  - rewrite app_nil_r, E1, El. done.
Qed.

Definition path_tail (rest : option (list Z)) : list Z := match rest with Some r => 47 :: r | None => [] end.

(** Going down a path that leads to a file, from the scan of its first component on. *)
Lemma after_scan_found g (mx : Z) (fuel : nat) es (path e l : list Z) : geo_ok g -> Z.of_nat fuel + 128 < 2 ^ 31 -> resolves g mx fuel es path e l -> Forall octets es ->
  exists comp rest, path = comp ++ path_tail rest /\ name_ok comp /\ (exists e, dir_lookup comp [] es = LFound e) /\ parts_fit 0 es = true /\
  forall depth stack nothing b f d, (length path <= depth)%nat -> geo f = g -> cache_ok f -> raw_open (fd g) d -> length b = 10%nat ->
  exists b' f' d', after_scan depth fuel stack rest nothing (Some (scan_list comp es (Scan 0 new_filee b), f, d)) = Some (1, b', f', d') /\
    file_found e l f d f' d'.
Proof.
  intros Hg Hf31 Hres. induction Hres as [es comp e l Hcomp|es comp e lc rest e' l' Hcomp Hlo Hres IH]; intros Hoct.
  - exists comp, None. pose proof Hcomp as (Hn & Hfit & He & _). cbn [path_tail]. rewrite app_nil_r. split_and!; [done|done|eauto|done|].
    intros depth stack nothing b f d _ Eg Hc Hop Hb. destruct (scan_component g fuel es comp e l b Hcomp Hb) as (s & -> & Hd & Hsz). cbn [after_scan].
    destruct (found_file_ok fuel g es comp e l (filee s) f d Hg Eg Hc Hop Hcomp Hoct Hd Hf31) as (f' & d' & -> & Hff). eauto.
  - exists comp, (Some rest). pose proof Hcomp as (Hn & Hfit & He & _). cbn [path_tail]. split_and!; [done|done|eauto|done|].
    intros depth stack nothing b f d Hdep Eg Hc Hop Hb. destruct (scan_component g fuel es comp e lc b Hcomp Hb) as (s & -> & Hd & Hsz). cbn [after_scan].
    destruct (component_chain fuel g es comp e lc (filee s) stack f d Hg Eg Hc Hop Hcomp Hoct Hd Hf31) as (strt & r & f1 & d1 & -> & Hst1).
    pose proof Hst1 as [G1 _ _ C1 O1]. rewrite Eg in *. rewrite length_app in Hdep. cbn [length] in Hdep. destruct depth as [|depth]; [lia|].
    destruct (IH (dir_entries_octets _ _)) as (comp' & rest' & -> & Hn' & _ & _ & Hdown). rewrite (fat_subdirscan_eq depth fuel stack _ comp' rest' (dirbuf s) f1 d1 Hn').
    cbn [count]. rewrite G1. destruct (scan_directory_ok g lc mx strt r comp' (Scan 0 new_filee (dirbuf s)) f1 d1 Hlo G1 O1 C1) as (f2 & d2 & -> & Hst2).
    pose proof Hst2 as [G2 _ _ C2 O2]. rewrite G1 in *. destruct (Hdown depth stack 0 (dirbuf s) f2 d2) as (b' & f' & d' & -> & Hff); [lia|done|done|done|done|].
    exists b', f', d'. split; [done|]. eapply file_found_after; [|done]. eapply dir_state_trans; [exact Hst1|exact Hst2].
Qed.

Lemma after_scan_missing g (mx : Z) (fuel : nat) es (path : list Z) : geo_ok g -> Z.of_nat fuel + 128 < 2 ^ 31 -> missing g mx fuel es path -> Forall octets es ->
  exists comp rest, path = comp ++ path_tail rest /\ name_ok comp /\ parts_fit 0 es = true /\
  forall depth stack nothing b f d, (length path <= depth)%nat -> geo f = g -> cache_ok f -> raw_open (fd g) d -> length b = 10%nat ->
  exists r b' f' d', after_scan depth fuel stack rest nothing (Some (scan_list comp es (Scan 0 new_filee b), f, d)) = Some (r, b', f', d') /\
    (r = 0 \/ r = nothing /\ dir_lookup comp [] es = LOut) /\ dir_state f d f' d'.
Proof.
  assert (forall f d, cache_ok f -> raw_open (fd (geo f)) d -> dir_state f d f d) as Hrefl by (intros; by split).
  intros Hg Hf31 Hmiss. induction Hmiss as [es comp Hn Hfit Hno|es comp rest Hn Hfit Hno|es comp e lc rest Hcomp Hlo Hmiss IH]; intros Hoct; [exists comp, None|exists comp, (Some rest)|].
  1, 2: cbn [path_tail]; rewrite ?app_nil_r; split_and!; [done..|];
    intros depth stack nothing b f d _ Eg Hc Hop Hb; destruct (scan_missing es comp b Hn Hfit Hno Hb) as (s & [[-> Hout]| ->] & Hsz); cbn [after_scan];
    (eexists _, _, f, d; split; [reflexivity|]; split; [auto|apply Hrefl; [done|by rewrite Eg]]).
  - exists comp, (Some rest). pose proof Hcomp as (Hn & Hfit & He & _). cbn [path_tail]. split_and!; [done..|].
    intros depth stack nothing b f d Hdep Eg Hc Hop Hb. destruct (scan_component g fuel es comp e lc b Hcomp Hb) as (s & -> & Hd & Hsz). cbn [after_scan].
    destruct (component_chain fuel g es comp e lc (filee s) stack f d Hg Eg Hc Hop Hcomp Hoct Hd Hf31) as (strt & r & f1 & d1 & -> & Hst1).
    pose proof Hst1 as [G1 _ _ C1 O1]. rewrite Eg in *. rewrite length_app in Hdep. cbn [length] in Hdep. destruct depth as [|depth]; [lia|].
    destruct (IH (dir_entries_octets _ _)) as (comp' & rest' & -> & Hn' & _ & Hdown). rewrite (fat_subdirscan_eq depth fuel stack _ comp' rest' (dirbuf s) f1 d1 Hn').
    cbn [count]. rewrite G1. destruct (scan_directory_ok g lc mx strt r comp' (Scan 0 new_filee (dirbuf s)) f1 d1 Hlo G1 O1 C1) as (f2 & d2 & -> & Hst2).
    pose proof Hst2 as [G2 _ _ C2 O2]. rewrite G1 in *. destruct (Hdown depth stack 0 (dirbuf s) f2 d2) as (r' & b' & f' & d' & -> & Hr & Hst3); [lia|done|done|done|done|].
    exists r', b', f', d'. split; [done|]. split; [left; tauto|]. eapply dir_state_trans; [exact Hst1|]. eapply dir_state_trans; [exact Hst2|exact Hst3].
Qed.

(** ** From the root *)

Inductive root_dir g (mx : Z) (fuel : nat) : list (list Z) -> Prop :=
  | root_fixed : FatType g <> TYPE_FAT32 -> 0 <= FirstRootDirSecNum g -> 0 <= RootDirSectors g ->
      PartitionStart g + FirstRootDirSecNum g + RootDirSectors g < 2 ^ 30 - 1 -> root_dir g mx fuel (root_entries g)
  | root_chain l : FatType g = TYPE_FAT32 -> 0 <= RootClus g < 2 ^ 28 -> walk g (RootClus g) l true -> (length l <= fuel)%nat ->
      layout_ok g l mx -> root_dir g mx fuel (cluster_entries g l).

Lemma root_octets g (mx : Z) (fuel : nat) es : root_dir g mx fuel es -> Forall octets es.
Proof. intros []; apply dir_entries_octets. Qed.

(** The search is the scan of the root directory, and goes on from there; a root directory
    of fixed size is scanned with one sector more. *)
Lemma fat_findfile_scan g (mx : Z) (fuel : nat) es (comp : list Z) (rest : option (list Z)) (stack : fatchain) (b : list (list Z)) f d :
  geo_ok g -> geo f = g -> cache_ok f -> raw_open (fd g) d -> Z.of_nat fuel + 128 < 2 ^ 31 -> root_dir g mx fuel es -> name_ok comp ->
  exists depth nothing es' f1 d1, (length (comp ++ path_tail rest) <= depth)%nat /\ (nothing = 0 \/ nothing = 2) /\
    fat_findfile fuel stack (comp ++ path_tail rest) b f d = after_scan depth fuel stack rest nothing (Some (scan_list comp es' (Scan 0 new_filee b), f1, d1)) /\
    dir_state f d f1 d1 /\ (es' = es \/ FatType g <> TYPE_FAT32 /\ exists more, es' = es ++ more).
Proof.
  intros Hg Eg Hc Hop Hf31 Hroot Hn. unfold fat_findfile. rewrite Eg. pose proof Hn as (_ & _ & Hsl). destruct Hroot as [Ht H1 H2 H3|l Ht Hr Hw Hl Hlo].
  - rewrite (proj2 (Z.eqb_neq _ _)) by done. destruct (split_path_ok comp (default [] rest) Hsl) as [E1 E2]. pose proof (comp_not_listing comp Hn) as El.
    destruct (scan_root_ok (seqZ (FirstRootDirSecNum g) (RootDirSectors g + 1)) comp (Scan 0 new_filee b) f d) as (f1 & d1 & E & Hst); rewrite ?Eg; [done..| |].
    { apply Forall_forall. intros k Hk%elem_of_seqZ. unfold sector_ok. lia. }
    exists (S (length (comp ++ path_tail rest))), 2, (dir_entries g (seqZ (FirstRootDirSecNum g) (RootDirSectors g + 1))), f1, d1.
    split; [lia|]. split; [by right|]. rewrite Eg in E. split; [|split; [done|]].
    + destruct rest as [r|]; cbn [path_tail default from_option id] in *; unfold default in E2; cbn in E2.
      * rewrite E2, E. done.
      * rewrite !app_nil_r, E1, El, E. done.
    + right. split; [done|]. unfold dir_entries. rewrite seqZ_app by lia. rewrite flat_map_app. eauto.
  - rewrite Ht, Z.eqb_refl. rewrite s32_small by lia. subst g.
    destruct (fat_getChain_ok fuel (RootClus (geo f)) l stack f d Hg Hop Hc Hw) as (f1 & d1 & r & -> & _ & Hst); [unfold entries_max; rewrite Ht; cbn; lia|done|lia|].
    apply table_dir_state in Hst. pose proof Hst as [G1 _ _ C1 O1]. rewrite (fat_subdirscan_eq (length (comp ++ path_tail rest)) fuel stack _ comp rest b f1 d1 Hn). cbn [count]. rewrite G1.
    destruct (scan_directory_ok (geo f) l mx (RootClus (geo f)) r comp (Scan 0 new_filee b) f1 d1 Hlo G1 O1 C1) as (f2 & d2 & -> & Hst2).
    exists (length (comp ++ path_tail rest)), 0, (cluster_entries (geo f) l), f2, d2. split_and!; [done|by left|done|by eapply dir_state_trans|by left].
Qed.

(** Both cases of a search. *)
Lemma fat_findfile_ok g (mx : Z) (fuel : nat) es (path : list Z) (stack : fatchain) (b : list (list Z)) f d :
  geo_ok g -> geo f = g -> cache_ok f -> raw_open (fd g) d -> Z.of_nat fuel + 128 < 2 ^ 31 -> root_dir g mx fuel es -> length b = 10%nat ->
  (forall e l, resolves g mx fuel es path e l ->
    exists b' f' d', fat_findfile fuel stack path b f d = Some (1, b', f', d') /\ file_found e l f d f' d') /\
  (missing g mx fuel es path -> (FatType g = TYPE_FAT32 \/ forall name, dir_lookup name [] es <> LOut) ->
    exists r b' f' d', fat_findfile fuel stack path b f d = Some (r, b', f', d') /\ (r = 0 \/ r = 2) /\ dir_state f d f' d').
Proof.
  intros Hg Eg Hc Hop Hf31 Hroot Hb. pose proof (root_octets _ _ _ _ Hroot) as Hoct. split.
  - intros e l Hres. destruct (after_scan_found g mx fuel es path e l Hg Hf31 Hres Hoct) as (comp & rest & -> & Hn & [ec Hec] & Hfit & Hdown).
    destruct (fat_findfile_scan g mx fuel es comp rest stack b f d Hg Eg Hc Hop Hf31 Hroot Hn) as (depth & nothing & es' & f1 & d1 & Hdep & _ & -> & Hst & Hes).
    pose proof Hst as [G1 _ _ C1 O1]. rewrite Eg in *.
    assert (scan_list comp es' (Scan 0 new_filee b) = scan_list comp es (Scan 0 new_filee b)) as ->.
    { destruct Hes as [->|(_ & more & ->)]; [done|]. rewrite scan_list_app.
      pose proof (scan_list_ok comp es [] _ (new_scan_ok comp b Hn Hb) Hfit) as Hs. rewrite Hec in Hs. by destruct Hs as (s & -> & _). }
    destruct (Hdown depth stack nothing b f1 d1) as (b' & f' & d' & -> & Hff); [done..|]. exists b', f', d'. split; [done|by eapply file_found_after].
  - intros Hmiss Hend. destruct (after_scan_missing g mx fuel es path Hg Hf31 Hmiss Hoct) as (comp & rest & -> & Hn & Hfit & Hdown).
    destruct (fat_findfile_scan g mx fuel es comp rest stack b f d Hg Eg Hc Hop Hf31 Hroot Hn) as (depth & nothing & es' & f1 & d1 & Hdep & Hnoth & -> & Hst & Hes).
    pose proof Hst as [G1 _ _ C1 O1]. rewrite Eg in *.
    assert (scan_list comp es' (Scan 0 new_filee b) = scan_list comp es (Scan 0 new_filee b)) as ->.
    { destruct Hes as [->|(Hnt & more & ->)]; [done|]. destruct Hend as [?|Hend]; [done|]. rewrite scan_list_app.
      pose proof (scan_list_ok comp es [] _ (new_scan_ok comp b Hn Hb) Hfit) as Hs. pose proof (Hend comp) as He.
      destruct (dir_lookup comp [] es); [by destruct Hs as (s & -> & _)|by destruct Hs as (s & ->)|done]. }
    destruct (Hdown depth stack nothing b f1 d1) as (r & b' & f' & d' & -> & Hr & Hst'); [done..|]. exists r, b', f', d'.
    split; [done|]. split; [destruct Hr as [->|[-> _]]; [by left|tauto]|by eapply dir_state_trans].
Qed.

(** C36: [fat_findfile] resolves a path as the directories on the disk say. When every
    component of the path but the last is an entry, by its short or its long name and
    whatever the case, whose chain is a directory with the next one, and the last is an
    entry too, the result is 1 and the open file has the size of that entry and exactly the
    clusters of its chain; when some component is in none of the entries of its directory,
    the result is 0 or 2, which [fat_open] takes for an error, and the open file is as it
    was. This holds for a root directory of fixed size and for one that is a chain, for
    directories of any length, and for long names of up to nine parts, although the scan
    keeps the parts in one array and leaves old names behind. *)
Theorem fat_findfile_spec g (mx : Z) (fuel : nat) es (path : list Z) (stack : fatchain) (b : list (list Z)) f d :
  geo_ok g -> geo f = g -> cache_ok f -> raw_open (fd g) d -> Z.of_nat fuel + 128 < 2 ^ 31 -> root_dir g mx fuel es -> length b = 10%nat ->
  (forall e l, resolves g mx fuel es path e l ->
    exists b' f' d', fat_findfile fuel stack path b f d = Some (1, b', f', d') /\ file_found e l f d f' d') /\
  (missing g mx fuel es path -> (FatType g = TYPE_FAT32 \/ forall name, dir_lookup name [] es <> LOut) ->
    exists r b' f' d', fat_findfile fuel stack path b f d = Some (r, b', f', d') /\ (r = 0 \/ r = 2) /\ dir_state f d f' d').
Proof. intros. by apply fat_findfile_ok. Qed.
End Path.

(** A volume with a directory DOCS of three clusters, and in it a file of five bytes with a
    long name. *)
Definition dirent (name : list Z) (attr cluster size : Z) : list Z := name ++ [attr] ++ replicate 14 0 ++ [cluster; 0; size; 0; 0; 0].

Definition docs_entry : list Z := dirent [68; 79; 67; 83; 32; 32; 32; 32; 32; 32; 32] 0x10 3 0.
Definition readme_part : list Z :=
  [0x41; 114; 0; 101; 0; 97; 0; 100; 0; 109; 0; 0x0f; 0; 0; 101; 0; 46; 0; 116; 0; 120; 0; 116; 0; 0; 0; 0; 0; 255; 255; 255; 255].
Definition readme_entry : list Z := dirent [82; 69; 65; 68; 77; 69; 126; 49; 84; 88; 84] 0x20 2 5.

Definition boot12 : list Z := [0xEB; 0x3C; 0x90] ++ replicate 8 32 ++ [0; 2; 1; 1; 0; 1; 16; 0; 0x90; 1; 0xF8; 2; 0].

Definition docs_byte (a : Z) : Z :=
  if a <? 512 then znth 0 boot12 a else if a =? 512 + 3 then 0xFF else if a =? 512 + 4 then 0x5F
  else if a <? 1536 then table12 a
  else if a <? 2048 then znth 0 docs_entry (a - 1536)
  else znth 0 (readme_part ++ readme_entry) (a - 2560).


Definition docs : RawDisk (devfs unit) := stick_disk docs_byte.

Lemma walk_docs : @walk _ _ docs geometry12 3 [3; 341; 5] true.
Proof.
  apply walk_link; [vm_compute; reflexivity..|]. change (@fat_entry _ _ docs geometry12 3) with 341.
  apply walk_link; [vm_compute; reflexivity..|]. change (@fat_entry _ _ docs geometry12 341) with 5.
  apply walk_end; vm_compute; reflexivity.
Qed.

Lemma layout_docs (dk : Z -> Z) (mx : Z) : 1 <= mx <= 2048 -> @layout_ok _ _ (stick_disk dk) geometry12 [3; 341; 5] mx.
Proof.
  intros Hmx. split; try done; try lia; try (cbn; lia); [apply geometry12_ok|by apply (bool_decide_eq_true_1 (NoDup [3; 341; 5]))|].
  repeat (apply Forall_cons; split; [cbn; lia|]). by apply Forall_nil.
Qed.

Lemma name_ok_dec (name : list Z) : bool_decide (name <> [] /\ Forall (fun c => u8 c <> 0) name /\ 47 ∉ name) = true -> name_ok name.
Proof. apply bool_decide_eq_true_1. Qed.

(** docs/Readme.TXT *)
Lemma resolves_docs (mx : Z) : 1 <= mx <= 2048 -> @resolves _ _ docs geometry12 mx 8 (@root_entries _ _ docs geometry12)
  [100; 111; 99; 115; 47; 82; 101; 97; 100; 109; 101; 46; 84; 88; 84] readme_entry [2].
Proof.
  intros Hmx. apply (resolves_dir _ _ _ _ [100; 111; 99; 115] docs_entry [3; 341; 5] [82; 101; 97; 100; 109; 101; 46; 84; 88; 84]).
  - split; [by apply name_ok_dec|]. split_and!; [by vm_compute..|apply walk_docs|cbn; lia].
  - by apply layout_docs.
  - apply resolves_file. split; [by apply name_ok_dec|]. split_and!; [by vm_compute..| |cbn; lia]. apply walk_end; vm_compute; reflexivity.
Qed.

Lemma fat_findfile_spec_witness : exists b' f' d',
  @fat_findfile _ (stick_raw docs_byte) 8 (Fatchain 0 [] 0) [100; 111; 99; 115; 47; 82; 101; 97; 100; 109; 101; 46; 84; 88; 84]
    (replicate 10 []) volume12 stick_open = Some (1, b', f', d') /\ FileSize (file f') = 5.
Proof.
  destruct (@fat_findfile_spec _ _ docs geometry12 4 8 (@root_entries _ _ docs geometry12)
    [100; 111; 99; 115; 47; 82; 101; 97; 100; 109; 101; 46; 84; 88; 84] (Fatchain 0 [] 0) (replicate 10 []) volume12 stick_open) as [Hfound _].
  - apply geometry12_ok.
  - reflexivity.
  - left. reflexivity.
  - apply stick_raw_open.
  - reflexivity.
  - apply root_fixed; vm_compute; congruence.
  - reflexivity.
  - destruct (Hfound readme_entry [2]) as (b' & f' & d' & E & Hff); [by apply resolves_docs|]. exists b', f', d'. split; [exact E|].
    rewrite (ff_size _ _ _ _ _ _ Hff). reflexivity.
Defined.
