(* ===== verification/Files.v ===== *)
(** * Open files (os/filesys/filesys.c)
    The table of open files and the calls that hand them to the file systems.  A file system
    is a record of operations on the whole state, since it also sets the entries of the
    table; [None] for a member is a null pointer. *)

From S2P Require Import Prelude CStr Shell Glob Devfs.

Definition OPEN_MAX : Z := 10.
Definition FS_NULL : Z := 0.
Definition FS_FILE : Z := 6.
Definition ENOENT : Z := 2.
Definition EMFILE : Z := 24.

(** [fs]: the place of the file system in the list, counted from its head. *)
Record File := mkFile { valid : Z; posn : Z; fs : option nat }.

Record files (X : Type) := Files { _file : Z -> File; f_errno : Z; inner : X }.
Arguments Files {X}. Arguments _file {X}. Arguments f_errno {X}. Arguments inner {X}.

(** [open] gets the slot, the name and the mode; [read] returns the bytes as well. *)
Record FileSystem (X : Type) := {
  devname : list Z;
  fstype : Z;
  fs_open : option (Z -> list Z -> Z -> files X -> option (Z * files X));
  fs_read : option (Z -> Z -> files X -> option (Z * list Z * files X));
  fs_write : option (Z -> list Z -> files X -> option (Z * files X));
  fs_lseek : option (Z -> Z -> Z -> files X -> option (Z * files X));
  fs_close : option (Z -> files X -> option (Z * files X));
  fs_ioctl : option (Z -> Z -> Z -> files X -> option (Z * files X)) }.
Arguments devname {X}. Arguments fstype {X}. Arguments fs_open {X}. Arguments fs_read {X}. Arguments fs_write {X}.
Arguments fs_lseek {X}. Arguments fs_close {X}. Arguments fs_ioctl {X}.

Section Files.
Context {X : Type}.
Implicit Type (w : files X).

Definition set_slot (fd : Z) (x : File) w : files X := Files (fupd (_file w) fd x) (f_errno w) (inner w).
Definition set_f_errno (e : Z) w : files X := Files (_file w) e (inner w).
Definition set_inner (x : X) w : files X := Files (_file w) (f_errno w) x.

Definition set_valid (fd v : Z) w : files X := let x := _file w fd in set_slot fd (mkFile v (posn x) (fs x)) w.
Definition set_posn (fd p : Z) w : files X := let x := _file w fd in set_slot fd (mkFile (valid x) p (fs x)) w.

(** [fss]: the list of registered file systems. *)
Context (fss : list (FileSystem X)).

(** [SLIST_FOREACH] over the file systems from the [k]-th on. *)
Fixpoint try_fss (l : list (FileSystem X)) (k : nat) (fname : list Z) (mode : Z) (dname : option (list Z)) (lu type : Z) w : option (Z * files X) :=
  match l with
  | [] => Some (-1, set_f_errno ENOENT w)
  | fsp :: l =>
      let opened w := Some (lu, set_slot lu (mkFile 1 0 (Some k)) w) in
      if match dname with Some dname => negb (strbequ dname (devname fsp) =? 0) | None => false end then
        match fs_open fsp with
        | Some op => match op lu fname mode w with
                     | Some (xx, w) => if negb (xx =? lu) then Some (-1, w) else opened w
                     | None => None
                     end
        | None => opened w
        end
      else if negb (type =? FS_NULL) && (fstype fsp =? type) then
        match fs_open fsp with
        | Some op => match op lu fname mode w with
                     | Some (xx, w) => if xx =? lu then opened w else try_fss l (S k) fname mode dname lu type w
                     | None => None
                     end
        | None => try_fss l (S k) fname mode dname lu type w
        end
      else try_fss l (S k) fname mode dname lu type w
  end.

Definition __try_open (fname : list Z) (mode : Z) (dname : option (list Z)) (lu type : Z) w : option (Z * files X) :=
  try_fss fss 0 fname mode dname lu type w.

(** The first slot that is free, from [lu] on. *)
Fixpoint find_slot_from (n : nat) (lu : Z) w : Z :=
  match n with
  | O => lu
  | S n => if negb (valid (_file w lu) =? 0) then find_slot_from n (lu + 1) w else lu
  end.

Definition lu_of w : Z := find_slot_from (Z.to_nat OPEN_MAX) 0 w.

Definition ftp_pattern : list Z := [42; 102; 116; 112; 58; 47; 47; 42].
Definition file_pattern : list Z := [102; 105; 108; 101; 58; 47; 47; 42].
Definition http_pattern : list Z := [104; 116; 116; 112; 58; 47; 47; 42].
Definition nfs_pattern : list Z := [110; 102; 115; 58; 47; 47; 42].
Definition net_name : list Z := [110; 101; 116].

(** After [__try_open]: a slot that was not opened is free again. *)
Definition finish_open (lu : Z) (r : option (Z * files X)) : option (Z * files X) :=
  match r with
  | Some (i, w) => Some (i, if i =? -1 then set_valid lu 0 w else w)
  | None => None
  end.

(** The copy of the name on the heap is left out. *)
Definition open (filename : list Z) (mode : Z) w : option (Z * files X) :=
  let lu := lu_of w in
  if lu =? OPEN_MAX then Some (-1, set_f_errno EMFILE w)
  else
    let w := set_slot lu (mkFile 1 0 None) w in
    finish_open lu
      (if decide (slash_dev `prefix_of` filename) then __try_open filename mode (Some (drop 5 filename)) lu 0 w
       else
         match strpat filename ftp_pattern with
         | None => None
         | Some r => if negb (r =? 0) then __try_open filename mode (Some net_name) lu 0 w else
         match strpat filename file_pattern with
         | None => None
         | Some r => if negb (r =? 0) then __try_open (drop 6 filename) mode None lu FS_FILE w else
         match strpat filename http_pattern with
         | None => None
         | Some r => if negb (r =? 0) then __try_open filename mode (Some net_name) lu 0 w else
         match strpat filename nfs_pattern with
         | None => None
         | Some r => if negb (r =? 0) then __try_open filename mode (Some net_name) lu 0 w
                     else __try_open filename mode (Some filename) lu 0 w
         end end end end).

(** The file system of an open file; [None]: there is none, or the pointer is null and the
    call goes wrong; an index below the table as well. *)
Definition is_open (fd : Z) w : bool := (fd <? OPEN_MAX) && negb (valid (_file w fd) =? 0).

Definition fs_of (fd : Z) w : option (FileSystem X) := k ← fs (_file w fd); fss !! k.

Definition close (fd : Z) w : option (Z * files X) :=
  if fd <? 0 then None
  else if is_open fd w then
    let w := set_valid fd 0 w in
    match fs_of fd w with
    | None => None
    | Some s => match fs_close s with Some op => op fd w | None => Some (-1, w) end
    end
  else Some (0, w).

Definition read (fd n : Z) w : option (Z * list Z * files X) :=
  if fd <? 0 then None
  else if is_open fd w then
    match fs_of fd w with
    | None => None
    | Some s => match fs_read s with Some op => op fd n w | None => Some (-1, [], w) end
    end
  else Some (-1, [], w).

Definition write (fd : Z) (buf : list Z) w : option (Z * files X) :=
  if fd <? 0 then None
  else if is_open fd w then
    match fs_of fd w with
    | None => None
    | Some s => match fs_write s with Some op => op fd buf w | None => Some (-1, w) end
    end
  else Some (-1, w).

Definition lseek (fd offset whence : Z) w : option (Z * files X) :=
  if fd <? 0 then None
  else if is_open fd w then
    match fs_of fd w with
    | None => None
    | Some s => match fs_lseek s with Some op => op fd offset whence w | None => Some (-1, w) end
    end
  else Some (-1, w).

Definition ioctl (fd op arg : Z) w : option (Z * files X) :=
  if fd <? 0 then None
  else if is_open fd w then
    match fs_of fd w with
    | None => None
    | Some s => match fs_ioctl s with Some f => f fd op arg w | None => Some (-1, w) end
    end
  else Some (-1, w).

Definition filefs_init (s : FileSystem X) (l : list (FileSystem X)) : list (FileSystem X) := s :: l.
End Files.

(** ** The table *)

Section Table.
Context {X : Type}.
Implicit Type (w : files X).

Lemma find_slot_from_spec (n : nat) : forall lu w, lu <= find_slot_from n lu w <= lu + Z.of_nat n /\
  (forall i, lu <= i < find_slot_from n lu w -> valid (_file w i) <> 0) /\
  (find_slot_from n lu w < lu + Z.of_nat n -> valid (_file w (find_slot_from n lu w)) = 0).
Proof.
  induction n as [|n IH]; intros lu w; cbn [find_slot_from].
  { split; [lia|]. split; [intros i Hi; lia|lia]. }
  destruct (Z.eqb_spec (valid (_file w lu)) 0) as [E|E]; cbn [negb].
  - split; [lia|]. split; [intros i Hi; lia|done].
  - destruct (IH (lu + 1) w) as (H1 & H2 & H3). split; [lia|]. split; [|intros Hlt; apply H3; lia].
    intros i Hi. destruct (decide (i = lu)) as [->|Hne]; [done|]. apply H2. lia.
Qed.

(** [open] takes the first free slot, if there is one. *)
Lemma lu_of_spec w : let lu := lu_of w in 0 <= lu <= OPEN_MAX /\
  (forall i, 0 <= i < lu -> valid (_file w i) <> 0) /\ (lu < OPEN_MAX -> valid (_file w lu) = 0).
Proof.
  pose proof (find_slot_from_spec (Z.to_nat OPEN_MAX) 0 w) as (H1 & H2 & H3). unfold lu_of. unfold OPEN_MAX in *. cbv zeta. split; [lia|]. split; [done|]. intros Hlt. apply H3. lia.
Qed.

(** The first free slot of one table is that of another that differs there only. *)
Lemma lu_of_same (lu : Z) w w' : lu_of w = lu -> lu < OPEN_MAX -> valid (_file w' lu) = 0 -> (forall i, i <> lu -> _file w' i = _file w i) -> lu_of w' = lu.
Proof.
  intros Elu Hlu Hv Hf. pose proof (lu_of_spec w) as (H1 & H2 & _). pose proof (lu_of_spec w') as (H3 & H4 & H5). cbv zeta in *. rewrite Elu in *.
  destruct (Z.lt_trichotomy (lu_of w') lu) as [Hlt|[?|Hgt]]; [|done|].
  - exfalso. apply (H2 (lu_of w')); [lia|]. rewrite <- Hf by lia. apply H5. lia.
  - exfalso. apply (H4 lu); [lia|done].
Qed.

Lemma slot_range (lu : Z) w : lu_of w = lu -> lu < OPEN_MAX -> 0 <= lu < OPEN_MAX.
Proof. intros <- ?. pose proof (lu_of_spec w) as (Hr & _). lia. Qed.
End Table.
