(* ===== verification/FatMount.v ===== *)
(** * The FAT file system: mounting, opening, closing (os/filesys/fatfs.c)
    [fat_open] opens the device in the name, reads the partition table and the boot sector,
    and looks the file up.  With the operations on an open file it makes the file system
    that [open], [read], [lseek] and [close] use. *)

From S2P Require Import Prelude CStr Shell UsbStorage Devfs Fat FatDir Files.

Definition EISDIR : Z := 21.
Definition EROFS : Z := 30.

(** The static variables of the file system, and the devices. *)
Record fatfs (D : Type) := Fatfs {
  MAX_BUFSZ_CLUSTS : Z;
  dirbufs : list (list Z);
  _myfile : Z -> option fat_sc;
  device : D }.
Arguments Fatfs {D}. Arguments MAX_BUFSZ_CLUSTS {D}. Arguments dirbufs {D}. Arguments _myfile {D}. Arguments device {D}.

Definition dword (o : Z) (b : list Z) : Z := word o b + 2 ^ 16 * word (o + 2) b.

(** [mbr->partition[partition].relsect]; a letter behind [d] reads past the buffer. *)
Definition relsect (partition : Z) (b : list Z) : option Z :=
  let o := 446 + 16 * partition + 8 in if o + 4 <=? SECTORSIZE then Some (dword o b) else None.

Definition zero_geometry (fd_ part : Z) : geometry := Geometry fd_ 0 0 0 0 0 0 0 0 0 0 0 0 0 0 part 0 0.

(** What [fat_init] makes of the boot sector: the volume, and how many clusters the buffer
    holds.  A division by zero has no result. *)
Definition bpb_geometry (fd_ part : Z) (b : list Z) : option (geometry * Z) :=
  let RootDirEnts := word 17 b in
  let BytesPerSec := word 11 b in
  let ResSectors := word 14 b in
  let SecPerClust := znth 0 b 13 in
  let BytesPerClust := u32 (SecPerClust * SECTORSIZE) in
  if (BytesPerClust =? 0) || (BytesPerSec =? 0) then None
  else
    let max_bufsz := 0x100000 / BytesPerClust in
    let NumFATs := znth 0 b 16 in
    let RootClus := dword 44 b in
    let FATsecs := if negb (word 22 b =? 0) then word 22 b else dword 36 b in
    let TotalSectors := if negb (word 19 b =? 0) then word 19 b else dword 32 b in
    let RootDirSectors := (RootDirEnts * 32 + (BytesPerSec - 1)) / BytesPerSec in
    let DataSectors := TotalSectors -u (ResSectors +u (NumFATs *u FATsecs) +u RootDirSectors) in
    let DataSectorBase := ResSectors +u (NumFATs *u FATsecs) +u RootDirSectors in
    let CountOfClusters := DataSectors / SecPerClust in
    let FatType := if CountOfClusters <? 4085 then TYPE_FAT12 else if CountOfClusters <? 65525 then TYPE_FAT16 else TYPE_FAT32 in
    Some (Geometry fd_ FatType BytesPerSec SecPerClust ResSectors NumFATs RootDirEnts TotalSectors FATsecs RootDirSectors CountOfClusters
            (u32 (BytesPerSec * SecPerClust)) (ResSectors +u (NumFATs *u FATsecs)) DataSectors DataSectorBase part RootClus BytesPerClust, max_bufsz).

Definition new_sc (g : geometry) (buffer : list Z) (fatcache : Z) : fat_sc :=
  FatSc g [] fatcache [] 0 (Fileentry [] [] 0 0 0 (Fatchain 0 [] 0)) 0 buffer 0 0 0 0 0.

(** [strchr(opath, '/')] splits the device from the path of the file. *)
Definition fat_name (path : list Z) : list Z :=
  let opath := skip_prefix slash_dev path in
  if decide ([102; 97; 116; 47] `prefix_of` opath) then drop 4 opath else skip_prefix [102; 97; 116; 64] opath.

(** A lower-case letter at the end of the device is the partition. *)
Definition device_partition (dpath : list Z) : list Z * Z :=
  match last dpath with
  | Some c => if (97 <=? c) && (c <=? 122) then (removelast dpath, c - 97) else (dpath, 0)
  | None => (dpath, 0)
  end.

Section Mount.
Context {D : Type} `{RawDevice D}.
(** What a new block of the heap holds, a [struct fatchain] on the stack that was not set,
    and a bound on the length of chains. *)
Context (junk : nat -> list Z) (stack : fatchain) (fuel : nat).
(** The buffer of an open file is a block that [fat_init] has freed.  Where [malloc] puts the
    entries of the chain of the file, which it allocates next, from the start of that block;
    and what the block of a slot holds when [fat_read] starts, in place of what [fat_read]
    has left there: whoever is given some of the block in the meantime writes to it. *)
Context (place : fat_sc -> Z) (freed : Z -> files (fatfs D) -> list Z -> list Z).
Implicit Types (w : files (fatfs D)) (d : D).

(** [fat_init].  The buffer is freed at the end, and [LastSectorBuffer] goes on pointing to
    it: from here on [place] and [freed] say what else the block is used for. *)
Definition fat_init (fd_ partition : Z) (oldmax : Z) d : option (Z * fat_sc * Z * D) :=
  match raw_read fd_ SECTORSIZE d with
  | None => None
  | Some (b, _, d) =>
      match relsect partition b with
      | None => None
      | Some part =>
          match readsector (zero_geometry fd_ part) 0 1 d with
          | None => None
          | Some (_, boot, d) =>
              if (znth 0 boot 0 =? 0) && (znth 0 boot 1 =? 0) then Some (-1, new_sc (zero_geometry fd_ part) [] 0, oldmax, d)
              else
                match bpb_geometry fd_ part boot with
                | None => None
                | Some (g, max_bufsz) => Some (1, new_sc g (junk (Z.to_nat (u32 (BytesPerClust g * max_bufsz)))) (-1), max_bufsz, d)
                end
          end
      end
  end.

Definition set_device (d : D) w : files (fatfs D) := let x := inner w in set_inner (Fatfs (MAX_BUFSZ_CLUSTS x) (dirbufs x) (_myfile x) d) w.

(** [fsc] after a successful search, which has allocated the entries. *)
Definition start_reading (f : fat_sc) : fat_sc :=
  FatSc (geo f) (FatBuffer f) (FatCacheNum f) (DirBuffer f) (DirCacheNum f) (file f) (-1) (LastSectorBuffer f) 0 0 (nextBytesOfBuffer f) (nextSectorsOfBuffer f) (place f).

(** The [close(fd)] on the way out finds the slot free and does nothing.  A device name
    that does not fit into [dpath] has no result. *)
Definition fat_open (lu : Z) (path : list Z) (mode : Z) w : option (Z * files (fatfs D)) :=
  match split_path (fat_name path) with
  | (_, None) => Some (-1, set_f_errno ENOENT w)
  | (dev, Some filename) =>
      if (58 <? length dev)%nat then None
      else
        let w := set_posn lu 0 (set_valid lu 1 w) in
        let '(dpath, partition) := device_partition (slash_dev ++ dev) in
        let '(r, d) := raw_devopen lu dpath (device (inner w)) in
        let w := set_device d w in
        if r =? 0 then Some (-1, w)
        else
          match fat_init lu partition (MAX_BUFSZ_CLUSTS (inner w)) d with
          | None => None
          | Some (r, fsc, max_bufsz, d) =>
              let w := set_inner (Fatfs max_bufsz (dirbufs (inner w)) (_myfile (inner w)) d) w in
              if r =? 0 then Some (-1, set_valid lu 0 (set_f_errno EINVAL w))
              else
                match fat_findfile fuel stack filename (dirbufs (inner w)) fsc d with
                | None => None
                | Some (res, b, fsc, d) =>
                    let w := set_inner (Fatfs (MAX_BUFSZ_CLUSTS (inner w)) b (_myfile (inner w)) d) w in
                    if (res <=? 0) || (res =? 2) then Some (-1, set_valid lu 0 (set_f_errno (if res =? 2 then EISDIR else EINVAL) w))
                    else
                      let x := inner w in
                      Some (lu, set_posn lu 0 (set_inner (Fatfs (MAX_BUFSZ_CLUSTS x) (dirbufs x) (fupd (_myfile x) lu (Some (start_reading fsc))) (device x)) w))
                end
          end
  end.

(** The [close(fsc->fd)] finds the slot free as well. *)
Definition fat_close (lu : Z) w : option (Z * files (fatfs D)) :=
  match _myfile (inner w) lu with
  | None => None
  | Some _ => Some (0, set_device (raw_close lu (device (inner w))) w)
  end.

(** [fsc] with what its buffer holds by now. *)
Definition set_held (b : list Z) (f : fat_sc) : fat_sc := set_last (LastSector f) b (BytesOfBuffer f) (SectorsOfBuffer f) f.

Definition fat_read_op (lu len : Z) w : option (Z * list Z * files (fatfs D)) :=
  match _myfile (inner w) lu with
  | None => None
  | Some f =>
      match fat_read (MAX_BUFSZ_CLUSTS (inner w)) (posn (_file w lu)) len (set_held (freed lu w (LastSectorBuffer f)) f) (device (inner w)) with
      | None => None
      | Some (r, out, p, f, d) =>
          let x := inner w in
          Some (r, out, set_posn lu p (set_inner (Fatfs (MAX_BUFSZ_CLUSTS x) (dirbufs x) (fupd (_myfile x) lu (Some f)) d) w))
      end
  end.

Definition fat_lseek_op (lu offset whence : Z) w : option (Z * files (fatfs D)) :=
  match _myfile (inner w) lu with
  | None => None
  | Some f =>
      let '(r, p, bad) := fat_lseek offset whence (posn (_file w lu)) f in
      Some (r, if (bad : bool) then set_f_errno EINVAL w else set_posn lu p w)
  end.

Definition fat_write (lu : Z) (buf : list Z) w : option (Z * files (fatfs D)) := Some (EROFS, set_f_errno EROFS w).

Definition fat_fs : FileSystem (fatfs D) :=
  {| devname := [102; 97; 116]; fstype := FS_FILE; fs_open := Some fat_open; fs_read := Some fat_read_op; fs_write := Some fat_write;
     fs_lseek := Some fat_lseek_op; fs_close := Some fat_close; fs_ioctl := None |}.
End Mount.
