(* ===== verification/FatFiles.v ===== *)
(** * Files by their path
    [open] of a path on a FAT volume, seeks and reads in any order, and [close], against a
    file that is a list of bytes with a position; and what an [open] that fails leaves
    behind. *)

From S2P Require Import Prelude CStr Shell Glob UsbStorage Devfs Fat FatTable FatChain FatRead FatDir FatLookup FatPath Files FatMount.

(** ** The file that is promised *)

Inductive request := Seek (offset whence : Z) | Read (n : Z).

(** A file is its bytes and a position: the answers and the new position. *)
Definition answer (content : list Z) (posn : Z) (r : request) : Z * list Z * Z :=
  let size := Z.of_nat (length content) in
  match r with
  | Seek o 0 => (o, [], o)
  | Seek o 1 => (posn + o, [], posn + o)
  | Seek o 2 => (size + o, [], size + o)
  | Seek _ _ => (-1, [], posn)
  | Read n => if posn <? size then let n := Z.min n (size - posn) in (n, take (Z.to_nat n) (drop (Z.to_nat posn) content), posn + n)
              else (-1, [], posn)
  end.

Fixpoint answers (content : list Z) (posn : Z) (rs : list request) : list (Z * list Z) :=
  match rs with
  | [] => []
  | r :: rs => let '(x, out, posn) := answer content posn r in (x, out) :: answers content posn rs
  end.

(** Lengths are those of C, and no position is negative. *)
Fixpoint requests_ok (content : list Z) (posn : Z) (rs : list request) : Prop :=
  match rs with
  | [] => True
  | r :: rs =>
      let '(_, _, posn) := answer content posn r in
      match r with Read n => 0 <= n < 2 ^ 32 | Seek _ _ => 0 <= posn < 2 ^ 61 end /\ requests_ok content posn rs
  end.

(** The same requests through the calls. *)
Section Calls.
Context {X : Type} (fss : list (FileSystem X)).
Implicit Type (w : files X).

Definition call (fd : Z) (r : request) w : option (Z * list Z * files X) :=
  match r with
  | Seek o whence => match lseek fss fd o whence w with Some (x, w) => Some (x, [], w) | None => None end
  | Read n => read fss fd n w
  end.

Fixpoint calls (fd : Z) (rs : list request) w : option (list (Z * list Z) * files X) :=
  match rs with
  | [] => Some ([], w)
  | r :: rs =>
      match call fd r w with
      | None => None
      | Some (x, out, w) => match calls fd rs w with Some (l, w) => Some ((x, out) :: l, w) | None => None end
      end
  end.
End Calls.

(** ** Paths on a volume *)

(** /dev/fat@dev/path *)
Definition fat_path (dev path : list Z) : list Z := slash_dev ++ [102; 97; 116; 64] ++ dev ++ 47 :: path.

Lemma fat_name_path (dev path : list Z) : fat_name (fat_path dev path) = dev ++ 47 :: path.
Proof.
  assert (skip_prefix slash_dev (fat_path dev path) = [102; 97; 116; 64] ++ dev ++ 47 :: path) as E.
  { unfold skip_prefix, fat_path. rewrite decide_True by apply prefix_app_r, reflexivity. apply drop_app_length. }
  unfold fat_name. rewrite E. cbv zeta. rewrite decide_False by (intros [? E']; discriminate E').
  unfold skip_prefix. rewrite decide_True by apply prefix_app_r, reflexivity. done.
Qed.

(** ** The array of long names keeps its size *)

Lemma scan_entry_size (name dire : list Z) (dl : bool) (s : scan) : length (dirbuf (scan_of (scan_entry name dl dire s))) = length (dirbuf s).
Proof. unfold scan_entry. repeat case_match; cbn -[fat_parseDirEntries]; try done; by rewrite length_insert. Qed.

Lemma scan_sector_size (n : nat) (name : list Z) (dl : bool) : forall b s, length (dirbuf (scan_of (scan_sector n name dl b s))) = length (dirbuf s).
Proof.
  induction n as [|n IH]; intros b s; cbn [scan_sector]; [done|]. pose proof (scan_entry_size name (take 32 b) dl s) as He.
  destruct (scan_entry name dl (take 32 b) s) as [s'|s'|s']; cbn [scan_of] in *; [by rewrite IH|done..].
Qed.

Section Sizes.
Context {D : Type} `{RawDevice D}.
Implicit Types (f : fat_sc) (d : D).

Lemma scan_at_size (sector : Z) (name : list Z) (dl : bool) (s : scan) f d v f' d' : scan_at sector name dl s f d = Some (v, f', d') ->
  length (dirbuf (scan_of v)) = length (dirbuf s).
Proof. unfold scan_at. destruct (readsector _ _ _ _) as [[[r b] d1]|]; [|done]. pose proof (scan_sector_size 16 name dl b s) as Hs. generalize dependent (scan_sector 16 name dl b s). intros v1 Hs E. injection E as <- _ _. done. Qed.

Lemma scan_clusters_size (ps : list (Z * Z)) (chain : fatchain) (name : list Z) (dl : bool) : forall s f d v f' d',
  scan_clusters ps chain name dl s f d = Some (v, f', d') -> length (dirbuf (scan_of v)) = length (dirbuf s).
Proof.
  induction ps as [|[i j] ps IH]; intros s f d v f' d'; cbn [scan_clusters]; [by injection 1 as <- _ _|].
  destruct (getSectorIndex f chain j i) as [sector|]; [|done]. destruct (scan_at sector name dl s f d) as [[[v1 f1] d1]|] eqn:E1; [|done].
  apply scan_at_size in E1. rewrite <- E1. destruct v1; cbn [scan_of]; [apply IH|by injection 1 as <- _ _..].
Qed.

Lemma scan_root_size (sectors : list Z) (name : list Z) (dl : bool) : forall s f d v f' d',
  scan_root sectors name dl s f d = Some (v, f', d') -> length (dirbuf (scan_of v)) = length (dirbuf s).
Proof.
  induction sectors as [|sector sectors IH]; intros s f d v f' d'; cbn [scan_root]; [by injection 1 as <- _ _|].
  destruct (scan_at _ name dl s _ d) as [[[v1 f1] d1]|] eqn:E1; [|done]. apply scan_at_size in E1. rewrite <- E1.
  destruct v1; cbn [scan_of]; [apply IH|by injection 1 as <- _ _..].
Qed.

Lemma subdirscan_size (fuel : nat) (stack : fatchain) (depth : nat) : forall name chain b f d r b' f' d',
  fat_subdirscan depth fuel stack name chain b f d = Some (r, b', f', d') -> length b' = length b.
Proof.
  induction depth as [|depth IH]; intros name chain b f d r b' f' d'; cbn [fat_subdirscan]; [done|]. destruct (split_path name) as [comp rest].
  destruct (scan_clusters _ _ _ _ _ _ _) as [[[v f1] d1]|] eqn:E; [|done]. apply scan_clusters_size in E. cbn [dirbuf] in E. rewrite <- E.
  destruct v as [s|s|s]; cbn [scan_of]; [by injection 1 as _ <- _ _| |by injection 1 as _ <- _ _]. destruct rest as [rest|].
  - destruct (fat_getChain _ _ _ _ _) as [[[[r1 chain1] f2] d2]|]; [|done]. apply IH.
  - destruct (found_file _ _ _ _) as [[[r1 f2] d2]|]; [|done]. by injection 1 as _ <- _ _.
Qed.

Lemma findfile_size (fuel : nat) (stack : fatchain) (name : list Z) b f d r b' f' d' :
  fat_findfile fuel stack name b f d = Some (r, b', f', d') -> length b' = length b.
Proof.
  unfold fat_findfile. destruct (FatType (geo f) =? TYPE_FAT32).
  - destruct (fat_getChain _ _ _ _ _) as [[[[r1 chain1] f2] d2]|]; [|done]. apply subdirscan_size.
  - destruct (split_path name) as [comp rest]. destruct (scan_root _ _ _ _ _ _) as [[[v f1] d1]|] eqn:E; [|done].
    apply scan_root_size in E. cbn [dirbuf] in E. rewrite <- E. destruct v as [s|s|s]; cbn [scan_of]; [by injection 1 as _ <- _ _| |by injection 1 as _ <- _ _].
    destruct rest as [rest|].
    + destruct (fat_getChain _ _ _ _ _) as [[[[r1 chain1] f2] d2]|]; [|done]. apply subdirscan_size.
    + destruct (found_file _ _ _ _) as [[[r1 f2] d2]|]; [|done]. by injection 1 as _ <- _ _.
Qed.
End Sizes.

Section Volume.
Context {D : Type} `{RawDisk D}.
Context (junk : nat -> list Z) (stack : fatchain) (fuel : nat) (place : fat_sc -> Z) (freed : Z -> files (fatfs D) -> list Z -> list Z).
Implicit Types (w : files (fatfs D)) (d : D) (g : geometry).

Definition disk_bytes (o : Z) : list Z := map raw_byte (seqZ o SECTORSIZE).

(** A FAT volume on the device [dev], for the slot [lu]: the partition that the letter at the
    end of the name selects starts with a boot sector from which [g] follows, with a buffer
    of [mx] clusters; the root directory has the entries [es]. *)
Record fat_volume (dev : list Z) (lu : Z) g (mx : Z) (es : list (list Z)) : Prop := {
  vol_slash : 47 ∉ dev;
  vol_length : (length dev <= 58)%nat;
  vol_named : raw_named (device_partition (slash_dev ++ dev)).1;
  vol_part : relsect (device_partition (slash_dev ++ dev)).2 (disk_bytes 0) = Some (PartitionStart g);
  vol_boot : raw_byte (512 * PartitionStart g) <> 0 \/ raw_byte (512 * PartitionStart g + 1) <> 0;
  vol_geo : bpb_geometry lu (PartitionStart g) (disk_bytes (512 * PartitionStart g)) = Some (g, mx);
  vol_ok : geo_ok g;
  vol_root : root_dir g mx fuel es }.

Lemma bpb_geometry_fields (fd_ part : Z) (b : list Z) g (mx : Z) : bpb_geometry fd_ part b = Some (g, mx) ->
  fd g = fd_ /\ BytesPerClust g = u32 (SecPerClust g * SECTORSIZE).
Proof. unfold bpb_geometry. destruct (_ || _); [done|]. intros E. injection E as <- _. done. Qed.

(** Mounting: the volume with an empty cache, and a buffer for [mx] clusters. *)
Lemma fat_init_ok (dev : list Z) (lu : Z) g (mx : Z) es (oldmax : Z) d : fat_volume dev lu g mx es ->
  (forall n, 0 <= n <= raw_limit -> n <= 2 ^ 40 - 512 -> exists d', raw_read lu n d = Some (map raw_byte (seqZ 0 n), n, d') /\ raw_open lu d') ->
  exists d', fat_init junk lu (device_partition (slash_dev ++ dev)).2 oldmax d
    = Some (1, new_sc g (junk (Z.to_nat (u32 (BytesPerClust g * mx)))) (-1), mx, d') /\ raw_open lu d'.
Proof.
  intros [_ _ _ Hpart Hboot Hgeo Hok _] Hread. pose proof Hok as [_ Hp _ Hlim]. unfold fat_init.
  destruct (Hread SECTORSIZE) as (d1 & -> & Hop1); [unfold SECTORSIZE; lia..|]. unfold disk_bytes in Hpart. rewrite Hpart.
  destruct (readsector_ok (zero_geometry lu (PartitionStart g)) 0 1 d1 Hop1) as (d2 & -> & Hop2); cbn [zero_geometry PartitionStart]; [lia..|].
  assert (sector_bytes (zero_geometry lu (PartitionStart g)) 0 1 = disk_bytes (512 * PartitionStart g)) as ->.
  { unfold sector_bytes, disk_bytes. cbn [zero_geometry PartitionStart]. rewrite Z.add_0_r. done. }
  assert (forall i, 0 <= i < 512 -> znth 0 (disk_bytes (512 * PartitionStart g)) i = raw_byte (512 * PartitionStart g + i)) as Hnth.
  { intros i Hi. unfold disk_bytes, znth. rewrite list_lookup_fmap, lookup_seqZ_lt by (unfold SECTORSIZE; lia). cbn. f_equal. lia. }
  rewrite !Hnth by lia. rewrite Z.add_0_r.
  assert ((raw_byte (512 * PartitionStart g) =? 0) && (raw_byte (512 * PartitionStart g + 1) =? 0) = false) as ->.
  { apply andb_false_iff. rewrite !Z.eqb_neq. done. }
  rewrite Hgeo. eauto.
Qed.

(** ** Opening *)

(** The assumptions on the freed block: the entries of the chain are not put into it, and
    nobody writes to it while the file is open. *)
Definition placed_apart : Prop :=
  forall f, place f + 4 * Z.of_nat (length (entries (Chain (file f)))) <= 0 \/ Z.of_nat (length (LastSectorBuffer f)) <= place f.
Definition left_alone : Prop := forall lu w b, freed lu w b = b.

Context (Hjunk : forall n, length (junk n) = n) (Hfuel : Z.of_nat fuel + 128 < 2 ^ 31).

(** The entry of the file that [path] names, and its clusters. *)
Record volume_file g (mx : Z) (es : list (list Z)) (path e l : list Z) : Prop := {
  vf_path : resolves g mx fuel es path e l;
  vf_layout : layout_ok g l mx;
  vf_size : 0 <= dirFileSize e <= 512 * (Z.of_nat (length l) * SecPerClust g) /\ dirFileSize e < 2 ^ 31 }.

(** The slot [lu] is ready for reading the file. *)
Record file_open (lu : Z) g (l : list Z) (mx size : Z) w : Prop := {
  fo_mine : exists f, _myfile (inner w) lu = Some f /\ reading g l mx f (device (inner w)) /\ FileSize (file f) = size;
  fo_max : MAX_BUFSZ_CLUSTS (inner w) = mx;
  fo_dirbufs : length (dirbufs (inner w)) = 10%nat }.

Lemma split_dev (dev path : list Z) : 47 ∉ dev -> split_path (fat_name (fat_path dev path)) = (dev, Some path).
Proof. intros Hs. rewrite fat_name_path. by apply split_path_ok. Qed.

(** Up to the search. *)
Lemma fat_open_mounted (dev path : list Z) (mode lu : Z) g (mx : Z) es w : fat_volume dev lu g mx es -> raw_closed lu (device (inner w)) ->
  exists d, raw_open lu d /\
    let fsc := new_sc g (junk (Z.to_nat (u32 (BytesPerClust g * mx)))) (-1) in
    fat_open junk stack fuel place lu (fat_path dev path) mode w =
      match fat_findfile fuel stack path (dirbufs (inner w)) fsc d with
      | None => None
      | Some (res, b, fsc, d) =>
          let w := set_inner (Fatfs mx b (_myfile (inner w)) d) (set_posn lu 0 (set_valid lu 1 w)) in
          if (res <=? 0) || (res =? 2) then Some (-1, set_valid lu 0 (set_f_errno (if res =? 2 then EISDIR else EINVAL) w))
          else Some (lu, set_posn lu 0 (set_inner (Fatfs mx b (fupd (_myfile (inner w)) lu (Some (start_reading place fsc))) d) w))
      end.
Proof.
  intros Hv Hcl. pose proof Hv as [Hsl Hlen Hname _ _ _ _ _]. unfold fat_open. rewrite (split_dev dev path Hsl).
  rewrite (proj2 (Nat.ltb_ge 58 (length dev)) Hlen). destruct (device_partition (slash_dev ++ dev)) as [dpath part] eqn:Edp.
  pose proof (fun old d => fat_init_ok dev lu g mx es old d Hv) as Hinit. rewrite Edp in Hinit. cbn [fst snd] in *.
  cbv zeta. set (w1 := set_posn lu 0 (set_valid lu 1 w)). change (inner w1) with (inner w).
  destruct (raw_open_new lu dpath _ Hcl Hname) as (d1 & -> & Hop1 & Hrd). change (1 =? 0) with false. cbv iota.
  unfold set_device. cbn [set_inner inner MAX_BUFSZ_CLUSTS dirbufs _myfile device]. change (inner w1) with (inner w).
  destruct (Hinit (MAX_BUFSZ_CLUSTS (inner w)) d1 Hrd) as (d2 & -> & Hop2). change (1 =? 0) with false. cbv iota. exists d2. split; [done|].
  destruct (fat_findfile _ _ _ _ _ _) as [[[[res b] fsc] d3]|]; [|done]. done.
Qed.

Lemma new_sc_cache g (buffer : list Z) : cache_ok (new_sc g buffer (-1)).
Proof. by left. Qed.

(** [fat_open] of a file. *)
Lemma fat_open_found (dev path e l : list Z) (mode lu : Z) g (mx : Z) es w : placed_apart -> fat_volume dev lu g mx es -> raw_closed lu (device (inner w)) ->
  length (dirbufs (inner w)) = 10%nat -> volume_file g mx es path e l ->
  exists w', fat_open junk stack fuel place lu (fat_path dev path) mode w = Some (lu, w') /\ file_open lu g l mx (dirFileSize e) w' /\
    (forall i, i <> lu -> _file w' i = _file w i).
Proof.
  intros Hplace Hv Hcl Hb [Hres Hlo Hsize]. destruct (fat_open_mounted dev path mode lu g mx es w Hv Hcl) as (d & Hop & ->). cbv zeta.
  pose proof Hv as [_ _ _ _ _ Hgeo Hok Hroot]. destruct (bpb_geometry_fields _ _ _ _ _ Hgeo) as [Efd Ecl]. subst lu.
  set (fsc := new_sc g _ _). destruct (fat_findfile_ok g mx fuel es path stack (dirbufs (inner w)) fsc d Hok eq_refl (new_sc_cache _ _) Hop Hfuel Hroot Hb) as [Hfound _].
  destruct (Hfound e l Hres) as (b & f' & d' & E & [Hg Hbuf _ Hop' Hsz Hch]). rewrite E. apply findfile_size in E. change ((1 <=? 0) || (1 =? 2)) with false. cbv iota.
  eexists. split; [reflexivity|]. split.
  - split; [|done|cbn; congruence]. exists (start_reading place f'). split; [cbn; by rewrite fupd_eq|]. split; [|done]. split; try done.
    + cbn. rewrite Hsz. done.
    + cbn [start_reading LastSectorBuffer]. rewrite Hbuf. cbn [fsc new_sc LastSectorBuffer]. rewrite Hjunk. f_equal. rewrite Ecl.
      pose proof (lo_small _ _ _ Hlo). pose proof (lo_spc _ _ _ Hlo). pose proof (lo_max _ _ _ Hlo). rewrite (u32_small (SecPerClust g * SECTORSIZE)) by (unfold SECTORSIZE; lia).
      rewrite u32_small by (unfold SECTORSIZE; lia). unfold SECTORSIZE. lia.
    + by left.
    + apply (Hplace f').
  - intros i Hi. cbn. by rewrite !fupd_ne.
Qed.

(** [fat_open] of a path that is not there leaves the device open. *)
Lemma fat_open_missing (dev path : list Z) (mode lu : Z) g (mx : Z) es w : fat_volume dev lu g mx es -> raw_closed lu (device (inner w)) ->
  length (dirbufs (inner w)) = 10%nat -> missing g mx fuel es path -> FatType g = TYPE_FAT32 \/ (forall name, dir_lookup name [] es <> LOut) ->
  exists w', fat_open junk stack fuel place lu (fat_path dev path) mode w = Some (-1, w') /\ raw_open lu (device (inner w')) /\
    (forall i, i <> lu -> _file w' i = _file w i).
Proof.
  intros Hv Hcl Hb Hmiss Hend. destruct (fat_open_mounted dev path mode lu g mx es w Hv Hcl) as (d & Hop & ->). cbv zeta.
  pose proof Hv as [_ _ _ _ _ Hgeo Hok Hroot]. destruct (bpb_geometry_fields _ _ _ _ _ Hgeo) as [Efd _]. subst lu.
  set (fsc := new_sc g _ _). destruct (fat_findfile_ok g mx fuel es path stack (dirbufs (inner w)) fsc d Hok eq_refl (new_sc_cache _ _) Hop Hfuel Hroot Hb) as [_ Hmissing].
  destruct (Hmissing Hmiss Hend) as (r & b & f' & d' & -> & Hr & Hst).
  assert ((r <=? 0) || (r =? 2) = true) as -> by (by destruct Hr as [->| ->]). eexists. split; [reflexivity|]. split.
  - by destruct Hst.
  - intros i Hi. cbn. by rewrite !fupd_ne.
Qed.

(** While the device entry of the slot is open, every [fat_open] fails and changes nothing but the slot. *)
Lemma fat_open_busy (dev path : list Z) (mode lu : Z) w : 47 ∉ dev -> (length dev <= 58)%nat -> raw_open lu (device (inner w)) ->
  exists w', fat_open junk stack fuel place lu (fat_path dev path) mode w = Some (-1, w') /\ raw_open lu (device (inner w')) /\
    (forall i, i <> lu -> _file w' i = _file w i).
Proof.
  intros Hsl Hlen Hop. unfold fat_open. rewrite (split_dev dev path Hsl), (proj2 (Nat.ltb_ge 58 (length dev)) Hlen).
  destruct (device_partition (slash_dev ++ dev)) as [dpath part]. cbv zeta. set (w1 := set_posn lu 0 (set_valid lu 1 w)). change (inner w1) with (inner w).
  rewrite (raw_open_busy lu dpath _ Hop). change (0 =? 0) with true. cbv iota. eexists. split; [reflexivity|]. split; [done|].
  intros i Hi. cbn. by rewrite !fupd_ne.
Qed.

(** ** Reading and seeking *)

Lemma take_drop_seqZ {A} (f : Z -> A) (size p n : Z) : 0 <= p -> 0 <= n -> p + n <= size ->
  take (Z.to_nat n) (drop (Z.to_nat p) (map f (seqZ 0 size))) = map f (seqZ p n).
Proof.
  intros Hp Hn Hle. replace size with (p + (n + (size - p - n))) by lia. rewrite !seqZ_app by lia. rewrite !map_app.
  rewrite drop_app_length' by (rewrite length_map, length_seqZ; lia). rewrite Z.add_0_l, take_app_length' by (rewrite length_map, length_seqZ; lia). done.
Qed.

Context (fss : list (FileSystem (fatfs D))) (k : nat) (Hfs : fss !! k = Some (fat_fs junk stack fuel place freed)).

(** The slot belongs to this file system, at a position. *)
Record in_session (lu : Z) g (l : list Z) (mx size p : Z) w : Prop := {
  is_slot : _file w lu = mkFile 1 p (Some k);
  is_file : file_open lu g l mx size w }.

Definition content g (l : list Z) (size : Z) : list Z := map (file_byte g l) (seqZ 0 size).

Lemma content_length g (l : list Z) (size : Z) : 0 <= size -> Z.of_nat (length (content g l size)) = size.
Proof. intros Hs. unfold content. rewrite length_map, length_seqZ. clear -Hs. lia. Qed.

Lemma session_fs (lu : Z) g (l : list Z) (mx size p : Z) w : in_session lu g l mx size p w -> 0 <= lu < OPEN_MAX ->
  (lu <? 0) = false /\ is_open lu w = true /\ fs_of fss lu w = Some (fat_fs junk stack fuel place freed).
Proof.
  intros [Hslot _] Hlu. unfold is_open, fs_of. rewrite Hslot. cbn [valid fs]. rewrite (proj2 (Z.ltb_lt lu OPEN_MAX)), (proj2 (Z.ltb_ge lu 0)) by lia. by split_and!.
Qed.

(** Nobody has written to the freed block. *)
Lemma held_same (lu : Z) w f : left_alone -> set_held (freed lu w (LastSectorBuffer f)) f = f.
Proof. intros ->. by destruct f. Qed.

Lemma call_ok (lu : Z) g (l : list Z) (mx size p : Z) (r : request) w : left_alone -> 0 <= lu < OPEN_MAX -> in_session lu g l mx size p w -> 0 <= p < 2 ^ 61 ->
  requests_ok (content g l size) p [r] ->
  let '(x, out, p') := answer (content g l size) p r in
  exists w', call fss lu r w = Some (x, out, w') /\ in_session lu g l mx size p' w' /\ 0 <= p' < 2 ^ 61 /\ (forall i, i <> lu -> _file w' i = _file w i).
Proof.
  intros Halone Hlu Hs Hp Hreq. destruct (session_fs lu g l mx size p w Hs Hlu) as (E1 & E2 & E3). pose proof Hs as [Hslot [(f & Hmy & Hrd & Hsz) Hmx Hbs]].
  pose proof Hrd as [_ _ _ [Hs0 Hs31] _ _ _ _]. rewrite Hsz in *. cbn [requests_ok] in Hreq. unfold answer in *. rewrite content_length in * by lia. destruct r as [o whence|n].
  - cbn [call]. unfold lseek. rewrite E1, E2, E3. cbn [fat_fs fs_lseek]. unfold fat_lseek_op. rewrite Hmy, Hslot. cbn [posn]. unfold fat_lseek. rewrite Hsz.
    assert (forall x, 0 <= x < 2 ^ 61 -> in_session lu g l mx size x (set_posn lu x w) /\ (forall i, i <> lu -> _file (set_posn lu x w) i = _file w i)) as Hset.
    { intros x Hx. split; [split|].
      - cbn. by rewrite fupd_eq, Hslot.
      - split; [|done|done]. by exists f.
      - intros i Hi. cbn. by rewrite fupd_ne. }
    destruct (Z.eqb_spec whence 0) as [->|N0]; [|destruct (Z.eqb_spec whence 1) as [->|N1]; [|destruct (Z.eqb_spec whence 2) as [->|N2]]].
    + destruct Hreq as [Hr _]. eexists. split; [reflexivity|]. destruct (Hset o Hr). done.
    + destruct Hreq as [Hr _]. rewrite s64_small by lia. eexists. split; [reflexivity|]. destruct (Hset (p + o) Hr). done.
    + destruct Hreq as [Hr _]. rewrite s64_small by lia. eexists. split; [reflexivity|]. destruct (Hset (size + o) Hr). done.
    + assert (forall X (a b c d : X), match whence with 0 => a | 1 => b | 2 => c | _ => d end = d) as E.
      { intros X a b c d. destruct whence as [|[q|[q|q|]|]|]; try done; lia. }
      rewrite E in *. eexists. split; [reflexivity|]. split; [|done]. split; [done|]. split; [|done|done]. by exists f.
  - cbn [call]. unfold read. rewrite E1, E2, E3. cbn [fat_fs fs_read]. unfold fat_read_op. rewrite Hmy, Hslot, Hmx, held_same by done. cbn [posn].
    pose proof (fat_read_ok g l mx p n f _ Hrd ltac:(lia)) as Hread. rewrite Hsz in Hread.
    destruct (Z.ltb_spec p size) as [Hlt|Hge]; destruct Hreq as [Hn _]; specialize (Hread Hn).
    + destruct Hread as (f' & d' & -> & Hrd' & Hbut). cbv zeta. unfold content. rewrite take_drop_seqZ by lia. eexists. split; [reflexivity|]. split_and!; [|lia|lia|].
      * split; [cbn; by rewrite fupd_eq, Hslot|]. split; [|done|done]. exists f'. split; [cbn; by rewrite fupd_eq|]. split; [done|].
        assert (file f' = file f) as -> by apply Hbut. done.
      * intros i Hi. cbn. by rewrite fupd_ne.
    + rewrite Hread. eexists. split; [reflexivity|]. split_and!; [|lia|lia|].
      * split; [cbn; by rewrite fupd_eq, Hslot|]. split; [|done|done]. exists f. split; [cbn; by rewrite fupd_eq|]. done.
      * intros i Hi. cbn. by rewrite fupd_ne.
Qed.

Lemma calls_ok (lu : Z) g (l : list Z) (mx size : Z) (rs : list request) : left_alone -> 0 <= lu < OPEN_MAX -> forall p w,
  in_session lu g l mx size p w -> 0 <= p < 2 ^ 61 -> requests_ok (content g l size) p rs ->
  exists p' w', calls fss lu rs w = Some (answers (content g l size) p rs, w') /\ in_session lu g l mx size p' w' /\ (forall i, i <> lu -> _file w' i = _file w i).
Proof.
  intros Halone Hlu. induction rs as [|r rs IH]; intros p w Hs Hp Hreq; cbn [calls answers].
  { exists p, w. done. }
  cbn [requests_ok] in Hreq. pose proof (call_ok lu g l mx size p r w Halone Hlu Hs Hp) as Hcall. cbn [requests_ok] in Hcall.
  destruct (answer (content g l size) p r) as [[x out] p1]. destruct Hreq as [Hr Hrest].
  destruct (Hcall (conj Hr I)) as (w1 & -> & Hs1 & Hp1 & Hf1). destruct (IH p1 w1 Hs1 Hp1 Hrest) as (p2 & w2 & -> & Hs2 & Hf2).
  exists p2, w2. split_and!; [done|done|]. intros i Hi. by rewrite Hf2, Hf1.
Qed.

(** [close] after any calls. *)
Lemma close_ok (lu : Z) g (l : list Z) (mx size p : Z) w : 0 <= lu < OPEN_MAX -> in_session lu g l mx size p w -> fd g = lu ->
  exists w', close fss lu w = Some (0, w') /\ valid (_file w' lu) = 0 /\ raw_closed lu (device (inner w')) /\ length (dirbufs (inner w')) = 10%nat /\
    (forall i, i <> lu -> _file w' i = _file w i).
Proof.
  intros Hlu Hs Efd. destruct (session_fs lu g l mx size p w Hs Hlu) as (E1 & E2 & _). destruct Hs as [Hslot [(f & Hmy & Hrd & _) _ Hbs]].
  unfold close. rewrite E1, E2. unfold fs_of. cbn [set_valid set_slot _file]. rewrite fupd_eq, Hslot. cbn [fs mbind option_bind]. rewrite Hfs. cbn [fat_fs fs_close].
  unfold fat_close. cbn [set_valid set_slot inner]. rewrite Hmy. eexists. split; [reflexivity|]. split_and!.
  - cbn. by rewrite fupd_eq.
  - cbn. apply raw_close_ok. rewrite <- Efd. apply (rd_open _ _ _ _ _ Hrd).
  - done.
  - intros i Hi. cbn. by rewrite fupd_ne.
Qed.

(** ** The way through the table of open files *)

(** The file systems before this one do not claim its names. *)
Context (Hfirst : forall i s rest, (i < k)%nat -> fss !! i = Some s -> strbequ ([102; 97; 116; 64] ++ rest) (devname s) = 0).

Lemma try_fss_fat (dev path : list Z) (mode lu : Z) w (n : nat) : forall (l : list (FileSystem (fatfs D))) (j : nat), (j + n = k)%nat -> l = drop j fss ->
  try_fss l j (fat_path dev path) mode (Some (drop 5 (fat_path dev path))) lu FS_NULL w =
    match fat_open junk stack fuel place lu (fat_path dev path) mode w with
    | Some (xx, w) => if xx =? lu then Some (lu, set_slot lu (mkFile 1 0 (Some k)) w) else Some (-1, w)
    | None => None
    end.
Proof.
  induction n as [|n IH]; intros l j Hj ->.
  - replace j with k by lia. rewrite (drop_S _ _ _ Hfs). cbn [try_fss fat_fs devname fs_open]. change (strbequ (drop 5 (fat_path dev path)) [102; 97; 116]) with 1.
    cbn [Z.eqb negb]. change (1 =? 0) with false. cbn [negb]. destruct (fat_open _ _ _ _ _ _ _) as [[xx w']|]; [|done]. by destruct (xx =? lu).
  - destruct (lookup_lt_is_Some_2 fss j) as [s Hs]; [pose proof (lookup_lt_Some _ _ _ Hfs); lia|]. rewrite (drop_S _ _ _ Hs). cbn [try_fss].
    change (drop 5 (fat_path dev path)) with ([102; 97; 116; 64] ++ dev ++ 47 :: path). rewrite (Hfirst j s _ ltac:(lia) Hs). cbn [negb Z.eqb].
    change (FS_NULL =? FS_NULL) with true. cbn [negb andb]. apply (IH (drop (S j) fss) (S j)); [lia|done].
Qed.

Lemma open_fat (dev path : list Z) (mode lu : Z) w : lu_of w = lu -> lu < OPEN_MAX ->
  open fss (fat_path dev path) mode w = finish_open lu
    match fat_open junk stack fuel place lu (fat_path dev path) mode (set_slot lu (mkFile 1 0 None) w) with
    | Some (xx, w) => if xx =? lu then Some (lu, set_slot lu (mkFile 1 0 (Some k)) w) else Some (-1, w)
    | None => None
    end.
Proof.
  intros Elu Hlu. unfold open. rewrite Elu, (proj2 (Z.eqb_neq lu OPEN_MAX)) by lia. f_equal.
  rewrite decide_True by apply prefix_app_r, reflexivity. unfold __try_open. apply (try_fss_fat _ _ _ _ _ k); [lia|done].
Qed.

(** The first free slot, and its device entry closed. *)
Record slot_free (lu : Z) w : Prop := {
  sf_first : lu_of w = lu;
  sf_room : lu < OPEN_MAX;
  sf_closed : raw_closed lu (device (inner w));
  sf_dirbufs : length (dirbufs (inner w)) = 10%nat }.

(** [open] of a file. *)
Lemma open_found (dev path e l : list Z) (mode lu : Z) g (mx : Z) es w : placed_apart -> fat_volume dev lu g mx es -> slot_free lu w -> volume_file g mx es path e l ->
  exists w', open fss (fat_path dev path) mode w = Some (lu, w') /\ in_session lu g l mx (dirFileSize e) 0 w' /\ (forall i, i <> lu -> _file w' i = _file w i).
Proof.
  intros Hplace Hv [Elu Hlu Hcl Hb] Hfile. rewrite (open_fat dev path mode lu w Elu Hlu). pose proof (slot_range lu w Elu Hlu) as Hr.
  destruct (fat_open_found dev path e l mode lu g mx es (set_slot lu (mkFile 1 0 None) w) Hplace Hv Hcl Hb Hfile) as (w1 & -> & [Hmy Hmx Hbs] & Hf).
  rewrite Z.eqb_refl. cbn [finish_open]. rewrite (proj2 (Z.eqb_neq lu (-1))) by lia. eexists. split; [reflexivity|]. split; [split; [cbn; by rewrite fupd_eq|by split]|].
  intros i Hi. cbn. rewrite fupd_ne by done. rewrite Hf by done. cbn. by rewrite fupd_ne.
Qed.

(** [open] that fails: the slot is free, but not its device entry. *)
Record slot_stuck (lu : Z) w : Prop := {
  ss_first : lu_of w = lu;
  ss_room : lu < OPEN_MAX;
  ss_open : raw_open lu (device (inner w)) }.

Lemma open_failed (dev path : list Z) (mode lu : Z) w w1 : lu_of w = lu -> lu < OPEN_MAX ->
  fat_open junk stack fuel place lu (fat_path dev path) mode (set_slot lu (mkFile 1 0 None) w) = Some (-1, w1) -> raw_open lu (device (inner w1)) ->
  (forall i, i <> lu -> _file w1 i = _file (set_slot lu (mkFile 1 0 None) w) i) ->
  exists w', open fss (fat_path dev path) mode w = Some (-1, w') /\ slot_stuck lu w' /\ (forall i, i <> lu -> _file w' i = _file w i).
Proof.
  intros Elu Hlu E Hop Hf. rewrite (open_fat dev path mode lu w Elu Hlu), E. pose proof (slot_range lu w Elu Hlu) as Hr. rewrite (proj2 (Z.eqb_neq (-1) lu)) by lia. cbn [finish_open].
  change (-1 =? -1) with true. cbv iota. eexists. split; [reflexivity|].
  assert (forall i, i <> lu -> _file (set_valid lu 0 w1) i = _file w i) as Hsame.
  { intros i Hi. cbn. rewrite fupd_ne by done. rewrite Hf by done. cbn. by rewrite fupd_ne. }
  split; [|done]. split; [|done|done]. apply (lu_of_same lu w); [done|done| |done]. cbn. by rewrite fupd_eq.
Qed.

Lemma open_missing (dev path : list Z) (mode lu : Z) g (mx : Z) es w : fat_volume dev lu g mx es -> slot_free lu w ->
  missing g mx fuel es path -> FatType g = TYPE_FAT32 \/ (forall name, dir_lookup name [] es <> LOut) ->
  exists w', open fss (fat_path dev path) mode w = Some (-1, w') /\ slot_stuck lu w' /\ (forall i, i <> lu -> _file w' i = _file w i).
Proof.
  intros Hv [Elu Hlu Hcl Hb] Hmiss Hend.
  destruct (fat_open_missing dev path mode lu g mx es (set_slot lu (mkFile 1 0 None) w) Hv Hcl Hb Hmiss Hend) as (w1 & E & Hop & Hf).
  by apply (open_failed dev path mode lu w w1).
Qed.

(** Names of files on devices, as [fat_open] can take them. *)
Definition attempt_ok (a : list Z * list Z * Z) : Prop := let '(dev, _, _) := a in 47 ∉ dev /\ (length dev <= 58)%nat.

Fixpoint attempts (l : list (list Z * list Z * Z)) w : option (list Z * files (fatfs D)) :=
  match l with
  | [] => Some ([], w)
  | (dev, path, mode) :: l =>
      match open fss (fat_path dev path) mode w with
      | None => None
      | Some (r, w) => match attempts l w with Some (rs, w) => Some (r :: rs, w) | None => None end
      end
  end.

Lemma attempts_stuck (lu : Z) (l : list (list Z * list Z * Z)) : Forall attempt_ok l -> forall w, slot_stuck lu w ->
  exists w', attempts l w = Some (replicate (length l) (-1), w') /\ slot_stuck lu w'.
Proof.
  induction 1 as [|[[dev path] mode] l [Hsl Hlen] _ IH]; intros w Hst; cbn [attempts length replicate]; [by exists w|].
  pose proof Hst as [Elu Hlu Hop]. destruct (fat_open_busy dev path mode lu (set_slot lu (mkFile 1 0 None) w) Hsl Hlen Hop) as (w1 & E & Hop1 & Hf).
  destruct (open_failed dev path mode lu w w1 Elu Hlu E Hop1 Hf) as (w2 & -> & Hst2 & _). destruct (IH w2 Hst2) as (w3 & -> & Hst3). by exists w3.
Qed.

(** C31: A file is opened by its path, used and closed as the calls promise, as long as the
    block of its buffer, which [fat_init] has freed, is not used for anything else.  The two
    assumptions say so: [malloc] has put the entries of the file's chain, which it allocates
    next, elsewhere ([placed_apart]), and nobody writes to the block while the file is open
    ([left_alone]); where the first one fails, reading goes wrong (FatRead.v,
    [entries_in_the_buffer]).  When [open] is then given a path on a FAT volume, with the
    device named in it free, the answer is the first free slot; from then on [read] and
    [lseek] calls of any kinds, lengths and positions, in any order, answer as a list of bytes
    with a position does, the bytes being those of the file's clusters, cut at the size in its
    entry; and [close] frees the slot and the device so that the next [open] can take them.
    No other slot changes.  This spans the table of open files, the choice of the file system
    by name, the partition table and boot sector, the search of the path and the buffered
    reading. *)
Theorem file_by_path (dev path e l : list Z) (mode lu : Z) g (mx : Z) es w :
  placed_apart -> left_alone -> fat_volume dev lu g mx es -> slot_free lu w -> volume_file g mx es path e l ->
  exists w1, open fss (fat_path dev path) mode w = Some (lu, w1) /\ (forall i, i <> lu -> _file w1 i = _file w i) /\
  forall rs, requests_ok (content g l (dirFileSize e)) 0 rs ->
    exists w2 w3, calls fss lu rs w1 = Some (answers (content g l (dirFileSize e)) 0 rs, w2) /\
      close fss lu w2 = Some (0, w3) /\ slot_free lu w3 /\ (forall i, i <> lu -> _file w3 i = _file w i).
Proof.
  intros Hplace Halone Hv Hfree Hfile. destruct (open_found dev path e l mode lu g mx es w Hplace Hv Hfree Hfile) as (w1 & -> & Hs1 & Hf1). pose proof Hfree as [Elu Hlu _ _].
  exists w1. split; [done|]. split; [done|]. intros rs Hreq. pose proof (slot_range lu w Elu Hlu) as Hr.
  destruct (calls_ok lu g l mx (dirFileSize e) rs Halone Hr 0 w1 Hs1 ltac:(lia) Hreq) as (p & w2 & Ecalls & Hs2 & Hf2).
  destruct (close_ok lu g l mx (dirFileSize e) p w2 Hr Hs2) as (w3 & Eclose & Hc1 & Hc2 & Hc3 & Hf3); [by eapply bpb_geometry_fields, vol_geo|].
  assert (forall i, i <> lu -> _file w3 i = _file w i) as Hsame by (intros i Hi; by rewrite Hf3, Hf2, Hf1). exists w2, w3. split_and!; [done..| |done].
  split; [by apply (lu_of_same lu w)|done|done|done].
Qed.

(** C39: An [open] that does not find its file leaves its slot unusable.  It answers -1 and
    frees the slot in the table of open files, but leaves the entry of the device open.  In
    every state after that in which the slot is the first free one and its device entry has
    not been closed, as in the state right after it, an [open] of any path on any FAT volume,
    existing or not (the name of the device has no slash and at most 58 characters), gets
    this slot and answers -1, and leaves such a state again; so any number of them fail one
    after another.  (A slot before this one that becomes free, or
    another file system that takes the slot and closes the device entry, ends this.) *)
Theorem failed_open_blocks (dev path : list Z) (mode lu : Z) g (mx : Z) es w :
  fat_volume dev lu g mx es -> slot_free lu w -> missing g mx fuel es path -> FatType g = TYPE_FAT32 \/ (forall name, dir_lookup name [] es <> LOut) ->
  exists w1, open fss (fat_path dev path) mode w = Some (-1, w1) /\ valid (_file w1 lu) = 0 /\ slot_stuck lu w1 /\
  (forall w' later, slot_stuck lu w' -> Forall attempt_ok later -> exists w2, attempts later w' = Some (replicate (length later) (-1), w2) /\ slot_stuck lu w2).
Proof.
  intros Hv Hfree Hmiss Hend. destruct (open_missing dev path mode lu g mx es w Hv Hfree Hmiss Hend) as (w1 & -> & Hst & Hf).
  exists w1. split_and!; [done| |done|].
  - destruct Hst as [Elu Hlu _]. pose proof (lu_of_spec w1) as (_ & _ & H3). cbv zeta in H3. rewrite Elu in H3. auto.
  - intros w' later Hst' Hl. by apply attempts_stuck.
Qed.
End Volume.

(** The stick with the file docs/Readme.TXT, found as /dev/usb0; a file system of another
    name comes first in the list. *)
Definition usb0 : list Z := [117; 115; 98; 48].
Definition readme_path : list Z := [100; 111; 99; 115; 47; 82; 101; 97; 100; 109; 101; 46; 84; 88; 84].
Definition junk0 (n : nat) : list Z := replicate n 7.
Definition no_chain : fatchain := Fatchain 0 [] 0.

(** The entries behind the block, and a block that stays as it is. *)
Definition place_behind (f : fat_sc) : Z := Z.of_nat (length (LastSectorBuffer f)).
Definition kept {X : Type} (lu : Z) (w : X) (b : list Z) : list Z := b.

Definition stick_fat : FileSystem (fatfs (devfs unit)) := @fat_fs _ (stick_raw docs_byte) junk0 no_chain 8 place_behind kept.

Definition other_fs : FileSystem (fatfs (devfs unit)) :=
  {| devname := [100; 105; 115; 107]; fstype := 1; fs_open := None; fs_read := None; fs_write := None; fs_lseek := None; fs_close := None; fs_ioctl := None |}.

Definition stick_start : files (fatfs (devfs unit)) :=
  Files (fun _ => mkFile 0 0 None) 0
    (Fatfs 32 (replicate 10 []) (fun _ => None) (Devfs (fun _ => Biodev 0 0 0 0 0 0) 0 0 (fun _ => 7) tt)).

Lemma junk0_length (n : nat) : length (junk0 n) = n.
Proof. apply length_replicate. Qed.

Lemma stick_volume : @fat_volume _ _ docs 8 usb0 0 geometry12 2048 (@root_entries _ _ docs geometry12).
Proof.
  split.
  - by apply (bool_decide_eq_true_1 (47 ∉ usb0)).
  - cbn. lia.
  - exists 0. split; [|intros b; by destruct b]. done.
  - by vm_compute.
  - left. by vm_compute.
  - by vm_compute.
  - apply geometry12_ok.
  - apply root_fixed; vm_compute; congruence.
Qed.

Lemma stick_slot : @slot_free _ _ docs 0 stick_start.
Proof. split; [by vm_compute|done| |done]. split; [done|]. split; [done|apply stick_buffers]. Qed.

Lemma fat_is_first (i : nat) (s : FileSystem (fatfs (devfs unit))) (rest : list Z) : (i < 1)%nat -> [other_fs; stick_fat] !! i = Some s ->
  strbequ ([102; 97; 116; 64] ++ rest) (devname s) = 0.
Proof. intros Hi. replace i with O by lia. cbn. by injection 1 as <-. Qed.

Lemma stick_file : @volume_file _ _ docs 8 geometry12 2048 (@root_entries _ _ docs geometry12) readme_path readme_entry [2].
Proof.
  split; [by apply resolves_docs| |split; vm_compute; [split; congruence|done]].
  split; try done; try lia; try (cbn; lia); [apply geometry12_ok|by apply (bool_decide_eq_true_1 (NoDup [2]))|].
  repeat (apply Forall_cons; split; [cbn; lia|]). by apply Forall_nil.
Qed.

(** The last three bytes, after a seek to the end, and then the first two. *)
Lemma file_by_path_witness : exists w1 w2 w3,
  open [other_fs; stick_fat] (fat_path usb0 readme_path) 0 stick_start = Some (0, w1) /\
  calls [other_fs; stick_fat] 0 [Seek (-3) 2; Read 100; Read 1; Seek 0 0; Read 2] w1
    = Some ([(2, []); (3, map docs_byte [2050; 2051; 2052]); (-1, []); (0, []); (2, map docs_byte [2048; 2049])], w2) /\
  close [other_fs; stick_fat] 0 w2 = Some (0, w3).
Proof.
  destruct (@file_by_path _ _ docs junk0 no_chain 8 place_behind kept junk0_length ltac:(cbn; lia) [other_fs; stick_fat] 1 eq_refl fat_is_first
    usb0 readme_path readme_entry [2] 0 0 geometry12 2048 (@root_entries _ _ docs geometry12) stick_start) as (w1 & E1 & _ & Hcalls).
  - intros f. by right.
  - done.
  - apply stick_volume.
  - apply stick_slot.
  - apply stick_file.
  - destruct (Hcalls [Seek (-3) 2; Read 100; Read 1; Seek 0 0; Read 2]) as (w2 & w3 & E2 & E3 & _).
    + vm_compute. intuition congruence.
    + exists w1, w2, w3. split; [exact E1|]. split; [|exact E3].
      rewrite E2. reflexivity.
Defined.

Lemma docs_root_ends (name : list Z) : dir_lookup name [] (@root_entries _ _ docs geometry12) <> LOut.
Proof.
  assert (exists e1 e2 es, @root_entries _ _ docs geometry12 = e1 :: e2 :: es /\ znth 0 e1 0 = 68 /\ dirAttributes e1 = 16 /\ znth 0 e2 0 = SLOT_EMPTY)
    as (e1 & e2 & es & -> & H1 & H2 & H3).
  { eexists _, _, _. vm_compute. split_and!; reflexivity. }
  cbn [dir_lookup]. rewrite H1, H2, H3. by destruct (entry_matches name [] e1).
Qed.

(** The file is there, but a search for another one came before. *)
Lemma failed_open_blocks_witness : exists w1 w2,
  open [stick_fat] (fat_path usb0 [97; 98]) 0 stick_start = Some (-1, w1) /\
  @attempts _ [stick_fat] [(usb0, readme_path, 0)] w1 = Some ([-1], w2).
Proof.
  destruct (@failed_open_blocks _ _ docs junk0 no_chain 8 place_behind kept ltac:(cbn; lia) [stick_fat] 0 eq_refl ltac:(lia)
    usb0 [97; 98] 0 0 geometry12 2048 (@root_entries _ _ docs geometry12) stick_start) as (w1 & E1 & _ & Hst & Hlater).
  - apply stick_volume.
  - apply stick_slot.
  - apply missing_file; [by apply name_ok_dec|by vm_compute|]. intros e. vm_compute. congruence.
  - right. apply docs_root_ends.
  - destruct (Hlater w1 [(usb0, readme_path, 0)] Hst) as (w2 & E2 & _).
    + apply Forall_singleton. split; [by apply (bool_decide_eq_true_1 (47 ∉ usb0))|cbn; lia].
    + exists w1, w2. split; [exact E1|exact E2].
Defined.
