(* ===== verification/Symbols.v ===== *)
(** * The symbol table of loaded programs (os/filesys/loadelf.c)
    A hash table of chains, against a finite map from names to values.  The sorted indexes
    that [flushsort] would free are never made. *)

From S2P Require Import Prelude CStr.

Definition NHASH : Z := 127.

(** A chain is the list of its names and values, from its head. *)
Record symtab := Symtab { symhash : Z -> list (list Z * Z); maxsymlen : Z; nsyms : Z }.

(** [*s] is a signed character. *)
Fixpoint strhash_loop (s : list Z) (h : Z) : Z :=
  match s with
  | [] => h
  | c :: s =>
      let h := u32 (Z.shiftl h 4 + c) in
      strhash_loop s (if h >? 0x0fffffff then Z.land (Z.lxor h (Z.land (Z.shiftr h 24) 0xf0)) 0x0fffffff else h)
  end.

Definition strhash (s : list Z) : Z := strhash_loop s 0.

(** [name[0] == sym->name[0] && !strcmp(name+1, sym->name+1)]; for two empty names what
    follows the terminators is compared. *)
Definition same_sym (name sym : list Z) : option bool :=
  match name, sym with
  | [], [] => None
  | c :: name, d :: sym => Some ((c =? d) && (strcmp name sym =? 0))
  | _, _ => Some false
  end.

(** The place of a name in its chain. *)
Fixpoint find_sym (name : list Z) (chain : list (list Z * Z)) : option (option nat) :=
  match chain with
  | [] => Some None
  | (sym, _) :: chain =>
      match same_sym name sym with
      | None => None
      | Some true => Some (Some O)
      | Some false => match find_sym name chain with Some (Some i) => Some (Some (S i)) | r => r end
      end
  end.

Definition bucket (name : list Z) : Z := strhash name mod NHASH.

(** The value, where the code returns the symbol. *)
Definition getsymbyname (name : list Z) (t : symtab) : option (option Z) :=
  if nsyms t =? 0 then Some None
  else
    match find_sym name (symhash t (bucket name)) with
    | None => None
    | Some None => Some None
    | Some (Some i) => Some (snd <$> symhash t (bucket name) !! i)
    end.

(** [room]: whether [malloc] succeeds. *)
Definition newsym (room : bool) (name : list Z) (value : Z) (t : symtab) : option (Z * symtab) :=
  let h := bucket name in
  let chain := symhash t h in
  match find_sym name chain with
  | None => None
  | Some (Some i) => Some (1, Symtab (fupd (symhash t) h (<[i := (name, value)]> chain)) (maxsymlen t) (nsyms t))
  | Some None =>
      let len := s32 (strlen name) in
      if negb room then Some (0, t)
      else Some (1, Symtab (fupd (symhash t) h ((name, value) :: chain)) (if len >? maxsymlen t then len else maxsymlen t) (s32 (nsyms t + 1)))
  end.

Definition defsym (room : bool) (name : list Z) (value : Z) (t : symtab) : option symtab :=
  match getsymbyname name t with
  | None => None
  | Some (Some _) => Some t
  | Some None => match newsym room name value t with Some (_, t) => Some t | None => None end
  end.

Definition ftext_name : list Z := [95; 102; 116; 101; 120; 116].
Definition etext_name : list Z := [101; 116; 101; 120; 116].
Definition start_name : list Z := [115; 116; 97; 114; 116].
Definition pmon_name : list Z := [80; 109; 111; 110].

(** [sizeof(Sym)] and the name. *)
Definition sym_size (name : list Z) : Z := 12 + strlen name.

(** [start]: the address of the monitor. *)
Definition defsyms (room : Z -> bool) (start minaddr maxaddr pc : Z) (t : symtab) : option symtab :=
  let def name value t := defsym (room (sym_size name)) name value t in
  t ← def pmon_name start t;
  t ← (if negb (minaddr =? 2 ^ 32 - 1) then def ftext_name minaddr t else Some t);
  t ← (if negb (maxaddr =? 0) then def etext_name maxaddr t else Some t);
  def start_name pc t.

Definition clrsyms (t : symtab) : symtab :=
  Symtab (foldr (fun i h => fupd h i []) (symhash t) (seqZ 0 NHASH)) 0 0.

(** ** As a finite map *)

Definition sym_name (name : list Z) : Prop := cstring name /\ name <> [].

Record symbols (m : gmap (list Z) Z) (t : symtab) : Prop := {
  sy_names h name v : (name, v) ∈ symhash t h -> sym_name name /\ bucket name = h;
  sy_nodup h : NoDup (symhash t h).*1;
  sy_map name v : m !! name = Some v <-> (name, v) ∈ symhash t (bucket name);
  sy_count : nsyms t = Z.of_nat (size m) }.

Lemma same_sym_eq (name sym : list Z) : sym_name name -> sym_name sym -> same_sym name sym = Some (bool_decide (name = sym)).
Proof.
  intros [Hc Hn] [Hc' Hn']. destruct name as [|c name]; [done|]. destruct sym as [|d sym]; [done|]. cbn [same_sym].
  apply Forall_cons in Hc as [_ Hc]. apply Forall_cons in Hc' as [_ Hc']. pose proof (strcmp_eq name sym Hc Hc') as Hs. f_equal.
  destruct (Z.eqb_spec c d) as [->|Hd]; destruct (Z.eqb_spec (strcmp name sym) 0) as [E|E]; cbn [andb]; symmetry; try (apply bool_decide_eq_false; congruence).
  - apply bool_decide_eq_true. f_equal. by apply Hs.
  - apply bool_decide_eq_false. intros [= ->]. by apply E, Hs.
Qed.

Lemma find_sym_ok (name : list Z) (chain : list (list Z * Z)) : sym_name name -> Forall (fun x => sym_name x.1) chain ->
  match find_sym name chain with
  | None => False
  | Some None => forall v, (name, v) ∉ chain
  | Some (Some i) => exists v, chain !! i = Some (name, v)
  end.
Proof.
  intros Hn. induction 1 as [|[sym v] chain Hs _ IH]; cbn [find_sym]; [by intros v ?%elem_of_nil|].
  rewrite same_sym_eq by done. destruct (bool_decide (name = sym)) eqn:E.
  - apply bool_decide_eq_true in E as ->. by exists v.
  - apply bool_decide_eq_false in E. destruct (find_sym name chain) as [[i|]|]; [done| |done].
    intros v' [[=]|Hin]%elem_of_cons; [done|]. by apply (IH v').
Qed.

Section Map.
Context (m : gmap (list Z) Z) (t : symtab) (Ht : symbols m t).

Lemma chain_names (name : list Z) : Forall (fun x => sym_name x.1) (symhash t (bucket name)).
Proof. apply Forall_forall. intros [n v] Hin. by destruct (sy_names m t Ht _ _ _ Hin). Qed.

Lemma getsymbyname_ok (name : list Z) : sym_name name -> getsymbyname name t = Some (m !! name).
Proof.
  intros Hn. unfold getsymbyname. destruct (Z.eqb_spec (nsyms t) 0) as [E|_].
  - rewrite (sy_count m t Ht) in E. assert (m = ∅) as -> by (apply map_size_empty_iff; lia). by rewrite lookup_empty.
  - pose proof (find_sym_ok name _ Hn (chain_names name)) as Hf. destruct (find_sym _ _) as [[i|]|]; [| |done].
    + destruct Hf as [v Hv]. rewrite Hv. cbn. do 2 f_equal. symmetry. apply (sy_map m t Ht). by eapply list_elem_of_lookup_2.
    + f_equal. symmetry. apply eq_None_not_Some. intros [v Hv%(sy_map m t Ht)]. by apply (Hf v).
Qed.

Lemma newsym_ok (room : bool) (name : list Z) (value : Z) : sym_name name -> Z.of_nat (size m) + 1 < 2 ^ 31 ->
  exists t', newsym room name value t = Some (if room || bool_decide (is_Some (m !! name)) then 1 else 0, t') /\
    symbols (if room || bool_decide (is_Some (m !! name)) then <[name := value]> m else m) t'.
Proof.
  intros Hn Hsize. unfold newsym. pose proof (find_sym_ok name _ Hn (chain_names name)) as Hf. pose proof Ht as [H1 H2 H3 H4].
  destruct (find_sym _ _) as [[i|]|]; [| |done].
  - destruct Hf as [v Hv]. assert (m !! name = Some v) as Em by (apply H3; by eapply list_elem_of_lookup_2).
    rewrite (bool_decide_eq_true_2 (is_Some _)) by eauto. rewrite orb_true_r. eexists. split; [reflexivity|].
    assert (forall n' v', (n', v') ∈ <[i := (name, value)]> (symhash t (bucket name)) <->
      (n' = name /\ v' = value) \/ (n' <> name /\ (n', v') ∈ symhash t (bucket name))) as Hin.
    { intros n' v'. pose proof (lookup_lt_Some _ _ _ Hv) as Hlt. split.
      - intros [j Hj]%list_elem_of_lookup. destruct (decide (i = j)) as [<-|Hne].
        + rewrite list_lookup_insert_eq in Hj by done. injection Hj as <- <-. by left.
        + rewrite list_lookup_insert_ne in Hj by done. right. split; [|by eapply list_elem_of_lookup_2]. intros ->. apply Hne.
          eapply (NoDup_lookup (symhash t (bucket name)).*1); [apply H2| |]; rewrite list_lookup_fmap; [by rewrite Hv|by rewrite Hj].
      - intros [[-> ->]|[Hne Hin]]; apply list_elem_of_lookup; [exists i; by apply list_lookup_insert_eq|].
        apply list_elem_of_lookup in Hin as [j Hj]. exists j. rewrite list_lookup_insert_ne; [done|]. intros <-. congruence. }
    split; cbn [symhash nsyms].
    + intros h n' v'. destruct (decide (h = bucket name)) as [->|Hh]; [rewrite fupd_eq, Hin|rewrite fupd_ne by done; apply H1].
      intros [[-> ->]|[_ ?]]; [done|by apply (H1 _ n' v')].
    + intros h. destruct (decide (h = bucket name)) as [->|Hh]; [rewrite fupd_eq|by rewrite fupd_ne].
      rewrite list_fmap_insert, list_insert_id; [apply H2|]. by rewrite list_lookup_fmap, Hv.
    + intros n' v'. destruct (decide (bucket n' = bucket name)) as [Eb|Hb].
      * rewrite Eb, fupd_eq, Hin. destruct (decide (n' = name)) as [->|Hne].
        -- rewrite lookup_insert_eq. split; [intros [= ->]; by left|]. by intros [[_ ->]|[? _]].
        -- rewrite lookup_insert_ne by done. rewrite H3, Eb. tauto.
      * rewrite fupd_ne by done. rewrite lookup_insert_ne by congruence. apply H3.
    + rewrite H4. f_equal. symmetry. by apply map_size_insert_Some.
  - assert (m !! name = None) as Em by (apply eq_None_not_Some; intros [v Hv%H3]; by apply (Hf v)).
    rewrite (bool_decide_eq_false_2 (is_Some _)) by (rewrite Em; by intros [? [=]]). rewrite orb_false_r. destruct room; cbn [negb]; [|by exists t].
    eexists. split; [reflexivity|]. split; cbn [symhash nsyms].
    + intros h n' v'. destruct (decide (h = bucket name)) as [->|Hh]; [rewrite fupd_eq|rewrite fupd_ne by done; apply H1].
      intros [[= -> ->]|?]%elem_of_cons; [done|by apply (H1 _ n' v')].
    + intros h. destruct (decide (h = bucket name)) as [->|Hh]; [rewrite fupd_eq|by rewrite fupd_ne]. rewrite fmap_cons. apply NoDup_cons. split; [|done].
      intros [[n' v'] [E Hin]]%list_elem_of_fmap. cbn in E. subst n'. by apply (Hf v').
    + intros n' v'. destruct (decide (bucket n' = bucket name)) as [Eb|Hb].
      * rewrite Eb, fupd_eq, elem_of_cons. destruct (decide (n' = name)) as [->|Hne].
        -- rewrite lookup_insert_eq. split; [intros [= ->]; by left|]. intros [[= ->]|?]; [done|by destruct (Hf v')].
        -- rewrite lookup_insert_ne by done. rewrite H3, Eb. split; [by right|]. intros [[=]|?]; done.
      * rewrite fupd_ne by done. rewrite lookup_insert_ne by congruence. apply H3.
    + rewrite H4, map_size_insert_None by done. rewrite s32_small by lia. lia.
Qed.

Lemma defsym_ok (room : bool) (name : list Z) (value : Z) : sym_name name -> Z.of_nat (size m) + 1 < 2 ^ 31 ->
  exists t', defsym room name value t = Some t' /\
    symbols (if room && bool_decide (m !! name = None) then <[name := value]> m else m) t'.
Proof.
  intros Hn Hsize. unfold defsym. rewrite getsymbyname_ok by done. destruct (newsym_ok room name value Hn Hsize) as (t' & E & Hs).
  destruct (m !! name) as [v|] eqn:Em.
  - exists t. split; [done|]. rewrite bool_decide_eq_false_2 by done. by rewrite andb_false_r.
  - rewrite E. exists t'. split; [done|]. rewrite bool_decide_eq_true_2 by done. rewrite (bool_decide_eq_false_2 (is_Some None)) in Hs by (by intros [? [=]]).
    by destruct room.
Qed.
End Map.

Lemma bucket_range (name : list Z) : 0 <= bucket name < NHASH.
Proof. apply Z.mod_pos_bound. done. Qed.

Lemma clear_chains (l : list Z) (h : Z -> list (list Z * Z)) (i : Z) : foldr (fun i h => fupd h i []) h l i = if bool_decide (i ∈ l) then [] else h i.
Proof.
  induction l as [|j l IH]; cbn [foldr]; [by rewrite bool_decide_eq_false_2 by apply not_elem_of_nil|].
  destruct (decide (i = j)) as [->|Hne]; [rewrite fupd_eq, bool_decide_eq_true_2; [done|apply elem_of_cons; by left]|].
  rewrite fupd_ne, IH by done. apply (f_equal (fun b : bool => if b then [] else h i)). apply bool_decide_ext. rewrite elem_of_cons. tauto.
Qed.

Lemma symbols_empty (t : symtab) : (forall h, symhash t h = []) -> nsyms t = 0 -> symbols ∅ t.
Proof.
  intros Hh Hn. split.
  - intros h name v. rewrite Hh. by intros ?%not_elem_of_nil.
  - intros h. rewrite Hh. apply NoDup_nil_2.
  - intros name v. rewrite Hh, lookup_empty. split; [done|by intros ?%not_elem_of_nil].
  - by rewrite Hn, map_size_empty.
Qed.

Lemma clrsyms_ok (m : gmap (list Z) Z) (t : symtab) : symbols m t -> symbols ∅ (clrsyms t).
Proof.
  intros [H1 _ _ _]. apply symbols_empty; [|done]. intros h. cbn [clrsyms symhash]. rewrite clear_chains. case_bool_decide as Hin; [done|].
  destruct (symhash t h) as [|[name v] chain] eqn:E; [done|]. exfalso. apply Hin, elem_of_seqZ.
  destruct (H1 h name v) as [_ <-]; [rewrite E; by left|]. pose proof (bucket_range name). lia.
Qed.

(** The names that every program gets. *)
Lemma defsyms_ok (room : Z -> bool) (start minaddr maxaddr pc : Z) (m : gmap (list Z) Z) (t : symtab) : symbols m t -> Z.of_nat (size m) + 4 < 2 ^ 31 ->
  exists m' t', defsyms room start minaddr maxaddr pc t = Some t' /\ symbols m' t' /\ (room (sym_size start_name) = true -> m !! start_name = None -> m' !! start_name = Some pc).
Proof.
  intros Ht Hsize.
  assert (forall name value m0 t0, sym_name name -> symbols m0 t0 -> Z.of_nat (size m0) + 1 < 2 ^ 31 ->
    exists m1 t1, defsym (room (sym_size name)) name value t0 = Some t1 /\ symbols m1 t1 /\ Z.of_nat (size m1) <= Z.of_nat (size m0) + 1 /\
      (forall n, n <> name -> m1 !! n = m0 !! n) /\ (room (sym_size name) = true -> m0 !! name = None -> m1 !! name = Some value)) as Hstep.
  { intros name value m0 t0 Hn H0 Hs. destruct (defsym_ok m0 t0 H0 (room (sym_size name)) name value Hn Hs) as (t1 & E & H1). eexists _, t1. split; [exact E|]. split; [exact H1|].
    destruct (room (sym_size name)); cbn [andb]; [|split_and!; [lia|done|done]]. destruct (bool_decide (m0 !! name = None)) eqn:Eb.
    - apply bool_decide_eq_true in Eb. rewrite map_size_insert_None by done. split_and!; [lia|intros n Hne; by rewrite lookup_insert_ne|by rewrite lookup_insert_eq].
    - apply bool_decide_eq_false in Eb. split_and!; [lia|done|done]. }
  assert (forall (c : bool) name value m0 t0, sym_name name -> symbols m0 t0 -> Z.of_nat (size m0) + 1 < 2 ^ 31 ->
    exists m1 t1, (if c then defsym (room (sym_size name)) name value t0 else Some t0) = Some t1 /\ symbols m1 t1 /\ Z.of_nat (size m1) <= Z.of_nat (size m0) + 1 /\
      (forall n, n <> name -> m1 !! n = m0 !! n)) as Hopt.
  { intros c name value m0 t0 Hn H0 Hs. destruct c; [|exists m0, t0; split_and!; (done || lia)]. destruct (Hstep name value m0 t0 Hn H0 Hs) as (m1 & t1 & ? & ? & ? & ? & _). eauto 10. }
  assert (forall name, bool_decide (Forall (fun c => - 128 <= c < 128 /\ c <> 0) name /\ name <> []) = true -> sym_name name) as Hdec by (intros name; apply bool_decide_eq_true_1).
  unfold defsyms. destruct (Hstep pmon_name start m t) as (m1 & t1 & -> & H1 & L1 & O1 & _); [by apply Hdec|done|lia|]. cbn [mbind option_bind].
  destruct (Hopt (negb (minaddr =? 2 ^ 32 - 1)) ftext_name minaddr m1 t1) as (m2 & t2 & -> & H2 & L2 & O2); [by apply Hdec|done|lia|]. cbn [mbind option_bind].
  destruct (Hopt (negb (maxaddr =? 0)) etext_name maxaddr m2 t2) as (m3 & t3 & -> & H3 & L3 & O3); [by apply Hdec|done|lia|]. cbn [mbind option_bind].
  destruct (Hstep start_name pc m3 t3) as (m4 & t4 & -> & H4 & _ & _ & V4); [by apply Hdec|done|lia|]. exists m4, t4. split_and!; [done|done|].
  intros Hr Hn. apply V4; [done|]. rewrite O3, O2, O1 by discriminate. done.
Qed.

(** C34: The symbol table is a finite map from names to values.  [newsym] sets the value of a
    name, whether it is new or not, in whatever chain it falls, and reports 0 exactly when
    the name is new and there is no memory, in which case nothing changes; [getsymbyname]
    finds the value that was set last, and nothing for a name that was not set; [defsym]
    keeps an older value; [clrsyms] leaves an empty table.  Names are not empty. *)
Theorem symtab_refines_map (m : gmap (list Z) Z) (t : symtab) : symbols m t ->
  (forall name, sym_name name -> getsymbyname name t = Some (m !! name)) /\
  (forall room name value, sym_name name -> Z.of_nat (size m) + 1 < 2 ^ 31 ->
    let ok := room || bool_decide (is_Some (m !! name)) in
    (exists t', newsym room name value t = Some (if ok then 1 else 0, t') /\ symbols (if ok then <[name := value]> m else m) t') /\
    exists t', defsym room name value t = Some t' /\ symbols (if room && bool_decide (m !! name = None) then <[name := value]> m else m) t') /\
  symbols ∅ (clrsyms t).
Proof.
  intros Ht. split; [intros; by apply getsymbyname_ok|]. split; [|by eapply clrsyms_ok].
  intros room name value Hn Hsize. split; [by apply newsym_ok|by apply defsym_ok].
Qed.

(** "a" and "1K" fall into one chain. *)
Lemma symtab_refines_map_witness : bucket [97] = bucket [49; 75] /\
  exists t1 t2, newsym true [97] 5 (Symtab (fun _ => []) 0 0) = Some (1, t1) /\ newsym true [49; 75] 6 t1 = Some (1, t2) /\
    getsymbyname [97] t2 = Some (Some 5) /\ getsymbyname [49; 75] t2 = Some (Some 6).
Proof.
  split; [vm_compute; reflexivity|].
  assert (symbols ∅ (Symtab (fun _ => []) 0 0)) as H0 by (by apply symbols_empty).
  assert (sym_name [97]) as Ha by (by apply (bool_decide_eq_true_1 (Forall (fun c => - 128 <= c < 128 /\ c <> 0) [97] /\ [97] <> []))).
  assert (sym_name [49; 75]) as Hk by (by apply (bool_decide_eq_true_1 (Forall (fun c => - 128 <= c < 128 /\ c <> 0) [49; 75] /\ [49; 75] <> []))).
  destruct (symtab_refines_map _ _ H0) as (_ & Hset & _).
  destruct (Hset true [97] 5 Ha ltac:(vm_compute; reflexivity)) as [(t1 & E1 & H1) _].
  destruct (symtab_refines_map _ _ H1) as (_ & Hset1 & _).
  destruct (Hset1 true [49; 75] 6 Hk ltac:(vm_compute; reflexivity)) as [(t2 & E2 & H2) _].
  destruct (symtab_refines_map _ _ H2) as (Hget & _ & _).
  exists t1, t2. split; [exact E1|]. split; [exact E2|]. split.
  - rewrite (Hget _ Ha). vm_compute. reflexivity.
  - rewrite (Hget _ Hk). vm_compute. reflexivity.
Defined.
