(* ===== verification/Elf.v ===== *)
(** * The program loader (os/filesys/loadelf.c)
    [load_elf] reads an executable through the calls on an open file into memory, segment
    by segment, and its symbols into the symbol table.  The branch for the kernel debugger
    (KFLAG), which no caller asks for, is left out. *)

From S2P Require Import Prelude CStr Symbols.

(** ** The calls on the file: plain, or through [gz_read] and [gz_lseek] *)

Record FileCalls (W : Type) := {
  c_lseek : Z -> Z -> Z -> W -> option (Z * W);
  c_read : Z -> Z -> W -> option (Z * list Z * W) }.
Arguments c_lseek {W}. Arguments c_read {W}.

(** ** Bytes of memory, and of headers *)

Notation bytes_of := (Z -> Z) (only parsing).

Definition poke (a : Z) (bs : list Z) (m : bytes_of) : bytes_of :=
  fun x => if (a <=? x) && (x <? a + Z.of_nat (length bs)) then znth 0 bs (x - a) else m x.

Definition peek16 (m : bytes_of) (a : Z) : Z := m a + 2 ^ 8 * m (a + 1).
Definition peek32 (m : bytes_of) (a : Z) : Z := peek16 m a + 2 ^ 16 * peek16 m (a + 2).

Definition sizeof_Ehdr : Z := 52.
Definition sizeof_Phdr : Z := 32.
Definition sizeof_Shdr : Z := 40.
Definition sizeof_Sym : Z := 16.

Definition e_machine (m : bytes_of) (ep : Z) : Z := peek16 m (ep + 18).
Definition e_entry (m : bytes_of) (ep : Z) : Z := peek32 m (ep + 24).
Definition e_phoff (m : bytes_of) (ep : Z) : Z := peek32 m (ep + 28).
Definition e_shoff (m : bytes_of) (ep : Z) : Z := peek32 m (ep + 32).
Definition e_phentsize (m : bytes_of) (ep : Z) : Z := peek16 m (ep + 42).
Definition e_phnum (m : bytes_of) (ep : Z) : Z := peek16 m (ep + 44).
Definition e_shnum (m : bytes_of) (ep : Z) : Z := peek16 m (ep + 48).
Definition e_shstrndx (m : bytes_of) (ep : Z) : Z := peek16 m (ep + 50).

Record Phdr := mkPhdr { p_type : Z; p_offset : Z; p_vaddr : Z; p_filesz : Z; p_memsz : Z }.
Record Shdr := mkShdr { sh_name : Z; sh_type : Z; sh_offset : Z; sh_size : Z; sh_link : Z; sh_info : Z; sh_entsize : Z }.

Definition phdr_at (m : bytes_of) (a : Z) : Phdr := mkPhdr (peek32 m a) (peek32 m (a + 4)) (peek32 m (a + 8)) (peek32 m (a + 16)) (peek32 m (a + 20)).
Definition shdr_at (m : bytes_of) (a : Z) : Shdr :=
  mkShdr (peek32 m a) (peek32 m (a + 4)) (peek32 m (a + 16)) (peek32 m (a + 20)) (peek32 m (a + 24)) (peek32 m (a + 28)) (peek32 m (a + 36)).

(** A table in a block of the heap: its entries of [size] bytes. *)
Definition table_of {A} (entry_at : bytes_of -> Z -> A) (size n : Z) (b : list Z) : list A := map (fun i => entry_at (fun a => znth 0 b a) (size * i)) (seqZ 0 n).

Definition PT_NULL : Z := 0.
Definition PT_LOAD : Z := 1.
Definition SHT_SYMTAB : Z := 2.
Definition SHN_UNDEF : Z := 0.
Definition SHN_COMMON : Z := 0xFFF2.
Definition STB_GLOBAL : Z := 1.
Definition STT_FUNC : Z := 2.
Definition STT_SECTION : Z := 3.
Definition STT_FILE : Z := 4.
Definition ELF_ST_BIND (val : Z) : Z := Z.shiftr val 4.
Definition ELF_ST_TYPE (val : Z) : Z := Z.land val 0xF.

Definition SFLAG : Z := 0x0001.
Definition NFLAG : Z := 0x0100.
Definition YFLAG : Z := 0x0200.
Definition OFLAG : Z := 0x4000.
Definition ZFLAG : Z := 0x8000.

Definition flag_set (flags f : Z) : bool := negb (Z.land flags f =? 0).

(** ** The state *)

Record loader (W : Type) := Loader {
  lmem : bytes_of;
  dl_offset : Z; dl_minaddr : Z; dl_maxaddr : Z;
  dl_loffset : Z; lastaddr : Z; tablebase : Z;
  syms : symtab;
  world : W }.
Arguments Loader {W}. Arguments lmem {W}. Arguments dl_offset {W}. Arguments dl_minaddr {W}. Arguments dl_maxaddr {W}.
Arguments dl_loffset {W}. Arguments lastaddr {W}. Arguments tablebase {W}. Arguments syms {W}. Arguments world {W}.

Section Load.
Context {W : Type}.
Implicit Types (s : loader W) (w : W).

(** [dl_Oloadbuffer]; whether [malloc] of a size succeeds; a bound on the length of names. *)
Context (dl_Oloadbuffer : Z) (room : Z -> bool) (longest : nat).

Definition set_lmem (m : bytes_of) s : loader W := Loader m (dl_offset s) (dl_minaddr s) (dl_maxaddr s) (dl_loffset s) (lastaddr s) (tablebase s) (syms s) (world s).
Definition set_world (w : W) s : loader W := Loader (lmem s) (dl_offset s) (dl_minaddr s) (dl_maxaddr s) (dl_loffset s) (lastaddr s) (tablebase s) (syms s) w.
Definition set_syms (t : symtab) s : loader W := Loader (lmem s) (dl_offset s) (dl_minaddr s) (dl_maxaddr s) (dl_loffset s) (lastaddr s) (tablebase s) t (world s).
Definition set_tablebase (b : Z) s : loader W := Loader (lmem s) (dl_offset s) (dl_minaddr s) (dl_maxaddr s) (dl_loffset s) (lastaddr s) b (syms s) (world s).

Definition dl_initialise (offset flags : Z) s : loader W :=
  Loader (lmem s) offset (2 ^ 32 - 1) 0 (dl_loffset s) (lastaddr s) (tablebase s) (if negb (flag_set flags SFLAG) then clrsyms (syms s) else syms s) (world s).

(** [md_valid_load_addr] finds no fault with any address. *)
Definition dl_checkloadaddr (vaddr size : Z) : Z := 1.

Definition dl_checksetloadaddr (vaddr size : Z) s : Z * loader W :=
  (1, Loader (lmem s) (dl_offset s) (if vaddr <? dl_minaddr s then vaddr else dl_minaddr s)
         (if vaddr +u size >? dl_maxaddr s then vaddr +u size else dl_maxaddr s) (dl_loffset s) (lastaddr s) (tablebase s) (syms s) (world s)).

(** [read] into memory. *)
Definition read_to (c : FileCalls W) (fd addr n : Z) s : option (Z * loader W) :=
  match c_read c fd n (world s) with
  | Some (r, b, w) => Some (r, set_world w (set_lmem (poke addr b (lmem s)) s))
  | None => None
  end.

(** The loop for OFLAG: pieces of 4 kB, through the buffer to a place above. *)
Fixpoint high_loop (fuel : nat) (c : FileCalls W) (fd size i : Z) s : option (Z * loader W) :=
  if i <? size then
    match fuel with
    | O => None
    | S fuel =>
        let len := if 0x1000 <? size - i then 0x1000 else size - i in
        match c_read c fd len (world s) with
        | None => None
        | Some (i1, b, w) =>
            let s := set_world w (set_lmem (poke dl_Oloadbuffer b (lmem s)) s) in
            if i1 <? 0 then Some (i, s)
            else
              let s := set_lmem (poke (u32 (dl_loffset s + i)) (take (Z.to_nat i1) b) (lmem s)) s in
              if i1 <? len then Some (i + i1, s) else high_loop fuel c fd size (i + i1) s
        end
    end
  else Some (i, s).

Definition next_high (addr : Z) s : loader W :=
  Loader (lmem s) (dl_offset s) (dl_minaddr s) (dl_maxaddr s) (if negb (lastaddr s =? 0) then dl_loffset s + (addr -u lastaddr s) else dl_loffset s)
    addr (tablebase s) (syms s) (world s).

Definition bootread (c : FileCalls W) (flags fd addr size : Z) s : option (Z * loader W) :=
  let '(ok, s) := dl_checksetloadaddr (addr +u dl_offset s) size s in
  if ok =? 0 then Some (-1, s)
  else
    match
      (if flag_set flags OFLAG then high_loop (S (Z.to_nat size)) c fd size 0 (next_high addr s)
       else read_to c fd (addr +u dl_offset s) (u32 size) s)
    with
    | Some (i, s) => Some (if i <? size then -1 else size, s)
    | None => None
    end.

Definition bootclear (flags addr size : Z) s : Z * loader W :=
  if dl_checkloadaddr (addr +u dl_offset s) size =? 0 then (-1, s)
  else
    (size, if size >? 0 then
             if flag_set flags OFLAG then set_lmem (poke (u32 (dl_loffset s - lastaddr s + addr)) (replicate (Z.to_nat size) 0) (lmem s)) s
             else set_lmem (poke (addr +u dl_offset s) (replicate (Z.to_nat size) 0) (lmem s)) s
           else s).

(** A table that is read into a block of the heap: [lseek], then [read], both in full. *)
Definition read_block (c : FileCalls W) (fd off size : Z) s : option (option (list Z) * loader W) :=
  match c_lseek c fd off 0 (world s) with
  | None => None
  | Some (r, w) =>
      if negb (r =? off) then Some (None, set_world w s)
      else
        match c_read c fd size w with
        | None => None
        | Some (r, b, w) => Some (if u32 r =? size then Some b else None, set_world w s)
        end
  end.

(** [malloc] of nothing keeps the heap to itself, so that the next call of the heap, at the
    latest the [free] at the end, never returns (HeapSpec.v). *)
Definition elfgetshdr (c : FileCalls W) (fd ep : Z) s : option (option (list Shdr) * loader W) :=
  let size := u32 (e_shnum (lmem s) ep * sizeof_Shdr) in
  if size =? 0 then None
  else if negb (room size) then Some (None, s)
  else
    match read_block c fd (e_shoff (lmem s) ep) size s with
    | Some (Some b, s) => Some (Some (table_of shdr_at sizeof_Shdr (e_shnum (lmem s) ep) b), s)
    | Some (None, s) => Some (None, s)
    | None => None
    end.
(** ** Symbols *)

(** Tables at the top of memory, downwards; 0: no room. *)
Definition gettable (size : Z) s : Z * loader W :=
  let base := Z.land (tablebase s -u size) (u32 (Z.lnot 7)) in
  if base <? dl_maxaddr s then (0, s) else (base, set_tablebase base s).

Definition readtable (c : FileCalls W) (fd offs base size : Z) s : option (bool * loader W) :=
  match c_lseek c fd offs 0 (world s) with
  | None => None
  | Some (r, w) =>
      if negb (r =? offs) then Some (false, set_world w s)
      else match read_to c fd base (u32 size) (set_world w s) with Some (r, s) => Some (r =? size, s) | None => None end
  end.

Definition shstrtab_name : list Z := [46; 115; 104; 115; 116; 114; 116; 97; 98].
Definition strtab_name : list Z := [46; 115; 116; 114; 116; 97; 98].
Definition symtab_name : list Z := [46; 115; 121; 109; 116; 97; 98].

Definition strcpy_to (a : Z) (name : list Z) (m : bytes_of) : bytes_of := poke a (name ++ [0]) m.

(** The loop over the three tables; their offsets are replaced by this one when they are
    done.  A round that does nothing is repeated for ever. *)
Definition DONE : Z := 0x7fffffff.

Fixpoint tables_loop (fuel : nat) (c : FileCalls W) (fd shstrtab strtab symtab : Z) (shstrh strh sh : Shdr) (offs size sho sto : Z) s : option (bool * loader W) :=
  match fuel with
  | O => None
  | S fuel =>
      let '(sho, s) :=
        if (sho <? u32 offs) && (sho <? sto) then
          let m := poke shstrtab (replicate (Z.to_nat (sh_size shstrh)) 0) (lmem s) in
          let m := strcpy_to (shstrtab +u sh_name shstrh) shstrtab_name m in
          let m := strcpy_to (shstrtab +u sh_name strh) strtab_name m in
          (DONE, set_lmem (strcpy_to (shstrtab +u sh_name sh) symtab_name m) s)
        else (sho, s) in
      match
        (if (u32 offs <? sto) && (u32 offs <? sho) then
           match readtable c fd offs symtab size s with Some (ok, s) => Some (ok, DONE, s) | None => None end
         else Some (true, offs, s))
      with
      | None => None
      | Some (false, _, s) => Some (false, s)
      | Some (true, offs, s) =>
          match
            (if (sto <? u32 offs) && (sto <? sho) then
               match readtable c fd (s32 sto) strtab (s32 (sh_size strh)) s with Some (ok, s) => Some (ok, DONE, s) | None => None end
             else Some (true, sto, s))
          with
          | None => None
          | Some (false, _, s) => Some (false, s)
          | Some (true, sto, s) =>
              if (offs =? DONE) && (sto =? DONE) && (sho =? DONE) then Some (true, s)
              else tables_loop fuel c fd shstrtab strtab symtab shstrh strh sh offs size sho sto s
          end
      end
  end.

(** A string in memory, as signed characters. *)
Fixpoint mem_string (fuel : nat) (m : bytes_of) (a : Z) : option (list Z) :=
  if m a =? 0 then Some []
  else match fuel with O => None | S fuel => match mem_string fuel m (a + 1) with Some l => Some (s8 (m a) :: l) | None => None end end.

(** [n] entries of the symbol table from [symtab] on. *)
Fixpoint add_symbols (n : nat) (symtab strtab strsize : Z) s : option (bool * loader W) :=
  match n with
  | O => Some (true, s)
  | S n =>
      let m := lmem s in
      let st_name := peek32 m symtab in
      let st_value := peek32 m (symtab + 4) in
      let st_info := m (symtab + 12) in
      let st_shndx := peek16 m (symtab + 14) in
      if (st_shndx =? SHN_UNDEF) || (st_shndx =? SHN_COMMON) then add_symbols n (symtab + sizeof_Sym) strtab strsize s
      else
        let type := ELF_ST_TYPE st_info in
        if (type =? STT_SECTION) || (type =? STT_FILE) then add_symbols n (symtab + sizeof_Sym) strtab strsize s
        else if ((ELF_ST_BIND st_info =? STB_GLOBAL) || (type =? STT_FUNC)) && (st_name >=? strsize) then Some (false, s)
        else
          match mem_string longest m (strtab +u st_name) with
          | None => None
          | Some name =>
              match newsym (room (sym_size name)) name st_value (syms s) with
              | None => None
              | Some (r, t) =>
                  if r =? 0 then Some (false, set_syms t s) else add_symbols n (symtab + sizeof_Sym) strtab strsize (set_syms t s)
              end
          end
  end.

Definition elfreadsyms (c : FileCalls W) (fd ep : Z) (shtab : list Shdr) s : option (bool * loader W) :=
  match list_find (fun h => sh_type h = SHT_SYMTAB) shtab with
  | None => Some (false, s)
  | Some (_, sh) =>
      match shtab !! Z.to_nat (e_shstrndx (lmem s) ep), shtab !! Z.to_nat (sh_link sh) with
      | Some shstrh, Some strh =>
          if sh_entsize sh =? 0 then None
          else
            let nsym := s32 (sh_size sh / sh_entsize sh -u sh_info sh) in
            let offs := s32 (sh_offset sh +u (sh_info sh *u sh_entsize sh)) in
            let size := s32 (u32 nsym *u sh_entsize sh) in
            let '(shstrtab, s) := gettable (s32 (sh_size shstrh)) s in
            let '(strtab, s) := gettable (s32 (sh_size strh)) s in
            let '(symtab, s) := gettable size s in
            match tables_loop 4 c fd shstrtab strtab symtab shstrh strh sh offs size (sh_offset shstrh) (sh_offset strh) s with
            | None => None
            | Some (false, s) => Some (false, s)
            | Some (true, s) => add_symbols (Z.to_nat nsym) symtab strtab (sh_size strh) s
            end
      | _, _ => None
      end
  end.

(** ** Segments *)

(** The first of the loadable segments with the lowest offset. *)
Fixpoint nearest (i : nat) (l : list Phdr) (lowest : Z) (ph : option nat) : option nat :=
  match l with
  | [] => ph
  | p :: l => if (p_type p =? PT_LOAD) && (p_offset p <? lowest) then nearest (S i) l (p_offset p) (Some i) else nearest (S i) l lowest ph
  end.

Definition taken (p : Phdr) : Phdr := mkPhdr PT_NULL (p_offset p) (p_vaddr p) (p_filesz p) (p_memsz p).

(** The part of a segment that is in the file. *)
Definition load_bytes (c : FileCalls W) (flags fd : Z) (ph : Phdr) s : option (bool * loader W) :=
  if negb (p_filesz ph =? 0) then
    match c_lseek c fd (p_offset ph) 0 (world s) with
    | None => None
    | Some (r, w) =>
        if negb (r =? p_offset ph) then Some (false, set_world w s)
        else match bootread c flags fd (p_vaddr ph) (s32 (p_filesz ph)) (set_world w s) with
             | Some (r, s) => Some (u32 r =? p_filesz ph, s)
             | None => None
             end
    end
  else Some (true, s).

(** One segment: whether it could be loaded. *)
Definition load_segment (c : FileCalls W) (flags fd : Z) (ph : Phdr) s : option (bool * loader W) :=
  match load_bytes c flags fd ph s with
  | None => None
  | Some (false, s) => Some (false, s)
  | Some (true, s) =>
      Some (true, if p_filesz ph <? p_memsz ph then (bootclear flags (p_vaddr ph +u p_filesz ph) (s32 (p_memsz ph -u p_filesz ph)) s).2 else s)
  end.

(** [e_phnum] is read from the header in memory in each round; behind the table there is
    nothing to look at. *)
Fixpoint segments_loop (fuel : nat) (c : FileCalls W) (flags fd ep : Z) (phtab : list Phdr) s : option (bool * loader W) :=
  match fuel with
  | O => None
  | S fuel =>
      let phnum := Z.to_nat (e_phnum (lmem s) ep) in
      if (length phtab <? phnum)%nat then None
      else
        match nearest 0 (take phnum phtab) (2 ^ 32 - 1) None with
        | None => Some (true, s)
        | Some i =>
            match phtab !! i with
            | None => None
            | Some ph =>
                match load_segment c flags fd ph s with
                | None => None
                | Some (false, s) => Some (false, s)
                | Some (true, s) => segments_loop fuel c flags fd ep (<[i := taken ph]> phtab) s
                end
            end
        end
  end.

(** ** The whole *)

Definition bad_ident (m : bytes_of) (ep : Z) : bool :=
  negb (m ep =? 0x7F) || negb (m (ep + 1) =? 69) || negb (m (ep + 2) =? 76) || negb (m (ep + 3) =? 70).

Definition nogood (m : bytes_of) (ep : Z) : bool :=
  negb (m (ep + 4) =? 1) || negb (m (ep + 5) =? 1) || negb (m (ep + 6) =? 1) || (negb (e_machine m ep =? 10) && negb (e_machine m ep =? 8)).

Definition no_phdrs (m : bytes_of) (ep : Z) : bool :=
  (e_phoff m ep =? 0) || (e_phnum m ep =? 0) || negb (e_phentsize m ep =? sizeof_Phdr).

(** The calls for plain and for compressed files, [gz_open] and [gz_close] *)
Context (plain gz : FileCalls W) (gz_open gz_close : Z -> W -> W) (kmempos : Z).

Definition finish (flags fd r : Z) s : Z * loader W := (r, if flag_set flags ZFLAG then set_world (gz_close fd (world s)) s else s).

(** The symbols at the end: a section table that has not been read yet is read now. *)
Definition load_symbols (c : FileCalls W) (fd ep : Z) (shtab : option (list Shdr)) s : option (loader W) :=
  match (match shtab with Some t => Some (Some t, s) | None => elfgetshdr c fd ep s end) with
  | None => None
  | Some (None, s) => Some s
  | Some (Some t, s) => match elfreadsyms c fd ep t s with Some (_, s) => Some s | None => None end
  end.

(** From the first look at the section table on. *)
Definition load_parts (c : FileCalls W) (flags fd ep : Z) (phtab : list Phdr) s : option (Z * loader W) :=
  match phtab with
  | [] => None
  | p0 :: _ =>
      match (if negb (flag_set flags NFLAG) && (e_shoff (lmem s) ep <? p_offset p0) then elfgetshdr c fd ep s else Some (None, s)) with
      | None => None
      | Some (shtab, s) =>
          match (if negb (flag_set flags YFLAG) then segments_loop (S (length phtab)) c flags fd ep phtab s else Some (true, s)) with
          | None => None
          | Some (false, s) => Some (finish flags fd (-2) s)
          | Some (true, s) =>
              match (if negb (flag_set flags NFLAG) then load_symbols c fd ep shtab s else Some s) with
              | None => None
              | Some s => Some (finish flags fd (s32 (e_entry (lmem s) ep +u dl_offset s)) s)
              end
          end
      end
  end.

(** Once the header is in memory. *)
Definition load_checked (c : FileCalls W) (flags fd ep : Z) s : option (Z * loader W) :=
  if bad_ident (lmem s) ep then Some (finish flags fd (-1) s)
  else if nogood (lmem s) ep || no_phdrs (lmem s) ep then Some (finish flags fd (-2) s)
  else
    let nbytes := e_phnum (lmem s) ep * sizeof_Phdr + 32 in
    if negb (room nbytes) then Some (finish flags fd (-2) s)
    else
      match read_block c fd (e_phoff (lmem s) ep) nbytes s with
      | None => None
      | Some (None, s) => Some (finish flags fd (-2) s)
      | Some (Some b, s) => load_parts c flags fd ep (table_of phdr_at sizeof_Phdr (e_phnum (lmem s) ep + 1) b) s
      end.

(** A seek whose result is not looked at. *)
Definition seek_to (c : FileCalls W) (fd o : Z) s : option (loader W) :=
  match c_lseek c fd o 0 (world s) with Some (_, w) => Some (set_world w s) | None => None end.

(** The result, [*n] and the state. *)
Definition load_elf (fd buf n flags : Z) s : option (Z * Z * loader W) :=
  let s := set_tablebase (Z.lor kmempos 0x80000000) s in
  s ← seek_to plain fd n s;
  '(_, s) ← read_to plain fd buf 2 s;
  let z := (lmem s buf =? 0x1f) && (lmem s (buf + 1) =? 0x8b) in
  let flags := if z then Z.lor flags ZFLAG else Z.land flags (Z.lnot ZFLAG) in
  s ← seek_to plain fd n s;
  let c := if z then gz else plain in
  '(n, s) ← (if z then s ← seek_to gz fd 0 (set_world (gz_open fd (world s)) s); Some (0, s) else Some (n, s));
  if sizeof_Ehdr >? u32 n then
    s ← (if z then Some s else seek_to plain fd n s);
    '(r, s) ← read_to c fd (buf +u n) (sizeof_Ehdr -u n) s;
    let n := s32 (n + r) in
    if u32 n <? sizeof_Ehdr then let '(r, s) := finish flags fd (-1) s in Some (r, n, s)
    else '(r, s) ← load_checked c flags fd buf s; Some (r, n, s)
  else '(r, s) ← load_checked c flags fd buf s; Some (r, n, s).
End Load.
