(* ===== verification/ElfSpec.v ===== *)
(** * What the program loader does
    A file is its bytes and a position, whatever the calls behind it are; the memory after
    [load_elf] is what the segments of the file say. *)

From S2P Require Import Prelude CStr Symbols Elf.

(** The calls on [fd] behave as a file of these bytes. *)
Class ByteFile {W : Type} (c : FileCalls W) (fd : Z) (content : list Z) := {
  bf_at : Z -> W -> Prop;
  bf_seek p o w : bf_at p w -> 0 <= o < 2 ^ 32 -> exists w', c_lseek c fd o 0 w = Some (o, w') /\ bf_at o w';
  bf_read p n w : bf_at p w -> 0 <= n < 2 ^ 32 ->
    let size := Z.of_nat (length content) in
    if p <? size then
      let r := Z.min n (size - p) in
      exists w', c_read c fd n w = Some (r, take (Z.to_nat r) (drop (Z.to_nat p) content), w') /\ bf_at (p + r) w'
    else exists w', c_read c fd n w = Some (-1, [], w') /\ bf_at p w' }.

(** ** Memory *)

Lemma poke_in (a : Z) (bs : list Z) (m : Z -> Z) (x : Z) : a <= x < a + Z.of_nat (length bs) -> poke a bs m x = znth 0 bs (x - a).
Proof. intros Hx. unfold poke. by rewrite (proj2 (Z.leb_le _ _)), (proj2 (Z.ltb_lt _ _)) by lia. Qed.

Lemma poke_out (a : Z) (bs : list Z) (m : Z -> Z) (x : Z) : x < a \/ a + Z.of_nat (length bs) <= x -> poke a bs m x = m x.
Proof. intros Hx. unfold poke. destruct (Z.leb_spec a x), (Z.ltb_spec x (a + Z.of_nat (length bs))); cbn [andb]; (done || lia). Qed.

Lemma znth_slice (l : list Z) (p n i : Z) : 0 <= p -> 0 <= i < n -> znth 0 (take (Z.to_nat n) (drop (Z.to_nat p) l)) i = znth 0 l (p + i).
Proof. intros Hp Hi. unfold znth. rewrite lookup_take_lt by lia. rewrite lookup_drop. do 2 f_equal. lia. Qed.

Lemma peek16_ext (m m' : Z -> Z) (a a' : Z) : (forall i, 0 <= i < 2 -> m (a + i) = m' (a' + i)) -> peek16 m a = peek16 m' a'.
Proof. intros Hm. unfold peek16. pose proof (Hm 0) as H0. rewrite !Z.add_0_r in H0. by rewrite H0, (Hm 1) by lia. Qed.

Lemma peek32_ext (m m' : Z -> Z) (a a' : Z) : (forall i, 0 <= i < 4 -> m (a + i) = m' (a' + i)) -> peek32 m a = peek32 m' a'.
Proof.
  intros Hm. unfold peek32. f_equal; [|f_equal]; apply peek16_ext; intros i Hi; [apply Hm; lia|]. rewrite <- !Z.add_assoc. apply Hm. lia.
Qed.

Definition octet_fun (m : Z -> Z) : Prop := forall a, 0 <= m a < 2 ^ 8.

Lemma peek16_range (m : Z -> Z) (a : Z) : octet_fun m -> 0 <= peek16 m a < 2 ^ 16.
Proof. intros Hm. unfold peek16. pose proof (Hm a). pose proof (Hm (a + 1)). lia. Qed.

Lemma peek32_range (m : Z -> Z) (a : Z) : octet_fun m -> 0 <= peek32 m a < 2 ^ 32.
Proof. intros Hm. unfold peek32. pose proof (peek16_range m a Hm). pose proof (peek16_range m (a + 2) Hm). lia. Qed.

(** ** Segments *)

Section Spec.
Context {W : Type} (content : list Z).
Implicit Types (s : loader W) (p : Phdr).

Definition file_size : Z := Z.of_nat (length content).
Definition B (i : Z) : Z := znth 0 content i.

Context (Hoct : Forall (fun x => 0 <= x < 2 ^ 8) content).

Lemma B_octets : octet_fun B.
Proof.
  intros i. unfold B, znth. destruct (content !! Z.to_nat i) as [x|] eqn:E; cbn; [|lia]. by apply (proj1 (Forall_lookup _ _) Hoct _ _ E).
Qed.

Context (off : Z).

Definition target p : Z := p_vaddr p +u off.

(** What a segment puts at an address: bytes of the file, then zeros. *)
Definition seg_byte p (a : Z) : option Z :=
  if (target p <=? a) && (a <? target p + p_filesz p) then Some (B (p_offset p + (a - target p)))
  else if (target p <=? a) && (a <? target p + p_memsz p) then Some 0 else None.

Record seg_ok p : Prop := {
  seg_file : 0 <= p_offset p /\ 0 <= p_filesz p /\ p_offset p + p_filesz p <= file_size;
  seg_sizes : p_filesz p <= p_memsz p < 2 ^ 31;
  seg_fits : target p + p_memsz p <= 2 ^ 32 }.

Lemma seg_byte_cases p (a : Z) : p_filesz p <= p_memsz p -> 0 <= p_filesz p ->
  (target p <= a < target p + p_filesz p /\ seg_byte p a = Some (B (p_offset p + (a - target p)))) \/
  (target p + p_filesz p <= a < target p + p_memsz p /\ seg_byte p a = Some 0) \/
  ((a < target p \/ target p + p_memsz p <= a) /\ seg_byte p a = None).
Proof.
  intros H1 H2. unfold seg_byte. destruct (Z.leb_spec (target p) a), (Z.ltb_spec a (target p + p_filesz p)), (Z.ltb_spec a (target p + p_memsz p)); cbn [andb]; try lia; auto with lia.
Qed.

(** The other fields of the state. *)
Record kept s s' : Prop := {
  kept_offset : dl_offset s' = dl_offset s;
  kept_syms : syms s' = syms s }.

Lemma kept_trans s1 s2 s3 : kept s1 s2 -> kept s2 s3 -> kept s1 s3.
Proof. intros [] []. split; congruence. Qed.

Context (c : FileCalls W) (fd : Z) `{!ByteFile c fd content} (Hsmall : file_size < 2 ^ 31).

Definition positioned s : Prop := exists q : Z, 0 <= q /\ bf_at q (world s).

Lemma read_to_ok (addr q n : Z) s : bf_at q (world s) -> 0 <= q -> 0 <= n -> q + n <= file_size -> 0 < n ->
  exists s', read_to c fd addr n s = Some (n, s') /\ kept s s' /\ positioned s' /\
    (forall a, addr <= a < addr + n -> lmem s' a = B (q + (a - addr))) /\ (forall a, a < addr \/ addr + n <= a -> lmem s' a = lmem s a).
Proof.
  intros Hat Hq Hn Hle Hpos. unfold read_to. pose proof (bf_read q n (world s) Hat ltac:(lia)) as Hr. cbv zeta in Hr. fold file_size in Hr.
  rewrite (proj2 (Z.ltb_lt q file_size)), Z.min_l in Hr by lia. destruct Hr as (w' & -> & Hat'). eexists. split; [reflexivity|].
  assert (Z.of_nat (length (take (Z.to_nat n) (drop (Z.to_nat q) content))) = n) as Hlen by (rewrite length_take, length_drop; unfold file_size in *; lia).
  split; [done|]. split; [exists (q + n); split; [lia|done]|]. split; intros a Ha; cbn [set_world set_lmem lmem].
  - rewrite poke_in by lia. rewrite znth_slice by lia. done.
  - by rewrite poke_out by lia.
Qed.

Context (dl_Oloadbuffer : Z).

Lemma load_bytes_ok (flags : Z) p s : flag_set flags OFLAG = false -> dl_offset s = off -> seg_ok p -> positioned s ->
  exists s', load_bytes dl_Oloadbuffer c flags fd p s = Some (true, s') /\ kept s s' /\ positioned s' /\
    (forall a, target p <= a < target p + p_filesz p -> lmem s' a = B (p_offset p + (a - target p))) /\
    (forall a, a < target p \/ target p + p_filesz p <= a -> lmem s' a = lmem s a).
Proof.
  intros Hfl Hoff [(H1 & H2 & H3) (H4 & H5) H6] (q & Hq & Hat). unfold load_bytes. destruct (Z.eqb_spec (p_filesz p) 0) as [E|E]; cbn [negb].
  { exists s. split_and!; [done|done|by exists q|lia|done]. }
  destruct (bf_seek q (p_offset p) (world s) Hat) as (w1 & -> & Hat1); [lia|]. rewrite Z.eqb_refl. cbn [negb].
  unfold bootread, dl_checksetloadaddr. change (1 =? 0) with false. cbv iota. rewrite Hfl. cbn [set_world dl_offset]. rewrite Hoff. fold (target p).
  rewrite (s32_small (p_filesz p)), u32_small by lia. match goal with |- context [read_to _ _ _ _ ?x] => set (s1 := x) end.
  destruct (read_to_ok (target p) (p_offset p) (p_filesz p) s1) as (s2 & -> & [K1 K2] & Hp & Hin & Hout); [done|lia|lia|lia|lia|].
  rewrite Z.ltb_irrefl, u32_small, Z.eqb_refl by lia. exists s2. split_and!; [done|split; [by rewrite K1|by rewrite K2]|done|done|]. intros a Ha. by rewrite Hout.
Qed.

Lemma load_segment_ok (flags : Z) p s : flag_set flags OFLAG = false -> dl_offset s = off -> seg_ok p -> positioned s ->
  exists s', load_segment dl_Oloadbuffer c flags fd p s = Some (true, s') /\ kept s s' /\ positioned s' /\ forall a, lmem s' a = default (lmem s a) (seg_byte p a).
Proof.
  intros Hfl Hoff Hok Hpos. destruct (load_bytes_ok flags p s Hfl Hoff Hok Hpos) as (s1 & E & [K1 K2] & Hp & Hin & Hout).
  unfold load_segment. rewrite E. destruct Hok as [(H1 & H2 & H3) (H4 & H5) H6]. eexists. split; [reflexivity|].
  destruct (Z.ltb_spec (p_filesz p) (p_memsz p)) as [Hlt|Hge].
  - unfold bootclear, dl_checkloadaddr. change (1 =? 0) with false. cbv iota. rewrite Hfl. rewrite (u32_small (p_memsz p - _)), (s32_small (p_memsz p - _)) by lia.
    rewrite (proj2 (Z.gtb_lt _ _)) by lia. cbn [snd set_lmem]. rewrite K1, Hoff.
    assert (u32 (u32 (p_vaddr p + p_filesz p) + off) = target p + p_filesz p) as ->.
    { unfold target in *. unfold u32 in *. rewrite Z.add_mod_idemp_l by lia.
      replace (p_vaddr p + p_filesz p + off) with (p_vaddr p + off + p_filesz p) by lia. rewrite <- Z.add_mod_idemp_l by lia.
      apply Z.mod_small. pose proof (Z.mod_pos_bound (p_vaddr p + off) (2 ^ 32) ltac:(lia)). lia. }
    split; [by split|]. split; [done|]. intros a. cbn [set_lmem lmem].
    destruct (seg_byte_cases p a) as [[Ha ->]|[[Ha ->]|[Ha ->]]]; [lia|lia| | |]; cbn [default from_option id].
    + rewrite poke_out by lia. by apply Hin.
    + rewrite poke_in by (rewrite length_replicate; lia). unfold znth. rewrite lookup_replicate_2 by lia. done.
    + rewrite poke_out by (rewrite length_replicate; lia). apply Hout. lia.
  - split; [by split|]. split; [done|]. intros a. destruct (seg_byte_cases p a) as [[Ha ->]|[[Ha ->]|[Ha ->]]]; [lia|lia| | |]; cbn [default from_option id].
    + by apply Hin.
    + lia.
    + apply Hout. lia.
Qed.
(** ** All segments *)

Definition loadable p : Prop := p_type p = PT_LOAD.

Definition apart p p' : Prop := target p + p_memsz p <= target p' \/ target p' + p_memsz p' <= target p.

(** The segments of a table are in order, and do not overlap. *)
Record table_ok (l : list Phdr) : Prop := {
  tab_ok i p : l !! i = Some p -> loadable p -> seg_ok p;
  tab_apart i j p p' : l !! i = Some p -> l !! j = Some p' -> loadable p -> loadable p' -> i <> j -> apart p p' }.

(** Memory [m'] is [m] with the segments of [l] in it. *)
Definition image (l : list Phdr) (m m' : Z -> Z) : Prop :=
  (forall i p a v, l !! i = Some p -> loadable p -> seg_byte p a = Some v -> m' a = v) /\
  (forall a, (forall i p, l !! i = Some p -> loadable p -> seg_byte p a = None) -> m' a = m a).

Lemma apart_byte p p' (a v : Z) : seg_ok p -> seg_ok p' -> apart p p' -> seg_byte p a = Some v -> seg_byte p' a = None.
Proof.
  intros [(H1 & H2 & H3) (H4 & H5) H6] [(G1 & G2 & G3) (G4 & G5) G6] Hap E. destruct (seg_byte_cases p' a G4 G2) as [[Ha _]|[[Ha _]|[Ha E']]]; [| |done].
  all: destruct (seg_byte_cases p a H4 H2) as [[Hb Eb]|[[Hb Eb]|[Hb Eb]]]; unfold apart in Hap; (lia || congruence).
Qed.

Lemma taken_lookup (l : list Phdr) (i j : nat) p p' : l !! i = Some p -> <[i := taken p]> l !! j = Some p' -> loadable p' -> i <> j /\ l !! j = Some p'.
Proof.
  intros Hi Hj Hl. destruct (decide (i = j)) as [<-|Hne].
  - rewrite list_lookup_insert_eq in Hj by (by eapply lookup_lt_Some). injection Hj as <-. discriminate Hl.
  - by rewrite list_lookup_insert_ne in Hj.
Qed.

Lemma table_taken (l : list Phdr) (i : nat) p : table_ok l -> l !! i = Some p -> table_ok (<[i := taken p]> l).
Proof.
  intros [H1 H2] Hi. split.
  - intros j p' Hj Hl. destruct (taken_lookup l i j p p' Hi Hj Hl) as [_ Hj']. by apply (H1 j).
  - intros j k p' p'' Hj Hk Hl Hl' Hne. destruct (taken_lookup l i j p p' Hi Hj Hl) as [_ Hj']. destruct (taken_lookup l i k p p'' Hi Hk Hl') as [_ Hk']. by apply (H2 j k).
Qed.

Lemma image_step (l : list Phdr) (i : nat) p (m m1 m' : Z -> Z) : table_ok l -> l !! i = Some p -> loadable p ->
  (forall a, m1 a = default (m a) (seg_byte p a)) -> image (<[i := taken p]> l) m1 m' -> image l m m'.
Proof.
  intros [H1 H2] Hi Hp Hm [Hin Hout]. assert (forall j p', <[i := taken p]> l !! j = Some p' -> loadable p' -> i <> j /\ l !! j = Some p') as Hl.
  { intros j p'. by apply taken_lookup. }
  split.
  - intros j p' a v Hj Hp' E. destruct (decide (i = j)) as [<-|Hne].
    + assert (p' = p) as -> by congruence. rewrite Hout; [by rewrite Hm, E|]. intros k p' Hk Hp''. destruct (Hl k p' Hk Hp'') as [Hne Hk'].
      apply (apart_byte p p' a v); [by apply (H1 i)|by apply (H1 k)|by apply (H2 i k)|done].
    + apply (Hin j p'); [by rewrite list_lookup_insert_ne|done|done].
  - intros a Hnone. rewrite Hout; [by rewrite Hm, (Hnone i p Hi Hp)|]. intros k p' Hk Hp'. destruct (Hl k p' Hk Hp') as [_ Hk']. by apply (Hnone k).
Qed.

Lemma image_nothing (l : list Phdr) (m : Z -> Z) : (forall i p, l !! i = Some p -> ~ loadable p) -> image l m m.
Proof. intros Hl. split; [|done]. intros i p a v Hi Hp. by destruct (Hl i p Hi). Qed.

(** The search picks a loadable segment as long as there is one. *)
Lemma nearest_some (l : list Phdr) : forall i lowest ph j, nearest i l lowest ph = Some j ->
  ph = Some j \/ exists p, (i <= j)%nat /\ l !! (j - i)%nat = Some p /\ loadable p.
Proof.
  induction l as [|p l IH]; intros i lowest ph j; cbn [nearest]; [by left|].
  assert (forall lowest ph, nearest (S i) l lowest ph = Some j -> ph = Some j \/ exists p', (i <= j)%nat /\ (p :: l) !! (j - i)%nat = Some p' /\ loadable p') as Hrec.
  { intros lo ph' [?|(p' & Hij & Hp' & Hl)]%IH; [by left|]. right. exists p'. replace (j - i)%nat with (S (j - S i)) by lia. split; [lia|done]. }
  destruct ((p_type p =? PT_LOAD) && (p_offset p <? lowest)) eqn:E; intros Hn%Hrec; [|done].
  destruct Hn as [[= ->]|?]; [|by right]. right. exists p. rewrite Nat.sub_diag. apply andb_prop in E as [Ht _]. split; [lia|]. split; [done|by apply Z.eqb_eq].
Qed.

Lemma nearest_none (l : list Phdr) : forall i lowest ph, nearest i l lowest ph = None -> ph = None /\ forall j p, l !! j = Some p -> loadable p -> lowest <= p_offset p.
Proof.
  induction l as [|p l IH]; intros i lowest ph; cbn [nearest]; [by intros ->|].
  destruct ((p_type p =? PT_LOAD) && (p_offset p <? lowest)) eqn:E; intros [Hph Hl]%IH; [done|]. split; [done|]. intros [|j] p'; cbn; [|apply Hl].
  intros [= <-] Hp. unfold loadable in Hp. rewrite Hp, Z.eqb_refl in E. cbn in E. lia.
Qed.

Definition pending (l : list Phdr) : nat := length (filter loadable l).

Lemma pending_taken (l : list Phdr) (i : nat) p : l !! i = Some p -> loadable p -> S (pending (<[i := taken p]> l)) = pending l.
Proof.
  revert i. induction l as [|p' l IH]; intros i Hi Hp; [done|]. unfold pending in *. destruct i as [|i]; cbn in Hi.
  - injection Hi as ->. cbn [insert list_insert]. rewrite !filter_cons. rewrite decide_False by (intros E; discriminate E). by rewrite decide_True.
  - cbn [insert list_insert]. rewrite !filter_cons. destruct (decide (loadable p')); cbn [length]; by rewrite <- (IH i).
Qed.

Section Loop.
Context (ep : Z).

(** The header is in memory, and no segment touches it. *)
Definition header_at (m : Z -> Z) : Prop := forall i, 0 <= i < sizeof_Ehdr -> m (ep + i) = B i.

Definition clear_of_header (l : list Phdr) : Prop := forall i p, l !! i = Some p -> loadable p -> target p + p_memsz p <= ep \/ ep + sizeof_Ehdr <= target p.

Lemma header_field16 (m : Z -> Z) (k : Z) : header_at m -> 0 <= k -> k + 2 <= sizeof_Ehdr -> peek16 m (ep + k) = peek16 B k.
Proof. intros Hh H1 H2. apply peek16_ext. intros i Hi. rewrite <- Z.add_assoc. apply Hh. lia. Qed.

Lemma header_field32 (m : Z -> Z) (k : Z) : header_at m -> 0 <= k -> k + 4 <= sizeof_Ehdr -> peek32 m (ep + k) = peek32 B k.
Proof. intros Hh H1 H2. apply peek32_ext. intros i Hi. rewrite <- Z.add_assoc. apply Hh. lia. Qed.

Lemma segments_loop_ok (flags : Z) (fuel : nat) : flag_set flags OFLAG = false -> forall (l : list Phdr) rest s,
  (pending l < fuel)%nat -> table_ok l -> clear_of_header l -> header_at (lmem s) -> Z.of_nat (length l) = e_phnum B 0 -> dl_offset s = off -> positioned s ->
  exists s', segments_loop dl_Oloadbuffer fuel c flags fd ep (l ++ rest) s = Some (true, s') /\ kept s s' /\ positioned s' /\ header_at (lmem s') /\ image l (lmem s) (lmem s').
Proof.
  intros Hfl. induction fuel as [|fuel IH]; intros l rest s Hpend Htab Hclear Hhead Hlen Hoff Hpos; [lia|]. cbn [segments_loop].
  assert (e_phnum (lmem s) ep = Z.of_nat (length l)) as -> by (rewrite Hlen; unfold e_phnum; by rewrite header_field16 by (done || (unfold sizeof_Ehdr; lia))).
  rewrite Nat2Z.id, (proj2 (Nat.ltb_ge _ _)) by (rewrite length_app; lia). rewrite take_app_length.
  destruct (nearest 0 l (2 ^ 32 - 1) None) as [i|] eqn:En.
  - apply nearest_some in En as [[=]|(p & _ & Hi & Hp)]. rewrite Nat.sub_0_r in Hi. rewrite (lookup_app_l_Some _ _ _ _ Hi).
    destruct (load_segment_ok flags p s Hfl Hoff (tab_ok _ Htab i p Hi Hp) Hpos) as (s1 & -> & [K1 K2] & Hpos1 & Hm1).
    rewrite insert_app_l by (by eapply lookup_lt_Some).
    destruct (IH (<[i := taken p]> l) rest s1) as (s' & -> & [K3 K4] & Hpos' & Hhead' & Him).
    + pose proof (pending_taken l i p Hi Hp). lia.
    + by apply table_taken.
    + intros j p' Hj Hp'. destruct (taken_lookup l i j p p' Hi Hj Hp') as [_ Hj']. by apply (Hclear j).
    + intros k Hk. rewrite Hm1. destruct (tab_ok _ Htab i p Hi Hp) as [(H1 & H2 & H3) (H4 & H5) H6].
      destruct (seg_byte_cases p (ep + k) H4 H2) as [[Ha _]|[[Ha _]|[Ha ->]]]; [| |by apply Hhead].
      all: pose proof (Hclear i p Hi Hp); unfold sizeof_Ehdr in *; lia.
    + by rewrite length_insert.
    + by rewrite K1.
    + done.
    + exists s'. split_and!; [done|split; congruence|done|done|]. by apply (image_step l i p _ (lmem s1)).
  - apply nearest_none in En as [_ Hn]. exists s. split_and!; [done|done|done|done|]. apply image_nothing. intros i p Hi Hp.
    pose proof (Hn i p Hi Hp). destruct (tab_ok _ Htab i p Hi Hp) as [(H1 & H2 & H3) _ _]. lia.
Qed.
End Loop.

(** ** Headers and tables *)

Record elf_file : Prop := {
  ef_size : sizeof_Ehdr <= file_size;
  ef_ident : bad_ident B 0 = false;
  ef_good : nogood B 0 || no_phdrs B 0 = false;
  ef_table : e_phoff B 0 + sizeof_Phdr * e_phnum B 0 + 32 <= file_size }.

Definition phdrs : list Phdr := map (fun i => phdr_at B (e_phoff B 0 + sizeof_Phdr * i)) (seqZ 0 (e_phnum B 0)).

(** There are sections, and none of them holds symbols. *)
Definition stripped : Prop := 0 < e_shnum B 0 /\ forall i, 0 <= i < e_shnum B 0 -> e_shoff B 0 + sizeof_Shdr * (i + 1) <= file_size ->
  sh_type (shdr_at B (e_shoff B 0 + sizeof_Shdr * i)) <> SHT_SYMTAB.

Lemma phdr_at_ext (m m' : Z -> Z) (a a' : Z) : (forall i, 0 <= i < sizeof_Phdr -> m (a + i) = m' (a' + i)) -> phdr_at m a = phdr_at m' a'.
Proof.
  unfold sizeof_Phdr. intros Hm. assert (forall k, 0 <= k -> k + 4 <= 32 -> peek32 m (a + k) = peek32 m' (a' + k)) as Hk.
  { intros k H1 H2. apply peek32_ext. intros i Hi. rewrite <- !Z.add_assoc. apply Hm. lia. }
  unfold phdr_at. pose proof (Hk 0) as H0. rewrite !Z.add_0_r in H0. rewrite H0, !Hk by lia. done.
Qed.

Lemma shdr_at_ext (m m' : Z -> Z) (a a' : Z) : (forall i, 0 <= i < sizeof_Shdr -> m (a + i) = m' (a' + i)) -> shdr_at m a = shdr_at m' a'.
Proof.
  unfold sizeof_Shdr. intros Hm. assert (forall k, 0 <= k -> k + 4 <= 40 -> peek32 m (a + k) = peek32 m' (a' + k)) as Hk.
  { intros k H1 H2. apply peek32_ext. intros i Hi. rewrite <- !Z.add_assoc. apply Hm. lia. }
  unfold shdr_at. pose proof (Hk 0) as H0. rewrite !Z.add_0_r in H0. rewrite H0, !Hk by lia. done.
Qed.

(** A table read into a block is the table in the file. *)
Lemma table_of_slice {A} (entry_at : (Z -> Z) -> Z -> A) (size n o total : Z) :
  (forall m m' a a', (forall i, 0 <= i < size -> m (a + i) = m' (a' + i)) -> entry_at m a = entry_at m' a') ->
  0 <= o -> 0 <= size -> size * n <= total ->
  table_of entry_at size n (take (Z.to_nat total) (drop (Z.to_nat o) content)) = map (fun i => entry_at B (o + size * i)) (seqZ 0 n).
Proof.
  intros Hext Ho Hs Hle. unfold table_of. apply map_ext_in. intros i Hi%list_elem_of_In%elem_of_seqZ. apply Hext. intros j Hj. cbv beta. rewrite znth_slice by nia.
  unfold B. f_equal. lia.
Qed.

(** A block of the file, as the code reads it. *)
Lemma read_block_ok (o n : Z) s : positioned s -> 0 <= o < 2 ^ 32 -> 0 <= n < 2 ^ 31 ->
  exists r s', read_block c fd o n s = Some (r, s') /\ lmem s' = lmem s /\ kept s s' /\ positioned s' /\
    (forall b, r = Some b -> b = take (Z.to_nat n) (drop (Z.to_nat o) content) /\ (0 < n -> o + n <= file_size)) /\
    (0 < n -> o + n <= file_size -> r <> None).
Proof.
  intros (q & Hq & Hat) Ho Hn. unfold read_block. destruct (bf_seek q o (world s) Hat Ho) as (w1 & -> & Hat1). rewrite Z.eqb_refl. cbn [negb].
  pose proof (bf_read o n w1 Hat1 ltac:(lia)) as Hr. cbv zeta in Hr. fold file_size in Hr. destruct (Z.ltb_spec o file_size) as [Hlt|Hge].
  - destruct Hr as (w2 & -> & Hat2). eexists _, _. split; [reflexivity|]. split; [done|]. split; [done|].
    split; [eexists; split; [|exact Hat2]; lia|]. rewrite u32_small by lia. split; intros.
    + destruct (Z.eqb_spec (n `min` (file_size - o)) n) as [E|E]; [|done]. rewrite E in *. split; [congruence|lia].
    + rewrite Z.min_l by lia. by rewrite Z.eqb_refl.
  - destruct Hr as (w2 & -> & Hat2). eexists _, _. split; [reflexivity|]. split; [done|]. split; [done|].
    split; [eexists; split; [|exact Hat2]; lia|]. change (u32 (-1)) with (2 ^ 32 - 1). rewrite (proj2 (Z.eqb_neq _ _)) by lia. split; [done|lia].
Qed.

Context (room : Z -> bool) (longest : nat).

Section Header.
Context (ep : Z).

Lemma elfgetshdr_ok s : stripped -> header_at ep (lmem s) -> positioned s ->
  exists r s', elfgetshdr room c fd ep s = Some (r, s') /\ lmem s' = lmem s /\ kept s s' /\ positioned s' /\
    (forall t, r = Some t -> Forall (fun h => sh_type h <> SHT_SYMTAB) t).
Proof.
  intros [Hsome Hstr] Hhead Hpos. unfold elfgetshdr. assert (e_shnum (lmem s) ep = e_shnum B 0) as Enum by (unfold e_shnum; apply header_field16; unfold sizeof_Ehdr; (done || lia)). rewrite Enum.
  assert (e_shoff (lmem s) ep = e_shoff B 0) as -> by (unfold e_shoff; apply header_field32; unfold sizeof_Ehdr; (done || lia)).
  assert (0 <= e_shnum B 0 < 2 ^ 16) as Hn by apply peek16_range, B_octets. assert (0 <= e_shoff B 0 < 2 ^ 32) as Ho by apply peek32_range, B_octets.
  rewrite u32_small by (unfold sizeof_Shdr; lia). rewrite (proj2 (Z.eqb_neq (e_shnum B 0 * sizeof_Shdr) 0)) by (unfold sizeof_Shdr; lia). destruct (negb (room _)); [by exists None, s|].
  destruct (read_block_ok (e_shoff B 0) (e_shnum B 0 * sizeof_Shdr) s Hpos Ho) as (r & s' & -> & Hm & K & Hp & Hb & _); [unfold sizeof_Shdr; lia|].
  destruct r as [b|]; eexists _, s'; (split; [reflexivity|]); (split_and!; [done..|]); [|done]. intros t [= <-]. destruct (Hb b eq_refl) as [-> Hfit].
  rewrite Hm, Enum, table_of_slice; [|intros; by apply shdr_at_ext|lia|unfold sizeof_Shdr; lia|lia]. apply Forall_map, Forall_forall. intros i Hi%elem_of_seqZ. apply Hstr; [lia|].
  unfold sizeof_Shdr in *. lia.
Qed.

(** Without symbols the last part changes nothing. *)
Lemma load_symbols_ok (shtab : option (list Shdr)) s : header_at ep (lmem s) -> positioned s -> stripped ->
  (forall t, shtab = Some t -> Forall (fun h => sh_type h <> SHT_SYMTAB) t) ->
  exists s', load_symbols room longest c fd ep shtab s = Some s' /\ lmem s' = lmem s /\ kept s s' /\ positioned s'.
Proof.
  intros Hhead Hpos Hstr Ht. unfold load_symbols.
  assert (forall t s, Forall (fun h => sh_type h <> SHT_SYMTAB) t -> elfreadsyms room longest c fd ep t s = Some (false, s)) as Hnone.
  { intros t s0 Hall. unfold elfreadsyms. assert (list_find (fun h => sh_type h = SHT_SYMTAB) t = None) as -> by (by apply list_find_None). done. }
  destruct shtab as [t|].
  - rewrite Hnone by auto. by exists s.
  - destruct (elfgetshdr_ok s Hstr Hhead Hpos) as (r & s1 & -> & Hm & K & Hp & Hs). destruct r as [t|]; [rewrite Hnone by auto|]; by exists s1.
Qed.

Context (gz_close : Z -> W -> W).

(** What is asked of the flags and of the file. *)
Record plain_load (flags : Z) : Prop := {
  pl_yflag : flag_set flags YFLAG = false;
  pl_oflag : flag_set flags OFLAG = false;
  pl_zflag : flag_set flags ZFLAG = false;
  pl_symbols : flag_set flags NFLAG = true \/ stripped }.

Lemma phdrs_length : elf_file -> Z.of_nat (length phdrs) = e_phnum B 0.
Proof.
  intros _. unfold phdrs. rewrite length_map, length_seqZ. assert (0 <= e_phnum B 0 < 2 ^ 16) by apply peek16_range, B_octets. lia.
Qed.

Lemma load_parts_ok (flags : Z) (rest : list Phdr) s : plain_load flags -> elf_file -> phdrs <> [] -> table_ok phdrs -> clear_of_header ep phdrs ->
  header_at ep (lmem s) -> dl_offset s = off -> positioned s ->
  exists s', load_parts dl_Oloadbuffer room longest gz_close c flags fd ep (phdrs ++ rest) s = Some (s32 (e_entry B 0 +u off), s') /\
    kept s s' /\ positioned s' /\ header_at ep (lmem s') /\ image phdrs (lmem s) (lmem s').
Proof.
  intros [Hy Ho Hz Hsym] Helf Hne Htab Hclear Hhead Hoff Hpos. pose proof (phdrs_length Helf) as Hlen. unfold load_parts.
  set (l := phdrs) in *. destruct (l ++ rest) as [|p0 l'] eqn:El; [by destruct l|].
  set (early := negb (flag_set flags NFLAG) && (e_shoff (lmem s) ep <? p_offset p0)).
  assert (exists shtab s1, (if early then elfgetshdr room c fd ep s else Some (None, s)) = Some (shtab, s1) /\ lmem s1 = lmem s /\ kept s s1 /\ positioned s1 /\
    (forall t, shtab = Some t -> Forall (fun h => sh_type h <> SHT_SYMTAB) t)) as (shtab & s1 & -> & Hm1 & [K1 K2] & Hp1 & Hs1).
  { destruct early eqn:Ee; [apply andb_prop in Ee as [Hn _]; destruct Hsym as [Hnf|Hstr]; [by rewrite Hnf in Hn|by apply elfgetshdr_ok]|]. exists None, s. by split_and!. }
  rewrite Hy. cbn [negb]. rewrite <- El. destruct (segments_loop_ok ep flags (S (length (l ++ rest))) Ho l rest s1) as (s2 & -> & [K3 K4] & Hp2 & Hhead2 & Him).
  { rewrite length_app. unfold pending. pose proof (length_filter loadable l). lia. }
  { done. }
  { done. }
  { by rewrite Hm1. }
  { done. }
  { by rewrite K1. }
  { done. }
  rewrite Hm1 in Him. assert (e_entry (lmem s2) ep = e_entry B 0) as Eent by (unfold e_entry; apply header_field32; unfold sizeof_Ehdr; (done || lia)).
  unfold finish. rewrite Hz. destruct (flag_set flags NFLAG) eqn:En; cbn [negb].
  - rewrite Eent, K3, K1, Hoff. exists s2. split_and!; [done|split; congruence|done|done|done].
  - destruct Hsym as [?|Hstr]; [done|]. destruct (load_symbols_ok shtab s2 Hhead2 Hp2 Hstr Hs1) as (s3 & -> & Hm3 & [K5 K6] & Hp3).
    rewrite Hm3, Eent, K5, K3, K1, Hoff. exists s3. rewrite Hm3. split_and!; [done|split; congruence|done|done|done].
Qed.

Lemma elf_phoff : 0 <= e_phoff B 0 < 2 ^ 32.
Proof. apply peek32_range, B_octets. Qed.

Lemma elf_phnum : 0 <= e_phnum B 0 < 2 ^ 16.
Proof. apply peek16_range, B_octets. Qed.

(** The checks of the header look at the file. *)
Lemma header_checks (m : Z -> Z) : header_at ep m -> bad_ident m ep = bad_ident B 0 /\ nogood m ep = nogood B 0 /\ no_phdrs m ep = no_phdrs B 0.
Proof.
  intros Hh. assert (forall i, 0 <= i < sizeof_Ehdr -> m (ep + i) = B (0 + i)) as Hb by (intros i Hi; rewrite Z.add_0_l; by apply Hh).
  assert (m ep = B 0) as H0 by (rewrite <- (Z.add_0_r ep); apply Hh; unfold sizeof_Ehdr; lia). unfold sizeof_Ehdr in Hb.
  unfold bad_ident, nogood, no_phdrs, e_machine, e_phoff, e_phnum, e_phentsize. rewrite H0, !Hb by lia.
  rewrite !header_field16, !header_field32 by (done || (unfold sizeof_Ehdr; lia)). done.
Qed.

Lemma load_checked_ok (flags : Z) s : plain_load flags -> elf_file -> room (e_phnum B 0 * sizeof_Phdr + 32) = true -> table_ok phdrs -> clear_of_header ep phdrs ->
  header_at ep (lmem s) -> dl_offset s = off -> positioned s ->
  exists s', load_checked dl_Oloadbuffer room longest gz_close c flags fd ep s = Some (s32 (e_entry B 0 +u off), s') /\
    kept s s' /\ positioned s' /\ header_at ep (lmem s') /\ image phdrs (lmem s) (lmem s').
Proof.
  intros Hpl Helf Hroom Htab Hclear Hhead Hoff Hpos. pose proof Helf as [Hsz Hid Hgood Htable]. destruct (header_checks _ Hhead) as (E1 & E2 & E3).
  unfold load_checked. rewrite E1, E2, E3, Hid, Hgood. pose proof elf_phoff. pose proof elf_phnum.
  assert (e_phnum (lmem s) ep = e_phnum B 0) as En by (unfold e_phnum; apply header_field16; unfold sizeof_Ehdr; (done || lia)).
  assert (e_phoff (lmem s) ep = e_phoff B 0) as Eo by (unfold e_phoff; apply header_field32; unfold sizeof_Ehdr; (done || lia)).
  rewrite En, Eo, Hroom. cbn [negb]. unfold sizeof_Phdr in *.
  destruct (read_block_ok (e_phoff B 0) (e_phnum B 0 * 32 + 32) s Hpos) as (r & s1 & -> & Hm1 & [K1 K2] & Hp1 & Hb & Hsome); [lia|lia|].
  destruct r as [b|]; [|exfalso; apply Hsome; [lia|lia|done]]. destruct (Hb b eq_refl) as [-> _]. rewrite Hm1, En.
  rewrite table_of_slice; [|intros; by apply phdr_at_ext|lia|lia|lia]. rewrite seqZ_app, map_app by lia. fold phdrs.
  destruct (load_parts_ok flags (map (fun i => phdr_at B (e_phoff B 0 + 32 * i)) (seqZ (0 + e_phnum B 0) 1)) s1) as (s2 & E & [K3 K4] & Hp2 & Hhead2 & Him).
  { done. }
  { done. }
  { intros E. pose proof (phdrs_length Helf) as Hl. rewrite E in Hl. cbn in Hl. apply orb_false_iff in Hgood as [_ Hgood]. unfold no_phdrs in Hgood.
    rewrite <- Hl in Hgood. rewrite Z.eqb_refl, orb_true_r in Hgood. done. }
  { done. }
  { done. }
  { by rewrite Hm1. }
  { by rewrite K1. }
  { done. }
  unfold phdrs, sizeof_Phdr in *. rewrite E. exists s2. rewrite Hm1 in Him. split_and!; [done|split; congruence|done|done|done].
Qed.

(** ** The whole *)

Context (gz : FileCalls W) (gz_open : Z -> W -> W) (kmempos flags : Z).

Lemma seek_to_ok (o : Z) s : positioned s -> 0 <= o < 2 ^ 32 ->
  exists s', seek_to c fd o s = Some s' /\ lmem s' = lmem s /\ kept s s' /\ bf_at o (world s').
Proof.
  intros (q & Hq & Hat) Ho. unfold seek_to. destruct (bf_seek q o (world s) Hat Ho) as (w1 & -> & Hat1). eexists. split; [reflexivity|]. by split_and!.
Qed.

(** A read of the start of the file. *)
Lemma read_start (addr n : Z) s : bf_at 0 (world s) -> 0 < n < 2 ^ 31 -> 0 < file_size ->
  exists s', read_to c fd addr n s = Some (Z.min n file_size, s') /\ kept s s' /\ positioned s' /\
    (forall i, 0 <= i < Z.min n file_size -> lmem s' (addr + i) = B i) /\
    (forall a, a < addr \/ addr + n <= a -> lmem s' a = lmem s a).
Proof.
  intros Hat Hn Hsz. unfold read_to. pose proof (bf_read 0 n (world s) Hat ltac:(lia)) as Hr. cbv zeta in Hr. fold file_size in Hr.
  rewrite (proj2 (Z.ltb_lt 0 file_size)) in Hr by lia. rewrite Z.sub_0_r in Hr. destruct Hr as (w' & -> & Hat'). eexists. split; [reflexivity|].
  set (r := Z.min n file_size) in *. assert (Z.of_nat (length (take (Z.to_nat r) (drop (Z.to_nat 0) content))) = r) as Hlen.
  { rewrite length_take, length_drop. unfold r, file_size. lia. }
  split; [done|]. split; [exists (0 + r); split; [unfold r; lia|done]|]. split; [intros i Hi|intros a Ha]; cbn [set_world set_lmem lmem].
  - rewrite poke_in by lia. rewrite znth_slice by lia. unfold B. f_equal. lia.
  - rewrite poke_out by (unfold r in *; lia). done.
Qed.

Definition without_zflag : Z := Z.land flags (Z.lnot ZFLAG).

(** Up to the checks of the header, for a file that is not compressed. *)
Lemma load_elf_header s : 0 <= ep -> ep + sizeof_Ehdr <= 2 ^ 32 -> positioned s -> 0 < file_size -> B 0 <> 0x1f ->
  exists s', kept s s' /\ positioned s' /\ (forall i, 0 <= i < Z.min sizeof_Ehdr file_size -> lmem s' (ep + i) = B i) /\
    (forall a, a < ep \/ ep + sizeof_Ehdr <= a -> lmem s' a = lmem s a) /\
    load_elf dl_Oloadbuffer room longest c gz gz_open gz_close kmempos fd ep 0 flags s =
      if file_size <? sizeof_Ehdr then Some (-1, file_size, (finish gz_close without_zflag fd (-1) s').2)
      else '(r, s) ← load_checked dl_Oloadbuffer room longest gz_close c without_zflag fd ep s'; Some (r, sizeof_Ehdr, s).
Proof.
  intros H1 H2 Hpos Hsz HB. unfold load_elf. set (s0 := set_tablebase _ s). assert (positioned s0) as Hp0 by done.
  destruct (seek_to_ok 0 s0 Hp0 ltac:(lia)) as (s1 & -> & M1 & [K1 K1'] & At1). cbn [mbind option_bind].
  destruct (read_start ep 2 s1 At1 ltac:(lia) Hsz) as (s2 & -> & [K2 K2'] & Hp2 & In2 & Out2). cbn [mbind option_bind].
  assert (lmem s2 ep = B 0) as -> by (rewrite <- (Z.add_0_r ep); apply In2; lia). rewrite (proj2 (Z.eqb_neq _ _) HB). cbn [andb]. cbv zeta. fold without_zflag.
  destruct (seek_to_ok 0 s2 Hp2 ltac:(lia)) as (s3 & -> & M3 & [K3 K3'] & At3). cbn [mbind option_bind]. change (u32 0) with 0. change (sizeof_Ehdr >? 0) with true. cbv iota.
  destruct (seek_to_ok 0 s3) as (s4 & -> & M4 & [K4 K4'] & At4); [by exists 0|lia|]. cbn [mbind option_bind].
  rewrite Z.add_0_r, Z.sub_0_r, (u32_small ep), (u32_small sizeof_Ehdr) by (unfold sizeof_Ehdr in *; lia).
  destruct (read_start ep sizeof_Ehdr s4 At4 ltac:(unfold sizeof_Ehdr; lia) Hsz) as (s5 & -> & [K5 K5'] & Hp5 & In5 & Out5). cbn [mbind option_bind]. rewrite Z.add_0_l.
  exists s5. split; [split; cbn in K1, K1'; congruence|]. split; [done|]. split; [done|]. split.
  { intros a Ha. unfold sizeof_Ehdr in *. rewrite Out5 by lia. rewrite M4, M3, Out2, M1 by lia. done. }
  rewrite s32_small, u32_small by (unfold sizeof_Ehdr; lia). destruct (Z.ltb_spec file_size sizeof_Ehdr) as [Hlt|Hge].
  - rewrite Z.min_r, (proj2 (Z.ltb_lt _ _)) by lia. unfold finish. by destruct (flag_set _ _).
  - rewrite Z.min_l, (proj2 (Z.ltb_ge _ _)) by lia. done.
Qed.

Lemma flag_without (f : Z) : Z.land (Z.lnot ZFLAG) f = f -> flag_set without_zflag f = flag_set flags f.
Proof. intros Hf. unfold flag_set, without_zflag. by rewrite <- Z.land_assoc, Hf. Qed.

Lemma zflag_cleared : flag_set without_zflag ZFLAG = false.
Proof. unfold flag_set, without_zflag. rewrite <- Z.land_assoc. change (Z.land (Z.lnot ZFLAG) ZFLAG) with 0. by rewrite Z.land_0_r. Qed.

(** A file that can be loaded: plain, with its segments apart from each other and from the
    buffer of the header, and without symbols, or none are wanted. *)
Record load_ok : Prop := {
  lk_elf : elf_file;
  lk_table : table_ok phdrs;
  lk_clear : clear_of_header ep phdrs;
  lk_room : room (e_phnum B 0 * sizeof_Phdr + 32) = true;
  lk_symbols : flag_set flags NFLAG = true \/ stripped;
  lk_flags : flag_set flags YFLAG = false /\ flag_set flags OFLAG = false }.

(** The bytes of the table of program headers, with room for one more. *)
Definition table_bytes (m : Z -> Z) (a : Z) : Z := e_phnum m a * sizeof_Phdr + 32.

(** Headers that are refused, tables that are cut off or too large, and the answers. *)
Definition refusal : option Z :=
  if file_size <? sizeof_Ehdr then Some (-1) else if bad_ident B 0 then Some (-1) else if nogood B 0 || no_phdrs B 0 then Some (-2)
  else if negb (room (table_bytes B 0)) || (file_size <? e_phoff B 0 + table_bytes B 0) then Some (-2) else None.

(** Without the table nothing is loaded. *)
Lemma load_checked_no_table (fl : Z) s : 0 <= e_phoff (lmem s) ep < 2 ^ 32 -> 0 <= e_phnum (lmem s) ep < 2 ^ 16 -> positioned s -> flag_set fl ZFLAG = false -> bad_ident (lmem s) ep = false ->
  nogood (lmem s) ep || no_phdrs (lmem s) ep = false ->
  room (table_bytes (lmem s) ep) = false \/ file_size < e_phoff (lmem s) ep + table_bytes (lmem s) ep ->
  exists s', load_checked dl_Oloadbuffer room longest gz_close c fl fd ep s = Some (-2, s') /\ lmem s' = lmem s /\ syms s' = syms s /\ positioned s'.
Proof.
  intros Ho Hn Hpos Hz Hid Hgood Hno. unfold load_checked. rewrite Hid, Hgood. fold (table_bytes (lmem s) ep). unfold finish. rewrite Hz.
  destruct (room (table_bytes (lmem s) ep)) eqn:Hroom; cbn [negb]; [|by exists s]. destruct Hno as [?|Hno]; [done|].
  destruct (read_block_ok (e_phoff (lmem s) ep) (table_bytes (lmem s) ep) s Hpos Ho) as (r & s1 & -> & Hm & [_ Ks] & Hp1 & Hb & _); [unfold table_bytes, sizeof_Phdr; lia|].
  destruct r as [b|]; [|by exists s1]. exfalso. destruct (Hb b eq_refl) as [_ Hle]. unfold table_bytes, sizeof_Phdr in *. lia.
Qed.

(** The refusals of a file with a whole header. *)
Lemma load_checked_refused (fl r : Z) s : positioned s -> header_at ep (lmem s) -> flag_set fl ZFLAG = false -> refusal = Some r -> sizeof_Ehdr <= file_size ->
  exists s', load_checked dl_Oloadbuffer room longest gz_close c fl fd ep s = Some (r, s') /\ lmem s' = lmem s /\ syms s' = syms s /\ positioned s'.
Proof.
  intros Hpos Hhead Hz Hr Hsz. destruct (header_checks _ Hhead) as (E1 & E2 & E3). revert Hr. unfold refusal. rewrite (proj2 (Z.ltb_ge _ _)) by done.
  destruct (bad_ident B 0) eqn:Hid; [intros [= <-]; exists s; unfold load_checked, finish; by rewrite E1, Hz|].
  destruct (nogood B 0 || no_phdrs B 0) eqn:Hgood; [intros [= <-]; exists s; unfold load_checked, finish; by rewrite E1, E2, E3, Hgood, Hz|].
  destruct (negb (room (table_bytes B 0)) || _) eqn:Hno; [|done]. intros [= <-]. apply orb_true_iff in Hno.
  assert (e_phnum (lmem s) ep = e_phnum B 0 /\ e_phoff (lmem s) ep = e_phoff B 0) as [En Eo].
  { unfold e_phnum, e_phoff. rewrite header_field16, header_field32 by (done || (unfold sizeof_Ehdr; lia)). done. }
  apply load_checked_no_table; rewrite ?En, ?Eo, ?E1, ?E2, ?E3; [apply elf_phoff|apply elf_phnum|done..|].
  unfold table_bytes. rewrite En. destruct Hno as [Hno%negb_true_iff|Hno%Z.ltb_lt]; [by left|by right].
Qed.

(** Loading and refusing. *)
Lemma load_elf_ok s : 0 <= ep -> ep + sizeof_Ehdr <= 2 ^ 32 -> positioned s -> dl_offset s = off -> 0 < file_size -> B 0 <> 0x1f ->
  (load_ok -> exists s', load_elf dl_Oloadbuffer room longest c gz gz_open gz_close kmempos fd ep 0 flags s = Some (s32 (e_entry B 0 +u off), sizeof_Ehdr, s') /\
    (forall i p a v, phdrs !! i = Some p -> loadable p -> seg_byte p a = Some v -> lmem s' a = v) /\
    header_at ep (lmem s') /\
    (forall a, (a < ep \/ ep + sizeof_Ehdr <= a) -> (forall i p, phdrs !! i = Some p -> loadable p -> seg_byte p a = None) -> lmem s' a = lmem s a) /\
    syms s' = syms s /\ positioned s') /\
  (forall r, refusal = Some r -> exists s', load_elf dl_Oloadbuffer room longest c gz gz_open gz_close kmempos fd ep 0 flags s = Some (r, Z.min sizeof_Ehdr file_size, s') /\
    (forall a, a < ep \/ ep + sizeof_Ehdr <= a -> lmem s' a = lmem s a) /\ syms s' = syms s /\ positioned s').
Proof.
  intros H1 H2 Hpos Hoff Hsz HB. destruct (load_elf_header s H1 H2 Hpos Hsz HB) as (s1 & [K1 K2] & Hp1 & In1 & Out1 & E). rewrite E. split.
  - intros [Helf Htab Hclear Hroom Hsym [Hy Ho]]. pose proof (ef_size Helf) as Hlen. rewrite (proj2 (Z.ltb_ge _ _)) by done. rewrite Z.min_l in In1 by lia.
    destruct (load_checked_ok without_zflag s1) as (s2 & -> & [K3 K4] & Hp2 & Hhead2 & [Him Hother]); try done; [split; rewrite ?flag_without by done; (done || apply zflag_cleared)|congruence|].
    cbn [mbind option_bind]. exists s2. split_and!; [done|done|done| |congruence|done]. intros a Ha Hnone. rewrite Hother by done. by apply Out1.
  - intros r. unfold refusal. destruct (Z.ltb_spec file_size sizeof_Ehdr) as [Hlt|Hge].
    + intros [= <-]. exists s1. unfold finish. rewrite zflag_cleared, Z.min_r by lia. done.
    + rewrite Z.min_l in * by lia. intros Hr. destruct (load_checked_refused without_zflag r s1 Hp1 In1 zflag_cleared) as (s2 & -> & M2 & Hk2 & Hp2); [by unfold refusal; rewrite (proj2 (Z.ltb_ge _ _))|done|].
      cbn [mbind option_bind]. exists s2. rewrite M2, Hk2. done.
Qed.

(** An empty file: [read] answers -1, [*n] becomes -1, which as an unsigned number is not less
    than the size of a header, and whatever header the buffer held before is used. *)
Lemma empty_file_old_header s : positioned s -> file_size = 0 -> lmem s ep <> 0x1f ->
  exists s', (forall a, lmem s' a = lmem s a) /\ syms s' = syms s /\ positioned s' /\
    load_elf dl_Oloadbuffer room longest c gz gz_open gz_close kmempos fd ep 0 flags s =
      '(r, s) ← load_checked dl_Oloadbuffer room longest gz_close c without_zflag fd ep s'; Some (r, -1, s).
Proof.
  intros Hpos Hsz Hep.
  assert (forall a n s0, positioned s0 -> 0 <= n < 2 ^ 32 -> exists s1, read_to c fd a n s0 = Some (-1, s1) /\ positioned s1 /\ syms s1 = syms s0 /\ forall x, lmem s1 x = lmem s0 x) as Hread.
  { intros a n s0 (q & Hq & Hat) Hn. pose proof (bf_read q n (world s0) Hat Hn) as Hr. cbv zeta in Hr. fold file_size in Hr.
    rewrite (proj2 (Z.ltb_ge q file_size)) in Hr by lia. destruct Hr as (w' & E & Hat'). unfold read_to. rewrite E. eexists. split; [reflexivity|].
    split; [by exists q|]. split; [done|]. intros x. apply poke_out. cbn. lia. }
  unfold load_elf. set (s0 := set_tablebase _ s). assert (positioned s0) as Hp0 by done.
  destruct (seek_to_ok 0 s0 Hp0 ltac:(lia)) as (s1 & -> & M1 & [_ K1] & At1). cbn [mbind option_bind].
  destruct (Hread ep 2 s1) as (s2 & -> & Hp2 & K2 & M2); [by exists 0|lia|]. cbn [mbind option_bind].
  rewrite (M2 ep), M1. change (lmem s0 ep) with (lmem s ep). rewrite (proj2 (Z.eqb_neq _ _) Hep). cbn [andb]. cbv zeta. fold without_zflag.
  destruct (seek_to_ok 0 s2 Hp2 ltac:(lia)) as (s3 & -> & M3 & [_ K3] & At3). cbn [mbind option_bind]. change (u32 0) with 0. change (sizeof_Ehdr >? 0) with true. cbv iota.
  destruct (seek_to_ok 0 s3) as (s4 & -> & M4 & [_ K4] & At4); [by exists 0|lia|]. cbn [mbind option_bind].
  destruct (Hread (ep +u 0) (sizeof_Ehdr -u 0) s4) as (s5 & -> & Hp5 & K5 & M5); [by exists 0|apply u32_range|]. cbn [mbind option_bind].
  exists s5. split; [|split; [cbn in K1; congruence|done]]. intros a. rewrite M5, M4, M3, M2, M1. done.
Qed.

(** ... and then the table cannot be read. *)
Lemma empty_file_refused s : positioned s -> file_size = 0 -> lmem s ep <> 0x1f -> octet_fun (lmem s) ->
  exists s', load_elf dl_Oloadbuffer room longest c gz gz_open gz_close kmempos fd ep 0 flags s = Some (if bad_ident (lmem s) ep then -1 else -2, -1, s') /\
    (forall a, lmem s' a = lmem s a) /\ syms s' = syms s.
Proof.
  intros Hpos Hsz Hep Hoctet. destruct (empty_file_old_header s Hpos Hsz Hep) as (s1 & M1 & K1 & Hp1 & ->).
  assert (octet_fun (lmem s1)) as Ho1 by (intros a; rewrite M1; apply Hoctet).
  assert (bad_ident (lmem s) ep = bad_ident (lmem s1) ep) as -> by (unfold bad_ident; by rewrite !M1).
  destruct (bad_ident (lmem s1) ep) eqn:Hid; [|destruct (nogood (lmem s1) ep || no_phdrs (lmem s1) ep) eqn:Hgood].
  - unfold load_checked, finish. rewrite Hid, zflag_cleared. by exists s1.
  - unfold load_checked, finish. rewrite Hid, Hgood, zflag_cleared. by exists s1.
  - pose proof (peek32_range (lmem s1) (ep + 28) Ho1). pose proof (peek16_range (lmem s1) (ep + 44) Ho1).
    destruct (load_checked_no_table without_zflag s1) as (s2 & -> & M2 & K2 & _); try done; [apply zflag_cleared| |].
    { right. unfold table_bytes, e_phoff, e_phnum, sizeof_Phdr in *. lia. }
    exists s2. rewrite M2, K2. done.
Qed.

End Header.
End Spec.

(** ** A small executable *)

(** The simplest file: the position is all that there is. *)
Definition plain_file (content : list Z) : FileCalls Z := {|
  c_lseek fd o whence p := Some (o, o);
  c_read fd n p := let size := Z.of_nat (length content) in
    if p <? size then let r := Z.min n (size - p) in Some (r, take (Z.to_nat r) (drop (Z.to_nat p) content), p + r) else Some (-1, [], p) |}.

#[export] Program Instance plain_byte_file (content : list Z) (fd : Z) : ByteFile (plain_file content) fd content := {
  bf_at p w := w = p }.
Next Obligation. intros content fd p o w -> Ho. by exists o. Qed.
Next Obligation. intros content fd p n w -> Hn. cbn. destruct (p <? _); eauto. Qed.

(** Two segments, the second one with the lower offset; the first has four bytes more in
    memory than in the file. *)
Definition le (n : nat) (x : Z) : list Z := map (fun i => x / 2 ^ (8 * i) mod 2 ^ 8) (seqZ 0 (Z.of_nat n)).

Definition small_elf : list Z :=
  [0x7F; 69; 76; 70; 1; 1; 1] ++ replicate 9 0 ++ le 2 2 ++ le 2 8 ++ le 4 1 ++ le 4 0x80200000 ++ le 4 52 ++ le 4 116 ++ le 4 0 ++
  le 2 52 ++ le 2 32 ++ le 2 2 ++ le 2 40 ++ le 2 1 ++ le 2 0 ++
  le 4 1 ++ le 4 172 ++ le 4 0x80200000 ++ le 4 0x80200000 ++ le 4 4 ++ le 4 8 ++ le 4 7 ++ le 4 4 ++
  le 4 1 ++ le 4 164 ++ le 4 0x80300000 ++ le 4 0x80300000 ++ le 4 4 ++ le 4 4 ++ le 4 7 ++ le 4 4 ++ replicate 40 0 ++ seqZ 1 32.

Definition small_start : loader Z := Loader (fun _ => 9) 0 (2 ^ 32 - 1) 0 0 0 0 (Symtab (fun _ => []) 0 0) 0.

Lemma small_phdrs : phdrs small_elf = [mkPhdr 1 172 0x80200000 4 8; mkPhdr 1 164 0x80300000 4 4].
Proof. vm_compute. reflexivity. Qed.

Lemma small_octets : Forall (fun x => 0 <= x < 2 ^ 8) small_elf.
Proof. by apply (bool_decide_eq_true_1 (Forall (fun x => 0 <= x < 2 ^ 8) small_elf)). Qed.

Lemma small_load_ok : load_ok small_elf 0 (fun _ => true) 0x81000000 0.
Proof.
  split; [split; vm_compute; congruence|..|done|right; split; [by vm_compute|]; intros i; change (e_shnum (B small_elf) 0) with 1; intros Hi _; replace i with 0 by lia; vm_compute; congruence|done]; rewrite ?small_phdrs.
  - split.
    + intros [|[|i]] p; [intros [= <-]..|done]; intros _; split; vm_compute; intuition congruence.
    + intros [|[|i]] [|[|j]] p p'; try done; intros [= <-] [= <-] _ _ ?; try done; [left|right]; vm_compute; congruence.
  - intros [|[|i]] p; [intros [= <-]..|done]; intros _; left; vm_compute; congruence.
Qed.

