(* ===== verification/LoadPath.v ===== *)
(** * Loading a program by its path (os/filesys/load.c)
    [do_loadelf] opens the file that a variable of the environment names, loads it and
    closes it; here with the calls on open files in their place, over any file system that
    opens the name as a file of bytes. *)

From S2P Require Import Prelude CStr Shell Glob UsbStorage Devfs Fat FatTable FatChain FatRead FatDir FatLookup FatPath Files FatMount FatFiles Symbols Elf ElfSpec.

Definition O_NONBLOCK : Z := 4.

(** [read] and [lseek] as the calls of the loader. *)
Definition file_calls {X : Type} (fss : list (FileSystem X)) : FileCalls (files X) := {| c_lseek := lseek fss; c_read := read fss |}.

Section Load.
Context {X : Type} (fss : list (FileSystem X)) (gz : FileCalls (files X)) (gz_open gz_close : Z -> files X -> files X).
Context (dl_Oloadbuffer : Z) (room : Z -> bool) (longest : nat) (kmempos loadelf_buf md_getpc start : Z).

Definition dl_setloadsyms (thread_pc : Z) (s : loader (files X)) : option (loader (files X)) :=
  t ← defsyms room start (dl_minaddr s) (dl_maxaddr s) thread_pc (syms s); Some (set_syms t s).

(** [loadelfAddr]: the value of the variable, if it is set; the result is [loadEntry], if it
    is set. *)
Definition do_loadelf (loadelfAddr : option (list Z)) (s : loader (files X)) : option (option Z * loader (files X)) :=
  match loadelfAddr with
  | None => Some (None, s)
  | Some name =>
      '(fd, w) ← open fss name O_NONBLOCK (world s);
      let s := dl_initialise 0 0 (set_world w s) in
      if fd >? -1 then
        '(ep, _, s) ← load_elf dl_Oloadbuffer room longest (file_calls fss) gz gz_open gz_close kmempos fd loadelf_buf 0 0 s;
        '(_, w) ← close fss fd (world s);
        s ← dl_setloadsyms md_getpc (set_world w s);
        Some (Some ep, s)
      else Some (None, s)
  end.
End Load.

(** ** What the loader needs of the file system *)

(** [open] of the name answers a slot that is a file of these bytes, at its start; wherever
    the loader leaves it, [close] gets the state [pg_closed]. *)
Class Program {X : Type} (fss : list (FileSystem X)) (name prog : list Z) (w : files X) := {
  pg_fd : Z;
  pg_slot : 0 <= pg_fd;
  pg_file :: ByteFile (file_calls fss) pg_fd prog;
  pg_closed : files X -> Prop;
  pg_open : exists w1, open fss name O_NONBLOCK w = Some (pg_fd, w1) /\ bf_at 0 w1;
  pg_close p w1 : 0 <= p -> bf_at p w1 -> exists w2, close fss pg_fd w1 = Some (0, w2) /\ pg_closed w2 }.

Section Path.
Context {X : Type} (fss : list (FileSystem X)) (gz : FileCalls (files X)) (gz_open gz_close : Z -> files X -> files X).
Context (dl_Oloadbuffer : Z) (room : Z -> bool) (longest : nat) (kmempos loadelf_buf md_getpc start : Z).
Context (Hbuf : 0 <= loadelf_buf) (Hbuf' : loadelf_buf + sizeof_Ehdr <= 2 ^ 32).
Context (prog : list Z) (Hoct : Forall (fun x => 0 <= x < 2 ^ 8) prog) (Hsmall : Z.of_nat (length prog) < 2 ^ 31).
Implicit Type s : loader (files X).

(** Up to [load_elf], and what follows it. *)
Lemma load_opened (name : list Z) s `{!Program fss name prog (world s)} : exists w1, @bf_at _ _ _ _ pg_file 0 w1 /\
  do_loadelf fss gz gz_open gz_close dl_Oloadbuffer room longest kmempos loadelf_buf md_getpc start (Some name) s =
    ('(ep, _, s) ← load_elf dl_Oloadbuffer room longest (file_calls fss) gz gz_open gz_close kmempos pg_fd loadelf_buf 0 0 (dl_initialise 0 0 (set_world w1 s));
     '(_, w) ← close fss pg_fd (world s); s ← dl_setloadsyms room start md_getpc (set_world w s); Some (Some ep, s)).
Proof.
  destruct pg_open as (w1 & E & Hat). pose proof pg_slot. exists w1. split; [done|]. unfold do_loadelf. rewrite E. cbn [mbind option_bind].
  by rewrite (proj2 (Z.gtb_lt pg_fd (-1))) by lia.
Qed.

(** The end, from a loader whose table of symbols is empty. *)
Lemma load_closed (name : list Z) s `{!Program fss name prog (world s)} (ep : Z) (s2 : loader (files X)) :
  positioned (W := files X) prog (file_calls fss) pg_fd s2 -> symbols ∅ (syms s2) ->
  exists s' m', ('(_, w) ← close fss pg_fd (world s2); s ← dl_setloadsyms room start md_getpc (set_world w s2); Some (Some ep, s)) = Some (Some ep, s') /\
    lmem s' = lmem s2 /\ pg_closed (world s') /\ symbols m' (syms s') /\ (room (sym_size start_name) = true -> m' !! start_name = Some md_getpc).
Proof.
  intros (q & Hq & Hat) Hs. destruct (pg_close q (world s2) Hq Hat) as (w3 & -> & Hcl). cbn [mbind option_bind]. unfold dl_setloadsyms.
  destruct (defsyms_ok room start (dl_minaddr (set_world w3 s2)) (dl_maxaddr (set_world w3 s2)) md_getpc ∅ (syms (set_world w3 s2))) as (m' & t' & Edef & Hsym' & Hstart).
  { done. }
  { by rewrite map_size_empty. }
  rewrite Edef. cbn [mbind option_bind]. eexists _, m'. split_and!; try done. intros Hr. by apply Hstart; [|apply lookup_empty].
Qed.

End Path.

(** ** A FAT volume as the file system

    This holds under the assumptions of [file_by_path] on the freed buffer of the open file.
    They are assumptions on the loader too: it allocates the tables of the program and of the
    sections while the file is open. *)

Section Fat.
Context {D : Type} `{RawDisk D}.
Context (junk : nat -> list Z) (stack : fatchain) (fuel : nat) (place : fat_sc -> Z) (freed : Z -> files (fatfs D) -> list Z -> list Z).
Context (fss : list (FileSystem (fatfs D))) (k : nat) (Hfs : fss !! k = Some (fat_fs junk stack fuel place freed)).
Context (Hjunk : forall n, length (junk n) = n) (Hfuel : Z.of_nat fuel + 128 < 2 ^ 31) (Hplace : placed_apart place) (Halone : left_alone freed).
Context (Hfirst : forall i s rest, (i < k)%nat -> fss !! i = Some s -> strbequ ([102; 97; 116; 64] ++ rest) (devname s) = 0).

Section Open.
Context (lu : Z) (Hlu : 0 <= lu < OPEN_MAX) (g : geometry) (l : list Z) (mx size : Z) (others : Z -> File).

(** At a position, the other slots as they were. *)
Definition session_at (p : Z) (w : files (fatfs D)) : Prop :=
  0 <= p < 2 ^ 60 /\ in_session k lu g l mx size p w /\ forall i, i <> lu -> _file w i = others i.

Lemma session_size (p : Z) w : session_at p w -> Z.of_nat (length (content g l size)) = size /\ size < 2 ^ 31.
Proof. intros (_ & [_ [(f & _ & [_ _ _ [Hs0 Hs] _ _ _ _] & <-) _ _]] & _). split; [apply content_length, Hs0|done]. Qed.

Lemma session_seek (p o : Z) w : session_at p w -> 0 <= o < 2 ^ 32 -> exists w', c_lseek (file_calls fss) lu o 0 w = Some (o, w') /\ session_at o w'.
Proof.
  intros (Hp & Hs & Hf) Ho. pose proof (call_ok junk stack fuel place freed fss k Hfs lu g l mx size p (Seek o 0) w Halone Hlu Hs ltac:(lia)) as Hcall. cbn [requests_ok answer call] in Hcall.
  destruct Hcall as (w' & E & Hs' & _ & Hf'); [split; [lia|done]|]. cbn [file_calls c_lseek]. destruct (lseek fss lu o 0 w) as [[r w1]|]; [|done]. injection E as -> ->.
  exists w'. split; [done|]. split; [lia|]. split; [done|]. intros i Hi. by rewrite Hf', Hf.
Qed.

Lemma session_read (p n : Z) w : session_at p w -> 0 <= n < 2 ^ 32 ->
  let total := Z.of_nat (length (content g l size)) in
  if p <? total then
    let r := Z.min n (total - p) in
    exists w', c_read (file_calls fss) lu n w = Some (r, take (Z.to_nat r) (drop (Z.to_nat p) (content g l size)), w') /\ session_at (p + r) w'
  else exists w', c_read (file_calls fss) lu n w = Some (-1, [], w') /\ session_at p w'.
Proof.
  intros Hat Hn. pose proof (session_size p w Hat) as [Es Hlt]. cbv zeta. rewrite !Es. destruct Hat as (Hp & Hs & Hf).
  pose proof (call_ok junk stack fuel place freed fss k Hfs lu g l mx size p (Read n) w Halone Hlu Hs ltac:(lia)) as Hcall. cbn [requests_ok answer call] in Hcall. rewrite Es in Hcall.
  cbn [file_calls c_read]. destruct (Z.ltb_spec p size); destruct Hcall as (w' & E & Hs' & _ & Hf'); try (split; [lia|done]).
  - exists w'. split; [done|]. split; [lia|]. split; [done|]. intros i Hi. by rewrite Hf', Hf.
  - exists w'. split; [done|]. split; [lia|]. split; [done|]. intros i Hi. by rewrite Hf', Hf.
Qed.

(** The interface of the loader, over the calls on files. *)
Definition fat_byte_file : ByteFile (file_calls fss) lu (content g l size) :=
  {| bf_at := session_at; bf_seek := session_seek; bf_read := session_read |}.

Lemma content_octets : Forall (fun x => 0 <= x < 2 ^ 8) (content g l size).
Proof. apply Forall_map, Forall_forall. intros p _. apply raw_octet. Qed.
End Open.

(** A file on the volume is a program for the loader, whose slot is free again at the end. *)
Definition fat_program (dev path e l : list Z) (lu : Z) (g : geometry) (mx : Z) (es : list (list Z)) (w : files (fatfs D)) :
  fat_volume fuel dev lu g mx es -> slot_free lu w -> volume_file fuel g mx es path e l ->
  Program fss (fat_path dev path) (content g l (dirFileSize e)) w.
Proof.
  intros Hv Hfree Hfile. pose proof Hfree as [Elu Hroom _ _]. pose proof (slot_range lu w Elu Hroom) as Hlu.
  refine {| pg_fd := lu; pg_slot := proj1 Hlu; pg_file := fat_byte_file lu Hlu g l mx (dirFileSize e) (_file w);
            pg_closed := fun w' => slot_free lu w' /\ forall i, i <> lu -> _file w' i = _file w i |}.
  - destruct (open_found junk stack fuel place freed Hjunk Hfuel fss k Hfs Hfirst dev path e l O_NONBLOCK lu g mx es w Hplace Hv Hfree Hfile) as (w1 & -> & Hs1 & Hf1).
    exists w1. split; [done|]. by split; [lia|].
  - intros p w1 _ (_ & Hs & Hf).
    destruct (close_ok junk stack fuel place freed fss k Hfs lu g l mx (dirFileSize e) p w1 Hlu Hs) as (w3 & -> & Hc1 & Hc2 & Hc3 & Hf3); [by eapply bpb_geometry_fields, vol_geo|].
    assert (forall i, i <> lu -> _file w3 i = _file w i) as Hsame by (intros i Hi; by rewrite Hf3, Hf).
    exists w3. split; [done|]. split; [|done]. split; [by apply (lu_of_same lu w)|done|done|done].
Defined.
End Fat.

(** ** A file in memory

    The simplest file system: one file, whose bytes are given, under the name mem. *)

Section Memory.
Context (prog : list Z).

Definition memory_read (lu n : Z) (w : files unit) : option (Z * list Z * files unit) :=
  let p := posn (_file w lu) in
  let size := Z.of_nat (length prog) in
  if p <? size then let r := Z.min n (size - p) in Some (r, take (Z.to_nat r) (drop (Z.to_nat p) prog), set_posn lu (p + r) w) else Some (-1, [], w).

Definition memory_fs : FileSystem unit :=
  {| devname := [109; 101; 109]; fstype := FS_FILE; fs_open := Some (fun lu _ _ w => Some (lu, w)); fs_read := Some memory_read; fs_write := None;
     fs_lseek := Some (fun lu offset whence w => if whence =? 0 then Some (offset, set_posn lu offset w) else Some (-1, w));
     fs_close := Some (fun _ w => Some (0, w)); fs_ioctl := None |}.

Definition memory_start : files unit := Files (fun _ => mkFile 0 0 None) 0 tt.
Definition memory_name : list Z := slash_dev ++ [109; 101; 109].

Definition memory_at (p : Z) (w : files unit) : Prop := _file w 0 = mkFile 1 p (Some O).

Lemma memory_open_slot (p : Z) w : memory_at p w -> is_open 0 w = true /\ fs_of [memory_fs] 0 w = Some memory_fs.
Proof. unfold memory_at, is_open, fs_of. intros ->. done. Qed.

Lemma memory_set (p q : Z) w : memory_at p w -> memory_at q (set_posn 0 q w).
Proof. unfold memory_at. cbn. intros ->. by rewrite fupd_eq. Qed.

#[export] Program Instance memory_file : ByteFile (file_calls [memory_fs]) 0 prog := {| bf_at := memory_at |}.
Next Obligation.
  intros p o w Hat Ho. cbn [file_calls c_lseek]. unfold lseek. destruct (memory_open_slot p w Hat) as [-> ->]. cbn. exists (set_posn 0 o w). split; [done|].
  by apply (memory_set p).
Qed.
Next Obligation.
  intros p n w Hat Hn. cbn [file_calls c_read]. unfold read. destruct (memory_open_slot p w Hat) as [-> ->]. cbn [memory_fs fs_read Z.ltb]. change (0 <? 0) with false. cbv iota.
  unfold memory_read. rewrite Hat. cbn [posn]. destruct (p <? _); eexists; (split; [reflexivity|]); [by apply (memory_set p)|done].
Qed.

#[export] Program Instance memory_program : Program [memory_fs] memory_name prog memory_start := {|
  pg_fd := 0; pg_file := memory_file; pg_closed := fun w => valid (_file w 0) = 0 |}.
Next Obligation. done. Qed.
Next Obligation. eexists. split; vm_compute; reflexivity. Qed.
Next Obligation.
  intros p w _ Hat. unfold close. destruct (memory_open_slot p w Hat) as [-> _]. unfold fs_of. cbn [set_valid set_slot _file]. rewrite fupd_eq, Hat.
  cbn. eexists. split; [reflexivity|]. cbn. by rewrite fupd_eq.
Qed.
End Memory.

Definition prog_start : loader (files unit) := Loader (fun _ => 9) 0 0 0 0 0 0 (Symtab (fun _ => []) 0 0) memory_start.

