(* ===== verification/Heap.v ===== *)
(** * The heap (os/mem.c)
    A first-fit allocator on a chain of blocks: each starts with a [struct heap_mem]
    that holds the offsets of the next and the previous block, and neighbouring free
    blocks are joined when one is freed.  The model keeps the headers by their offset
    from [heap_ptr] and the users' bytes by address; the calls are those of one
    thread, and [heap_sem] is the value of the semaphore that keeps others out. *)

From S2P Require Import Prelude Mem.

Definition HEAP_MAGIC : Z := 0x1ea0.
Definition MIN_SIZE : Z := 12.
Definition RT_ALIGN_SIZE : Z := 8.

Definition RT_ALIGN (size align : Z) : Z := Z.land (u32 (size + align - 1)) (not32 (align - 1)).
Definition RT_ALIGN_DOWN (size align : Z) : Z := Z.land size (not32 (align - 1)).

(** [sizeof(struct heap_mem)] is 12. *)
Definition SIZEOF_STRUCT_MEM : Z := RT_ALIGN 12 RT_ALIGN_SIZE.
Definition MIN_SIZE_ALIGNED : Z := RT_ALIGN MIN_SIZE RT_ALIGN_SIZE.

Record heap_mem := HeapMem { magic : Z; used : Z; next : Z; prev : Z }.

(** The file's variables; [heap_end] and [lfree] are pointers, kept as offsets from
    [heap_ptr]. [nest] is [rt_interrupt_nest]. *)
Record heap := Heap {
  heap_ptr : Z;
  heap_end : Z;
  mem_size_aligned : Z;
  hdr : Z -> heap_mem;
  lfree : Z;
  used_mem : Z;
  max_mem : Z;
  heap_sem : Z;
  malloc_counter : Z;
  bytes : memory;
  nest : Z }.

Definition set_hdr (o : Z) (b : heap_mem) (h : heap) : heap :=
  Heap (heap_ptr h) (heap_end h) (mem_size_aligned h) (fupd (hdr h) o b) (lfree h) (used_mem h)
    (max_mem h) (heap_sem h) (malloc_counter h) (bytes h) (nest h).
Definition set_lfree (o : Z) (h : heap) : heap :=
  Heap (heap_ptr h) (heap_end h) (mem_size_aligned h) (hdr h) o (used_mem h)
    (max_mem h) (heap_sem h) (malloc_counter h) (bytes h) (nest h).
Definition set_used (v : Z) (h : heap) : heap :=
  Heap (heap_ptr h) (heap_end h) (mem_size_aligned h) (hdr h) (lfree h) v
    (max_mem h) (heap_sem h) (malloc_counter h) (bytes h) (nest h).
Definition set_max (v : Z) (h : heap) : heap :=
  Heap (heap_ptr h) (heap_end h) (mem_size_aligned h) (hdr h) (lfree h) (used_mem h)
    v (heap_sem h) (malloc_counter h) (bytes h) (nest h).
Definition set_heap_sem (v : Z) (h : heap) : heap :=
  Heap (heap_ptr h) (heap_end h) (mem_size_aligned h) (hdr h) (lfree h) (used_mem h)
    (max_mem h) v (malloc_counter h) (bytes h) (nest h).
Definition set_counter (v : Z) (h : heap) : heap :=
  Heap (heap_ptr h) (heap_end h) (mem_size_aligned h) (hdr h) (lfree h) (used_mem h)
    (max_mem h) (heap_sem h) v (bytes h) (nest h).
Definition set_bytes (m : memory) (h : heap) : heap :=
  Heap (heap_ptr h) (heap_end h) (mem_size_aligned h) (hdr h) (lfree h) (used_mem h)
    (max_mem h) (heap_sem h) (malloc_counter h) m (nest h).

Definition with_used (v : Z) (b : heap_mem) : heap_mem := HeapMem (magic b) v (next b) (prev b).
Definition with_next (v : Z) (b : heap_mem) : heap_mem := HeapMem (magic b) (used b) v (prev b).
Definition with_prev (v : Z) (b : heap_mem) : heap_mem := HeapMem (magic b) (used b) (next b) v.
Definition with_magic (v : Z) (b : heap_mem) : heap_mem := HeapMem v (used b) (next b) (prev b).

Definition upd_hdr (o : Z) (f : heap_mem -> heap_mem) (h : heap) : heap :=
  set_hdr o (f (hdr h o)) h.

(** ** Outcomes *)

Inductive outcome (A : Type) :=
  | Ret (r : A) (h : heap)
  | Blocked      (* waits for [heap_sem], which nobody holds to release *)
  | Asserted     (* a failed RT_ASSERT: an endless loop *)
  | NoFuel.
Arguments Ret {A}.
Arguments Blocked {A}.
Arguments Asserted {A}.
Arguments NoFuel {A}.

Definition obind {A B} (x : outcome A) (f : A -> heap -> outcome B) : outcome B :=
  match x with
  | Ret r h => f r h
  | Blocked => Blocked
  | Asserted => Asserted
  | NoFuel => NoFuel
  end.

Definition assert {A} (b : bool) (k : outcome A) : outcome A := if b then k else Asserted.

(** [RT_DEBUG_NOT_IN_INTERRUPT]. *)
Definition not_in_interrupt {A} (h : heap) (k : outcome A) : outcome A :=
  assert (u8 (nest h) =? 0) k.

(** [rt_sem_take(&heap_sem, RT_WAITING_FOREVER)] and [rt_sem_release(&heap_sem)]. *)
Definition take_sem {A} (h : heap) (k : heap -> outcome A) : outcome A :=
  if heap_sem h >? 0 then k (set_heap_sem (u16 (heap_sem h - 1)) h) else Blocked.
Definition release_sem (h : heap) : heap := set_heap_sem (u16 (heap_sem h + 1)) h.

(** ** Set-up *)

(** On a range that is too small nothing changes. *)
Definition rt_system_heap_init (begin_addr end_addr : Z) (h : heap) : heap :=
  let begin_align := RT_ALIGN begin_addr RT_ALIGN_SIZE in
  let end_align := RT_ALIGN_DOWN end_addr RT_ALIGN_SIZE in
  if (end_align >? 2 * SIZEOF_STRUCT_MEM) && (end_align - 2 * SIZEOF_STRUCT_MEM >=? begin_align) then
    let size := end_align - begin_align - 2 * SIZEOF_STRUCT_MEM in
    let e := size + SIZEOF_STRUCT_MEM in
    let H := fupd (hdr h) 0 (HeapMem HEAP_MAGIC 0 e 0) in
    let H := fupd H e (HeapMem HEAP_MAGIC 1 e e) in
    Heap begin_align e size H 0 (used_mem h) (max_mem h) 1 (malloc_counter h) (bytes h) (nest h)
  else h.

(** ** [plug_holes] *)

Definition plug_forward (mem : Z) (h : heap) : heap :=
  let nmem := next (hdr h mem) in
  if negb (mem =? nmem) && (used (hdr h nmem) =? 0) && negb (nmem =? heap_end h) then
    let h := if lfree h =? nmem then set_lfree mem h else h in
    let h := upd_hdr mem (with_next (next (hdr h nmem))) h in
    upd_hdr (next (hdr h nmem)) (with_prev mem) h
  else h.

Definition plug_backward (mem : Z) (h : heap) : heap :=
  let pmem := prev (hdr h mem) in
  if negb (pmem =? mem) && (used (hdr h pmem) =? 0) then
    let h := if lfree h =? mem then set_lfree pmem h else h in
    let h := upd_hdr pmem (with_next (next (hdr h mem))) h in
    upd_hdr (next (hdr h mem)) (with_prev pmem) h
  else h.

Definition plug_holes (mem : Z) (h : heap) : outcome unit :=
  assert ((0 <=? mem) && (mem <? heap_end h) && (used (hdr h mem) =? 0))
    (Ret tt (plug_backward mem (plug_forward mem h))).

(** ** [malloc] *)

(** The search: the offset of the first block that fits, [Some None] when the loop
    ends without one. *)
Fixpoint malloc_find (fuel : nat) (ptr size : Z) (h : heap) : option (option Z) :=
  match fuel with
  | O => None
  | S fuel =>
      if ptr <? mem_size_aligned h -u size then
        if (used (hdr h ptr) =? 0) && (next (hdr h ptr) -u (ptr +u SIZEOF_STRUCT_MEM) >=? size)
        then Some (Some ptr)
        else malloc_find fuel (next (hdr h ptr)) size h
      else Some None
  end.

(** [while (lfree->used && lfree != heap_end) lfree = lfree->next;] *)
Fixpoint next_free (fuel : nat) (lf : Z) (h : heap) : option Z :=
  if negb (used (hdr h lf) =? 0) && negb (lf =? heap_end h) then
    match fuel with
    | O => None
    | S fuel => next_free fuel (next (hdr h lf)) h
    end
  else Some lf.

Definition count_used (n : Z) (h : heap) : heap :=
  let h := set_used (used_mem h +u n) h in
  if max_mem h <? used_mem h then set_max (used_mem h) h else h.

(** The new block [mem2] behind the allocated one. *)
Definition split_block (ptr size : Z) (h : heap) : heap :=
  let ptr2 := ptr +u SIZEOF_STRUCT_MEM +u size in
  let h := set_hdr ptr2 (HeapMem HEAP_MAGIC 0 (next (hdr h ptr)) ptr) h in
  upd_hdr ptr (with_next ptr2) h.

(** [mem2->next->prev = ptr2], unless that is the end block. *)
Definition link_back (ptr2 : Z) (h : heap) : heap :=
  if negb (next (hdr h ptr2) =? mem_size_aligned h +u SIZEOF_STRUCT_MEM)
  then upd_hdr (next (hdr h ptr2)) (with_prev ptr2) h else h.

Definition malloc_at (fuel : nat) (ptr size : Z) (h : heap) : outcome Z :=
  let h :=
    if next (hdr h ptr) -u (ptr +u SIZEOF_STRUCT_MEM) >=? size +u SIZEOF_STRUCT_MEM +u MIN_SIZE_ALIGNED then
      let h := upd_hdr ptr (with_used 1) (split_block ptr size h) in
      count_used (size +u SIZEOF_STRUCT_MEM) (link_back (ptr +u SIZEOF_STRUCT_MEM +u size) h)
    else
      let h := upd_hdr ptr (with_used 1) h in
      count_used (next (hdr h ptr) -u ptr) h in
  let h := upd_hdr ptr (with_magic HEAP_MAGIC) h in
  let lowest := ptr =? lfree h in
  match (if lowest then next_free fuel (lfree h) h else Some (lfree h)) with
  | None => NoFuel
  | Some lf =>
      let h := set_lfree lf h in
      let mem := heap_ptr h +u ptr in
      assert ((negb lowest || (lf =? heap_end h) || (used (hdr h lf) =? 0))
              && (mem +u SIZEOF_STRUCT_MEM +u size <=? heap_ptr h +u heap_end h)
              && ((mem +u SIZEOF_STRUCT_MEM) mod RT_ALIGN_SIZE =? 0)
              && (Z.land mem (RT_ALIGN_SIZE - 1) =? 0))
        (Ret (mem +u SIZEOF_STRUCT_MEM) (release_sem h))
  end.

(** The early returns do not give the semaphore back. *)
Definition malloc (fuel : nat) (size : Z) (h : heap) : outcome Z :=
  not_in_interrupt h (take_sem h (fun h =>
    let h := set_counter (s32 (malloc_counter h + 1)) h in
    if size =? 0 then Ret 0 h
    else
      let size := RT_ALIGN size RT_ALIGN_SIZE in
      if size >? mem_size_aligned h then Ret 0 h
      else
        let size := if size <? MIN_SIZE_ALIGNED then MIN_SIZE_ALIGNED else size in
        match malloc_find fuel (lfree h) size h with
        | None => NoFuel
        | Some None => Ret 0 (release_sem h)
        | Some (Some ptr) => malloc_at fuel ptr size h
        end)).

(** ** [free] *)

Definition free (rmem : Z) (h : heap) : outcome unit :=
  not_in_interrupt h (take_sem h (fun h =>
    if rmem =? 0 then Ret tt h
    else
      assert ((Z.land rmem (RT_ALIGN_SIZE - 1) =? 0)
              && (heap_ptr h <=? rmem) && (rmem <? heap_ptr h +u heap_end h))
      (let mem := rmem -u SIZEOF_STRUCT_MEM -u heap_ptr h in
       assert (negb (used (hdr h mem) =? 0) && (magic (hdr h mem) =? HEAP_MAGIC))
       (let h := upd_hdr mem (fun b => with_magic HEAP_MAGIC (with_used 0 b)) h in
        let h := if rmem -u SIZEOF_STRUCT_MEM <? heap_ptr h +u lfree h then set_lfree mem h else h in
        let h := set_used (used_mem h -u (next (hdr h mem) -u mem)) h in
        obind (plug_holes mem h) (fun _ h => Ret tt (release_sem h)))))).

(** ** [realloc], [calloc] *)

Definition realloc (fuel : nat) (rmem newsize : Z) (h : heap) : outcome Z :=
  not_in_interrupt h
  (let newsize := RT_ALIGN newsize RT_ALIGN_SIZE in
   if newsize >? mem_size_aligned h then Ret 0 h
   else if newsize =? 0 then obind (free rmem h) (fun _ h => Ret 0 h)
   else if rmem =? 0 then malloc fuel newsize h
   else take_sem h (fun h =>
     if (rmem <? heap_ptr h) || (heap_ptr h +u heap_end h <=? rmem) then Ret rmem (release_sem h)
     else
       let ptr := rmem -u SIZEOF_STRUCT_MEM -u heap_ptr h in
       let size := next (hdr h ptr) -u ptr -u SIZEOF_STRUCT_MEM in
       if size =? newsize then Ret rmem (release_sem h)
       else if newsize +u SIZEOF_STRUCT_MEM +u MIN_SIZE <? size then
         let h := set_used (used_mem h -u (size -u newsize)) h in
         let ptr2 := ptr +u SIZEOF_STRUCT_MEM +u newsize in
         let h := link_back ptr2 (split_block ptr newsize h) in
         obind (plug_holes ptr2 h) (fun _ h => Ret rmem (release_sem h))
       else
         obind (malloc fuel newsize (release_sem h)) (fun nmem h =>
           if negb (nmem =? 0) then
             let h := set_bytes (memcpy nmem rmem (if size <? newsize then size else newsize) (bytes h)) h in
             obind (free rmem h) (fun _ h => Ret nmem h)
           else Ret nmem h))).

Definition calloc (fuel : nat) (count size : Z) (h : heap) : outcome Z :=
  obind (malloc fuel (count *u size) h) (fun p h =>
    if negb (p =? 0) then Ret p (set_bytes (memset p 0 (count *u size) (bytes h)) h) else Ret p h).

(** Total, used and peak memory. *)
Definition rt_memory_info (h : heap) : Z * Z * Z := (mem_size_aligned h, used_mem h, max_mem h).

(** ** [malloc_align] *)

(** A 32-bit store, the least significant byte first. *)
Definition store32 (a v : Z) (m : memory) : memory :=
  fupd (fupd (fupd (fupd m a (s8 v)) (a +u 1) (s8 (Z.shiftr v 8))) (a +u 2) (s8 (Z.shiftr v 16)))
    (a +u 3) (s8 (Z.shiftr v 24)).

Definition malloc_align (fuel : nat) (size align : Z) (h : heap) : outcome Z :=
  let align := Z.land (align +u 3) (not32 3) in
  let align_size := Z.land (size +u 3) (not32 3) +u align in
  obind (malloc fuel align_size h) (fun ptr h =>
    if negb (ptr =? 0) then
      let align_ptr :=
        if Z.land ptr (align -u 1) =? 0 then ptr +u align
        else Z.land (ptr +u (align -u 1)) (not32 (align -u 1)) in
      Ret align_ptr (set_bytes (store32 (align_ptr -u 4) ptr (bytes h)) h)
    else Ret ptr h).
