(* ===== verification/HeapInv.v ===== *)
(** * The heap's chain of blocks
    The headers lay out a list of segments, each used or free, that fill the heap
    without gap or overlap.  Every operation is a change of this list. *)

From S2P Require Import Prelude Mem Heap.

(** ** Alignment *)

Lemma sizeof_struct_mem : SIZEOF_STRUCT_MEM = 16.
Proof. reflexivity. Qed.

Lemma min_size_aligned : MIN_SIZE_ALIGNED = 16.
Proof. reflexivity. Qed.

Lemma land_not7 (x : Z) : 0 <= x < 2 ^ 32 -> Z.land x (not32 7) = 8 * (x / 8).
Proof. intros Hx. change 7 with (2 ^ 3 - 1). rewrite land_not_pow2 by lia. zlia. Qed.

Lemma rt_align_8 (x : Z) : 0 <= x -> x + 7 < 2 ^ 32 -> RT_ALIGN x 8 = 8 * ((x + 7) / 8).
Proof.
  intros H1 H2. unfold RT_ALIGN. change (8 - 1) with 7.
  replace (x + 8 - 1) with (x + 7) by lia. rewrite u32_small by lia. apply land_not7. lia.
Qed.

(** ** Segments *)

Record seg := Seg { sg_used : bool; sg_len : Z }.

Definition total (l : list seg) : Z := foldr (fun s a => sg_len s + a) 0 l.

(** Header and at least eight bytes, a multiple of eight. *)
Definition seg_ok (s : seg) : Prop := 24 <= sg_len s /\ sg_len s mod 8 = 0.

Definition seg_hdr (s : seg) (p pv : Z) : heap_mem :=
  HeapMem HEAP_MAGIC (if sg_used s then 1 else 0) (p + sg_len s) pv.

(** The headers from offset [p] on describe [l]; [pv] is the block before. *)
Fixpoint lay (H : Z -> heap_mem) (p pv : Z) (l : list seg) : Prop :=
  match l with
  | [] => True
  | s :: l => H p = seg_hdr s p pv /\ seg_ok s /\ lay H (p + sg_len s) p l
  end.

(** The offset of the last block. *)
Fixpoint last_off (p pv : Z) (l : list seg) : Z :=
  match l with
  | [] => pv
  | s :: l => last_off (p + sg_len s) p l
  end.

Lemma total_app (l1 l2 : list seg) : total (l1 ++ l2) = total l1 + total l2.
Proof. induction l1 as [|s l1 IH]; simpl; lia. Qed.

Lemma total_cons (s : seg) (l : list seg) : total (s :: l) = sg_len s + total l.
Proof. done. Qed.

Lemma last_off_app (l1 l2 : list seg) : forall p pv,
  last_off p pv (l1 ++ l2) = last_off (p + total l1) (last_off p pv l1) l2.
Proof.
  induction l1 as [|s l1 IH]; intros p pv; simpl; [by rewrite Z.add_0_r|].
  rewrite IH. f_equal. lia.
Qed.

Lemma lay_app (H : Z -> heap_mem) (l1 l2 : list seg) : forall p pv,
  lay H p pv (l1 ++ l2) <-> lay H p pv l1 /\ lay H (p + total l1) (last_off p pv l1) l2.
Proof.
  induction l1 as [|s l1 IH]; intros p pv; simpl.
  - rewrite Z.add_0_r. tauto.
  - rewrite IH. replace (p + sg_len s + total l1) with (p + (sg_len s + total l1)) by lia. tauto.
Qed.

Lemma lay_total (H : Z -> heap_mem) (l : list seg) : forall p pv,
  lay H p pv l -> 0 <= total l /\ total l mod 8 = 0 /\ (l ≠ [] -> 24 <= total l).
Proof.
  induction l as [|s l IH]; intros p pv; simpl; [done|].
  intros (_ & [Hs Hm] & Hl). destruct (IH _ _ Hl) as (H1 & H2 & _).
  split_and!; [lia|zlia|intros _; lia].
Qed.

(** Only the headers inside the range matter. *)
Lemma lay_frame (H H' : Z -> heap_mem) (l : list seg) : forall p pv,
  (forall q, p <= q < p + total l -> H' q = H q) -> lay H p pv l -> lay H' p pv l.
Proof.
  induction l as [|s l IH]; intros p pv HH; simpl; [done|].
  intros (H1 & [H2 H2'] & H3). pose proof (lay_total _ _ _ _ H3) as (Ht & _).
  split_and!; [|done|].
  - rewrite HH; [done|]. simpl. lia.
  - apply IH; [|done]. intros q Hq. apply HH. simpl. lia.
Qed.

(** Redirecting the [prev] field of the first block. *)
Lemma lay_redirect (H H' : Z -> heap_mem) (l : list seg) (p pv pv' : Z) :
  (forall q, p < q < p + total l -> H' q = H q) ->
  (l ≠ [] -> H' p = with_prev pv' (H p)) ->
  lay H p pv l -> lay H' p pv' l.
Proof.
  destruct l as [|s l]; [done|]. intros HH Hp (H1 & H2 & H3). simpl. destruct H2 as [H2 H2'].
  split_and!; [|done|].
  - rewrite Hp by done. by rewrite H1.
  - apply (lay_frame H); [|done]. intros q Hq. apply HH. simpl. lia.
Qed.

(** ** Free blocks *)

(** A free block starts at [o]. *)
Fixpoint free_start (p : Z) (l : list seg) (o : Z) : Prop :=
  match l with
  | [] => False
  | s :: l => (o = p /\ sg_used s = false) \/ free_start (p + sg_len s) l o
  end.

Lemma free_start_app (l1 l2 : list seg) : forall p o,
  free_start p (l1 ++ l2) o <-> free_start p l1 o \/ free_start (p + total l1) l2 o.
Proof.
  induction l1 as [|s l1 IH]; intros p o; simpl.
  - rewrite Z.add_0_r. tauto.
  - rewrite IH. replace (p + sg_len s + total l1) with (p + (sg_len s + total l1)) by lia. tauto.
Qed.

Lemma free_start_range (H : Z -> heap_mem) (l : list seg) : forall p pv o,
  lay H p pv l -> free_start p l o -> p <= o /\ o + 24 <= p + total l.
Proof.
  induction l as [|s l IH]; intros p pv o; simpl; [done|].
  intros (_ & [Hs _] & Hl) [[-> _]|Hf].
  - pose proof (lay_total _ _ _ _ Hl). lia.
  - destruct (IH _ _ _ Hl Hf). lia.
Qed.

Lemma free_start_split (l : list seg) : forall p o, free_start p l o ->
  exists l1 n l2, l = l1 ++ Seg false n :: l2 /\ o = p + total l1.
Proof.
  induction l as [|[u n] l IH]; intros p o; simpl; [done|].
  intros [[-> Hu]|Hf].
  - simpl in Hu. subst u. exists [], n, l. simpl. split; [done|lia].
  - destruct (IH _ _ Hf) as (l1 & m & l2 & -> & ->). exists (Seg u n :: l1), m, l2. simpl. split; [done|lia].
Qed.

(** The blocks in use. *)
Definition used_total (l : list seg) : Z := total (filter (fun s => sg_used s = true) l).

Lemma used_total_app (l1 l2 : list seg) : used_total (l1 ++ l2) = used_total l1 + used_total l2.
Proof. unfold used_total. by rewrite filter_app, total_app. Qed.

Lemma used_total_cons (u : bool) (n : Z) (l : list seg) :
  used_total (Seg u n :: l) = (if u then n else 0) + used_total l.
Proof. unfold used_total. rewrite filter_cons. simpl. destruct u; simpl; lia. Qed.

Lemma used_total_bounds (H : Z -> heap_mem) (l : list seg) : forall p pv,
  lay H p pv l -> 0 <= used_total l <= total l.
Proof.
  induction l as [|[u n] l IH]; intros p pv; [done|].
  intros (_ & [Hs _] & Hl). specialize (IH _ _ Hl). rewrite used_total_cons, total_cons. simpl in *.
  destruct u; lia.
Qed.

(** No two neighbours are free. *)
Definition hd_used (l : list seg) : bool := match l with s :: _ => sg_used s | [] => true end.

Fixpoint joined (l : list seg) : Prop :=
  match l with
  | [] => True
  | s :: l => (sg_used s = true \/ hd_used l = true) /\ joined l
  end.

Lemma joined_app (l1 : list seg) (s : seg) (l2 : list seg) :
  joined (l1 ++ s :: l2) <-> joined (l1 ++ [s]) /\ joined (s :: l2).
Proof.
  induction l1 as [|a l1 IH].
  - simpl. tauto.
  - cbn [app joined]. rewrite IH. destruct l1; simpl; tauto.
Qed.

(** The neighbour before is used. *)
Definition last_used (l : list seg) : bool := sg_used (List.last l (Seg true 0)).

Lemma joined_snoc (l : list seg) (s : seg) :
  joined (l ++ [s]) <-> joined l /\ (sg_used s = true \/ last_used l = true).
Proof.
  induction l as [|a l IH].
  - unfold last_used. simpl. tauto.
  - cbn [app joined]. rewrite IH. unfold last_used. destruct l; simpl; [tauto|]. tauto.
Qed.

Lemma joined_mid (l1 : list seg) (s : seg) (l2 : list seg) :
  joined (l1 ++ s :: l2) <->
    joined l1 /\ joined l2 /\ (sg_used s = true \/ last_used l1 = true /\ hd_used l2 = true).
Proof. rewrite joined_app, joined_snoc. cbn [joined]. tauto. Qed.

(** ** The state of the heap *)

Section Laid.
Context (h : heap).

Record laid (l : list seg) : Prop := {
  ld_size : 16 <= mem_size_aligned h;
  ld_space : 0 < heap_ptr h /\ heap_ptr h + mem_size_aligned h + 32 < 2 ^ 32;
  ld_align : heap_ptr h mod 8 = 0 /\ mem_size_aligned h mod 8 = 0;
  ld_end : heap_end h = mem_size_aligned h + 16;
  ld_lay : lay (hdr h) 0 0 l;
  ld_total : total l = mem_size_aligned h + 16;
  ld_end_used : used (hdr h (heap_end h)) = 1;
  ld_end_next : next (hdr h (heap_end h)) = heap_end h }.
End Laid.

(** The operations' common changes. *)
Lemma set_lfree_laid (h : heap) (l : list seg) (o : Z) : laid h l -> laid (set_lfree o h) l.
Proof. intros []. by split. Qed.

Lemma set_used_laid (h : heap) (l : list seg) (v : Z) : laid h l -> laid (set_used v h) l.
Proof. intros []. by split. Qed.

Lemma set_sem_laid (h : heap) (l : list seg) (v : Z) : laid h l -> laid (set_heap_sem v h) l.
Proof. intros []. by split. Qed.

Lemma count_used_laid (h : heap) (l : list seg) (n : Z) : laid h l -> laid (count_used n h) l.
Proof. intros []. unfold count_used. case_match; by split. Qed.

(** The header at the start of a block. *)
Lemma laid_at (h : heap) (l1 : list seg) (s : seg) (l2 : list seg) : laid h (l1 ++ s :: l2) ->
  hdr h (total l1) = seg_hdr s (total l1) (last_off 0 0 l1) /\ seg_ok s /\
  0 <= total l1 /\ 0 <= total l2 /\ total l1 + sg_len s + total l2 = heap_end h /\
  lay (hdr h) 0 0 l1 /\ lay (hdr h) (total l1 + sg_len s) (total l1) l2.
Proof.
  intros [_ _ _ He HL HT _ _]. apply lay_app in HL as [H1 H2]. rewrite Z.add_0_l in H2.
  destruct H2 as (E & Hok & H3). rewrite total_app, total_cons in HT.
  pose proof (lay_total _ _ _ _ H1) as (? & _). pose proof (lay_total _ _ _ _ H3) as (? & _).
  split_and!; try done; lia.
Qed.

(** Replacing some blocks in the middle. *)
Lemma laid_replace (h h' : heap) (l1 m m' l2 : list seg) :
  laid h (l1 ++ m ++ l2) ->
  heap_ptr h' = heap_ptr h -> heap_end h' = heap_end h -> mem_size_aligned h' = mem_size_aligned h ->
  total m' = total m ->
  (forall q, 0 <= q < total l1 -> hdr h' q = hdr h q) ->
  lay (hdr h') (total l1) (last_off 0 0 l1) m' ->
  let e := total l1 + total m in
  (forall q, e < q -> hdr h' q = hdr h q) ->
  (exists pv, hdr h' e = with_prev pv (hdr h e) /\ (l2 ≠ [] -> pv = last_off 0 0 (l1 ++ m'))) ->
  laid h' (l1 ++ m' ++ l2).
Proof.
  intros [S1 S2 S3 S4 HL HT S7 S8] E1 E2 E3 Em Hlow Hm e Hhigh (pv & Ee & Epv).
  rewrite !total_app in HT. apply lay_app in HL as [HL1 HL2]. apply lay_app in HL2 as [HLm HL2].
  rewrite Z.add_0_l in HLm, HL2. fold e in HL2.
  pose proof (lay_total _ _ _ _ HL2) as (Ht2 & _ & Ht2').
  split; rewrite ?E1, ?E2, ?E3; try done.
  - rewrite lay_app, lay_app, !Z.add_0_l. split_and!; [|done|].
    + apply (lay_frame (hdr h)); [|done]. intros q Hq. apply Hlow. lia.
    + rewrite Em. fold e. eapply (lay_redirect (hdr h)); [| |exact HL2].
      * intros q Hq. apply Hhigh. lia.
      * intros Hne. rewrite Ee, (Epv Hne), last_off_app, Z.add_0_l. done.
  - rewrite !total_app. lia.
  - destruct l2 as [|s l2].
    + assert (heap_end h = e) as -> by (simpl in HT; lia). rewrite Ee. simpl. assert (e = heap_end h) as -> by (simpl in HT; lia). done.
    + specialize (Ht2' ltac:(done)). rewrite Hhigh by lia. done.
  - destruct l2 as [|s l2].
    + assert (Hee : e = heap_end h) by (simpl in HT; lia). rewrite <- Hee, Ee, Hee. simpl. done.
    + specialize (Ht2' ltac:(done)). rewrite Hhigh by lia. done.
Qed.

Lemma exists_last_or_nil {A} (l : list A) : l = [] \/ exists l0 x, l = l0 ++ [x].
Proof. destruct l as [|x l] using rev_ind; [by left|right; by exists l, x]. Qed.

(** ** Joining free neighbours *)

Definition merge_right (n : Z) (l : list seg) : list seg :=
  match l with
  | Seg false m :: l => Seg false (n + m) :: l
  | _ => Seg false n :: l
  end.

(** The last block of [l1], when it is free, takes the first of [l2] in. *)
Definition merge_left (l1 l2 : list seg) : list seg :=
  match List.last l1 (Seg true 0), l2 with
  | Seg false m, Seg _ n :: l2 => removelast l1 ++ Seg false (m + n) :: l2
  | _, _ => l1 ++ l2
  end.

(** What the joining routines leave alone. *)
Record same_but (h h' : heap) : Prop := {
  sb_ptr : heap_ptr h' = heap_ptr h;
  sb_end : heap_end h' = heap_end h;
  sb_size : mem_size_aligned h' = mem_size_aligned h;
  sb_used : used_mem h' = used_mem h;
  sb_max : max_mem h' = max_mem h;
  sb_sem : heap_sem h' = heap_sem h;
  sb_counter : malloc_counter h' = malloc_counter h;
  sb_bytes : bytes h' = bytes h;
  sb_nest : nest h' = nest h }.

Lemma same_but_refl (h : heap) : same_but h h.
Proof. by split. Qed.

Lemma same_but_trans (h1 h2 h3 : heap) : same_but h1 h2 -> same_but h2 h3 -> same_but h1 h3.
Proof. intros [] []. split; congruence. Qed.

Lemma hdr_upd (h : heap) (o q : Z) (f : heap_mem -> heap_mem) :
  hdr (upd_hdr o f h) q = if decide (q = o) then f (hdr h o) else hdr h q.
Proof. done. Qed.

Lemma with_prev_same (b : heap_mem) : with_prev (prev b) b = b.
Proof. by destruct b. Qed.

Section Forward.
Context (h : heap) (l1 l2 : list seg) (n : Z).
Context (HL : laid h (l1 ++ Seg false n :: l2)).
Let mem := total l1.

Lemma forward_next : next (hdr h mem) = mem + n /\ used (hdr h mem) = 0 /\ 0 <= mem < heap_end h.
Proof.
  destruct (laid_at h l1 (Seg false n) l2 HL) as (E & [Hok _] & H1 & H2 & H3 & _). unfold mem.
  rewrite E. simpl in *. split_and!; lia.
Qed.

(** [plug_holes], forwards. *)
Lemma plug_forward_ok : let h' := plug_forward mem h in
  laid h' (l1 ++ merge_right n l2) /\ same_but h h' /\
  lfree h' = (if hd_used l2 then lfree h
              else if decide (lfree h = mem + n) then mem else lfree h).
Proof.
  destruct forward_next as (En & Eu & Hm). intros h'. unfold h', plug_forward. rewrite En.
  destruct (laid_at h l1 (Seg false n) l2 HL) as (E0 & [Hok _] & H1 & H2 & H3 & _ & HL2). simpl in Hok, H3, HL2.
  rewrite (proj2 (Z.eqb_neq mem (mem + n))) by lia. simpl negb. cbv iota.
  destruct l2 as [|[[|] n2] l3].
  - replace (mem + n =? heap_end h) with true by (simpl in H3; lia). rewrite andb_false_r.
    by split_and!; [..|split].
  - destruct HL2 as (E1 & _). fold mem in E1. rewrite E1. simpl. by split_and!; [..|split].
  - destruct HL2 as (E1 & [Hok2 _] & HL3). fold mem in E1, HL3. simpl in Hok2, HL3.
    rewrite E1. simpl used. simpl next. cbn [andb Z.eqb].
    pose proof (lay_total _ _ _ _ HL3) as (Ht3 & _). rewrite total_cons in H3. simpl in H3.
    rewrite (proj2 (Z.eqb_neq (mem + n) (heap_end h))) by lia. cbn [negb andb].
    set (e := mem + n + n2) in *. set (h0 := if lfree h =? mem + n then set_lfree mem h else h).
    assert (Eh : hdr h0 = hdr h) by (unfold h0; by destruct (lfree h =? mem + n)).
    assert (Es : same_but h h0) by (unfold h0; by destruct (lfree h =? mem + n); split).
    assert (E2 : next (hdr h0 (mem + n)) = e) by (by rewrite Eh, E1).
    rewrite E2.
    rewrite fupd_ne by lia. rewrite E2. split_and!.
    + eapply (laid_replace h _ l1 [Seg false n; Seg false n2] [Seg false (n + n2)] l3 HL);
        [apply Es|apply Es|apply Es|simpl; lia| | | |].
      * intros q Hq. fold mem in Hq. rewrite !hdr_upd, !decide_False by (unfold e; lia). by rewrite Eh.
      * fold mem. cbn [lay]. split_and!; [|unfold seg_ok; simpl|done].
        -- rewrite hdr_upd, decide_False by (unfold e; lia). rewrite hdr_upd, decide_True by done.
           rewrite Eh. unfold mem in E0 |- *. rewrite E0. unfold seg_hdr, with_next. simpl. f_equal. unfold e. lia.
        -- destruct (laid_at h l1 (Seg false n) _ HL) as (_ & [_ Ha] & _ & _ & _ & _ & HL2).
           destruct HL2 as (_ & [_ Hb] & _). simpl in Ha, Hb. split; [lia|zlia].
      * intros q Hq. simpl in Hq. fold mem in Hq. rewrite !hdr_upd, !decide_False by (unfold e; lia). by rewrite Eh.
      * exists mem. fold mem. replace (mem + total [Seg false n; Seg false n2]) with e by (unfold e; simpl; lia). split.
        -- rewrite hdr_upd, decide_True by done. rewrite hdr_upd, decide_False by (unfold e; lia). by rewrite Eh.
        -- intros _. rewrite last_off_app. done.
    + eapply same_but_trans; [exact Es|]. by split.
    + unfold h0. change (lfree (if lfree h =? mem + n then set_lfree mem h else h) =
        (if decide (lfree h = mem + n) then mem else lfree h)).
      destruct (Z.eqb_spec (lfree h) (mem + n)); [by rewrite decide_True|by rewrite decide_False].
Qed.
End Forward.

Lemma merge_left_used (l1 l2 : list seg) : last_used l1 = true -> merge_left l1 l2 = l1 ++ l2.
Proof. unfold last_used, merge_left. destruct (List.last l1 (Seg true 0)) as [[|] m]; done. Qed.

Lemma merge_left_free (l0 : list seg) (m n : Z) (u : bool) (l2 : list seg) :
  merge_left (l0 ++ [Seg false m]) (Seg u n :: l2) = l0 ++ Seg false (m + n) :: l2.
Proof. unfold merge_left. by rewrite List.last_last, removelast_last. Qed.

Section Backward.
Context (h : heap) (l1 l2 : list seg) (n : Z).
Context (HL : laid h (l1 ++ Seg false n :: l2)).
Let mem := total l1.

(** [plug_holes], backwards. *)
Lemma plug_backward_ok : let h' := plug_backward mem h in
  laid h' (merge_left l1 (Seg false n :: l2)) /\ same_but h h' /\
  lfree h' = (if last_used l1 then lfree h
              else if decide (lfree h = mem) then last_off 0 0 l1 else lfree h).
Proof.
  intros h'. unfold h', plug_backward.
  destruct (laid_at h l1 (Seg false n) l2 HL) as (E0 & [Hok _] & H1 & H2 & H3 & HL1 & HL2).
  simpl in Hok, H3. fold mem in E0. rewrite E0. cbn [prev next seg_hdr sg_len].
  destruct (List.last l1 (Seg true 0)) as [u m] eqn:El.
  destruct (exists_last_or_nil l1) as [->|(l0 & [u' m'] & ->)].
  - cbn. by split_and!; [..|split].
  - rewrite List.last_last in El. injection El as -> ->.
    unfold mem in *. rewrite last_off_app, total_app in *. simpl last_off. simpl total in *.
    rewrite Z.add_0_l. set (pmem := total l0) in *. replace (pmem + (m + 0)) with (pmem + m) in * by lia.
    apply lay_app in HL1 as [HL0 HLp]. rewrite Z.add_0_l in HLp. fold pmem in HLp.
    destruct HLp as (Ep & [Hokp _] & _). simpl in Hokp.
    pose proof (lay_total _ _ _ _ HL0) as (Ht0 & _). fold pmem in Ht0.
    rewrite (proj2 (Z.eqb_neq pmem (pmem + m))) by lia. rewrite Ep. cbn [negb andb used seg_hdr sg_used].
    unfold last_used. rewrite List.last_last. cbn [sg_used].
    destruct u.
    + cbn [Z.eqb]. rewrite merge_left_used by (unfold last_used; by rewrite List.last_last). by split_and!; [..|split].
    + cbn [Z.eqb]. rewrite merge_left_free.
      set (e := pmem + m + n) in *. set (h0 := if lfree h =? pmem + m then set_lfree pmem h else h).
      assert (Eh : hdr h0 = hdr h) by (unfold h0; by destruct (lfree h =? pmem + m)).
      assert (Es : same_but h h0) by (unfold h0; by destruct (lfree h =? pmem + m); split).
      rewrite Eh, E0. cbn [next seg_hdr sg_len]. fold e.
      unfold upd_hdr at 2. cbn [hdr set_hdr]. rewrite fupd_ne by lia. rewrite Eh, E0. cbn [next seg_hdr sg_len]. fold e.
      split_and!.
      * eapply (laid_replace h _ l0 [Seg false m; Seg false n] [Seg false (m + n)] l2).
        -- by rewrite <- app_assoc in HL.
        -- apply Es.
        -- apply Es.
        -- apply Es.
        -- simpl. lia.
        -- intros q Hq. fold pmem in Hq. rewrite !hdr_upd, !decide_False by (unfold e; lia). by rewrite Eh.
        -- fold pmem. cbn [lay]. split_and!; [|unfold seg_ok; simpl|done].
           ++ rewrite hdr_upd, decide_False by (unfold e; lia). rewrite hdr_upd, decide_True by done.
              rewrite Eh, Ep. unfold seg_hdr, with_next. simpl. f_equal. unfold e. lia.
           ++ apply laid_at in HL as (_ & [_ Ha] & _ & _ & _ & HLl & _). apply lay_app in HLl as [_ HLl].
              destruct HLl as (_ & [_ Hb] & _). simpl in Ha, Hb. split; [lia|zlia].
        -- intros q Hq. fold pmem in Hq. simpl in Hq. rewrite !hdr_upd, !decide_False by (unfold e; lia). by rewrite Eh.
        -- exists pmem. fold pmem. replace (pmem + total [Seg false m; Seg false n]) with e by (unfold e; simpl; lia). split.
           ++ rewrite hdr_upd, decide_True by done. rewrite hdr_upd, decide_False by (unfold e; lia). by rewrite Eh.
           ++ intros _. by rewrite last_off_app.
      * eapply same_but_trans; [exact Es|]. by split.
      * unfold h0. change (lfree (if lfree h =? pmem + m then set_lfree pmem h else h) =
          (if decide (lfree h = pmem + m) then pmem else lfree h)).
        destruct (Z.eqb_spec (lfree h) (pmem + m)); [by rewrite decide_True|by rewrite decide_False].
Qed.
End Backward.

(** ** Both ways *)

Lemma plug_holes_ok (h : heap) (l1 l2 : list seg) (n : Z) : laid h (l1 ++ Seg false n :: l2) ->
  exists h', plug_holes (total l1) h = Ret tt h' /\ laid h' (merge_left l1 (merge_right n l2)) /\
    same_but h h' /\
    lfree h' =
      let lf := if hd_used l2 then lfree h
                else if decide (lfree h = total l1 + n) then total l1 else lfree h in
      if last_used l1 then lf else if decide (lf = total l1) then last_off 0 0 l1 else lf.
Proof.
  intros HL. destruct (forward_next h l1 l2 n HL) as (_ & Eu & Hm).
  destruct (plug_forward_ok h l1 l2 n HL) as (HL1 & Hs1 & Ef1). cbv zeta in *.
  set (h1 := plug_forward (total l1) h) in *.
  assert (Em : exists n' l2', merge_right n l2 = Seg false n' :: l2').
  { destruct l2 as [|[[|] m] l3]; simpl; eauto. }
  destruct Em as (n' & l2' & Em). rewrite Em in HL1 |- *.
  destruct (plug_backward_ok h1 l1 l2' n' HL1) as (HL2 & Hs2 & Ef2). cbv zeta in *.
  exists (plug_backward (total l1) h1). split_and!; [|exact HL2|by eapply same_but_trans|by rewrite Ef2, Ef1].
  unfold plug_holes, assert. rewrite Eu.
  by replace ((0 <=? total l1) && (total l1 <? heap_end h) && (0 =? 0)) with true by lia.
Qed.

Lemma lay_ok (H : Z -> heap_mem) (l : list seg) : forall p pv, lay H p pv l -> Forall seg_ok l.
Proof. induction l as [|s l IH]; intros p pv; [done|]. intros (_ & H1 & H2). constructor; eauto. Qed.

Lemma free_start_ge (l : list seg) : forall p o, Forall seg_ok l -> free_start p l o -> p <= o.
Proof.
  induction l as [|s l IH]; intros p o; [done|]. intros Hok. inversion Hok as [|? ? [Hs _] Hl]; subst.
  intros [[-> _]|Hf]; [lia|]. specialize (IH _ _ Hl Hf). lia.
Qed.

Lemma free_start_lt (l : list seg) : forall p o, Forall seg_ok l -> free_start p l o -> o < p + total l.
Proof.
  induction l as [|s l IH]; intros p o; [done|]. intros Hok. inversion Hok as [|? ? [Hs _] Hl]; subst.
  assert (Ht : 0 <= total l) by (clear -Hl; induction Hl as [|? ? []]; simpl; lia).
  intros [[-> _]|Hf]; simpl; [lia|]. specialize (IH _ _ Hl Hf). lia.
Qed.

Lemma free_start_right (l : list seg) (p n o : Z) : Forall seg_ok l -> 0 < n ->
  free_start p (merge_right n l) o <->
  free_start p (Seg false n :: l) o /\ (hd_used l = true \/ o ≠ p + n).
Proof.
  intros Hok Hn. destruct l as [|[[|] m] l]; simpl.
  - split; [|tauto]. intros [[-> _]|[]]. auto.
  - split; [|tauto]. intros [[-> _]|[[? ?]|?]]; auto; done.
  - inversion Hok as [|? ? [Hs _] Hl]; subst. simpl in Hs.
    assert (Hlt : free_start (p + (n + m)) l o -> p + (n + m) <= o) by by apply free_start_ge.
    replace (p + n + m) with (p + (n + m)) by lia. split.
    + intros [[-> _]|Hf]; [split; [auto|right; lia]|]. split; [auto|right; specialize (Hlt Hf); lia].
    + intros [[?|[[-> _]|?]] [?|?]]; auto; done.
Qed.

Lemma free_start_left (l1 l2 : list seg) (p n o : Z) : Forall seg_ok (l1 ++ l2) -> 0 < n ->
  free_start p (merge_left l1 (Seg false n :: l2)) o <->
  free_start p (l1 ++ Seg false n :: l2) o /\ (last_used l1 = true \/ o ≠ p + total l1).
Proof.
  intros Hok Hn. destruct (last_used l1) eqn:El.
  - rewrite merge_left_used by done. tauto.
  - destruct (exists_last_or_nil l1) as [->|(l0 & [u m] & ->)]; [done|].
    unfold last_used in El. rewrite List.last_last in El. simpl in El. subst u.
    rewrite merge_left_free, !free_start_app, total_app. simpl.
    apply Forall_app in Hok as [Hok1 Hok2]. apply Forall_app in Hok1 as [Hok0 Hokm].
    inversion Hokm as [|? ? [Hm _]]; subst. simpl in Hm.
    assert (H0 : free_start p l0 o -> o < p + total l0) by by apply free_start_lt.
    assert (H2 : free_start (p + total l0 + (m + n)) l2 o -> p + total l0 + (m + n) <= o) by by apply free_start_ge.
    replace (p + (total l0 + (m + 0)) + n) with (p + total l0 + (m + n)) by lia.
    split.
    + intros [Hf|[[-> _]|Hf]].
      * split; [auto|right; specialize (H0 Hf); lia].
      * split; [auto|right; lia].
      * split; [auto|right; specialize (H2 Hf); lia].
    + intros [[[?|[[-> _]|[]]]|[[-> _]|?]] [?|?]]; auto; try done; lia.
Qed.

(** ** Whole states *)

Record heap_wf (h : heap) (l : list seg) : Prop := {
  hw_laid : laid h l;
  hw_joined : joined l;
  hw_lfree : lfree h = heap_end h \/ free_start 0 l (lfree h);
  hw_used : used_mem h = used_total l;
  hw_sem : heap_sem h = 1;
  hw_nest : nest h = 0 }.

(** The search starts at the lowest free block. *)
Definition lowest (h : heap) (l : list seg) : Prop := forall o, free_start 0 l o -> lfree h <= o.

Section PlugWf.
Context (h : heap) (l1 l2 : list seg) (n : Z).
Context (HL : laid h (l1 ++ Seg false n :: l2)).
Let l := l1 ++ Seg false n :: l2.
Let l' := merge_left l1 (merge_right n l2).

Lemma plug_used : used_total l' = used_total l /\ total l' = total l.
Proof.
  assert (Hr : used_total (merge_right n l2) = used_total (Seg false n :: l2) /\
               total (merge_right n l2) = total (Seg false n :: l2)).
  { destruct l2 as [|[[|] m] l3]; simpl; rewrite ?used_total_cons; simpl; lia. }
  assert (Em : exists n' l2', merge_right n l2 = Seg false n' :: l2').
  { destruct l2 as [|[[|] m] l3]; simpl; eauto. }
  unfold l, l'. destruct Em as (n' & l2' & Em). rewrite Em in *.
  destruct (last_used l1) eqn:El.
  - rewrite merge_left_used by done. rewrite !used_total_app, !total_app. lia.
  - destruct (exists_last_or_nil l1) as [->|(l0 & [u m] & ->)]; [done|].
    unfold last_used in El. rewrite List.last_last in El. simpl in El. subst u.
    rewrite merge_left_free, !used_total_app, !total_app.
    destruct Hr as [Hr1 Hr2]. rewrite !used_total_cons in Hr1. simpl in Hr2.
    rewrite !used_total_cons. simpl. unfold used_total in *. simpl. lia.
Qed.

Lemma plug_joined : joined l1 -> joined l2 -> joined l'.
Proof.
  intros J1 J2. unfold l'.
  assert (Hr : exists n' l2', merge_right n l2 = Seg false n' :: l2' /\ joined l2' /\ hd_used l2' = true).
  { destruct l2 as [|[[|] m] l3]; simpl; [by eexists _, _|by eexists _, _|].
    simpl in J2. destruct J2 as [[?|Hh] J3]; [done|]. by eexists _, _. }
  destruct Hr as (n' & l2' & -> & J2' & Hh).
  destruct (last_used l1) eqn:El.
  - rewrite merge_left_used by done. apply joined_mid. auto.
  - destruct (exists_last_or_nil l1) as [->|(l0 & [u m] & ->)]; [done|].
    unfold last_used in El. rewrite List.last_last in El. simpl in El. subst u.
    rewrite merge_left_free. apply joined_snoc in J1 as [J0 [?|Hl0]]; [done|].
    apply joined_mid. auto.
Qed.

(** The free blocks after joining are among those before. *)
Lemma plug_free (o : Z) : free_start 0 l' o <-> free_start 0 l o /\
  (hd_used l2 = true \/ o ≠ total l1 + n) /\ (last_used l1 = true \/ o ≠ total l1).
Proof.
  destruct (laid_at h l1 (Seg false n) l2 HL) as (_ & [Hok _] & _ & _ & _ & HL1 & HL2). simpl in Hok.
  pose proof (lay_ok _ _ _ _ HL1) as K1. pose proof (lay_ok _ _ _ _ HL2) as K2.
  pose proof (free_start_right l2 (total l1) n o K2) as Hr. specialize (Hr ltac:(lia)).
  assert (Em : exists n' l2', merge_right n l2 = Seg false n' :: l2' /\ 0 < n' /\ Forall seg_ok l2').
  { destruct l2 as [|[[|] m] l3]; simpl; eexists _, _; (split; [reflexivity|]); [split; [lia|done]..|].
    inversion K2 as [|? ? [Hm _]]; subst. simpl in Hm. split; [lia|done]. }
  destruct Em as (n' & l2' & Em & Hn' & K2'). unfold l', l. rewrite Em in Hr |- *.
  rewrite free_start_left by (try apply Forall_app; auto). rewrite !free_start_app, !Z.add_0_l, Hr.
  assert (Hlt : free_start 0 l1 o -> o < total l1) by (intros Hf; pose proof (free_start_lt l1 0 o K1 Hf); lia).
  split.
  - intros [[Hf|[Hf Hc]] Hl]; [|tauto]. split_and!; [auto|right; specialize (Hlt Hf); lia|done].
  - tauto.
Qed.

(** The effect of [plug_holes] on the invariant's other parts. *)
Lemma plug_wf : joined l1 -> joined l2 ->
  (lfree h = heap_end h \/ free_start 0 l (lfree h)) -> used_mem h = used_total l ->
  exists h', plug_holes (total l1) h = Ret tt h' /\ laid h' l' /\ joined l' /\
    (lfree h' = heap_end h' \/ free_start 0 l' (lfree h')) /\ used_mem h' = used_total l' /\
    same_but h h' /\ (lowest h l -> lowest h' l').
Proof.
  intros J1 J2 Hlf Hu. destruct (plug_holes_ok h l1 l2 n HL) as (h' & E & HL' & Hs & Ef). exists h'.
  destruct (laid_at h l1 (Seg false n) l2 HL) as (_ & [Hok _] & H1 & H2 & H3 & HL1 & HL2). simpl in Hok, H3.
  assert (Hmem : free_start 0 l (total l1)).
  { unfold l. apply free_start_app. right. rewrite Z.add_0_l. by left. }
  assert (Hprev : last_used l1 = false -> free_start 0 l (last_off 0 0 l1) /\ last_off 0 0 l1 < total l1).
  { intros El. destruct (exists_last_or_nil l1) as [->|(l0 & [u m] & ->)]; [done|].
    unfold last_used in El. rewrite List.last_last in El. simpl in El. subst u.
    rewrite last_off_app, total_app. simpl. apply lay_app in HL1 as [_ (_ & [Hm _] & _)]. simpl in Hm.
    split; [|lia]. unfold l. apply free_start_app. left. apply free_start_app. right. simpl. left. lia. }
  cbv zeta in Ef. split_and!; [done|done|by apply plug_joined| | |done|].
  - destruct (sb_end _ _ Hs). rewrite plug_free, Ef.
    destruct (hd_used l2) eqn:Eh, (last_used l1) eqn:El; repeat case_decide; subst;
      try (specialize (Hprev eq_refl)); destruct Hlf; try (left; lia); try (right; split_and!; try tauto; right; lia).
  - rewrite (sb_used _ _ Hs), Hu. symmetry. apply plug_used.
  - intros Hlow o (Ho & _)%plug_free. specialize (Hlow o Ho) as Hlo. pose proof (Hlow _ Hmem).
    rewrite Ef. destruct (hd_used l2) eqn:Eh, (last_used l1) eqn:El; repeat case_decide; subst; try lia;
      try (destruct (Hprev eq_refl) as [Hp Hp']; specialize (Hlow _ Hp); lia).
Qed.
End PlugWf.
