(* ===== verification/HeapOps.v ===== *)
(** * Allocating and freeing
    [free], [malloc] and [realloc] as changes of the list of blocks, each of which
    keeps the heap's invariant. *)

From S2P Require Import Prelude Mem Heap HeapInv.

Lemma land_7 (x : Z) : Z.land x 7 = x mod 8.
Proof. change 7 with (Z.ones 3). by rewrite Z.land_ones by lia. Qed.

Lemma total_mod (H : Z -> heap_mem) (l : list seg) (p pv : Z) : lay H p pv l -> total l mod 8 = 0.
Proof. intros HL. by destruct (lay_total H l p pv HL) as (_ & ? & _). Qed.

(** The address of the data of the block at offset [o]. *)
Definition data_at (h : heap) (o : Z) : Z := heap_ptr h + o + 16.

(** The list after a block of length [n] between [l1] and [l2] becomes free. *)
Definition freed (l1 : list seg) (n : Z) (l2 : list seg) : list seg :=
  merge_left l1 (merge_right n l2).

(** What an operation keeps of the heap as a whole. *)
Record same_heap (h h' : heap) : Prop := {
  sh_ptr : heap_ptr h' = heap_ptr h;
  sh_end : heap_end h' = heap_end h;
  sh_size : mem_size_aligned h' = mem_size_aligned h;
  sh_bytes : bytes h' = bytes h }.

Lemma same_heap_trans (h1 h2 h3 : heap) : same_heap h1 h2 -> same_heap h2 h3 -> same_heap h1 h3.
Proof. intros [] []. split; congruence. Qed.

Lemma same_but_heap (h h' : heap) : same_but h h' -> same_heap h h'.
Proof. intros []. by split. Qed.

Lemma in_thread {A} (h : heap) (k : outcome A) : nest h = 0 -> not_in_interrupt h k = k.
Proof. intros E. unfold not_in_interrupt. by rewrite E. Qed.

Lemma taken {A} (h : heap) (k : heap -> outcome A) : heap_sem h = 1 ->
  take_sem h k = k (set_heap_sem 0 h).
Proof. intros E. unfold take_sem. by rewrite E. Qed.

(** Changing the mark of one block. *)
Lemma laid_mark (h : heap) (l1 l2 : list seg) (u v : bool) (n : Z) (f : heap_mem -> heap_mem) :
  laid h (l1 ++ Seg u n :: l2) ->
  f (seg_hdr (Seg u n) (total l1) (last_off 0 0 l1)) = seg_hdr (Seg v n) (total l1) (last_off 0 0 l1) ->
  laid (upd_hdr (total l1) f h) (l1 ++ Seg v n :: l2).
Proof.
  intros HL Hf. destruct (laid_at h l1 (Seg u n) l2 HL) as (E & [Hok Hm] & H1 & H2 & H3 & _ & HL2).
  simpl in Hok, Hm, H3.
  apply (laid_replace h _ l1 [Seg u n] [Seg v n] l2 HL); try done.
  - intros q Hq. rewrite hdr_upd, decide_False by lia. done.
  - cbn [lay]. split_and!; [|split; simpl; [lia|done]|done].
    rewrite hdr_upd, decide_True by done. by rewrite E.
  - intros q Hq. simpl in Hq. rewrite hdr_upd, decide_False by lia. done.
  - exists (prev (hdr h (total l1 + total [Seg u n]))). simpl. rewrite Z.add_0_r.
    rewrite fupd_ne by lia. rewrite with_prev_same. split; [done|].
    intros Hne. destruct l2 as [|s l2]; [done|]. destruct HL2 as (E2 & _). simpl in E2. rewrite E2.
    simpl. by rewrite last_off_app.
Qed.

Section Free.
Context (h : heap) (l1 l2 : list seg) (n : Z).
Context (HW : heap_wf h (l1 ++ Seg true n :: l2)).

(** The heap when [plug_holes] is called. *)
Definition freeing (sem : Z) : heap :=
  let h := upd_hdr (total l1) (fun b => with_magic HEAP_MAGIC (with_used 0 b)) (set_heap_sem sem h) in
  let h := if total l1 <? lfree h then set_lfree (total l1) h else h in
  set_used (used_mem h -u (next (hdr h (total l1)) -u total l1)) h.

Lemma freeing_ok (sem : Z) : let h1 := freeing sem in
  laid h1 (l1 ++ Seg false n :: l2) /\
  used_mem h1 = used_total (l1 ++ Seg false n :: l2) /\
  (lfree h1 = heap_end h1 \/ free_start 0 (l1 ++ Seg false n :: l2) (lfree h1)) /\
  same_heap h h1 /\ heap_sem h1 = sem /\ nest h1 = 0 /\ malloc_counter h1 = malloc_counter h /\
  (lowest h (l1 ++ Seg true n :: l2) -> lowest h1 (l1 ++ Seg false n :: l2)).
Proof.
  destruct HW as [HL HJ Hlf Hu Hs Hn]. intros h1.
  destruct (laid_at h l1 (Seg true n) l2 HL) as (E & [Hok _] & H1 & H2 & H3 & HL1 & HL2). simpl in Hok, H3.
  pose proof (used_total_bounds _ _ _ _ HL1) as B1. pose proof (used_total_bounds _ _ _ _ HL2) as B2.
  pose proof HL as [S1 S2 S3 S4 _ _ _ _].
  set (h0 := upd_hdr (total l1) (fun b => with_magic HEAP_MAGIC (with_used 0 b)) (set_heap_sem sem h)) in *.
  assert (HL0 : laid h0 (l1 ++ Seg false n :: l2)).
  { apply (laid_mark (set_heap_sem sem h) l1 l2 true false n); [by apply set_sem_laid|done]. }
  assert (Hfs : forall o, free_start 0 (l1 ++ Seg false n :: l2) o <->
                  o = total l1 \/ free_start 0 (l1 ++ Seg true n :: l2) o).
  { intros o. rewrite !free_start_app. simpl. intuition congruence. }
  assert (E1 : h1 = set_used (used_mem h -u n) (if total l1 <? lfree h then set_lfree (total l1) h0 else h0)).
  { unfold h1, freeing. fold h0. change (lfree h0) with (lfree h).
    assert (En : next (hdr h0 (total l1)) = total l1 + n).
    { unfold h0. rewrite hdr_upd, decide_True by done. simpl. by rewrite E. }
    destruct (total l1 <? lfree h); cbn [hdr set_lfree used_mem]; rewrite En;
      replace (u32 (total l1 + n - total l1)) with n by (rewrite u32_small; lia); done. }
  rewrite E1. split_and!.
  - apply set_used_laid. destruct (total l1 <? lfree h); [by apply set_lfree_laid|done].
  - simpl. rewrite !used_total_app, !used_total_cons in *. rewrite Hu, u32_small; lia.
  - destruct (Z.ltb_spec (total l1) (lfree h)); simpl; [right; apply Hfs; by left|].
    destruct Hlf as [Hlf|Hlf]; [lia|right; apply Hfs; by right].
  - destruct (total l1 <? lfree h); by split.
  - by destruct (total l1 <? lfree h).
  - by destruct (total l1 <? lfree h).
  - by destruct (total l1 <? lfree h).
  - intros Hlow o [->|Ho]%Hfs; destruct (Z.ltb_spec (total l1) (lfree h)); simpl; [lia|lia| |by apply Hlow].
    specialize (Hlow o Ho). lia.
Qed.

(** Freeing a block in use makes it free, joined with its free neighbours. *)
Lemma free_ok : exists h', free (data_at h (total l1)) h = Ret tt h' /\
  heap_wf h' (freed l1 n l2) /\ same_heap h h' /\ malloc_counter h' = malloc_counter h /\
  (lowest h (l1 ++ Seg true n :: l2) -> lowest h' (freed l1 n l2)).
Proof.
  destruct (freeing_ok 0) as (HL1 & Hu1 & Hlf1 & Hsh1 & Hs1 & Hn1 & Hc1 & Hlow1).
  pose proof HW as [HL HJ Hlf Hu Hs Hn]. apply joined_mid in HJ as (J1 & J2 & _).
  destruct (plug_wf (freeing 0) l1 l2 n HL1 J1 J2 Hlf1 Hu1) as (h2 & E2 & HL2 & HJ2 & Hlf2 & Hu2 & Hsb & Hlow2).
  destruct (laid_at h l1 (Seg true n) l2 HL) as (E & [Hok _] & H1 & H2 & H3 & HLl & _). simpl in Hok, H3.
  pose proof HL as [S1 S2 S3 S4 _ _ _ _]. pose proof (total_mod _ _ _ _ HLl) as Hmod.
  exists (release_sem h2). unfold free. rewrite in_thread by done. rewrite taken by done.
  cbn [heap_ptr heap_end set_heap_sem lfree]. unfold data_at. rewrite sizeof_struct_mem.
  assert (Ea : u32 (u32 (heap_ptr h + total l1 + 16 - 16) - heap_ptr h) = total l1).
  { rewrite (u32_small (_ - 16)) by lia. rewrite u32_small by lia. lia. }
  rewrite Ea. rewrite (proj2 (Z.eqb_neq _ 0)) by lia. cbn [hdr set_heap_sem]. rewrite E.
  cbn [seg_hdr used magic sg_used]. unfold assert. change (RT_ALIGN_SIZE - 1) with 7.
  rewrite land_7. replace ((heap_ptr h + total l1 + 16) mod 8 =? 0) with true by zlia.
  rewrite (u32_small (heap_ptr h + heap_end h)) by lia.
  replace ((heap_ptr h <=? heap_ptr h + total l1 + 16)) with true by lia.
  replace ((heap_ptr h + total l1 + 16 <? heap_ptr h + heap_end h)) with true by lia.
  change (HEAP_MAGIC =? HEAP_MAGIC) with true. cbn [andb negb Z.eqb].
  cbn [heap_ptr lfree upd_hdr set_hdr set_heap_sem].
  rewrite (u32_small (heap_ptr h + total l1 + 16 - 16)) by lia.
  assert (Hlfr : 0 <= lfree h <= heap_end h).
  { destruct Hlf as [->|Hf]; [lia|]. destruct (free_start_range _ _ _ _ _ (ld_lay _ _ HL) Hf).
    rewrite (ld_total _ _ HL) in *. lia. }
  rewrite (u32_small (heap_ptr h + lfree h)) by lia.
  replace (heap_ptr h + total l1 + 16 - 16 <? heap_ptr h + lfree h) with (total l1 <? lfree h) by lia.
  split_and!.
  - transitivity (obind (plug_holes (total l1) (freeing 0)) (fun _ h => Ret tt (release_sem h))); [|by rewrite E2].
    done.
  - unfold release_sem. rewrite (sb_sem _ _ Hsb), Hs1. change (u16 (0 + 1)) with 1. split; simpl.
    + by apply set_sem_laid.
    + done.
    + done.
    + done.
    + done.
    + by rewrite (sb_nest _ _ Hsb).
  - eapply same_heap_trans; [exact Hsh1|]. eapply same_heap_trans; [by apply same_but_heap|]. by split.
  - simpl. rewrite (sb_counter _ _ Hsb). done.
  - intros Hlow. by apply Hlow2, Hlow1.
Qed.
End Free.

(** ** The search *)

Definition fits (size : Z) (s : seg) : bool := negb (sg_used s) && (size <=? sg_len s - 16).

(** First fit, as far as the loop looks. *)
Fixpoint find_fit (msize p size : Z) (l : list seg) : option Z :=
  match l with
  | [] => None
  | s :: l => if p <? msize - size then
                if fits size s then Some p else find_fit msize (p + sg_len s) size l
              else None
  end.

Lemma malloc_find_ok (h : heap) (size : Z) (l : list seg) : forall fuel p pv,
  lay (hdr h) p pv l -> 0 <= p -> p + total l = mem_size_aligned h + 16 ->
  mem_size_aligned h + 16 < 2 ^ 32 -> 0 <= size <= mem_size_aligned h -> (length l < fuel)%nat ->
  malloc_find fuel p size h = Some (find_fit (mem_size_aligned h) p size l).
Proof.
  induction l as [|s l IH]; intros fuel p pv HL Hp Ht Hm Hs Hf; (destruct fuel as [|fuel]; [simpl in Hf; lia|]);
    cbn [malloc_find]; rewrite (u32_small (mem_size_aligned h - size)) by lia.
  - simpl in Ht. by replace (p <? mem_size_aligned h - size) with false by lia.
  - destruct HL as (E & [Hok _] & HL). simpl in Ht, Hf. pose proof (lay_total _ _ _ _ HL) as (Ht0 & _).
    cbn [find_fit]. destruct (p <? mem_size_aligned h - size); [|done]. rewrite E. cbn [seg_hdr used next].
    rewrite sizeof_struct_mem, (u32_small (p + 16)) by lia.
    rewrite (u32_small (p + sg_len s - (p + 16))) by lia.
    replace (p + sg_len s - (p + 16) >=? size) with (size <=? sg_len s - 16) by lia.
    assert (Eu : ((if sg_used s then 1 else 0) =? 0) = negb (sg_used s)) by by destruct (sg_used s).
    rewrite Eu. unfold fits. destruct (negb (sg_used s) && (size <=? sg_len s - 16)); [done|].
    eapply IH; eauto; lia.
Qed.

Lemma find_fit_some (msize size : Z) (l : list seg) : forall p q, find_fit msize p size l = Some q ->
  exists a n b, l = a ++ Seg false n :: b /\ q = p + total a /\ size <= n - 16 /\ q < msize - size.
Proof.
  induction l as [|[u n] l IH]; intros p q; [done|]. cbn [find_fit sg_len].
  destruct (Z.ltb_spec p (msize - size)); [|done]. destruct (fits size (Seg u n)) eqn:Ef.
  - intros [= <-]. unfold fits in Ef. simpl in Ef. destruct u; [done|]. simpl in Ef.
    exists [], n, l. simpl. split_and!; [done|lia..].
  - intros Hq. destruct (IH _ _ Hq) as (a & m & b & -> & -> & H1 & H2).
    exists (Seg u n :: a), m, b. simpl. split_and!; [done|lia..].
Qed.

(** No result: no free block is both big enough and early enough. *)
Lemma find_fit_none (msize size : Z) (l : list seg) : forall p, Forall seg_ok l ->
  find_fit msize p size l = None ->
  forall a n b, l = a ++ Seg false n :: b -> p + total a < msize - size -> n - 16 < size.
Proof.
  induction l as [|s l IH]; intros p Hok Hn a n b E Hlt; [by destruct a|].
  inversion Hok as [|? ? [Hs _] Hl]; subst. cbn [find_fit] in Hn.
  destruct a as [|s' a]; simpl in E, Hlt; injection E as -> E.
  - rewrite (proj2 (Z.ltb_lt _ _)) in Hn by lia. unfold fits in Hn. simpl in Hn.
    destruct (Z.leb_spec size (n - 16)); [done|lia].
  - subst l. assert (Hta : 0 <= total a).
    { apply Forall_app in Hl as [Ha _]. clear -Ha. induction Ha as [|? ? [] ? IH]; simpl; lia. }
    rewrite (proj2 (Z.ltb_lt _ _)) in Hn by lia. destruct (fits size s'); [done|].
    eapply (IH (p + sg_len s')); [done|done|done|lia].
Qed.

Fixpoint first_free (p : Z) (l : list seg) : Z :=
  match l with
  | [] => p
  | s :: l => if sg_used s then first_free (p + sg_len s) l else p
  end.

Lemma next_free_ok (h : heap) (l : list seg) : forall fuel p pv,
  lay (hdr h) p pv l -> p + total l = heap_end h -> used (hdr h (heap_end h)) = 1 ->
  (length l <= fuel)%nat -> next_free fuel p h = Some (first_free p l).
Proof.
  induction l as [|s l IH]; intros fuel p pv HL Ht He Hf.
  - simpl in Ht. assert (p = heap_end h) as -> by lia. destruct fuel; simpl; rewrite He, Z.eqb_refl; done.
  - destruct HL as (E & [Hok _] & HL). simpl in Ht, Hf. pose proof (lay_total _ _ _ _ HL) as (Ht0 & _).
    destruct fuel as [|fuel]; [lia|]. cbn [next_free first_free]. rewrite E. cbn [seg_hdr used next].
    rewrite (proj2 (Z.eqb_neq p (heap_end h))) by lia. destruct (sg_used s); cbn [Z.eqb negb andb]; [|done].
    eapply IH; eauto; lia.
Qed.

Lemma first_free_spec (l : list seg) : forall p, Forall seg_ok l ->
  (first_free p l = p + total l \/ free_start p l (first_free p l)) /\
  forall o, free_start p l o -> first_free p l <= o.
Proof.
  induction l as [|[u n] l IH]; intros p Hok; simpl; [split; [left; lia|done]|].
  inversion Hok as [|? ? [Hs _] Hl]; subst. simpl in Hs. destruct (IH (p + n) Hl) as [H1 H2]. destruct u.
  - split; [destruct H1; [left; lia|by right; right]|]. intros o [[_ ?]|Hf]; [done|by apply H2].
  - split; [right; by left|]. intros o [[-> _]|Hf]; [lia|]. pose proof (free_start_ge _ _ _ Hl Hf). lia.
Qed.

(** ** The allocation *)

(** A free block of length [len] after an allocation of [size] bytes. *)
Definition alloc (size len : Z) : list seg :=
  if size + 32 <=? len - 16 then [Seg true (size + 16); Seg false (len - size - 16)]
  else [Seg true len].

Lemma alloc_total (size len : Z) : total (alloc size len) = len.
Proof. unfold alloc. case_match; simpl; lia. Qed.

Lemma alloc_used (size len : Z) : used_total (alloc size len) =
  if size + 32 <=? len - 16 then size + 16 else len.
Proof. unfold alloc. case_match; unfold used_total; simpl; lia. Qed.

Lemma alloc_ok (size len : Z) : seg_ok (Seg false len) -> 16 <= size -> size mod 8 = 0 ->
  size <= len - 16 -> Forall seg_ok (alloc size len).
Proof.
  intros [H1 H2] H3 H4 H5. simpl in *. unfold alloc. destruct (Z.leb_spec (size + 32) (len - 16)).
  - repeat constructor; simpl; try lia; zlia.
  - by repeat constructor.
Qed.

Lemma alloc_joined (size len : Z) (a b : list seg) :
  joined (a ++ Seg false len :: b) -> joined (a ++ alloc size len ++ b).
Proof.
  intros (J1 & J2 & [?|[Ha Hb]])%joined_mid; [done|]. unfold alloc. case_match; simpl; apply joined_mid.
  - split_and!; [done| |by left]. simpl. auto.
  - split_and!; [done|done|by left].
Qed.

(** ** Splitting a block *)

Section Split.
Context (h : heap) (a b : list seg) (len size : Z) (u v : bool).
Context (HL : laid h (a ++ Seg u len :: b)).
Context (Hs : 8 <= size) (Hm : size mod 8 = 0) (Hfit : size + 40 <= len).
Let p := total a.
Let ptr2 := p + 16 + size.
Let e := p + len.

(** The headers of the two parts. *)
Context (h0 : heap).
Context (Hh0 : forall q, hdr h0 q = if decide (q = p) then seg_hdr (Seg v (size + 16)) p (last_off 0 0 a)
                         else if decide (q = ptr2) then HeapMem HEAP_MAGIC 0 e p else hdr h q).
Context (Hsame : same_but h h0).

Lemma split_laid : let h1 := link_back ptr2 h0 in
  laid h1 (a ++ [Seg v (size + 16); Seg false (len - size - 16)] ++ b) /\ same_but h h1 /\
  lfree h1 = lfree h0.
Proof.
  destruct (laid_at h a (Seg u len) b HL) as (E & [Hok Hlm] & H1 & H2 & H3 & _ & HLb).
  simpl in Hok, Hlm, H3. fold p in H1, H3. pose proof HL as [S1 S2 S3 S4 _ _ _ _].
  assert (E0 : next (hdr h0 ptr2) = e).
  { rewrite Hh0, decide_False by (unfold ptr2; lia). by rewrite decide_True. }
  unfold link_back. rewrite E0, (sb_size _ _ Hsame), sizeof_struct_mem, u32_small, <- S4 by lia.
  set (h1 := if negb (e =? heap_end h) then upd_hdr e (with_prev ptr2) h0 else h0).
  assert (Eh1 : forall q, q ≠ e -> hdr h1 q = hdr h0 q).
  { intros q Hq. unfold h1. destruct (negb (e =? heap_end h)); [|done]. by rewrite hdr_upd, decide_False. }
  assert (Hs1 : same_but h h1).
  { eapply same_but_trans; [exact Hsame|]. unfold h1. destruct (negb (e =? heap_end h)); by split. }
  cbv zeta. split_and!; [|exact Hs1|unfold h1; by destruct (negb (e =? heap_end h))].
  apply (laid_replace h h1 a [Seg u len] [Seg v (size + 16); Seg false (len - size - 16)] b HL); try apply Hs1.
  - simpl. lia.
  - intros q Hq. fold p in Hq. rewrite Eh1, Hh0, !decide_False by (unfold e, ptr2; lia). done.
  - fold p. cbn [lay sg_len]. split_and!.
    + rewrite Eh1 by (unfold e; lia). by rewrite Hh0, decide_True.
    + split; simpl; [lia|zlia].
    + replace (p + (size + 16)) with ptr2 by (unfold ptr2; lia).
      rewrite Eh1 by (unfold e, ptr2; lia). rewrite Hh0, decide_False by (unfold ptr2; lia).
      rewrite decide_True by done. unfold seg_hdr. simpl. f_equal. unfold e, ptr2. lia.
    + split; simpl; [lia|zlia].
    + done.
  - intros q Hq. fold p in Hq. simpl in Hq. rewrite Eh1, Hh0, !decide_False by (unfold e, ptr2; lia). done.
  - fold p. replace (p + total [Seg u len]) with e by (unfold e; simpl; lia).
    assert (Ehe : hdr h0 e = hdr h e) by (rewrite Hh0, !decide_False by (unfold e, ptr2; lia); done).
    unfold h1. destruct (Z.eqb_spec e (heap_end h)) as [Ee|Ee]; cbn [negb].
    + exists (prev (hdr h e)). rewrite with_prev_same. split; [done|]. intros Hb.
      destruct (lay_total _ _ _ _ HLb) as (_ & _ & Hpos). specialize (Hpos Hb). unfold e in Ee. lia.
    + exists ptr2. rewrite hdr_upd, decide_True by done. rewrite Ehe. split; [done|].
      intros _. rewrite last_off_app. simpl. fold p. unfold ptr2. lia.
Qed.
End Split.

Section MallocAt.
Context (h : heap) (a b : list seg) (len size : Z).
Context (HL : laid h (a ++ Seg false len :: b)).
Context (Hs : 16 <= size) (Hm : size mod 8 = 0) (Hfit : size <= len - 16).
Let p := total a.

(** The headers of the split block. *)
Definition splitted : heap :=
  link_back (p +u SIZEOF_STRUCT_MEM +u size) (upd_hdr p (with_used 1) (split_block p size h)).

Lemma malloc_room : 0 <= p /\ 0 <= total b /\ p + len + total b = heap_end h /\
  heap_end h = mem_size_aligned h + 16 /\ 0 < heap_ptr h /\ heap_ptr h + heap_end h + 16 < 2 ^ 32 /\
  hdr h p = seg_hdr (Seg false len) p (last_off 0 0 a) /\ p mod 8 = 0 /\ len mod 8 = 0 /\
  heap_ptr h mod 8 = 0.
Proof.
  destruct (laid_at h a (Seg false len) b HL) as (E & [Hok Hmod] & H1 & H2 & H3 & HLa & _).
  pose proof HL as [S1 S2 S3 S4 _ _ _ _]. simpl in *. pose proof (total_mod _ _ _ _ HLa).
  unfold p. split_and!; try done; lia.
Qed.

Lemma splitted_ok : size + 32 <= len - 16 ->
  laid splitted (a ++ alloc size len ++ b) /\ same_but h splitted /\ lfree splitted = lfree h.
Proof.
  intros Hbig. destruct malloc_room as (H1 & H2 & H3 & H4 & H5 & H6 & E & _ & Hlm & _).
  assert (Ep2 : u32 (u32 (p + SIZEOF_STRUCT_MEM) + size) = p + 16 + size).
  { rewrite sizeof_struct_mem, (u32_small (p + 16)) by lia. rewrite u32_small; [done|lia]. }
  assert (Ealloc : alloc size len = [Seg true (size + 16); Seg false (len - size - 16)]).
  { unfold alloc. by rewrite (proj2 (Z.leb_le _ _)) by lia. }
  unfold splitted, split_block. rewrite Ep2, E, Ealloc. cbn [next seg_hdr sg_len].
  set (h0 := upd_hdr p (with_used 1) _). change (lfree h) with (lfree h0).
  apply (split_laid h a b len size false true HL); [lia|done|lia| |by split].
  intros q. unfold h0. fold p. rewrite !hdr_upd. destruct (decide (q = p)) as [->|]; [|done].
  rewrite decide_True by done. cbn [hdr set_hdr]. rewrite fupd_ne by lia. rewrite E.
  unfold with_used, with_next, seg_hdr. simpl. f_equal. lia.
Qed.

(** The heap with the block marked, counted and its magic set. *)
Definition placed : heap :=
  upd_hdr p (with_magic HEAP_MAGIC)
    (if size + 32 <=? len - 16 then count_used (size + 16) splitted
     else count_used len (upd_hdr p (with_used 1) h)).

(** Changes of headers and counts. *)
Record quietly (k k' : heap) : Prop := {
  qy_heap : same_heap k k';
  qy_lfree : lfree k' = lfree k;
  qy_sem : heap_sem k' = heap_sem k;
  qy_nest : nest k' = nest k;
  qy_counter : malloc_counter k' = malloc_counter k }.

Lemma quietly_trans (k1 k2 k3 : heap) : quietly k1 k2 -> quietly k2 k3 -> quietly k1 k3.
Proof. intros [] []. split; [by eapply same_heap_trans|congruence..]. Qed.

Lemma quietly_upd (o : Z) (f : heap_mem -> heap_mem) (k : heap) : quietly k (upd_hdr o f k).
Proof. by split. Qed.

Lemma quietly_count (n : Z) (k : heap) : quietly k (count_used n k).
Proof. unfold count_used. by destruct (max_mem (set_used (used_mem k +u n) k) <? _). Qed.

Lemma count_used_same (n : Z) (k : heap) : hdr (count_used n k) = hdr k /\
  used_mem (count_used n k) = used_mem k +u n.
Proof. unfold count_used. by destruct (max_mem (set_used (used_mem k +u n) k) <? _). Qed.

Lemma with_magic_same (c : heap_mem) : magic c = HEAP_MAGIC -> with_magic HEAP_MAGIC c = c.
Proof. by destruct c; simpl; intros ->. Qed.

(** Setting the magic number of a block that has it changes no header. *)
Lemma laid_magic (k : heap) (l : list seg) (o : Z) :
  magic (hdr k o) = HEAP_MAGIC -> laid k l -> laid (upd_hdr o (with_magic HEAP_MAGIC) k) l.
Proof.
  intros Hmg [S1 S2 S3 S4 S5 S6 S7 S8].
  assert (Eh : forall q, hdr (upd_hdr o (with_magic HEAP_MAGIC) k) q = hdr k q).
  { intros q. rewrite hdr_upd. destruct (decide (q = o)) as [->|]; [|done]. by apply with_magic_same. }
  split; try done.
  - apply (lay_frame (hdr k)); [|done]. intros q _. apply Eh.
  - by rewrite Eh.
  - by rewrite Eh.
Qed.

Lemma placed_ok : used_mem h = used_total (a ++ Seg false len :: b) ->
  laid placed (a ++ alloc size len ++ b) /\ quietly h placed /\
  used_mem placed = used_total (a ++ alloc size len ++ b).
Proof.
  intros Hu. destruct malloc_room as (H1 & H2 & H3 & H4 & H5 & H6 & E & _ & _ & _).
  destruct (laid_at h a (Seg false len) b HL) as (_ & _ & _ & _ & _ & HLa & HLb).
  pose proof (used_total_bounds _ _ _ _ HLa) as B1. pose proof (used_total_bounds _ _ _ _ HLb) as B2. fold p in B1.
  rewrite !used_total_app, used_total_cons in *. rewrite alloc_used. unfold placed.
  destruct (Z.leb_spec (size + 32) (len - 16)) as [Hbig|Hsmall].
  - destruct (splitted_ok Hbig) as (K1 & K2 & K3).
    destruct (count_used_same (size + 16) splitted) as (C1 & C2).
    assert (Hmg : magic (hdr (count_used (size + 16) splitted) p) = HEAP_MAGIC).
    { rewrite C1. unfold alloc in K1. rewrite (proj2 (Z.leb_le _ _)) in K1 by lia.
      destruct (laid_at splitted a (Seg true (size + 16)) (Seg false (len - size - 16) :: b) K1) as (E1 & _).
      unfold p. by rewrite E1. }
    split_and!.
    + apply laid_magic; [done|]. by apply count_used_laid.
    + eapply quietly_trans; [|apply quietly_upd]. eapply quietly_trans; [|apply quietly_count].
      destruct K2. by split.
    + change (used_mem (count_used (size + 16) splitted) = used_total a + (size + 16 + used_total b)).
      rewrite C2, (sb_used _ _ K2), u32_small; lia.
  - set (h1 := upd_hdr p (with_used 1) h). destruct (count_used_same len h1) as (C1 & C2).
    assert (Hmark : laid h1 (a ++ Seg true len :: b)).
    { apply (laid_mark h a b false true len (with_used 1) HL). done. }
    assert (Hmg : magic (hdr (count_used len h1) p) = HEAP_MAGIC).
    { rewrite C1. destruct (laid_at h1 a (Seg true len) b Hmark) as (E1 & _). unfold p. by rewrite E1. }
    assert (Ea : alloc size len = [Seg true len]).
    { unfold alloc. by rewrite (proj2 (Z.leb_gt _ _)) by lia. }
    rewrite Ea. split_and!.
    + apply laid_magic; [done|]. by apply count_used_laid.
    + eapply quietly_trans; [|apply quietly_upd]. eapply quietly_trans; [|apply quietly_count]. apply quietly_upd.
    + change (used_mem (count_used len h1) = used_total a + (len + used_total b)).
      rewrite C2. change (used_mem h1) with (used_mem h). rewrite u32_small; lia.
Qed.
End MallocAt.

(** ** [malloc] *)

Section MallocAtOk.
Context (h : heap) (a b : list seg) (len size : Z) (fuel : nat).
Let l := a ++ Seg false len :: b.
Let l' := a ++ alloc size len ++ b.
Context (HL : laid h l) (HJ : joined l) (Hlf : lfree h = heap_end h \/ free_start 0 l (lfree h)).
Context (Hu : used_mem h = used_total l) (Hsem : heap_sem h = 0) (Hn : nest h = 0).
Context (Hs : 16 <= size) (Hm : size mod 8 = 0) (Hfit : size <= len - 16).
Context (Hfuel : (length l < fuel)%nat) (Hlow : lfree h <= total a).

Lemma alloc_free (o : Z) : free_start 0 l' o ->
  (free_start 0 l o /\ o ≠ total a) \/ o = total a + 16 + size.
Proof.
  destruct (malloc_room h a b len HL) as (H1 & H2 & H3 & _).
  destruct (laid_at h a (Seg false len) b HL) as (_ & [Hok _] & _ & _ & _ & HLa & HLb).
  pose proof (lay_ok _ _ _ _ HLa) as Ka. pose proof (lay_ok _ _ _ _ HLb) as Kb. simpl in Hok.
  unfold l, l'. rewrite !free_start_app, alloc_total. simpl free_start. rewrite !Z.add_0_l.
  intros [Hf|[Hf|Hf]].
  - left. pose proof (free_start_lt _ _ _ Ka Hf). split; [auto|lia].
  - unfold alloc in Hf. destruct (size + 32 <=? len - 16); simpl in Hf.
    + destruct Hf as [[_ ?]|[[-> _]|[]]]; [done|right; lia].
    + destruct Hf as [[_ ?]|[]]; done.
  - left. pose proof (free_start_ge _ _ _ Kb Hf). split; [auto|lia].
Qed.

Lemma free_alloc (o : Z) : free_start 0 l o -> o ≠ total a -> free_start 0 l' o.
Proof.
  unfold l, l'. rewrite !free_start_app, alloc_total. simpl free_start. rewrite !Z.add_0_l. tauto.
Qed.

(** The pointer to the lowest free block after the allocation. *)
Definition new_lfree : Z := if total a =? lfree h then first_free (total a) (alloc size len ++ b) else lfree h.

Lemma new_lfree_ok :
  (new_lfree = heap_end h \/ free_start 0 l' new_lfree) /\
  (lowest h l -> forall o, free_start 0 l' o -> new_lfree <= o).
Proof.
  destruct (malloc_room h a b len HL) as (H1 & H2 & H3 & _).
  destruct (laid_at h a (Seg false len) b HL) as (_ & Hok & _ & _ & _ & HLa & HLb).
  pose proof (lay_ok _ _ _ _ HLa) as Ka. pose proof (lay_ok _ _ _ _ HLb) as Kb.
  pose proof (alloc_ok size len Hok Hs Hm Hfit) as Kalloc.
  assert (Kab : Forall seg_ok (alloc size len ++ b)) by by apply Forall_app.
  unfold new_lfree. destruct (Z.eqb_spec (total a) (lfree h)) as [E|E].
  - destruct (first_free_spec (alloc size len ++ b) (total a) Kab) as [F1 F2]. split.
    + rewrite total_app, alloc_total in F1. destruct F1 as [->|F1]; [left; lia|right].
      unfold l'. apply free_start_app. right. by rewrite Z.add_0_l.
    + intros HLow o Ho. unfold l' in Ho. apply free_start_app in Ho as [Ho|Ho].
      * pose proof (free_start_lt _ _ _ Ka Ho) as Hlt.
        assert (Ho' : free_start 0 l o) by (unfold l; apply free_start_app; auto).
        specialize (HLow o Ho'). lia.
      * rewrite Z.add_0_l in Ho. by apply F2.
  - split.
    + destruct Hlf as [?|Hf]; [by left|right]. apply free_alloc; [done|lia].
    + intros HLow o [[Ho _]| ->]%alloc_free; [by apply HLow|lia].
Qed.

Lemma malloc_at_ok : exists h', malloc_at fuel (total a) size h = Ret (data_at h (total a)) h' /\
  heap_wf h' l' /\ same_heap h h' /\ malloc_counter h' = malloc_counter h /\
  (lowest h l -> lowest h' l').
Proof.
  destruct (malloc_room h a b len HL) as (H1 & H2 & H3 & H4 & H5 & H6 & E & Hpm & Hlm & Hhm).
  destruct (placed_ok h a b len size HL Hs Hm Hfit Hu) as (P1 & P2 & P3).
  pose proof P1 as [_ _ _ _ PL PT PE _].
  assert (Epl : (if next (hdr h (total a)) -u (total a +u SIZEOF_STRUCT_MEM) >=? size +u SIZEOF_STRUCT_MEM +u MIN_SIZE_ALIGNED
                 then count_used (size +u SIZEOF_STRUCT_MEM)
                        (link_back (total a +u SIZEOF_STRUCT_MEM +u size)
                           (upd_hdr (total a) (with_used 1) (split_block (total a) size h)))
                 else count_used (next (hdr (upd_hdr (total a) (with_used 1) h) (total a)) -u total a)
                        (upd_hdr (total a) (with_used 1) h)) =
                (if size + 32 <=? len - 16 then count_used (size + 16) (splitted h a size)
                 else count_used len (upd_hdr (total a) (with_used 1) h))).
  { rewrite hdr_upd, decide_True by done. rewrite E. cbn [with_used next seg_hdr sg_len].
    rewrite sizeof_struct_mem, min_size_aligned.
    rewrite (u32_small (size + 16)), (u32_small (size + 16 + 16)), (u32_small (total a + 16)) by lia.
    rewrite (u32_small (total a + len - (total a + 16))), (u32_small (total a + len - total a)) by lia.
    replace (total a + len - (total a + 16) >=? size + 16 + 16) with (size + 32 <=? len - 16) by lia.
    replace (total a + len - total a) with len by lia. unfold splitted.
    by rewrite sizeof_struct_mem, (u32_small (total a + 16)) by lia. }
  unfold malloc_at. rewrite Epl. clear Epl.
  change (upd_hdr (total a) (with_magic HEAP_MAGIC) (if size + 32 <=? len - 16 then count_used (size + 16) (splitted h a size)
                 else count_used len (upd_hdr (total a) (with_used 1) h))) with (placed h a len size).
  destruct P2 as [[Q1 Q2 Q3 Q4] Q5 Q6 Q7 Q8]. rewrite Q5.
  assert (Enf : (if total a =? lfree h then next_free fuel (lfree h) (placed h a len size) else Some (lfree h)) = Some new_lfree).
  { unfold new_lfree. destruct (Z.eqb_spec (total a) (lfree h)) as [Ea|]; [|done]. rewrite <- Ea.
    apply lay_app in PL as [_ PL]. rewrite Z.add_0_l in PL. eapply next_free_ok; [exact PL| |exact PE|].
    - rewrite total_app, alloc_total. lia.
    - unfold l in Hfuel. rewrite length_app in Hfuel. simpl in Hfuel. rewrite length_app.
      unfold alloc. destruct (size + 32 <=? len - 16); simpl; lia. }
  rewrite Enf. destruct new_lfree_ok as [N1 N2].
  cbn [heap_ptr heap_end set_lfree hdr]. rewrite Q1, Q2, sizeof_struct_mem. change (RT_ALIGN_SIZE - 1) with 7.
  rewrite (u32_small (heap_ptr h + total a)), (u32_small (heap_ptr h + total a + 16)),
    (u32_small (heap_ptr h + total a + 16 + size)), (u32_small (heap_ptr h + heap_end h)) by lia.
  rewrite land_7.
  replace (heap_ptr h + total a + 16 + size <=? heap_ptr h + heap_end h) with true by lia.
  replace ((heap_ptr h + total a + 16) mod RT_ALIGN_SIZE =? 0) with true by (unfold RT_ALIGN_SIZE; zlia).
  replace ((heap_ptr h + total a) mod 8 =? 0) with true by zlia.
  assert (Eas : negb (total a =? lfree h) || (new_lfree =? heap_end h) || (used (hdr (placed h a len size) new_lfree) =? 0) = true).
  { destruct N1 as [->|Hf]; [by rewrite Z.eqb_refl, orb_true_r|].
    destruct (free_start_split _ _ _ Hf) as (x & m & y & Exy & Eo).
    fold l' in P1. rewrite Exy in P1. destruct (laid_at _ x (Seg false m) y P1) as (Ex & _).
    rewrite Z.add_0_l in Eo. rewrite Eo, Ex. simpl. by rewrite orb_true_r. }
  rewrite Eas. unfold assert. cbn [andb]. eexists. split; [reflexivity|].
  unfold release_sem. cbn [heap_sem set_lfree]. rewrite Q6, Hsem. change (u16 (0 + 1)) with 1.
  split_and!.
  - split; cbn [used_mem lfree heap_end heap_sem nest set_heap_sem set_lfree].
    + by apply set_sem_laid, set_lfree_laid.
    + by apply alloc_joined.
    + by rewrite Q2.
    + exact P3.
    + done.
    + congruence.
  - by split.
  - exact Q8.
  - exact N2.
Qed.
End MallocAtOk.

(** The size that [malloc] looks for. *)
Definition req (n : Z) : Z := Z.max 16 (8 * ((n + 7) / 8)).

Lemma req_mod (n : Z) : req n mod 8 = 0.
Proof. unfold req. zlia. Qed.

(** A request that the heap could serve: either a block of the list is used up or
    split, or there is no block for it and nothing changes. *)
Lemma malloc_ok (fuel : nat) (n : Z) (h : heap) (l : list seg) :
  heap_wf h l -> 0 < n -> n + 7 < 2 ^ 32 -> 8 * ((n + 7) / 8) <= mem_size_aligned h ->
  (length l < fuel)%nat ->
  (exists a len b h', l = a ++ Seg false len :: b /\ req n <= len - 16 /\
     malloc fuel n h = Ret (data_at h (total a)) h' /\ heap_wf h' (a ++ alloc (req n) len ++ b) /\
     same_heap h h' /\ (lowest h l -> lowest h' (a ++ alloc (req n) len ++ b))) \/
  (exists h', malloc fuel n h = Ret 0 h' /\ heap_wf h' l /\ same_heap h h' /\
     (lowest h l -> lowest h' l) /\
     forall a len b, l = a ++ Seg false len :: b -> lfree h <= total a ->
       total a < mem_size_aligned h - req n -> len - 16 < req n).
Proof.
  intros [HL HJ Hlf Hu Hsem Hn] H0 Hn32 Hbig Hf.
  pose proof HL as [S1 S2 S3 S4 SL ST SE SN]. pose proof (req_mod n) as Hrm.
  assert (Hreq : 16 <= req n <= mem_size_aligned h) by (unfold req; lia).
  unfold malloc. rewrite in_thread by done. rewrite taken by done.
  rewrite (proj2 (Z.eqb_neq n 0)) by lia. change RT_ALIGN_SIZE with 8. rewrite rt_align_8 by lia.
  cbn [mem_size_aligned set_counter set_heap_sem]. replace (8 * ((n + 7) / 8) >? mem_size_aligned h) with false by lia.
  rewrite min_size_aligned. replace (if 8 * ((n + 7) / 8) <? 16 then 16 else 8 * ((n + 7) / 8)) with (req n)
    by (unfold req; destruct (Z.ltb_spec (8 * ((n + 7) / 8)) 16); lia).
  set (h0 := set_counter _ _). change (lfree h0) with (lfree h).
  assert (HL0 : laid h0 l) by by split.
  assert (Hsuf : exists l1 l2, l = l1 ++ l2 /\ lfree h = total l1).
  { destruct Hlf as [->|Hfs]; [exists l, []; rewrite app_nil_r; split; [done|lia]|].
    destruct (free_start_split _ _ _ Hfs) as (l1 & m & l2 & -> & ->). exists l1, (Seg false m :: l2). split; [done|lia]. }
  destruct Hsuf as (l1 & l2 & El & Elf). pose proof SL as SL'. rewrite El in SL'.
  apply lay_app in SL' as [SL1 SL2]. rewrite Z.add_0_l in SL2.
  pose proof (lay_total _ _ _ _ SL1) as (Ht1 & _). rewrite El, total_app in ST.
  assert (Efind : malloc_find fuel (lfree h) (req n) h0 = Some (find_fit (mem_size_aligned h) (lfree h) (req n) l2)).
  { rewrite Elf. eapply (malloc_find_ok h0 (req n) l2); [exact SL2|lia| | | |].
    - change (mem_size_aligned h0) with (mem_size_aligned h). lia.
    - change (mem_size_aligned h0) with (mem_size_aligned h). lia.
    - change (mem_size_aligned h0) with (mem_size_aligned h). lia.
    - rewrite El, length_app in Hf. lia. }
  rewrite Efind. destruct (find_fit (mem_size_aligned h) (lfree h) (req n) l2) as [q|] eqn:Eq.
  - left. destruct (find_fit_some _ _ _ _ _ Eq) as (a & len & b & -> & -> & Hle & Hlt).
    destruct (malloc_at_ok h0 (l1 ++ a) b len (req n) fuel) as (h' & E & HW & Hsh & _ & Hlow); try done.
    + by rewrite <- app_assoc, <- El.
    + by rewrite <- app_assoc, <- El.
    + by rewrite <- app_assoc, <- El.
    + by rewrite <- app_assoc, <- El.
    + lia.
    + by rewrite <- app_assoc, <- El.
    + rewrite total_app. change (lfree h0) with (lfree h).
      pose proof SL2 as SL2'. apply lay_app in SL2' as [SLa _]. pose proof (lay_total _ _ _ _ SLa). lia.
    + exists (l1 ++ a), len, b, h'. rewrite Elf. rewrite <- app_assoc in Hlow. simpl in Hlow. rewrite <- El in Hlow.
      split_and!; [by rewrite <- app_assoc|done| |done| |].
      * rewrite <- (total_app l1 a). exact E.
      * destruct Hsh. by split.
      * exact Hlow.
  - right. eexists. split; [reflexivity|]. unfold release_sem. change (heap_sem h0) with 0. change (u16 (0 + 1)) with 1.
    split_and!.
    + split; try done. by apply set_sem_laid.
    + by split.
    + done.
    + intros a len b E Hge Hlt.
      assert (Hpre : exists a', a = l1 ++ a').
      { rewrite El in E. destruct (app_eq_inv _ _ _ _ E) as [(k & -> & Ek)|(k & -> & Ek)].
        - destruct k as [|s k]; [exists []; by rewrite !app_nil_r|]. injection Ek as <- _.
          exfalso. rewrite total_app in Elf. simpl in Elf.
          apply lay_app in SL1 as [_ SLk]. destruct SLk as (_ & [Hk _] & SLk). simpl in Hk.
          pose proof (lay_total _ _ _ _ SLk). lia.
        - by exists k. }
      destruct Hpre as [a' ->]. rewrite El, <- app_assoc in E. apply app_inv_head in E.
      eapply (find_fit_none (mem_size_aligned h) (req n) l2 (lfree h)); [by eapply lay_ok|exact Eq|exact E|].
      rewrite total_app in Hlt. lia.
Qed.
