(* ===== verification/HeapSpec.v ===== *)
(** * What the heap guarantees
    The properties of [malloc], [free], [realloc] and [malloc_align] in terms of the
    blocks in use, and the states they are instantiated at. *)

From S2P Require Import Prelude Mem Heap HeapInv HeapOps.

(** ** Blocks in use *)

(** A block in use starts at offset [o]; [len] counts its header. *)
Fixpoint in_use (p : Z) (l : list seg) (o len : Z) : Prop :=
  match l with
  | [] => False
  | s :: l => (o = p /\ len = sg_len s /\ sg_used s = true) \/ in_use (p + sg_len s) l o len
  end.

Lemma in_use_app (l1 l2 : list seg) : forall p o len,
  in_use p (l1 ++ l2) o len <-> in_use p l1 o len \/ in_use (p + total l1) l2 o len.
Proof.
  induction l1 as [|s l1 IH]; intros p o len; simpl.
  - rewrite Z.add_0_r. tauto.
  - rewrite IH. replace (p + sg_len s + total l1) with (p + (sg_len s + total l1)) by lia. tauto.
Qed.

Lemma in_use_split (l : list seg) : forall p o len, in_use p l o len ->
  exists l1 l2, l = l1 ++ Seg true len :: l2 /\ o = p + total l1.
Proof.
  induction l as [|[u n] l IH]; intros p o len; simpl; [done|].
  intros [(-> & -> & ->)|Hf].
  - exists [], l. split; [done|simpl; lia].
  - destruct (IH _ _ _ Hf) as (l1 & l2 & -> & ->). exists (Seg u n :: l1), l2. simpl. split; [done|lia].
Qed.

Lemma in_use_range (l : list seg) : forall p o len, Forall seg_ok l -> in_use p l o len ->
  p <= o /\ 24 <= len /\ o + len <= p + total l.
Proof.
  induction l as [|s l IH]; intros p o len Hok; simpl; [done|].
  inversion Hok as [|? ? [Hs _] Hl]; subst.
  assert (Ht : 0 <= total l) by (clear -Hl; induction Hl as [|? ? []]; simpl; lia).
  intros [(-> & -> & _)|Hf]; [lia|]. destruct (IH _ _ _ Hl Hf) as (? & ? & ?). lia.
Qed.

(** Two different blocks in use do not overlap. *)
Lemma in_use_disjoint (l : list seg) : forall p o1 n1 o2 n2, Forall seg_ok l ->
  in_use p l o1 n1 -> in_use p l o2 n2 ->
  o1 = o2 /\ n1 = n2 \/ o1 + n1 <= o2 \/ o2 + n2 <= o1.
Proof.
  induction l as [|s l IH]; intros p o1 n1 o2 n2 Hok; [done|].
  inversion Hok as [|? ? _ Hl]; subst.
  intros [(-> & -> & _)|H1] [(-> & -> & _)|H2].
  - by left.
  - destruct (in_use_range _ _ _ _ Hl H2). lia.
  - destruct (in_use_range _ _ _ _ Hl H1). lia.
  - by apply (IH (p + sg_len s)).
Qed.

(** Joining free blocks changes no block in use. *)
Lemma in_use_freed (l1 l2 : list seg) (n o len : Z) :
  in_use 0 (freed l1 n l2) o len <-> in_use 0 (l1 ++ Seg false n :: l2) o len.
Proof.
  assert (Hr : forall p, in_use p (merge_right n l2) o len <-> in_use p (Seg false n :: l2) o len).
  { intros p. destruct l2 as [|[[|] m] l3]; simpl; [tauto|tauto|].
    replace (p + (n + m)) with (p + n + m) by lia. intuition congruence. }
  assert (Em : exists n' l2', merge_right n l2 = Seg false n' :: l2').
  { destruct l2 as [|[[|] m] l3]; simpl; eauto. }
  unfold freed. rewrite in_use_app, <- Hr. destruct Em as (n' & l2' & ->).
  destruct (last_used l1) eqn:El.
  - rewrite merge_left_used by done. by rewrite in_use_app.
  - destruct (exists_last_or_nil l1) as [->|(l0 & [u m] & ->)]; [done|].
    unfold last_used in El. rewrite List.last_last in El. simpl in El. subst u.
    rewrite merge_left_free, !in_use_app, total_app. simpl.
    replace (0 + total l0 + (m + n')) with (0 + (total l0 + (m + 0)) + n') by lia. intuition congruence.
Qed.

Lemma in_use_alloc (a b : list seg) (len size o n : Z) :
  in_use 0 (a ++ alloc size len ++ b) o n <->
  in_use 0 (a ++ Seg false len :: b) o n \/
  (o = total a /\ n = if size + 32 <=? len - 16 then size + 16 else len).
Proof.
  rewrite !in_use_app, alloc_total. simpl. unfold alloc.
  destruct (size + 32 <=? len - 16); simpl; rewrite ?Z.add_0_l; intuition (congruence || auto).
Qed.

Lemma in_use_used (l1 l2 : list seg) (n o len : Z) :
  in_use 0 (l1 ++ Seg true n :: l2) o len <->
  in_use 0 (l1 ++ Seg false n :: l2) o len \/ (o = total l1 /\ len = n).
Proof. rewrite !in_use_app. simpl. rewrite Z.add_0_l. intuition congruence. Qed.

Lemma wf_ok (h : heap) (l : list seg) : heap_wf h l -> Forall seg_ok l.
Proof. intros [HL _ _ _ _ _]. eapply lay_ok, HL. Qed.

Lemma in_use_others (a b : list seg) (len x k : Z) : Forall seg_ok (a ++ Seg true len :: b) ->
  in_use 0 (a ++ Seg false len :: b) x k <-> in_use 0 (a ++ Seg true len :: b) x k /\ x ≠ total a.
Proof.
  intros [Ha [[H1 _] Hb]%Forall_cons]%Forall_app. rewrite !in_use_app. simpl. rewrite Z.add_0_l. split.
  - intros [H|[(_ & _ & ?)|H]]; [|done|].
    + split; [by left|]. destruct (in_use_range _ _ _ _ Ha H). lia.
    + split; [by right; right|]. destruct (in_use_range _ _ _ _ Hb H). simpl in H1. lia.
  - intros [[H|[(-> & _)|H]] Hne]; [by left|lia|by right; right].
Qed.

(** ** A heap of 1024 bytes *)

Definition no_heap : heap :=
  Heap 0 0 0 (fun _ => HeapMem 0 0 0 0) 0 0 0 0 0 (fun _ => 0) 0.

Definition demo_heap : heap := rt_system_heap_init 0x81b00004 0x81b00428 no_heap.

Lemma init_eq (begin_addr end_addr : Z) (h : heap) :
  0 < begin_addr -> begin_addr + 64 <= end_addr < 2 ^ 32 ->
  exists b M, begin_addr <= b <= begin_addr + 7 /\ b mod 8 = 0 /\ M mod 8 = 0 /\ 16 <= M /\
    end_addr - 7 <= b + M + 32 <= end_addr /\
    rt_system_heap_init begin_addr end_addr h =
      Heap b (M + 16) M (fupd (fupd (hdr h) 0 (HeapMem HEAP_MAGIC 0 (M + 16) 0)) (M + 16)
        (HeapMem HEAP_MAGIC 1 (M + 16) (M + 16))) 0 (used_mem h) (max_mem h) 1 (malloc_counter h)
        (bytes h) (nest h).
Proof.
  intros Hb He. unfold rt_system_heap_init. change RT_ALIGN_SIZE with 8.
  rewrite rt_align_8 by lia. unfold RT_ALIGN_DOWN. change (8 - 1) with 7. rewrite land_not7 by lia.
  rewrite sizeof_struct_mem.
  set (b := 8 * ((begin_addr + 7) / 8)). set (e := 8 * (end_addr / 8)).
  assert (Hbr : begin_addr <= b <= begin_addr + 7) by (unfold b; zlia).
  assert (Her : end_addr - 7 <= e <= end_addr) by (unfold e; zlia).
  assert (Hbm : b mod 8 = 0) by (unfold b; zlia). assert (Hem : e mod 8 = 0) by (unfold e; zlia).
  clearbody b e. exists b, (e - b - 32).
  replace ((e >? 2 * 16) && (e - 2 * 16 >=? b)) with true by lia.
  replace (e - b - 2 * 16) with (e - b - 32) by lia.
  split_and!; [lia|lia|done|zlia|lia|lia|lia|done].
Qed.

Lemma heap_init_wf (begin_addr end_addr : Z) (h : heap) :
  0 < begin_addr -> begin_addr + 64 <= end_addr < 2 ^ 32 -> used_mem h = 0 -> nest h = 0 ->
  let h' := rt_system_heap_init begin_addr end_addr h in
  heap_wf h' [Seg false (mem_size_aligned h' + 16)] /\
  lowest h' [Seg false (mem_size_aligned h' + 16)].
Proof.
  intros Hb He Hu Hn h'. unfold h'.
  destruct (init_eq begin_addr end_addr h Hb He) as (b & M & Hbr & Hbm & HMm & HM & Hend & ->).
  cbn [mem_size_aligned]. split.
  - assert (E0 : fupd (fupd (hdr h) 0 (HeapMem HEAP_MAGIC 0 (M + 16) 0)) (M + 16)
                   (HeapMem HEAP_MAGIC 1 (M + 16) (M + 16)) 0 = HeapMem HEAP_MAGIC 0 (M + 16) 0).
    { rewrite fupd_ne by lia. by rewrite fupd_eq. }
    split; [|simpl; auto|right; simpl; by left|by simpl|done|done].
    split; cbn [heap_ptr heap_end mem_size_aligned hdr]; try done.
    + lia.
    + cbn [lay]. rewrite E0. split_and!; [done| |done]. split; simpl; [lia|zlia].
    + simpl. lia.
    + by rewrite fupd_eq.
    + by rewrite fupd_eq.
  - intros o [[-> _]|[]]. done.
Qed.

Lemma demo_heap_wf : heap_wf demo_heap [Seg false 1040] /\ lowest demo_heap [Seg false 1040].
Proof. apply (heap_init_wf 0x81b00004 0x81b00428 no_heap); [lia|lia|reflexivity|reflexivity]. Qed.

(** A heap set up on a range of at least 64 bytes is one free block that lies
    inside the range, 8-byte aligned, and misses less than 48 bytes of it. *)
Lemma heap_init_ok (begin_addr end_addr : Z) (h : heap) :
  0 < begin_addr -> begin_addr + 64 <= end_addr < 2 ^ 32 -> used_mem h = 0 -> nest h = 0 ->
  let h' := rt_system_heap_init begin_addr end_addr h in
  heap_wf h' [Seg false (mem_size_aligned h' + 16)] /\ heap_ptr h' mod 8 = 0 /\
  begin_addr <= heap_ptr h' /\ heap_ptr h' + mem_size_aligned h' + 32 <= end_addr /\
  end_addr - begin_addr - 48 < mem_size_aligned h'.
Proof.
  intros Hb He Hu Hn h'. split; [by apply heap_init_wf|]. unfold h'.
  destruct (init_eq begin_addr end_addr h Hb He) as (b & M & Hbr & Hbm & HMm & HM & Hend & ->).
  simpl. split_and!; [done|lia..].
Qed.

(** ** [malloc] and [free] *)

Lemma malloc_block (fuel : nat) (n : Z) (h : heap) (l : list seg) :
  heap_wf h l -> 0 < n -> n + 7 < 2 ^ 32 -> 8 * ((n + 7) / 8) <= mem_size_aligned h ->
  (length l < fuel)%nat ->
  exists r h' l', malloc fuel n h = Ret r h' /\ heap_wf h' l' /\ bytes h' = bytes h /\
    heap_ptr h' = heap_ptr h /\
    if r =? 0 then l' = l
    else r mod 8 = 0 /\ exists o len, r = data_at h o /\ n + 16 <= len /\
      0 <= o /\ r + n <= heap_ptr h + heap_end h /\
      (forall o' len', in_use 0 l' o' len' <-> in_use 0 l o' len' \/ (o' = o /\ len' = len)) /\
      (forall o' len', in_use 0 l o' len' -> o' + len' <= o \/ o + len <= o').
Proof.
  intros HW H0 Hn Hbig Hf. pose proof HW as [HL _ _ _ _ _]. pose proof HL as [S1 S2 S3 S4 SL ST SE SN].
  destruct (malloc_ok fuel n h l HW H0 Hn Hbig Hf)
    as [(a & len & b & h' & -> & Hle & E & HW' & [Q1 Q2 Q3 Q4] & _)|(h' & E & HW' & [Q1 Q2 Q3 Q4] & _)].
  - destruct (laid_at h a (Seg false len) b HL) as (_ & [Hok Hmod] & H1 & H2 & H3 & HLa & _). simpl in Hok, H3.
    pose proof (total_mod _ _ _ _ HLa) as Hmod0.
    exists (data_at h (total a)), h', (a ++ alloc (req n) len ++ b). split_and!; [done|done|done|done|].
    unfold data_at. rewrite (proj2 (Z.eqb_neq _ 0)) by lia. split; [zlia|].
    assert (Hreq : n <= req n) by (unfold req; zlia).
    exists (total a), (if req n + 32 <=? len - 16 then req n + 16 else len).
    assert (Hiu : forall o' len', in_use 0 (a ++ alloc (req n) len ++ b) o' len' <->
      in_use 0 (a ++ Seg false len :: b) o' len' \/
      (o' = total a /\ len' = if req n + 32 <=? len - 16 then req n + 16 else len))
      by (intros; apply in_use_alloc).
    split_and!; [done|destruct (Z.leb_spec (req n + 32) (len - 16)); lia|lia|lia|exact Hiu|].
    intros o' len' Hu.
    destruct (in_use_disjoint (a ++ alloc (req n) len ++ b) 0 o' len' (total a)
      (if req n + 32 <=? len - 16 then req n + 16 else len)) as [[-> ->]|?]; [by eapply wf_ok| | | |done].
    + apply Hiu. by left.
    + apply Hiu. by right.
    + apply in_use_app in Hu. simpl in Hu. pose proof (lay_ok _ _ _ _ HLa) as Ka.
      destruct Hu as [Hu|[(_ & _ & ?)|Hu]]; [|done|].
      * destruct (in_use_range _ _ _ _ Ka Hu). lia.
      * destruct (laid_at h a (Seg false len) b HL) as (_ & _ & _ & _ & _ & _ & HLb).
        destruct (in_use_range _ _ _ _ (lay_ok _ _ _ _ HLb) Hu). lia.
  - exists 0, h', l. by split_and!.
Qed.

(** A [malloc] that returns early keeps the semaphore. *)
Lemma malloc_refused (fuel : nat) (n : Z) (h : heap) (l : list seg) :
  heap_wf h l -> (n = 0 \/ mem_size_aligned h < 8 * ((n + 7) / 8)) -> 0 <= n -> n + 7 < 2 ^ 32 ->
  malloc fuel n h = Ret 0 (set_counter (s32 (malloc_counter h + 1)) (set_heap_sem 0 h)).
Proof.
  intros [_ _ _ _ Hs Hn] Hcase H0 Hmax. unfold malloc. rewrite in_thread by done. rewrite taken by done.
  destruct (Z.eqb_spec n 0) as [->|Hne]; [reflexivity|]. destruct Hcase as [?|Hbig]; [done|].
  change RT_ALIGN_SIZE with 8. rewrite rt_align_8 by lia. cbn [mem_size_aligned set_counter set_heap_sem].
  rewrite (proj2 (Z.gtb_lt _ _) Hbig). reflexivity.
Qed.

Lemma sem_taken_blocks (A : Type) (k : heap -> outcome A) (h : heap) : heap_sem h = 0 -> nest h = 0 -> not_in_interrupt h (take_sem h k) = Blocked.
Proof. intros E1 E2. rewrite in_thread by done. unfold take_sem. by rewrite E1. Qed.

(** C15: [malloc] of [n] bytes always returns.  (1) For [n] from 1 to what the heap could hold
    at most, the result is [NULL] and no block has changed, or the 8-byte aligned data of one
    new block of at least the requested size, which lies inside the heap and overlaps no
    block in use.  No other block in use, and no byte of the users, changes, and the
    semaphore of the heap is free again.  (2) For 0 bytes, or more than the heap could hold
    at most, the result is [NULL] and no block has changed, but the semaphore of the heap is
    kept: every later [malloc] and [free] waits for it for ever.  The sizes are those that
    do not wrap around when they are rounded up to 8. *)
Theorem malloc_spec (fuel : nat) (n : Z) (h : heap) (l : list seg) :
  heap_wf h l -> 0 <= n -> n + 7 < 2 ^ 32 -> (length l < fuel)%nat ->
  (0 < n -> 8 * ((n + 7) / 8) <= mem_size_aligned h ->
    exists r h' l', malloc fuel n h = Ret r h' /\ heap_wf h' l' /\ bytes h' = bytes h /\
      heap_ptr h' = heap_ptr h /\ heap_sem h' = 1 /\
      if r =? 0 then l' = l
      else r mod 8 = 0 /\ exists o len, r = data_at h o /\ n + 16 <= len /\
        0 <= o /\ r + n <= heap_ptr h + heap_end h /\
        (forall o' len', in_use 0 l' o' len' <-> in_use 0 l o' len' \/ (o' = o /\ len' = len)) /\
        (forall o' len', in_use 0 l o' len' -> o' + len' <= o \/ o + len <= o')) /\
  (n = 0 \/ mem_size_aligned h < 8 * ((n + 7) / 8) ->
    exists h', malloc fuel n h = Ret 0 h' /\ hdr h' = hdr h /\ bytes h' = bytes h /\ heap_sem h' = 0 /\
      forall k m a, malloc k m h' = Blocked /\ free a h' = Blocked).
Proof.
  intros HW H0 Hmax Hf. split.
  - intros Hn Hbig. destruct (malloc_block fuel n h l HW Hn Hmax Hbig Hf) as (r & h' & l' & E & HW' & Hb & Hp & Hcase).
    exists r, h', l'. pose proof (hw_sem _ _ HW'). split_and!; done.
  - intros Hcase. rewrite (malloc_refused fuel n h l) by done. eexists. split; [reflexivity|]. split_and!; [done..|].
    pose proof (hw_nest _ _ HW). intros k m a. by split; apply sem_taken_blocks.
Qed.

Lemma malloc_spec_witness : heap_wf demo_heap [Seg false 1040] /\
  (exists r h', malloc 5 100 demo_heap = Ret r h' /\ r mod 8 = 0) /\
  (exists h', malloc 5 2000 demo_heap = Ret 0 h' /\ malloc 5 100 h' = Blocked).
Proof.
  destruct demo_heap_wf as [HW _]. split; [exact HW|]. split.
  - destruct (malloc_spec 5 100 demo_heap [Seg false 1040] HW) as [Hok _]; [lia|lia|simpl; lia|].
    destruct Hok as (r & h' & l' & E & _ & _ & _ & _ & H); [lia|vm_compute; discriminate|].
    exists r, h'. split; [exact E|]. destruct (Z.eqb_spec r 0) as [E0|E0].
    + rewrite E0. reflexivity.
    + apply H.
  - destruct (malloc_spec 5 2000 demo_heap [Seg false 1040] HW) as [_ Hno]; [lia|lia|simpl; lia|].
    destruct Hno as (h' & E & _ & _ & _ & Hblock); [right; vm_compute; reflexivity|]. exists h'. split; [exact E|]. apply (Hblock 5%nat 100 0).
Defined.

(** when [lfree] is the lowest free block, as it is unless a block was shrunk by
    [realloc], a [malloc] fails only if no free block is big enough and starts before
    the last [size] bytes of the heap. *)
Theorem malloc_first_fit (fuel : nat) (n : Z) (h h' : heap) (l : list seg) :
  heap_wf h l -> lowest h l -> 0 < n -> n + 7 < 2 ^ 32 -> 8 * ((n + 7) / 8) <= mem_size_aligned h ->
  (length l < fuel)%nat -> malloc fuel n h = Ret 0 h' ->
  forall a len b, l = a ++ Seg false len :: b -> total a < mem_size_aligned h - req n -> len - 16 < req n.
Proof.
  intros HW Hlow H0 Hn Hbig Hf E a len b El Hlt. pose proof HW as [HL _ _ _ _ _]. pose proof HL as [S1 S2 _ _ SL _ _ _].
  destruct (malloc_ok fuel n h l HW H0 Hn Hbig Hf) as [(a' & len' & b' & h2 & El' & _ & E' & _)|(h2 & _ & _ & _ & _ & Hall)].
  - rewrite E in E'. injection E' as E0 _. subst l. rewrite El' in HL.
    destruct (laid_at h a' (Seg false len') b' HL) as (_ & _ & H1 & _). unfold data_at in E0. lia.
  - apply (Hall a len b El); [|done]. apply Hlow. rewrite El. apply free_start_app. right. rewrite Z.add_0_l. by left.
Qed.

(** The search stops before a last block that would be an exact fit. *)
Lemma malloc_first_fit_witness : heap_wf demo_heap [Seg false 1040] /\ lowest demo_heap [Seg false 1040] /\
  (exists h', malloc 5 1024 demo_heap = Ret 0 h') /\
  forall h', malloc 5 1000 demo_heap ≠ Ret 0 h'.
Proof.
  destruct demo_heap_wf as [HW Hlow]. split; [exact HW|split; [exact Hlow|split]].
  - eexists. vm_compute. reflexivity.
  - intros h' E.
    pose proof (malloc_first_fit 5 1000 demo_heap h' [Seg false 1040] HW Hlow) as H.
    specialize (H ltac:(lia) ltac:(lia) ltac:(vm_compute; discriminate) ltac:(simpl; lia) E [] 1040 [] eq_refl).
    assert (Hlt : total [] < mem_size_aligned demo_heap - req 1000) by (vm_compute; reflexivity).
    specialize (H Hlt). vm_compute in H. discriminate.
Defined.

Lemma free_block (h : heap) (l : list seg) (o len : Z) :
  heap_wf h l -> in_use 0 l o len ->
  exists h' l', free (data_at h o) h = Ret tt h' /\ heap_wf h' l' /\ heap_ptr h' = heap_ptr h /\
    bytes h' = bytes h /\ (forall x k, in_use 0 l' x k <-> in_use 0 l x k /\ x ≠ o) /\
    used_mem h' = used_mem h - len /\ (lowest h l -> lowest h' l').
Proof.
  intros HW Hu. destruct (in_use_split _ _ _ _ Hu) as (l1 & l2 & -> & Eo). rewrite Z.add_0_l in Eo. subst o.
  destruct (free_ok h l1 l2 len HW) as (h' & E & HW' & [Q1 Q2 Q3 Q4] & _ & Hlow).
  exists h', (freed l1 len l2). split_and!; [done|done|done|done| | |done].
  - intros x k. rewrite in_use_freed. by apply in_use_others, (wf_ok h).
  - rewrite (hw_used _ _ HW'), (hw_used _ _ HW).
    destruct (freeing_ok h l1 l2 len HW 0) as (HLf & _).
    unfold freed. destruct (plug_used _ l1 l2 len HLf) as [-> _]. rewrite !used_total_app, !used_total_cons. lia.
Qed.

(** C16: [free] of a block in use returns, takes exactly that block out of use, joins it
    with its free neighbours, and changes no byte. *)
Theorem free_spec (h : heap) (l : list seg) (o len : Z) :
  heap_wf h l -> in_use 0 l o len ->
  exists h' l', free (data_at h o) h = Ret tt h' /\ heap_wf h' l' /\ heap_ptr h' = heap_ptr h /\
    bytes h' = bytes h /\ (forall x k, in_use 0 l' x k <-> in_use 0 l x k /\ x ≠ o) /\
    used_mem h' = used_mem h - len /\ (lowest h l -> lowest h' l').
Proof. exact (free_block h l o len). Qed.

(** The heap with one block in use. *)
Definition demo_heap1 : heap :=
  match malloc 5 100 demo_heap with Ret _ h => h | _ => demo_heap end.

Lemma single_block (n len : Z) (a b : list seg) : [Seg false n] = a ++ Seg false len :: b ->
  a = [] /\ len = n /\ b = [].
Proof. destruct a as [|s a]; [by intros [= <- <-]|]. by destruct a. Qed.

Lemma demo_heap1_wf : heap_wf demo_heap1 [Seg true 120; Seg false 920].
Proof.
  destruct demo_heap_wf as [HW _].
  destruct (malloc_ok 5 100 demo_heap [Seg false 1040] HW)
    as [(a & len & b & h' & El & _ & E & HW' & _)|(h' & E & _ & _ & _ & Hall)];
    [lia|lia|vm_compute; discriminate|simpl; lia| |].
  - pose proof (single_block _ _ _ _ El) as Hab. clear - Hab E HW'.
    destruct Hab as (-> & -> & ->). unfold demo_heap1. rewrite E. exact HW'.
  - exfalso. specialize (Hall [] 1040 [] eq_refl ltac:(vm_compute; discriminate) ltac:(vm_compute; reflexivity)).
    vm_compute in Hall. discriminate.
Qed.

Lemma free_spec_witness : heap_wf demo_heap1 [Seg true 120; Seg false 920] /\
  exists h', free (data_at demo_heap1 0) demo_heap1 = Ret tt h' /\ used_mem h' = 0.
Proof.
  split; [exact demo_heap1_wf|].
  destruct (free_spec demo_heap1 [Seg true 120; Seg false 920] 0 120 demo_heap1_wf) as (h' & l' & E & _ & _ & _ & _ & Hu & _);
    [simpl; auto|].
  exists h'. split; [exact E|]. rewrite Hu. vm_compute. reflexivity.
Defined.

(** [free] undoes [malloc]: freeing a block just allocated restores the list of
    blocks, so that no allocation pattern fragments the heap for good. *)
Lemma malloc_free_roundtrip (fuel : nat) (n r : Z) (h h1 : heap) (l : list seg) :
  heap_wf h l -> 0 < n -> n + 7 < 2 ^ 32 -> 8 * ((n + 7) / 8) <= mem_size_aligned h ->
  (length l < fuel)%nat -> malloc fuel n h = Ret r h1 -> r ≠ 0 ->
  exists h2, free r h1 = Ret tt h2 /\ heap_wf h2 l /\ used_mem h2 = used_mem h /\
    bytes h2 = bytes h /\ (lowest h l -> lowest h2 l).
Proof.
  intros HW H0 Hn Hbig Hf E Hr.
  destruct (malloc_ok fuel n h l HW H0 Hn Hbig Hf)
    as [(a & len & b & h' & -> & Hle & E' & HW' & [Q1 Q2 Q3 Q4] & Hlow)|(h' & E' & _)];
    [|rewrite E in E'; injection E' as -> _; done].
  rewrite E in E'. injection E' as -> <-.
  pose proof (hw_joined _ _ HW) as (_ & _ & [?|[Ha Hb]])%joined_mid; [done|].
  assert (Hal : exists m c, alloc (req n) len ++ b = Seg true m :: c /\ merge_right m c = Seg false len :: b).
  { unfold alloc. destruct (req n + 32 <=? len - 16).
    - eexists _, _. split; [reflexivity|]. simpl. do 2 f_equal. lia.
    - exists len, b. split; [done|]. destruct b as [|[[|] m] b]; done. }
  destruct Hal as (m & c & Eal & Emr). rewrite Eal in HW', Hlow.
  destruct (free_ok h1 a c m HW') as (h2 & E2 & HW2 & [R1 R2 R3 R4] & _ & Hlow2).
  unfold freed in *. rewrite Emr, merge_left_used in HW2, Hlow2 by done.
  exists h2. unfold data_at in *. rewrite <- Q1. split_and!; [done|done| |congruence|auto].
  by rewrite (hw_used _ _ HW2), (hw_used _ _ HW).
Qed.

(** A block that is freed when nothing below it is free is the first that the next requests
    get. *)
Example freed_block_reused :
  match obind (malloc 5 512 demo_heap1) (fun r h => obind (free r h) (fun _ h => obind (malloc 5 40 h) (fun r' h => Ret (r' - r) h))) with
  | Ret d _ => d = 0
  | _ => False
  end.
Proof. vm_compute. reflexivity. Qed.

(** the early returns of [malloc] and [free] keep the heap's semaphore: after a
    request for 0 bytes, or for more than the heap holds, or a [free(NULL)], every
    later [malloc] and [free] blocks for ever. *)
Theorem early_return_blocks (fuel : nat) (n : Z) (h : heap) (l : list seg) :
  heap_wf h l -> (n = 0 \/ mem_size_aligned h < 8 * ((n + 7) / 8)) -> 0 <= n -> n + 7 < 2 ^ 32 ->
  exists h1 h2, malloc fuel n h = Ret 0 h1 /\ free 0 h = Ret tt h2 /\
    forall m a, malloc fuel m h1 = Blocked /\ free a h1 = Blocked /\
                malloc fuel m h2 = Blocked /\ free a h2 = Blocked.
Proof.
  intros HW Hcase H0 Hmax. rewrite (malloc_refused fuel n h l) by done. pose proof (hw_sem _ _ HW). pose proof (hw_nest _ _ HW).
  eexists _, (set_heap_sem 0 h). split; [reflexivity|]. split.
  - unfold free. rewrite in_thread by done. by rewrite taken.
  - intros m a. by split_and!; apply sem_taken_blocks.
Qed.

Lemma early_return_blocks_witness : heap_wf demo_heap [Seg false 1040] /\
  exists h1, malloc 5 0 demo_heap = Ret 0 h1 /\ malloc 5 8 h1 = Blocked.
Proof.
  destruct demo_heap_wf as [HW _]. split; [exact HW|].
  destruct (early_return_blocks 5 0 demo_heap [Seg false 1040] HW) as (h1 & h2 & E & _ & H);
    [left; reflexivity|lia|lia|].
  exists h1. split; [exact E|]. apply (H 8 0).
Defined.
