(* ===== verification/HeapRealloc.v ===== *)
(** * Resizing and aligned blocks
    [realloc] and [malloc_align]: which block the caller has afterwards, and what its
    bytes are. *)

From S2P Require Import Prelude Mem Heap HeapInv HeapOps HeapSpec.

(** ** Cutting a block in use *)

Section Shrink.
Context (h : heap) (a b : list seg) (len size : Z).
Context (HW : heap_wf h (a ++ Seg true len :: b)).
Context (Hs : 8 <= size) (Hm : size mod 8 = 0) (Hfit : size + 40 <= len).
Let p := total a.
Let ptr2 := p + 16 + size.

(** The list of blocks afterwards. *)
Definition shrunk : list seg := a ++ Seg true (size + 16) :: merge_right (len - size - 16) b.

(** The heap when [plug_holes] is called. *)
Definition cut : heap :=
  link_back ptr2 (split_block p size
    (set_used (used_mem h -u (len - 16 -u size)) (set_heap_sem 0 h))).

Lemma cut_ok : let l := (a ++ [Seg true (size + 16)]) ++ Seg false (len - size - 16) :: b in
  laid cut l /\ same_heap h cut /\ lfree cut = lfree h /\ heap_sem cut = 0 /\ nest cut = 0 /\
  used_mem cut = used_total l.
Proof.
  pose proof HW as [HL HJ Hlf Hu Hsem Hn].
  destruct (laid_at h a (Seg true len) b HL) as (E & [Hok Hlm] & H1 & H2 & H3 & HLa & HLb).
  pose proof HL as [S1 S2 S3 S4 _ _ _ _]. simpl in Hok, Hlm, H3.
  pose proof (used_total_bounds _ _ _ _ HLa). pose proof (used_total_bounds _ _ _ _ HLb).
  set (h1 := set_used (used_mem h -u (len - 16 -u size)) (set_heap_sem 0 h)).
  assert (HL1 : laid h1 (a ++ Seg true len :: b)) by by apply set_used_laid, set_sem_laid.
  assert (Ep2 : u32 (u32 (p + SIZEOF_STRUCT_MEM) + size) = ptr2).
  { unfold ptr2, p. rewrite sizeof_struct_mem, (u32_small (total a + 16)) by lia. rewrite u32_small; lia. }
  destruct (split_laid h1 a b len size true true HL1 Hs Hm Hfit (split_block p size h1)) as (K1 & K2 & K3).
  - intros q. unfold split_block. rewrite Ep2, hdr_upd. fold p.
    cbn [hdr set_hdr h1 set_used set_heap_sem]. unfold fupd. fold ptr2.
    change (total a) with p in E. rewrite E.
    destruct (decide (q = p)); [|done]. rewrite decide_False by (unfold ptr2; lia).
    unfold with_next, seg_hdr. simpl. f_equal. unfold ptr2. lia.
  - by split.
  - cbv zeta. rewrite <- (app_assoc a). cbn [app].
    assert (Hcut : same_but h1 cut) by exact K2.
    split_and!; [exact K1| | |apply Hcut|rewrite (sb_nest _ _ Hcut); exact Hn|].
    + eapply same_heap_trans; [|apply same_but_heap, Hcut]. by split.
    + exact K3.
    + rewrite (sb_used _ _ Hcut). unfold h1. cbn [used_mem set_used]. rewrite Hu, !used_total_app, !used_total_cons.
      rewrite (u32_small (len - 16 - size)) by lia. rewrite u32_small; lia.
Qed.

Lemma shrink_ok : exists h', plug_holes ptr2 cut = Ret tt h' /\ heap_wf (release_sem h') shrunk /\
  same_heap h h'.
Proof.
  pose proof HW as [_ HJ Hlf _ _ _]. destruct cut_ok as (HL & Hh & Elf & Esem & Enest & Eu).
  apply joined_mid in HJ as (Ja & Jb & _).
  destruct (plug_wf cut (a ++ [Seg true (size + 16)]) b (len - size - 16) HL) as (h' & E & HL' & HJ' & Hlf' & Hu' & Hsb & _).
  - apply joined_snoc. split; [done|by left].
  - done.
  - rewrite Elf, (sh_end _ _ Hh). destruct Hlf as [?|Hf]; [by left|right].
    rewrite <- app_assoc. apply free_start_app in Hf. apply free_start_app.
    destruct Hf as [Hf|Hf]; [by left|right]. simpl in *. destruct Hf as [[_ ?]|Hf]; [done|].
    right. right. by replace (0 + total a + (size + 16) + (len - size - 16)) with (0 + total a + len) by lia.
  - done.
  - exists h'. replace ptr2 with (total (a ++ [Seg true (size + 16)])) by (rewrite total_app; unfold ptr2, p; simpl; lia).
    split; [done|].
    assert (El : merge_left (a ++ [Seg true (size + 16)]) (merge_right (len - size - 16) b) = shrunk).
    { rewrite merge_left_used by (unfold last_used; by rewrite List.last_last). unfold shrunk. by rewrite <- app_assoc. }
    rewrite El in *. split; [|eapply same_heap_trans; [exact Hh|by apply same_but_heap]].
    split; cbn [release_sem set_heap_sem lfree heap_end used_mem heap_sem nest]; try done.
    + by apply set_sem_laid.
    + by rewrite (sb_sem _ _ Hsb), Esem.
    + by rewrite (sb_nest _ _ Hsb).
Qed.

(** The block keeps its place, the others stay. *)
Lemma in_use_shrunk (o n : Z) :
  in_use 0 shrunk o n <-> (o = p /\ n = size + 16) \/ in_use 0 (a ++ Seg false len :: b) o n.
Proof.
  unfold shrunk. rewrite !in_use_app. simpl. rewrite Z.add_0_l. fold p.
  assert (Hr : in_use (p + (size + 16)) (merge_right (len - size - 16) b) o n <-> in_use (p + len) b o n).
  { destruct b as [|[[|] m] b']; simpl.
    - intuition congruence.
    - replace (p + (size + 16) + (len - size - 16)) with (p + len) by lia. intuition congruence.
    - replace (p + (size + 16) + (len - size - 16 + m)) with (p + len + m) by lia. intuition congruence. }
  rewrite Hr. intuition congruence.
Qed.
End Shrink.

(** ** [realloc] *)

Section Realloc.
Context (h : heap) (a b : list seg) (len n : Z).
Let l := a ++ Seg true len :: b.
Let rmem := data_at h (total a).
Let N := 8 * ((n + 7) / 8).
Context (HW : heap_wf h l).
Context (Hn : 0 < n) (Hmax : n + 7 < 2 ^ 32) (Hbig : N <= mem_size_aligned h).

(** What is left of [realloc] once its arguments are checked. *)
Lemma realloc_eq (fuel : nat) : realloc fuel rmem n h =
  let h0 := set_heap_sem 0 h in
  if len - 16 =? N then Ret rmem (release_sem h0)
  else if N + 28 <? len - 16 then
    obind (plug_holes (total a + 16 + N) (cut h a len N)) (fun _ h => Ret rmem (release_sem h))
  else obind (malloc fuel N (release_sem h0)) (fun nmem h =>
    if negb (nmem =? 0) then
      obind (free rmem (set_bytes (memcpy nmem rmem (Z.min (len - 16) N) (bytes h)) h)) (fun _ h => Ret nmem h)
    else Ret nmem h).
Proof.
  pose proof HW as [HL _ _ _ Hsem Hnest].
  destruct (laid_at h a (Seg true len) b HL) as (E & [Hok Hlm] & H1 & H2 & H3 & _).
  pose proof HL as [S1 S2 S3 S4 _ _ _ _]. simpl in Hok, H3.
  assert (HN : 8 <= N < 2 ^ 32) by (unfold N in *; zlia).
  unfold realloc. rewrite in_thread by done. change RT_ALIGN_SIZE with 8. rewrite rt_align_8 by lia. fold N.
  replace (N >? mem_size_aligned h) with false by lia.
  replace (N =? 0) with false by lia. replace (rmem =? 0) with false by (unfold rmem, data_at; lia).
  rewrite taken by done. cbn [heap_ptr heap_end hdr set_heap_sem].
  rewrite (u32_small (heap_ptr h + heap_end h)) by lia.
  replace ((rmem <? heap_ptr h) || (heap_ptr h + heap_end h <=? rmem)) with false by (unfold rmem, data_at; lia).
  rewrite sizeof_struct_mem.
  assert (Ep : u32 (u32 (rmem - 16) - heap_ptr h) = total a).
  { unfold rmem, data_at. rewrite (u32_small (_ - 16)) by lia. rewrite u32_small; lia. }
  rewrite Ep, E. cbn [next seg_hdr sg_len].
  assert (Es : u32 (u32 (total a + len - total a) - 16) = len - 16).
  { rewrite (u32_small (total a + len - total a)) by lia. rewrite u32_small; lia. }
  rewrite Es. rewrite (u32_small (N + 16)) by lia. change MIN_SIZE with 12. rewrite (u32_small (N + 16 + 12)) by lia.
  replace (N + 16 + 12) with (N + 28) by lia.
  assert (Ep2 : N + 28 < len - 16 -> u32 (u32 (total a + 16) + N) = total a + 16 + N).
  { intros. rewrite (u32_small (total a + 16)) by lia. rewrite u32_small; lia. }
  destruct (Z.eqb_spec (len - 16) N) as [|Hne]; [done|].
  destruct (Z.ltb_spec (N + 28) (len - 16)) as [Hlt|Hge]; [by rewrite Ep2|].
  destruct (malloc fuel N _) as [r h2| | |]; try done. cbn [obind]. cbv zeta.
  replace (if len - 16 <? N then len - 16 else N) with (Z.min (len - 16) N); [done|].
  destruct (Z.ltb_spec (len - 16) N); lia.
Qed.
End Realloc.

(** Changes that the invariant does not see. *)
Lemma heap_wf_resem (h : heap) (l : list seg) : heap_wf h l -> heap_wf (release_sem (set_heap_sem 0 h)) l.
Proof. intros [HL HJ Hlf Hu Hs Hn]. split; try done. by apply set_sem_laid, set_sem_laid. Qed.

Lemma heap_wf_bytes (h : heap) (l : list seg) (m : memory) : heap_wf h l -> heap_wf (set_bytes m h) l.
Proof. intros [HL HJ Hlf Hu Hs Hn]. split; try done. by destruct HL; split. Qed.

(** The data of a block in use lies in the address space. *)
Lemma data_in_space (h : heap) (l : list seg) (o len k : Z) : heap_wf h l -> in_use 0 l o len ->
  0 <= k <= len - 16 -> in_space (data_at h o) k /\ 0 < data_at h o.
Proof.
  intros HW Hu Hk. destruct (in_use_range _ _ _ _ (wf_ok _ _ HW) Hu).
  pose proof HW as [[? ? ? ? ? Ht _ _] _ _ _ _ _]. rewrite Ht in *.
  unfold in_space, data_at. lia.
Qed.

(** The state after [realloc] of the block at [o], of length [len], to [n] bytes. *)
Definition resized (h : heap) (l : list seg) (o len n r : Z) (h' : heap) (l' : list seg) : Prop :=
  heap_wf h' l' /\ heap_ptr h' = heap_ptr h /\
  if r =? 0 then l' = l /\ bytes h' = bytes h
  else exists o' len', r = data_at h o' /\ n + 16 <= len' /\
    (forall x k, in_use 0 l' x k <-> (x = o' /\ k = len') \/ (in_use 0 l x k /\ x ≠ o)) /\
    (forall i, 0 <= i < Z.min n (len - 16) -> bytes h' (r + i) = bytes h (data_at h o + i)) /\
    (forall x k i, in_use 0 l x k -> x ≠ o -> 0 <= i < k - 16 ->
       bytes h' (data_at h x + i) = bytes h (data_at h x + i)).

Section ReallocOk.
Context (h : heap) (a b : list seg) (len n : Z) (fuel : nat).
Let l := a ++ Seg true len :: b.
Let rmem := data_at h (total a).
Let N := 8 * ((n + 7) / 8).
Context (HW : heap_wf h l).
Context (Hn : 0 < n) (Hmax : n + 7 < 2 ^ 32) (Hbig : N <= mem_size_aligned h).
Context (Hfuel : (length l < fuel)%nat).

Lemma here : in_use 0 l (total a) len.
Proof. apply in_use_app. right. simpl. rewrite Z.add_0_l. by left. Qed.

Lemma realloc_same : len - 16 = N -> resized h l (total a) len n rmem (release_sem (set_heap_sem 0 h)) l.
Proof.
  intros E. split; [by apply heap_wf_resem|split; [done|]].
  destruct (data_in_space h l (total a) len 0 HW here) as [_ Hpos].
  { pose proof (in_use_range _ _ _ _ (wf_ok _ _ HW) here). lia. }
  unfold rmem. rewrite (proj2 (Z.eqb_neq _ _)) by lia.
  exists (total a), len. split_and!; [done|unfold N in E; zlia| |done|done].
  intros x k. destruct (decide (x = total a)) as [->|Hne]; [|tauto]. split; [|intros [[_ ->]|[_ ?]]; [apply here|done]].
  intros Hu. left. split; [done|].
  pose proof (in_use_range _ _ _ _ (wf_ok _ _ HW) here). pose proof (in_use_range _ _ _ _ (wf_ok _ _ HW) Hu).
  destruct (in_use_disjoint l 0 _ _ _ _ (wf_ok _ _ HW) Hu here) as [[_ ?]|?]; lia.
Qed.

Lemma realloc_shrink : N + 28 < len - 16 ->
  exists h', plug_holes (total a + 16 + N) (cut h a len N) = Ret tt h' /\
    resized h l (total a) len n rmem (release_sem h') (shrunk a b len N).
Proof.
  intros Hlt. pose proof HW as [HL _ _ _ _ _].
  destruct (laid_at h a (Seg true len) b HL) as (_ & [_ Hlm] & _). simpl in Hlm.
  destruct (data_in_space h l (total a) len 0 HW here) as [_ Hpos]; [unfold N in *; zlia|].
  destruct (shrink_ok h a b len N HW) as (h' & E & HW' & [Q1 Q2 Q3 Q4]); [unfold N; zlia..|].
  exists h'. split; [done|]. split; [done|split; [done|]]. unfold rmem.
  rewrite (proj2 (Z.eqb_neq _ _)) by lia. exists (total a), (N + 16).
  split_and!; [done|unfold N; zlia| | |].
  - intros x k. rewrite (in_use_shrunk h) by exact HW. rewrite in_use_others by exact (wf_ok _ _ HW). done.
  - intros i _. cbn [bytes release_sem set_heap_sem]. by rewrite Q4.
  - intros x k i _ _ _. cbn [bytes release_sem set_heap_sem]. by rewrite Q4.
Qed.

Lemma realloc_grow : exists r h' l', obind (malloc fuel N (release_sem (set_heap_sem 0 h))) (fun nmem h =>
    if negb (nmem =? 0) then
      obind (free rmem (set_bytes (memcpy nmem rmem (Z.min (len - 16) N) (bytes h)) h)) (fun _ h => Ret nmem h)
    else Ret nmem h) = Ret r h' /\ resized h l (total a) len n r h' l'.
Proof.
  assert (HN : 8 <= N /\ n <= N /\ N mod 8 = 0 /\ N < n + 8) by (unfold N; zlia).
  pose proof HW as [[S1 S2 _ S4 _ _ _ _] _ _ _ _ _].
  destruct (malloc_block fuel N _ l (heap_wf_resem h l HW)) as (r & h2 & l2 & -> & HW2 & Eb & Ep & Hr);
    [lia|lia| |done|].
  { cbn [mem_size_aligned release_sem set_heap_sem]. zlia. }
  cbn [obind]. cbn [bytes heap_ptr heap_end release_sem set_heap_sem] in Eb, Ep, Hr.
  destruct (Z.eqb_spec r 0) as [->|Hne]; cbn [negb].
  - subst l2. exists 0, h2, l. split; [done|]. split; [done|by split].
  - destruct Hr as (_ & o & m & Er & Hlm & Ho & Hle & Hin & Hdis).
    assert (Hu2 : in_use 0 l2 (total a) len) by (apply Hin; left; exact here).
    assert (Hnew : in_use 0 l2 o m) by (apply Hin; by right).
    pose proof (in_use_range _ _ _ _ (wf_ok _ _ HW) here) as Hlen.
    pose proof (Hdis _ _ here) as Hd.
    set (k := Z.min (len - 16) N).
    set (h3 := set_bytes (memcpy r rmem k (bytes h2)) h2).
    destruct (free_block h3 l2 (total a) len (heap_wf_bytes h2 l2 _ HW2) Hu2) as (h4 & l4 & E4 & HW4 & Ep4 & Eb4 & Hin4 & _).
    assert (Erm : data_at h3 (total a) = rmem) by (unfold data_at, h3, rmem; simpl; unfold data_at; lia).
    rewrite Erm in E4. fold h3. rewrite E4. cbn [obind]. exists r, h4, l4.
    assert (Hsp : in_space r k).
    { rewrite Er. replace (data_at _ o) with (data_at h2 o) by (unfold data_at; simpl; lia).
      apply (data_in_space h2 l2 o m); [done|done|]. unfold k. lia. }
    assert (Hsp' : in_space rmem k) by (apply (data_in_space h l (total a) len); [done|exact here|unfold k; lia]).
    assert (Hbytes : forall x, bytes h4 x = blit r rmem k (bytes h) x).
    { intros x. rewrite Eb4. unfold h3. cbn [bytes set_bytes]. rewrite memcpy_blit by done. by rewrite Eb. }
    split; [done|]. split; [done|split]; [by rewrite Ep4|]. rewrite (proj2 (Z.eqb_neq _ _)) by done.
    exists o, m. split_and!; [done|lia| | |].
    + intros x j. rewrite Hin4, Hin. intuition lia.
    + intros i Hi. rewrite Hbytes. unfold blit. rewrite (proj2 (Z.leb_le _ _)), (proj2 (Z.ltb_lt _ _)) by (unfold k; lia).
      simpl. f_equal. unfold rmem. lia.
    + intros x j i Hx _ Hi. rewrite Hbytes. unfold blit. pose proof (Hdis _ _ Hx).
      replace ((r <=? data_at h x + i) && (data_at h x + i <? r + k)) with false; [done|].
      rewrite Er. unfold data_at, k. simpl. lia.
Qed.
End ReallocOk.

(** C17: [realloc] of a block in use to [n] bytes returns.  Either there is no room,
    and nothing changed, or the caller has a block of at least [n] bytes whose first
    bytes are those of the old one, as many as both hold; the other blocks in use are
    the same as before and so is everything in them. *)
Theorem realloc_spec (fuel : nat) (n : Z) (h : heap) (l : list seg) (o len : Z) :
  heap_wf h l -> in_use 0 l o len -> 0 < n -> n + 7 < 2 ^ 32 ->
  8 * ((n + 7) / 8) <= mem_size_aligned h -> (length l < fuel)%nat ->
  exists r h' l', realloc fuel (data_at h o) n h = Ret r h' /\ resized h l o len n r h' l'.
Proof.
  intros HW Hu H0 Hmax Hbig Hf. destruct (in_use_split _ _ _ _ Hu) as (a & b & -> & Eo).
  rewrite Z.add_0_l in Eo. subst o. rewrite (realloc_eq h a b len n HW H0 Hmax Hbig). cbv zeta.
  destruct (Z.eqb_spec (len - 16) (8 * ((n + 7) / 8))) as [E|Hne].
  - eexists _, _, _. split; [done|]. by apply (realloc_same h a b len n fuel).
  - destruct (Z.ltb_spec (8 * ((n + 7) / 8) + 28) (len - 16)) as [Hlt|Hge].
    + destruct (realloc_shrink h a b len n fuel HW) as (h' & E & Hr); try done.
      rewrite E. eexists _, _, _. split; [done|exact Hr].
    + by apply realloc_grow.
Qed.

Lemma realloc_spec_witness : heap_wf demo_heap1 [Seg true 120; Seg false 920] /\
  exists r h' l', realloc 5 (data_at demo_heap1 0) 200 demo_heap1 = Ret r h' /\
    resized demo_heap1 [Seg true 120; Seg false 920] 0 120 200 r h' l' /\ r = 0x81b00090.
Proof.
  split; [exact demo_heap1_wf|].
  destruct (realloc_spec 5 200 demo_heap1 [Seg true 120; Seg false 920] 0 120 demo_heap1_wf) as (r & h' & l' & E & H);
    [simpl; auto|lia|lia|vm_compute; discriminate|simpl; lia|].
  exists r, h', l'. split; [exact E|split; [exact H|]]. vm_compute in E. by injection E.
Defined.

(** ** [malloc_align] *)

Definition load32 (a : Z) (m : memory) : Z :=
  u8 (m a) + 2 ^ 8 * u8 (m (a +u 1)) + 2 ^ 16 * u8 (m (a +u 2)) + 2 ^ 24 * u8 (m (a +u 3)).

Lemma u8_s8 (x : Z) : u8 (s8 x) = u8 x.
Proof. zlia. Qed.

Lemma load_store32 (a v : Z) (m : memory) : 0 <= a -> a + 4 < 2 ^ 32 -> 0 <= v < 2 ^ 32 ->
  load32 a (store32 a v m) = v.
Proof.
  intros Ha Hb Hv. unfold load32, store32. rewrite !u32_small by lia. simpl_fupd.
  rewrite !u8_s8, !Z.shiftr_div_pow2 by lia. zlia.
Qed.

Lemma store32_elsewhere (a v x : Z) (m : memory) : 0 <= a -> a + 4 < 2 ^ 32 -> ~ (a <= x < a + 4) ->
  store32 a v m x = m x.
Proof. intros Ha Hb Hx. unfold store32. rewrite !u32_small by lia. by simpl_fupd. Qed.

(** The address that [malloc_align] returns for a block whose data is at [p]. *)
Lemma align_ptr_ok (p k : Z) : 0 <= p -> p mod 8 = 0 -> 2 <= k <= 30 -> p + 2 ^ k < 2 ^ 32 ->
  let r := if Z.land p (2 ^ k -u 1) =? 0 then p +u 2 ^ k
           else Z.land (p +u (2 ^ k -u 1)) (not32 (2 ^ k -u 1)) in
  r mod 2 ^ k = 0 /\ p + 4 <= r <= p + 2 ^ k.
Proof.
  intros Hp Hm Hk Hmax. cbv zeta.
  assert (H4 : 4 <= 2 ^ k <= 2 ^ 30) by (split; [change 4 with (2 ^ 2)|]; apply Z.pow_le_mono_r; lia).
  rewrite (u32_small (2 ^ k - 1)) by lia. rewrite land_pow2 by lia.
  destruct (Z.eqb_spec (p mod 2 ^ k) 0) as [E|E].
  - rewrite u32_small by lia. split; [|lia]. rewrite Z.add_mod, E, Z.mod_same by lia. done.
  - rewrite u32_small by lia. rewrite land_not_pow2 by lia.
    set (q := p + (2 ^ k - 1)). pose proof (Z.div_mod q (2 ^ k) ltac:(lia)) as Hd.
    pose proof (Z.mod_pos_bound q (2 ^ k) ltac:(lia)) as Hb.
    replace (q - q mod 2 ^ k) with (q / 2 ^ k * 2 ^ k) by lia. split; [by apply Z.mod_mul; lia|].
    (* both are multiples of 4, and different *)
    assert (Hc : exists c, 2 ^ k = 4 * c).
    { exists (2 ^ (k - 2)). change 4 with (2 ^ 2). rewrite <- Z.pow_add_r by lia. f_equal. lia. }
    destruct Hc as [c Hc]. assert (Hmul : q / 2 ^ k * 2 ^ k = 4 * (q / 2 ^ k * c)) by lia.
    assert (Hne : q / 2 ^ k * 2 ^ k <> p).
    { intros Heq. apply E. rewrite <- Heq. apply Z.mod_mul. lia. }
    assert (Hge : p <= q / 2 ^ k * 2 ^ k) by (unfold q in *; lia).
    split; [|unfold q in *; lia]. assert (p = 4 * (p / 4)) by zlia. lia.
Qed.

(** C18: [malloc_align] with an alignment of [2^k] bytes, [2 <= k], fails as [malloc]
    does, or returns an aligned address with [n] bytes behind it, inside the data of a
    new block that overlaps no other block in use; the word before the address is
    inside that block too and holds the pointer that [free] takes. *)
Theorem malloc_align_spec (fuel : nat) (n k : Z) (h : heap) (l : list seg) :
  heap_wf h l -> 0 < n -> 2 <= k <= 30 -> n + 2 ^ k + 17 < 2 ^ 32 -> n + 2 ^ k + 10 <= mem_size_aligned h ->
  (length l < fuel)%nat ->
  exists r h' l', malloc_align fuel n (2 ^ k) h = Ret r h' /\ heap_wf h' l' /\ heap_ptr h' = heap_ptr h /\
    if r =? 0 then l' = l /\ bytes h' = bytes h
    else r mod 2 ^ k = 0 /\ exists o len, data_at h o + 4 <= r /\ r + n <= data_at h o + (len - 16) /\
      load32 (r - 4) (bytes h') = data_at h o /\
      (forall x, ~ (r - 4 <= x < r) -> bytes h' x = bytes h x) /\
      (forall o' len', in_use 0 l' o' len' <-> in_use 0 l o' len' \/ (o' = o /\ len' = len)) /\
      (forall o' len', in_use 0 l o' len' -> o' + len' <= o \/ o + len <= o').
Proof.
  intros HW Hn Hk Hmax Hbig Hf.
  assert (H4 : 4 <= 2 ^ k <= 2 ^ 30) by (split; [change 4 with (2 ^ 2)|]; apply Z.pow_le_mono_r; lia).
  assert (Hc : 2 ^ k mod 4 = 0).
  { replace k with (2 + (k - 2)) by lia. rewrite Z.pow_add_r by lia. rewrite Z.mul_comm. by apply Z.mod_mul. }
  unfold malloc_align. change 3 with (2 ^ 2 - 1).
  rewrite (u32_small (2 ^ k + _)), (u32_small (n + _)) by (simpl; lia). rewrite !land_not_pow2 by (simpl; lia).
  change (2 ^ 2) with 4. set (n4 := n + (4 - 1) - (n + (4 - 1)) mod 4).
  replace (2 ^ k + (4 - 1) - (2 ^ k + (4 - 1)) mod 4) with (2 ^ k) by (generalize dependent (2 ^ k); intros; zlia).
  assert (Hn4 : n <= n4 <= n + 3) by (unfold n4; zlia). clearbody n4. rewrite (u32_small (n4 + 2 ^ k)) by lia.
  pose proof HW as [[S1 S2 _ S4 _ _ _ _] _ _ _ _ _].
  assert (Hal : 8 * ((n4 + 2 ^ k + 7) / 8) <= mem_size_aligned h) by (generalize dependent (2 ^ k); intros; zlia).
  destruct (malloc_block fuel (n4 + 2 ^ k) h l HW) as (p & h' & l' & -> & HW' & Eb & Ep & Hp); [lia|lia|done|done|].
  cbn [obind]. destruct (Z.eqb_spec p 0) as [->|Hne]; cbn [negb].
  - exists 0, h', l'. by subst l'.
  - destruct Hp as (Hp8 & o & len & -> & Hlen & Ho & Hle & Hin & Hdis).
    assert (Hpos : 0 < data_at h o) by (unfold data_at; lia).
    destruct (align_ptr_ok (data_at h o) k) as [Hr Hrng]; [lia|done|done|lia|].
    set (r := if Z.land _ _ =? 0 then _ else _) in *. clearbody r.
    exists r, (set_bytes (store32 (r -u 4) (data_at h o) (bytes h')) h'), l'.
    split_and!; [done|by apply heap_wf_bytes|done|]. replace (r =? 0) with false by lia.
    rewrite (u32_small (r - 4)) by lia.
    split; [done|]. exists o, len. cbn [bytes set_bytes].
    split_and!; [lia|lia|apply load_store32; lia| |done|done].
    intros x Hx. rewrite store32_elsewhere by lia. by rewrite Eb.
Qed.

Lemma malloc_align_spec_witness : heap_wf demo_heap [Seg false 1040] /\
  exists h', malloc_align 5 100 32 demo_heap = Ret 0x81b00020 h' /\ load32 0x81b0001c (bytes h') = 0x81b00018.
Proof.
  destruct demo_heap_wf as [HW _]. split; [exact HW|].
  destruct (malloc_align_spec 5 100 5 demo_heap [Seg false 1040] HW) as (r & h' & l' & E & _ & _ & H);
    [lia|lia|lia|vm_compute; discriminate|simpl; lia|].
  assert (E' : exists h2, malloc_align 5 100 (2 ^ 5) demo_heap = Ret 0x81b00020 h2 /\
                          load32 0x81b0001c (bytes h2) = 0x81b00018)
    by (eexists; split; vm_compute; reflexivity).
  destruct E' as (h2 & E2 & E3). rewrite E in E2. injection E2 as -> ->. exists h2. split; [exact E|exact E3].
Defined.

(** ** Sizes that wrap around *)

(** The alignment of the size wraps: a request for one of the last seven sizes
    before [2^32] gives a block of 16 bytes. *)
Lemma malloc_size_wraps (fuel : nat) (n : Z) (h : heap) (l : list seg) :
  heap_wf h l -> 2 ^ 32 - 7 <= n < 2 ^ 32 -> (length l < fuel)%nat ->
  exists r h', malloc fuel n h = Ret r h' /\ malloc fuel 16 h = Ret r h'.
Proof.
  intros HW Hn Hf. pose proof HW as [[S1 S2 _ _ _ _ _ _] _ _ _ Hs Hnest].
  destruct (malloc_block fuel 16 h l HW) as (r & h' & l' & E & _); [lia|lia|zlia|done|].
  exists r, h'. split; [|done]. rewrite <- E. unfold malloc. rewrite !in_thread by done. rewrite !taken by done.
  replace (n =? 0) with false by lia. change (16 =? 0) with false. cbv beta iota.
  assert (Ea : RT_ALIGN n RT_ALIGN_SIZE = 0).
  { unfold RT_ALIGN. change RT_ALIGN_SIZE with 8. replace (u32 (n + 8 - 1)) with (n + 7 - 2 ^ 32) by zlia.
    change (8 - 1) with (2 ^ 3 - 1). rewrite land_not_pow2 by lia. zlia. }
  rewrite Ea. change (RT_ALIGN 16 RT_ALIGN_SIZE) with 16.
  cbn [mem_size_aligned set_counter set_heap_sem].
  replace (0 >? mem_size_aligned h) with false by lia. by replace (16 >? mem_size_aligned h) with false by lia.
Qed.

