(* ===== verification/RtList.v ===== *)
(** * Intrusive doubly linked lists ([rt_list_t], os/thread.c)

    Every kernel queue is a circular list of nodes embedded in the kernel's
    objects.  The model keeps the [next] and [prev] fields of every node and
    translates the five list routines pointer by pointer; [ring] relates a list
    head to the sequence of nodes a traversal meets, and [qwf] does so for every
    head of the kernel at once. *)

From S2P Require Import Prelude.

(** The nodes of the program: the list heads of os/thread.c and of the
    semaphores and mailboxes, and the three nodes embedded in each
    [struct rt_thread]. *)
Inductive node : Set :=
  | NReady (prio : Z)      (* &rt_thread_priority_table[prio] *)
  | NDead                  (* &rt_thread_dead *)
  | NAll                   (* &rt_all_thread *)
  | NTimers                (* &rt_timer_list *)
  | NSem (s : Z)           (* &sem->suspend_thread_list *)
  | NMbRecv (m : Z)        (* &mb->suspend_thread_list *)
  | NMbSend (m : Z)        (* &mb->suspend_sender_thread *)
  | NT (t : Z)             (* &thread->tlist *)
  | NA (t : Z)             (* &thread->allList *)
  | NTm (t : Z).           (* &thread->thread_timer.timelist *)

#[export] Instance node_eq_dec : EqDecision node.
Proof. solve_decision. Defined.

Record links : Type := Links { nxt : node -> node; prv : node -> node }.

Definition set_nxt (L : links) (n v : node) : links :=
  Links (fupd (nxt L) n v) (prv L).
Definition set_prv (L : links) (n v : node) : links :=
  Links (nxt L) (fupd (prv L) n v).

(** ** The routines *)

Definition rt_list_init (L : links) (l : node) : links :=
  set_nxt (set_prv L l l) l l.

Definition rt_list_insert_before (L : links) (l n : node) : links :=
  let L := set_nxt L (prv L l) n in
  let L := set_prv L n (prv L l) in
  let L := set_prv L l n in
  set_nxt L n l.

Definition rt_list_insert_after (L : links) (l n : node) : links :=
  let L := set_prv L (nxt L l) n in
  let L := set_nxt L n (nxt L l) in
  let L := set_nxt L l n in
  set_prv L n l.

Definition rt_list_remove (L : links) (n : node) : links :=
  let L := set_prv L (nxt L n) (prv L n) in
  let L := set_nxt L (prv L n) (nxt L n) in
  let L := set_prv L n n in
  set_nxt L n (prv L n).

Definition rt_list_isempty (L : links) (l : node) : bool :=
  bool_decide (nxt L l = l).

(** ** Rings *)

(** From node [a] the [next] fields meet exactly [l] and then [b], and the
    [prev] fields lead back. *)
Fixpoint dseg (L : links) (a : node) (l : list node) (b : node) : Prop :=
  match l with
  | [] => nxt L a = b /\ prv L b = a
  | x :: l => nxt L a = x /\ prv L x = a /\ dseg L x l b
  end.

Definition ring (L : links) (h : node) (l : list node) : Prop :=
  dseg L h l h /\ NoDup (h :: l).

(** A node that is on no list. *)
Definition self (L : links) (n : node) : Prop := nxt L n = n /\ prv L n = n.

Lemma dseg_app (L : links) (a x b : node) (l1 l2 : list node) :
  dseg L a (l1 ++ x :: l2) b <-> dseg L a l1 x /\ dseg L x l2 b.
Proof. revert a; induction l1 as [|y l1 IH]; intros a; simpl; [|rewrite IH]; tauto. Qed.

Lemma dseg_ext (L L' : links) (a b : node) (l : list node) :
  (forall n, n ∈ a :: l -> nxt L' n = nxt L n) ->
  (forall n, n ∈ l ++ [b] -> prv L' n = prv L n) ->
  dseg L a l b -> dseg L' a l b.
Proof.
  revert a; induction l as [|x l IH]; intros a Hn Hp; simpl.
  - rewrite Hn, Hp by set_solver. done.
  - rewrite Hn, Hp by set_solver. intros (? & ? & ?). split_and!; [done..|].
    apply IH; set_solver.
Qed.

Lemma ring_ext (L L' : links) (h : node) (l : list node) :
  (forall n, n ∈ h :: l -> nxt L' n = nxt L n /\ prv L' n = prv L n) ->
  ring L h l -> ring L' h l.
Proof.
  intros H [Hd Hn]. split; [|done]. apply (dseg_ext L); [| |done].
  - intros. by apply H.
  - intros n Hin. apply H. set_solver.
Qed.

Lemma ring_next (L : links) (h : node) (l : list node) :
  ring L h l -> nxt L h = hd h l.
Proof. intros [H _]. destruct l; simpl in *; naive_solver. Qed.

Lemma ring_prev (L : links) (h : node) (l : list node) :
  ring L h l -> prv L h = List.last l h.
Proof.
  intros [H _]. destruct l as [|z l _] using rev_ind; [by destruct H|].
  rewrite List.last_last. apply dseg_app in H. by destruct H as [_ [_ ?]].
Qed.

Lemma ring_isempty (L : links) (h : node) (l : list node) :
  ring L h l -> rt_list_isempty L h = bool_decide (l = []).
Proof.
  intros H. unfold rt_list_isempty. rewrite (ring_next _ _ _ H).
  destruct H as [_ Hn]. apply NoDup_cons in Hn as [Hh _].
  apply bool_decide_ext. destruct l; simpl; [done|]. set_solver.
Qed.

Ltac links := unfold rt_list_init, rt_list_insert_before, rt_list_insert_after,
  rt_list_remove, set_nxt, set_prv; simpl; simpl_fupd.

Lemma ring_init (L : links) (h : node) : ring (rt_list_init L h) h [].
Proof. split; [links; split; by links | apply NoDup_singleton]. Qed.

Lemma insert_before_frame (L : links) (h n x : node) (l : list node) :
  ring L h l -> x ∉ h :: l -> x ≠ n ->
  nxt (rt_list_insert_before L h n) x = nxt L x /\
  prv (rt_list_insert_before L h n) x = prv L x.
Proof.
  intros Hr Hx Hn. unfold rt_list_insert_before, set_nxt, set_prv; simpl.
  rewrite (ring_prev _ _ _ Hr).
  assert (x ≠ List.last l h).
  { intros ->. apply Hx. destruct l as [|z l _] using rev_ind; [set_solver|].
    rewrite List.last_last. set_solver. }
  assert (x ≠ h) by set_solver. split; by simpl_fupd.
Qed.

Lemma insert_after_frame (L : links) (h n x : node) (l : list node) :
  ring L h l -> x ∉ h :: l -> x ≠ n ->
  nxt (rt_list_insert_after L h n) x = nxt L x /\
  prv (rt_list_insert_after L h n) x = prv L x.
Proof.
  intros Hr Hx Hn. unfold rt_list_insert_after, set_nxt, set_prv; simpl.
  rewrite (ring_next _ _ _ Hr).
  assert (x ≠ hd h l) by (destruct l; set_solver).
  assert (x ≠ h) by set_solver. split; by simpl_fupd.
Qed.

Lemma ring_insert_before (L : links) (h n : node) (l : list node) :
  ring L h l -> n ∉ h :: l -> ring (rt_list_insert_before L h n) h (l ++ [n]).
Proof.
  intros Hr Hn. pose proof (ring_prev _ _ _ Hr) as Hp. destruct Hr as [Hd Hnd].
  split; [|apply NoDup_cons in Hnd as [? ?]; apply NoDup_cons; split;
    [set_solver | apply NoDup_app; set_solver by (apply NoDup_singleton)]].
  unfold rt_list_insert_before, set_nxt, set_prv; simpl. rewrite Hp.
  destruct l as [|z l _] using rev_ind; simpl.
  { assert (h ≠ n) by set_solver. simpl_fupd. by split_and!. }
  rewrite List.last_last in *.
  apply NoDup_cons in Hnd as [Hh (Hl & Hz & _)%NoDup_app].
  assert (z ≠ h /\ z ≠ n /\ h ≠ n) as (? & ? & ?) by set_solver.
  rewrite <- app_assoc. simpl. apply dseg_app in Hd as [Hd _]. apply dseg_app; split.
  - apply (dseg_ext L); [| |done]; simpl; intros x Hx.
    + assert (x ≠ z /\ x ≠ n) as [? ?]; [|by simpl_fupd]. set_solver.
    + assert (x ≠ h /\ x ≠ n) as [? ?]; [|by simpl_fupd]. set_solver.
  - simpl. simpl_fupd. by split_and!.
Qed.

Lemma ring_insert_after (L : links) (h n : node) (l : list node) :
  ring L h l -> n ∉ h :: l -> ring (rt_list_insert_after L h n) h (n :: l).
Proof.
  intros Hr Hn. pose proof (ring_next _ _ _ Hr) as Hp. destruct Hr as [Hd Hnd].
  split; [|apply NoDup_cons in Hnd as [? ?]; rewrite !NoDup_cons; set_solver].
  unfold rt_list_insert_after, set_nxt, set_prv; simpl. rewrite Hp.
  assert (h ≠ n) by set_solver.
  destruct l as [|z l]; simpl; [simpl_fupd; by split_and!|].
  apply NoDup_cons in Hnd as [Hh [Hz Hl]%NoDup_cons].
  assert (z ≠ h /\ z ≠ n) as (? & ?) by set_solver.
  simpl_fupd. split_and!; [done..|].
  destruct Hd as (_ & _ & Hd). apply (dseg_ext L); [| |done]; simpl; intros x Hx.
  - assert (x ≠ h /\ x ≠ n) as [? ?]; [|by simpl_fupd]. set_solver.
  - assert (x ≠ z /\ x ≠ n) as [? ?]; [|by simpl_fupd]. set_solver.
Qed.

(** [rt_list_remove] of the node between [l1] and [l2]. *)
Lemma ring_remove (L : links) (h n : node) (l1 l2 : list node) :
  ring L h (l1 ++ n :: l2) -> ring (rt_list_remove L n) h (l1 ++ l2).
Proof.
  intros [Hd Hnd]. split.
  2: { apply NoDup_cons in Hnd as [Hh (? & Hx & [? ?]%NoDup_cons)%NoDup_app].
       apply NoDup_cons. split; [set_solver|]. apply NoDup_app. set_solver. }
  apply NoDup_cons in Hnd as [Hh (Hl1 & Hx & [Hn Hl2]%NoDup_cons)%NoDup_app].
  assert (n ≠ h) by set_solver.
  apply dseg_app in Hd as [Hd1 Hd2].
  assert (prv L n = List.last l1 h) as Hp.
  { destruct l1 as [|z l1 _] using rev_ind; [by destruct Hd1|].
    rewrite List.last_last. apply dseg_app in Hd1. by destruct Hd1 as [_ [_ ?]]. }
  assert (nxt L n = hd h l2) as Hs by (destruct l2; simpl in Hd2; naive_solver).
  unfold rt_list_remove, set_nxt, set_prv; simpl. rewrite Hp, Hs.
  assert (n ≠ hd h l2) by (destruct l2; set_solver). simpl_fupd.
  destruct l1 as [|z l1 _] using rev_ind; simpl.
  - destruct l2 as [|y l2]; simpl in *; [simpl_fupd; by split_and!|].
    assert (y ≠ h /\ y ≠ n) as [? ?] by set_solver.
    simpl_fupd. split_and!; [done..|].
    destruct Hd2 as (_ & _ & Hd2). apply NoDup_cons in Hl2 as [? ?].
    apply (dseg_ext L); [| |done]; simpl; intros x Hi.
    + assert (x ≠ n /\ x ≠ h) as [? ?] by set_solver. by simpl_fupd.
    + assert (x ≠ n /\ x ≠ y) as [? ?] by set_solver. by simpl_fupd.
  - rewrite List.last_last in *.
    apply dseg_app in Hd1 as [Hd1 _].
    assert (Hx' : forall x, x ∈ l1 ++ [z] -> x ≠ n /\ (x ∉ l2) /\ x ≠ h).
    { intros x Hi. pose proof (Hx x Hi). set_solver. }
    apply NoDup_app in Hl1 as (Hl1 & Hz & _).
    assert (Hzl : z ≠ n /\ (z ∉ l2) /\ z ≠ h) by (apply Hx'; set_solver).
    destruct Hzl as (Hzn & Hzl & Hzh).
    rewrite <- app_assoc; simpl. apply dseg_app; split.
    + apply (dseg_ext L); [| |done]; simpl; intros x Hi.
      * assert (x ≠ n /\ x ≠ z) as [? ?] by (clear -Hi Hx' Hz Hzh H; set_solver).
        by simpl_fupd.
      * destruct (Hx' x Hi) as (? & ? & ?).
        assert (x ≠ hd h l2) by (destruct l2; simpl; [done|]; intros ->; by apply H2, list_elem_of_here).
        by simpl_fupd.
    + destruct l2 as [|y l2]; simpl in *; [simpl_fupd; by split_and!|].
      apply not_elem_of_cons in Hzl as [Hzy Hzl], Hn as [Hny Hn].
      assert (Hyh : y ≠ h) by (clear -Hh; set_solver).
      simpl_fupd. split_and!; [done..|].
      destruct Hd2 as (_ & _ & Hd2). apply NoDup_cons in Hl2 as [Hy ?].
      apply (dseg_ext L); [| |done]; simpl; intros x Hi.
      * assert (x ≠ n /\ x ≠ z) as [? ?] by (clear -Hi Hzy Hzl Hny Hn; set_solver).
        by simpl_fupd.
      * assert (x ≠ n /\ x ≠ y) as [? ?] by (clear -Hi Hn Hy H Hyh; set_solver).
        by simpl_fupd.
Qed.

Lemma remove_self (L : links) (n : node) : self (rt_list_remove L n) n.
Proof. split; unfold rt_list_remove, set_nxt, set_prv; simpl; by simpl_fupd. Qed.

Lemma remove_frame (L : links) (h n x : node) (l : list node) :
  ring L h l -> n ∈ l -> x ∉ h :: l ->
  nxt (rt_list_remove L n) x = nxt L x /\ prv (rt_list_remove L n) x = prv L x.
Proof.
  intros [Hd _] (l1 & l2 & ->)%list_elem_of_split Hx. apply dseg_app in Hd as [H1 H2].
  assert (prv L n ∈ h :: l1).
  { destruct l1 as [|z l1 _] using rev_ind; [destruct H1 as [_ ->]; set_solver|].
    apply dseg_app in H1 as [_ [_ ->]]. set_solver. }
  assert (nxt L n ∈ h :: l2).
  { destruct l2; simpl in H2; destruct H2 as [-> _]; set_solver. }
  unfold rt_list_remove, set_nxt, set_prv; simpl.
  assert (x ≠ prv L n /\ x ≠ nxt L n /\ x ≠ n) as (? & ? & ?) by set_solver.
  assert (fupd (prv L) (nxt L n) (prv L n) n = prv L n) as ->.
  { unfold fupd. by case_decide. }
  simpl_fupd. done.
Qed.

(** Removing a node that is on no list changes no field. *)
Lemma remove_unlinked (L : links) (n x : node) :
  self L n ->
  nxt (rt_list_remove L n) x = nxt L x /\ prv (rt_list_remove L n) x = prv L x.
Proof.
  intros [Hn Hp]. unfold rt_list_remove, set_nxt, set_prv; simpl.
  rewrite Hn, Hp. simpl_fupd.
  destruct (decide (x = n)) as [->|]; simpl_fupd; done.
Qed.

(** ** All the kernel's lists at once *)

Definition is_head (n : node) : bool :=
  match n with NT _ | NA _ | NTm _ => false | _ => true end.

(** The list heads in use, and the sequence of nodes on each. *)
Record queues := Queues { live : node -> bool; q_seq :> node -> list node }.

Record qwf (L : links) (Q : queues) : Prop := {
  qwf_ring : forall h, live Q h = true -> ring L h (Q h);
  qwf_disj : forall h1 h2 n, live Q h1 = true -> live Q h2 = true ->
    n ∈ Q h1 -> n ∈ Q h2 -> h1 = h2;
  qwf_member : forall h n, live Q h = true -> n ∈ Q h -> is_head n = false;
  qwf_live : forall h, live Q h = true -> is_head h = true }.

(** [n] is on no list of [Q]. *)
Definition free_node (Q : queues) (n : node) : Prop :=
  forall h, live Q h = true -> n ∉ Q h.

Definition q_set (Q : queues) (h : node) (l : list node) : queues :=
  Queues (live Q) (fupd Q h l).
Definition q_append (Q : queues) (h n : node) : queues := q_set Q h (Q h ++ [n]).
Definition q_prepend (Q : queues) (h n : node) : queues := q_set Q h (n :: Q h).
Definition q_remove (Q : queues) (h n : node) : queues :=
  q_set Q h (filter (.≠ n) (Q h)).

(** A new, empty list, and a list that is given up. *)
Definition q_open (Q : queues) (h : node) : queues :=
  Queues (fupd (live Q) h true) (fupd Q h []).
Definition q_close (Q : queues) (h : node) : queues :=
  Queues (fupd (live Q) h false) Q.

Lemma q_set_eq (Q : queues) (h : node) (l : list node) : q_set Q h l h = l.
Proof. apply fupd_eq. Qed.

Lemma q_set_ne (Q : queues) (h h' : node) (l : list node) :
  h' ≠ h -> q_set Q h l h' = Q h'.
Proof. apply fupd_ne. Qed.

Lemma qwf_update (L L' : links) (Q : queues) (h : node) (l : list node) :
  qwf L Q -> live Q h = true -> ring L' h l ->
  (forall n, n ∈ l -> is_head n = false /\ (n ∈ Q h \/ free_node Q n)) ->
  (forall x, x ∉ h :: Q h -> x ∉ l -> nxt L' x = nxt L x /\ prv L' x = prv L x) ->
  qwf L' (q_set Q h l).
Proof.
  intros [Hr Hd Hm Hv] Hh Hr' Hl Hf. split; simpl; [| | |done].
  - intros h' Hh'. destruct (decide (h' = h)) as [->|Hne]; simpl_fupd; [done|].
    apply (ring_ext L); [|by apply Hr]. intros n Hn.
    assert (n ∉ h :: Q h).
    { apply not_elem_of_cons. apply elem_of_cons in Hn as [->|Hn]; split; [done| | |].
      - intros Hi. pose proof (Hm _ _ Hh Hi). pose proof (Hv _ Hh'). congruence.
      - intros ->. pose proof (Hm _ _ Hh' Hn). pose proof (Hv _ Hh). congruence.
      - intros Hi. by pose proof (Hd _ _ _ Hh Hh' Hi Hn). }
    apply Hf; [done|]. intros Hi. destruct (Hl _ Hi) as [Hnh [Hq|Hfr]]; [set_solver|].
    apply elem_of_cons in Hn as [->|Hn]; [|by apply (Hfr h')].
    pose proof (Hv _ Hh'). congruence.
  - intros h1 h2 n H1 H2. destruct (decide (h1 = h)) as [->|];
      destruct (decide (h2 = h)) as [->|]; simpl_fupd; intros Hi1 Hi2; [done| | |by eapply Hd].
    + destruct (Hl _ Hi1) as [_ [?|Hfr]]; [by eapply Hd|]. by destruct (Hfr h2).
    + destruct (Hl _ Hi2) as [_ [?|Hfr]]; [by eapply Hd|]. by destruct (Hfr h1).
  - intros h' n Hh'. destruct (decide (h' = h)) as [->|]; simpl_fupd; [|by apply Hm].
    intros Hi. by apply Hl.
Qed.

Section QwfOps.
Context (L : links) (Q : queues) (HQ : qwf L Q).

Lemma free_not_in_ring (h n : node) :
  live Q h = true -> is_head n = false -> free_node Q n -> n ∉ h :: Q h.
Proof.
  intros Hh Hn Hf. apply not_elem_of_cons. split; [|by apply Hf].
  intros ->. pose proof (qwf_live _ _ HQ _ Hh). congruence.
Qed.

(** Inserting before the head appends to its sequence: FIFO order. *)
Lemma qwf_insert_before (h n : node) :
  live Q h = true -> is_head n = false -> free_node Q n ->
  qwf (rt_list_insert_before L h n) (q_append Q h n).
Proof.
  intros Hh Hn Hf. pose proof (qwf_ring _ _ HQ h Hh) as Hr.
  apply (qwf_update L); [done..| | |].
  - apply ring_insert_before; [done|]. by apply free_not_in_ring.
  - intros x [Hx|Hx%list_elem_of_singleton]%elem_of_app; subst; [|by auto].
    split; [by eapply qwf_member|by left].
  - intros x Hx [_ ?]%not_elem_of_app. eapply insert_before_frame; [done..|set_solver].
Qed.

(** Inserting after the head prepends. *)
Lemma qwf_insert_after (h n : node) :
  live Q h = true -> is_head n = false -> free_node Q n ->
  qwf (rt_list_insert_after L h n) (q_prepend Q h n).
Proof.
  intros Hh Hn Hf. pose proof (qwf_ring _ _ HQ h Hh) as Hr.
  apply (qwf_update L); [done..| | |].
  - apply ring_insert_after; [done|]. by apply free_not_in_ring.
  - intros x [->|Hx]%elem_of_cons; [by auto|].
    split; [by eapply qwf_member|by left].
  - intros x Hx [? _]%not_elem_of_cons. by eapply insert_after_frame.
Qed.

(** Removing a node deletes it from its sequence, wherever it stands. *)
Lemma qwf_remove (h n : node) :
  live Q h = true -> n ∈ Q h -> qwf (rt_list_remove L n) (q_remove Q h n).
Proof.
  intros Hh Hn. pose proof (qwf_ring _ _ HQ h Hh) as Hr.
  apply (qwf_update L); [done..| | |].
  - destruct (list_elem_of_split _ _ Hn) as (l1 & l2 & El). rewrite El in *.
    rewrite filter_ne_split; [by apply ring_remove|].
    destruct Hr as [_ Hnd]. by apply NoDup_cons in Hnd as [_ ?].
  - intros x [_ Hx]%elem_of_filter_ne. split; [by eapply qwf_member|by left].
  - intros x Hx _. by eapply remove_frame.
Qed.

Lemma qwf_ext (L' : links) :
  (forall x, nxt L' x = nxt L x /\ prv L' x = prv L x) -> qwf L' Q.
Proof.
  intros H. destruct HQ as [Hr Hd Hm Hv]. split; [|done..].
  intros h Hh. apply (ring_ext L); auto.
Qed.

(** Removing a node that is on no list leaves every sequence. *)
Lemma qwf_remove_unlinked (n : node) : self L n -> qwf (rt_list_remove L n) Q.
Proof. intros Hs. apply qwf_ext. intros x. by apply remove_unlinked. Qed.

(** [rt_list_init] of a node that is on no list. *)
Lemma qwf_init (n : node) :
  is_head n = false -> free_node Q n -> qwf (rt_list_init L n) Q.
Proof.
  intros Hn Hf. destruct HQ as [Hr Hd Hm Hv]. split; [|done..].
  intros h Hh. apply (ring_ext L); [|auto]. intros x Hx.
  assert (x ≠ n) by (intros ->; by apply (free_not_in_ring h n Hh Hn Hf)).
  unfold rt_list_init, set_nxt, set_prv; simpl. by simpl_fupd.
Qed.

(** [rt_list_init] of a list head: a new list. *)
Lemma qwf_open (h : node) :
  is_head h = true -> live Q h = false -> qwf (rt_list_init L h) (q_open Q h).
Proof.
  intros Hh Hl. destruct HQ as [Hr Hd Hm Hv]. unfold q_open. split; simpl.
  - intros h' Hh'. destruct (decide (h' = h)) as [->|Hne]; simpl_fupd.
    + by apply ring_init.
    + rewrite fupd_ne in Hh' by done. apply (ring_ext L); [|auto].
      intros x Hx. assert (x ≠ h).
      { intros ->. apply elem_of_cons in Hx as [?|Hx]; [congruence|].
        pose proof (Hm _ _ Hh' Hx). congruence. }
      unfold rt_list_init, set_nxt, set_prv; simpl. by simpl_fupd.
  - intros h1 h2 n. destruct (decide (h1 = h)) as [->|], (decide (h2 = h)) as [->|];
      simpl_fupd; [done|set_solver..|]. intros; by eapply Hd.
  - intros h' n. destruct (decide (h' = h)) as [->|]; simpl_fupd; [set_solver|apply Hm].
  - intros h'. destruct (decide (h' = h)) as [->|]; simpl_fupd; [done|apply Hv].
Qed.

Lemma qwf_close (h : node) : qwf L (q_close Q h).
Proof.
  destruct HQ as [Hr Hd Hm Hv].
  assert (forall x, live (q_close Q h) x = true -> live Q x = true) as Hc.
  { intros x. unfold q_close; simpl. unfold fupd. by case_decide. }
  split; simpl; intros; eauto.
Qed.

Lemma qwf_NoDup (h : node) : live Q h = true -> NoDup (Q h).
Proof. intros Hh. by destruct (qwf_ring _ _ HQ h Hh) as [_ [_ ?]%NoDup_cons]. Qed.

Lemma qwf_isempty (h : node) :
  live Q h = true -> rt_list_isempty L h = bool_decide (Q h = []).
Proof. intros. by apply ring_isempty, qwf_ring. Qed.

Lemma qwf_next (h : node) : live Q h = true -> nxt L h = hd h (Q h).
Proof. intros. by apply ring_next, qwf_ring. Qed.
End QwfOps.

Lemma init_self (L : links) (n : node) : self (rt_list_init L n) n.
Proof. split; unfold rt_list_init, set_nxt, set_prv; simpl; by simpl_fupd. Qed.

Lemma init_frame (L : links) (n x : node) : x ≠ n ->
  nxt (rt_list_init L n) x = nxt L x /\ prv (rt_list_init L n) x = prv L x.
Proof. intros. unfold rt_list_init, set_nxt, set_prv; simpl. by simpl_fupd. Qed.

(** [self] survives the operations on other nodes. *)
Lemma self_frame (L L' : links) (n : node) :
  nxt L' n = nxt L n /\ prv L' n = prv L n -> self L n -> self L' n.
Proof. unfold self. intros [-> ->]. done. Qed.

Lemma self_init (L : links) (n x : node) : self L x -> self (rt_list_init L n) x.
Proof.
  intros Hs. destruct (decide (x = n)) as [->|]; [apply init_self|].
  eapply self_frame; [by apply init_frame|done].
Qed.

Section SelfOps.
Context (L : links) (Q : queues) (HQ : qwf L Q).
Context (x : node) (Hx : is_head x = false) (Hf : free_node Q x) (Hs : self L x).

Lemma self_insert_before (h n : node) :
  live Q h = true -> x ≠ n -> self (rt_list_insert_before L h n) x.
Proof.
  intros Hh Hne. eapply self_frame; [|done].
  eapply insert_before_frame; [by apply (qwf_ring _ _ HQ)| |done].
  by eapply free_not_in_ring.
Qed.

Lemma self_insert_after (h n : node) :
  live Q h = true -> x ≠ n -> self (rt_list_insert_after L h n) x.
Proof.
  intros Hh Hne. eapply self_frame; [|done].
  eapply insert_after_frame; [by apply (qwf_ring _ _ HQ)| |done].
  by eapply free_not_in_ring.
Qed.

Lemma self_remove (h n : node) :
  live Q h = true -> n ∈ Q h -> self (rt_list_remove L n) x.
Proof.
  intros Hh Hn. eapply self_frame; [|done].
  eapply remove_frame; [by apply (qwf_ring _ _ HQ)|done|]. by eapply free_not_in_ring.
Qed.
End SelfOps.

(** ** Unlinking, wherever the node is

    Kernel code removes a thread's node without knowing which list it is on, or
    whether it is on one. *)

Definition q_del (Q : queues) (n : node) : queues :=
  Queues (live Q) (fun h => filter (.≠ n) (Q h)).

Lemma elem_of_q_del (Q : queues) (n x h : node) :
  x ∈ q_del Q n h <-> x ≠ n /\ x ∈ Q h.
Proof. apply elem_of_filter_ne. Qed.

Lemma free_q_del (Q : queues) (n : node) : free_node (q_del Q n) n.
Proof. intros h _ [? _]%elem_of_q_del. done. Qed.

(** Two abstract states are equal when every list in use has the same sequence. *)
Definition q_eq (Q Q' : queues) : Prop :=
  (forall h, live Q h = live Q' h) /\ (forall h, live Q h = true -> Q h = Q' h).

#[export] Instance q_eq_equivalence : Equivalence q_eq.
Proof.
  split; [done | |].
  - intros Q Q' [Hl H]. split; [done|]. intros h Hh. rewrite H; [done|]. by rewrite Hl.
  - intros Q1 Q2 Q3 [Hl1 H1] [Hl2 H2]. split; intros; [by rewrite Hl1|].
    rewrite H1, H2; [done|congruence|done].
Qed.

#[export] Instance qwf_proper (L : links) : Proper (q_eq ==> iff) (qwf L).
Proof.
  assert (forall Q Q', q_eq Q Q' -> qwf L Q -> qwf L Q') as Hone.
  { intros Q Q' [El E] [Hr Hd Hm Hv]. split.
    - intros h Hh. rewrite <- El in Hh. rewrite <- E by done. by apply Hr.
    - intros h1 h2 n H1 H2. rewrite <- El in H1, H2. rewrite <- !E by done. by apply Hd.
    - intros h n Hh. rewrite <- El in Hh. rewrite <- E by done. by apply Hm.
    - intros h Hh. rewrite <- El in Hh. auto. }
  intros Q Q' E. split; apply Hone; [done|by symmetry].
Qed.

#[export] Instance free_node_proper : Proper (q_eq ==> eq ==> iff) free_node.
Proof.
  intros Q Q' [El E] n ? <-. unfold free_node.
  split; intros H h Hh; [rewrite <- E by congruence|rewrite E by congruence];
    apply H; congruence.
Qed.

Lemma q_del_free (Q : queues) (n : node) :
  free_node Q n -> q_eq (q_del Q n) Q.
Proof.
  intros Hf. split; [done|]. intros h Hh. apply filter_ne_notin. by apply Hf.
Qed.

Lemma q_del_on (L : links) (Q : queues) (h n : node) :
  qwf L Q -> live Q h = true -> n ∈ Q h -> q_eq (q_del Q n) (q_remove Q h n).
Proof.
  intros HQ Hh Hn. split; [done|]. intros h' Hh'. unfold q_del, q_remove, q_set; simpl.
  destruct (decide (h' = h)) as [->|Hne]; simpl_fupd; [done|].
  apply filter_ne_notin. intros Hi. apply Hne. by eapply (qwf_disj _ _ HQ).
Qed.

(** A node is on some list of the kernel, or on none: the heads a node can be on
    are found by the caller, which knows the node's history. *)
Lemma qwf_del (L : links) (Q : queues) (n : node) :
  qwf L Q -> (exists h, live Q h = true /\ n ∈ Q h) \/ (free_node Q n /\ self L n) ->
  qwf (rt_list_remove L n) (q_del Q n) /\ self (rt_list_remove L n) n /\
  (forall x, is_head x = false -> free_node Q x -> self L x -> self (rt_list_remove L n) x).
Proof.
  intros HQ [(h & Hh & Hn)|[Hf Hs]].
  - split_and!; [|apply remove_self|].
    + rewrite q_del_on by done. by apply qwf_remove.
    + intros x Hx Hfx Hsx. by eapply self_remove.
  - split_and!; [|apply remove_self|].
    + rewrite q_del_free by done. by apply qwf_remove_unlinked.
    + intros x Hx Hfx Hsx. eapply self_frame; [by apply remove_unlinked|done].
Qed.
