(* ===== verification/Kernel.v ===== *)
(** * The thread kernel (os/thread.c, os/os.c, lib/ls1c_sys_tick.c)

    Threads, the priority ready table, the scheduler, software timers and the
    tick.  A [kernel] value is the memory the routines share: the list nodes of
    RtList.v, one record per [struct rt_thread] (keyed by the thread's address)
    and the file-level variables.  A routine is a function on it. *)

From S2P Require Import Prelude Bits RtList.

(** ** Data *)

Inductive status : Set :=
  | RT_THREAD_INIT | RT_THREAD_READY | RT_THREAD_SUSPEND | RT_THREAD_SLEEP
  | RT_THREAD_RUNNING | RT_THREAD_CLOSE | RT_THREAD_DEAD_SLEEP.

#[export] Instance status_eq_dec : EqDecision status.
Proof. solve_decision. Defined.

Definition RT_THREAD_PRIORITY_MAX : Z := 32.
Definition RT_TIMER_FLAG_NO_ACTIVATED : Z := 0.
Definition RT_TIMER_FLAG_ACTIVATED : Z := 1.
Definition RT_EOK : Z := 0.
Definition RT_ERROR : Z := 1.
Definition RT_ETIMEOUT : Z := 2.
Definition RT_EFULL : Z := 3.
Definition NULL : Z := 0.
Definition HASH : Z := 35. (* '#' *)

(** [struct rt_timer] of a thread; its [timelist] node is [NTm], its timeout
    function is [rt_thread_timeout] with the thread as parameter. *)
Record rt_timer := RtTimer {
  flag : Z;
  timer_init_tick : Z;
  timeout_tick : Z }.

(** [struct rt_thread]; the nodes [tlist], [allList] are [NT], [NA], and
    [stack_guard] is the byte at [stack_addr], the lowest of the stack. *)
Record rt_thread := RtThread {
  name : list Z;
  id : Z;
  current_priority : Z;
  init_priority : Z;
  init_tick : Z;
  remaining_tick : Z;
  number_mask : Z;
  parameter : Z;
  statu : status;
  sp : Z;
  stack_addr : Z;
  stack_size : Z;
  stack_guard : Z;
  error : Z;
  thread_timer : rt_timer }.

Record rt_mailbox := RtMailbox {
  msg_pool : list Z;
  mb_size : Z;
  mb_entry : Z;
  in_offset : Z;
  out_offset : Z }.

Record kernel := Kernel {
  lk : links;
  thr : Z -> rt_thread;
  sem_value : Z -> Z;                  (* value of the semaphore at an address *)
  mbox : Z -> rt_mailbox;
  rt_current_thread : Z;               (* NULL before thread_start *)
  rt_current_priority : Z;
  rt_thread_ready_priority_group : Z;
  rt_interrupt_nest : Z;
  system_tick : Z;
  ie : bool }.                         (* IE bit of the CP0 status register *)

(** ** Field updates *)

Definition tm_flag (v : Z) (t : rt_timer) : rt_timer :=
  RtTimer v (timer_init_tick t) (timeout_tick t).
Definition tm_init_tick (v : Z) (t : rt_timer) : rt_timer :=
  RtTimer (flag t) v (timeout_tick t).
Definition tm_timeout_tick (v : Z) (t : rt_timer) : rt_timer :=
  RtTimer (flag t) (timer_init_tick t) v.

Definition t_remaining (v : Z) (t : rt_thread) : rt_thread :=
  RtThread (name t) (id t) (current_priority t) (init_priority t) (init_tick t)
    v (number_mask t) (parameter t) (statu t) (sp t) (stack_addr t)
    (stack_size t) (stack_guard t) (error t) (thread_timer t).
Definition t_statu (v : status) (t : rt_thread) : rt_thread :=
  RtThread (name t) (id t) (current_priority t) (init_priority t) (init_tick t)
    (remaining_tick t) (number_mask t) (parameter t) v (sp t) (stack_addr t)
    (stack_size t) (stack_guard t) (error t) (thread_timer t).
Definition t_error (v : Z) (t : rt_thread) : rt_thread :=
  RtThread (name t) (id t) (current_priority t) (init_priority t) (init_tick t)
    (remaining_tick t) (number_mask t) (parameter t) (statu t) (sp t) (stack_addr t)
    (stack_size t) (stack_guard t) v (thread_timer t).
Definition t_timer (f : rt_timer -> rt_timer) (t : rt_thread) : rt_thread :=
  RtThread (name t) (id t) (current_priority t) (init_priority t) (init_tick t)
    (remaining_tick t) (number_mask t) (parameter t) (statu t) (sp t) (stack_addr t)
    (stack_size t) (stack_guard t) (error t) (f (thread_timer t)).

Definition upd_lk (f : links -> links) (k : kernel) : kernel :=
  Kernel (f (lk k)) (thr k) (sem_value k) (mbox k) (rt_current_thread k)
    (rt_current_priority k) (rt_thread_ready_priority_group k)
    (rt_interrupt_nest k) (system_tick k) (ie k).
Definition upd_thr (t : Z) (f : rt_thread -> rt_thread) (k : kernel) : kernel :=
  Kernel (lk k) (fupd (thr k) t (f (thr k t))) (sem_value k) (mbox k)
    (rt_current_thread k) (rt_current_priority k)
    (rt_thread_ready_priority_group k) (rt_interrupt_nest k) (system_tick k) (ie k).
Definition set_sem (s v : Z) (k : kernel) : kernel :=
  Kernel (lk k) (thr k) (fupd (sem_value k) s v) (mbox k)
    (rt_current_thread k) (rt_current_priority k)
    (rt_thread_ready_priority_group k) (rt_interrupt_nest k) (system_tick k) (ie k).
Definition set_mbox (m : Z) (b : rt_mailbox) (k : kernel) : kernel :=
  Kernel (lk k) (thr k) (sem_value k) (fupd (mbox k) m b)
    (rt_current_thread k) (rt_current_priority k)
    (rt_thread_ready_priority_group k) (rt_interrupt_nest k) (system_tick k) (ie k).
Definition set_current (t prio : Z) (k : kernel) : kernel :=
  Kernel (lk k) (thr k) (sem_value k) (mbox k) t prio
    (rt_thread_ready_priority_group k) (rt_interrupt_nest k) (system_tick k) (ie k).
Definition set_group (g : Z) (k : kernel) : kernel :=
  Kernel (lk k) (thr k) (sem_value k) (mbox k) (rt_current_thread k)
    (rt_current_priority k) g (rt_interrupt_nest k) (system_tick k) (ie k).
Definition set_tick (v : Z) (k : kernel) : kernel :=
  Kernel (lk k) (thr k) (sem_value k) (mbox k) (rt_current_thread k)
    (rt_current_priority k) (rt_thread_ready_priority_group k)
    (rt_interrupt_nest k) v (ie k).
Definition set_nest (v : Z) (k : kernel) : kernel :=
  Kernel (lk k) (thr k) (sem_value k) (mbox k) (rt_current_thread k)
    (rt_current_priority k) (rt_thread_ready_priority_group k) v (system_tick k) (ie k).
Definition set_ie (b : bool) (k : kernel) : kernel :=
  Kernel (lk k) (thr k) (sem_value k) (mbox k) (rt_current_thread k)
    (rt_current_priority k) (rt_thread_ready_priority_group k)
    (rt_interrupt_nest k) (system_tick k) b.

Lemma kernel_ext (k k' : kernel) :
  lk k = lk k' -> thr k = thr k' -> sem_value k = sem_value k' -> mbox k = mbox k' ->
  rt_current_thread k = rt_current_thread k' -> rt_current_priority k = rt_current_priority k' ->
  rt_thread_ready_priority_group k = rt_thread_ready_priority_group k' ->
  rt_interrupt_nest k = rt_interrupt_nest k' -> system_tick k = system_tick k' ->
  ie k = ie k' -> k = k'.
Proof. destruct k, k'; simpl; intros; by subst. Qed.

(** ** Interrupts (os/os.c, os/context_gcc.S) *)

(** Both directions save and restore the status register; its IE bit is what the
    model keeps. *)
Definition rt_hw_interrupt_disable (k : kernel) : bool * kernel :=
  (ie k, set_ie false k).
Definition rt_hw_interrupt_enable (level : bool) (k : kernel) : kernel :=
  set_ie level k.

Definition rt_interrupt_enter (k : kernel) : kernel :=
  let '(level, k) := rt_hw_interrupt_disable k in
  rt_hw_interrupt_enable level (set_nest (rt_interrupt_nest k +u 1) k).
Definition rt_interrupt_leave (k : kernel) : kernel :=
  let '(level, k) := rt_hw_interrupt_disable k in
  rt_hw_interrupt_enable level (set_nest (rt_interrupt_nest k -u 1) k).
Definition rt_interrupt_get_nest (k : kernel) : Z * kernel :=
  let '(level, k) := rt_hw_interrupt_disable k in
  let ret := u8 (rt_interrupt_nest k) in
  (ret, rt_hw_interrupt_enable level k).

(** ** Outcomes

    [rt_schedule] either comes back to its caller or hands the processor to
    another thread; the caller's code after it then runs when that thread is
    switched in again. *)
Inductive sched_result :=
  | SReturn (k : kernel)                   (* back in the caller *)
  | SSwitch (k : kernel) (from to : Z)     (* rt_hw_context_switch *)
  | SSwitchInt (k : kernel) (from to : Z)  (* deferred to the interrupt's exit *)
  | SHang                                  (* an endless loop *)
  | SWild.                                 (* a list head taken for a thread *)

(** Code that runs after a call of [rt_schedule] that came back. *)
Definition sbind (r : sched_result) (f : kernel -> sched_result) : sched_result :=
  match r with
  | SReturn k => f k
  | SSwitchInt k from to =>
      match f k with
      | SReturn k' => SSwitchInt k' from to
      | SSwitchInt k' _ to' => SSwitchInt k' from to'   (* _reswitch keeps from *)
      | r' => r'
      end
  | r => r
  end.

(** ** Lists of threads *)

(** [rt_list_entry(node, struct rt_thread, tlist)]: only a [tlist] node lies
    inside a thread. *)
Definition tlist_entry (n : node) : option Z :=
  match n with NT t => Some t | _ => None end.
Definition timelist_entry (n : node) : option Z :=
  match n with NTm t => Some t | _ => None end.
Definition allList_entry (n : node) : option Z :=
  match n with NA t => Some t | _ => None end.

Definition statu_of (k : kernel) (t : Z) : status := statu (thr k t).
Definition timer_of (k : kernel) (t : Z) : rt_timer := thread_timer (thr k t).

Definition _get_highest_priority_thread (k : kernel) : Z * option Z :=
  let highest_ready_priority := u32 (__rt_ffs (s32 (rt_thread_ready_priority_group k)) - 1) in
  (highest_ready_priority, tlist_entry (nxt (lk k) (NReady highest_ready_priority))).

(** [true] when the check lets the thread run; otherwise it never returns. *)
Definition _rt_scheduler_stack_check (k : kernel) (t : Z) : bool :=
  let th := thr k t in
  negb (negb (stack_guard th =? HASH)
        || (sp th <=? stack_addr th)
        || (stack_addr th +u stack_size th <? sp th)).

Definition rt_schedule_insert_thread (t : Z) (k : kernel) : kernel :=
  let '(temp, k) := rt_hw_interrupt_disable k in
  if t =? rt_current_thread k then
    rt_hw_interrupt_enable temp (upd_thr t (t_statu RT_THREAD_RUNNING) k)
  else
    let k := upd_thr t (t_statu RT_THREAD_READY) k in
    let k := upd_lk (fun L => rt_list_insert_before L
                       (NReady (current_priority (thr k t))) (NT t)) k in
    let k := set_group (Z.lor (rt_thread_ready_priority_group k)
                          (number_mask (thr k t))) k in
    rt_hw_interrupt_enable temp k.

Definition rt_schedule_remove_thread (t : Z) (k : kernel) : kernel :=
  let '(level, k) := rt_hw_interrupt_disable k in
  let k := upd_lk (fun L => rt_list_remove L (NT t)) k in
  let k :=
    if rt_list_isempty (lk k) (NReady (current_priority (thr k t))) then
      set_group (Z.land (rt_thread_ready_priority_group k)
                   (not32 (number_mask (thr k t)))) k
    else k in
  rt_hw_interrupt_enable level k.

(** ** Timers *)

Definition rt_timer_stop (t : Z) (k : kernel) : Z * kernel :=
  let '(level, k) := rt_hw_interrupt_disable k in
  if Z.land (flag (timer_of k t)) RT_TIMER_FLAG_ACTIVATED =? 0 then
    (- RT_ERROR, rt_hw_interrupt_enable level k)
  else
    let k := upd_lk (fun L => rt_list_remove L (NTm t)) k in
    let k := upd_thr t (t_timer (tm_flag RT_TIMER_FLAG_NO_ACTIVATED)) k in
    (RT_EOK, rt_hw_interrupt_enable level k).

Definition rt_timer_start (t : Z) (k : kernel) : Z * kernel :=
  let '(level, k) := rt_hw_interrupt_disable k in
  let k := upd_thr t (t_timer (fun tm =>
             tm_timeout_tick (system_tick k +u timer_init_tick tm) tm)) k in
  let k := upd_lk (fun L => rt_list_insert_after L NTimers (NTm t)) k in
  let k := upd_thr t (t_timer (tm_flag RT_TIMER_FLAG_ACTIVATED)) k in
  (RT_EOK, rt_hw_interrupt_enable level k).

(** ** The scheduler *)

Definition keeps_running (s : status) : bool :=
  negb (bool_decide (s = RT_THREAD_CLOSE)) && negb (bool_decide (s = RT_THREAD_SLEEP))
  && negb (bool_decide (s = RT_THREAD_SUSPEND)).

Definition rt_schedule (k : kernel) : sched_result :=
  let '(level, k) := rt_hw_interrupt_disable k in
  let from_thread := rt_current_thread k in
  if rt_thread_ready_priority_group k =? 0 then
    SReturn (rt_hw_interrupt_enable level k)
  else
    match _get_highest_priority_thread k with
    | (_, None) => SWild
    | (highest_ready_priority, Some to_thread) =>
        if to_thread =? rt_current_thread k then SHang
        else
          let k := set_current to_thread (u8 highest_ready_priority) k in
          let k := upd_thr to_thread (t_statu RT_THREAD_RUNNING) k in
          let k := if keeps_running (statu_of k from_thread)
                   then rt_schedule_insert_thread from_thread k else k in
          let k := rt_schedule_remove_thread to_thread k in
          if negb (_rt_scheduler_stack_check k to_thread) then SHang
          else if rt_interrupt_nest k =? 0 then SSwitch k from_thread to_thread
          else SSwitchInt (rt_hw_interrupt_enable level k) from_thread to_thread
    end.

(** ** Timeouts and the tick *)

(** The timeout function of every thread's timer. *)
Definition rt_thread_timeout (t : Z) (k : kernel) : sched_result :=
  let k := upd_thr t (t_error (- RT_ETIMEOUT)) k in
  let k := upd_lk (fun L => rt_list_remove L (NT t)) k in
  let k := rt_schedule_insert_thread t k in
  rt_schedule k.

(** [rt_list_for_each_entry_safe(timerP, posTmp, &rt_timer_list, timelist)]: [pos]
    and [n] are the [timelist] nodes of [timerP] and [posTmp]. *)
Fixpoint rt_timer_check_loop (fuel : nat) (pos n : node) (k : kernel) : sched_result :=
  match fuel with
  | O => SHang
  | S fuel =>
      if decide (pos = NTimers) then SReturn k
      else match timelist_entry pos with
      | None => SWild
      | Some timerP =>
          sbind
            (if (flag (timer_of k timerP) =? RT_TIMER_FLAG_ACTIVATED)
                && (timeout_tick (timer_of k timerP) <? system_tick k) then
               let k := upd_lk (fun L => rt_list_remove L pos) k in
               sbind (rt_thread_timeout timerP k) (fun k =>
                 SReturn (upd_thr timerP
                            (t_timer (tm_flag RT_TIMER_FLAG_NO_ACTIVATED)) k))
             else SReturn k)
            (fun k => rt_timer_check_loop fuel n (nxt (lk k) n) k)
      end
  end.

Definition rt_timer_check (fuel : nat) (k : kernel) : sched_result :=
  let '(level, k) := rt_hw_interrupt_disable k in
  let pos := nxt (lk k) NTimers in
  sbind (rt_timer_check_loop fuel pos (nxt (lk k) pos) k) (fun k =>
    SReturn (rt_hw_interrupt_enable level k)).

Definition sys_tick_increase (k : kernel) : kernel :=
  set_tick (system_tick k +u 1) k.

(** The time slice of the running thread. *)
Definition consume_tick (k : kernel) : sched_result :=
  let c := rt_current_thread k in
  let k := upd_thr c (fun th => t_remaining (remaining_tick th -u 1) th) k in
  if remaining_tick (thr k c) =? 0 then
    rt_schedule (upd_thr c (fun th => t_remaining (init_tick th) th) k)
  else SReturn k.

(** [sys_tick_handler]; the count/compare registers are re-armed first. *)
Definition sys_tick_handler (fuel : nat) (k : kernel) : sched_result :=
  let k := sys_tick_increase k in
  if rt_current_thread k =? NULL then SReturn k
  else sbind (consume_tick k) (rt_timer_check fuel).

(** [threadTask], the tick routine without timers. *)
Definition threadTask (k : kernel) : sched_result :=
  let '(level, k) := rt_hw_interrupt_disable k in
  if rt_current_thread k =? NULL then SReturn (rt_hw_interrupt_enable level k)
  else sbind (consume_tick k) (fun k => SReturn (rt_hw_interrupt_enable level k)).

(** ** Suspending and resuming *)

(** On the error path the interrupts stay disabled. *)
Definition rt_thread_suspend (t : Z) (s : status) (k : kernel) : Z * kernel :=
  let '(temp, k) := rt_hw_interrupt_disable k in
  let stat := statu_of k t in
  if negb (bool_decide (stat = RT_THREAD_READY))
     && negb (bool_decide (stat = RT_THREAD_RUNNING)) then (- RT_ERROR, k)
  else
    let k := rt_schedule_remove_thread t k in
    let k := upd_thr t (t_statu s) k in
    let '(_, k) := rt_timer_stop t k in
    (RT_EOK, rt_hw_interrupt_enable temp k).

Definition rt_thread_resume (t : Z) (k : kernel) : Z * kernel :=
  if negb (bool_decide (statu_of k t = RT_THREAD_SUSPEND))
     && negb (bool_decide (statu_of k t = RT_THREAD_SLEEP)) then (- RT_ERROR, k)
  else
    let '(temp, k) := rt_hw_interrupt_disable k in
    let k := upd_lk (fun L => rt_list_remove L (NT t)) k in
    let '(_, k) := rt_timer_stop t k in
    let k := rt_schedule_insert_thread t k in
    (RT_EOK, rt_hw_interrupt_enable temp k).

(** [rt_thread_sleep] and [rt_thread_delay]; they return 0 when switched back. *)
Definition rt_thread_sleep (tick : Z) (k : kernel) : sched_result :=
  let '(temp, k) := rt_hw_interrupt_disable k in
  let thread := rt_current_thread k in
  let k := upd_thr thread (t_timer (tm_init_tick tick)) k in
  let '(_, k) := rt_thread_suspend thread RT_THREAD_SLEEP k in
  let '(_, k) := rt_timer_start thread k in
  rt_schedule (rt_hw_interrupt_enable temp k).

Definition rt_thread_delay (tick : Z) (k : kernel) : sched_result :=
  rt_thread_sleep tick k.

(** ** Termination of threads *)

(** Common to [rt_thread_exit], [rt_thread_dead_exit] and [killThreadFun]. *)
Definition close_thread (t : Z) (k : kernel) : kernel :=
  let k := upd_thr t (t_statu RT_THREAD_CLOSE) k in
  let '(_, k) := rt_timer_stop t k in
  let k := rt_schedule_remove_thread t k in
  upd_lk (fun L => rt_list_insert_after L NDead (NT t)) k.

Definition rt_thread_exit (k : kernel) : sched_result :=
  let '(temp, k) := rt_hw_interrupt_disable k in
  let k := close_thread (rt_current_thread k) k in
  rt_schedule (rt_hw_interrupt_enable temp k).

Definition rt_thread_dead_exit (k : kernel) : sched_result :=
  let '(temp, k) := rt_hw_interrupt_disable k in
  let curThread := rt_current_thread k in
  let k := if negb (bool_decide (statu_of k curThread = RT_THREAD_CLOSE))
           then close_thread curThread k else k in
  rt_schedule (rt_hw_interrupt_enable temp k).

(** One pass of the idle thread over [rt_thread_dead]: the kernel afterwards and
    the blocks it hands to [free], in order. *)
Fixpoint idle_clean (fuel : nat) (pos n : node) (k : kernel) : option (kernel * list Z) :=
  match fuel with
  | O => None
  | S fuel =>
      if decide (pos = NDead) then Some (k, [])
      else match tlist_entry pos with
      | None => None
      | Some dead_thread =>
          let k := upd_lk (fun L => rt_list_remove L (NT dead_thread)) k in
          let k := upd_lk (fun L => rt_list_remove L (NA dead_thread)) k in
          let frees :=
            if bool_decide (statu_of k dead_thread = RT_THREAD_CLOSE)
            then [stack_addr (thr k dead_thread); dead_thread] else [] in
          match idle_clean fuel n (nxt (lk k) n) k with
          | Some (k, fs) => Some (k, frees ++ fs)
          | None => None
          end
      end
  end.

(** The body of the idle thread's loop. *)
Inductive idle_result :=
  | IdleCleaned (k : kernel) (frees : list Z)
  | IdleDelay (r : sched_result)
  | IdleWild.

Definition idle_thread_body (fuel : nat) (k : kernel) : idle_result :=
  if rt_list_isempty (lk k) NDead then IdleDelay (rt_thread_delay 1000 k)
  else
    let '(temp, k) := rt_hw_interrupt_disable k in
    let pos := nxt (lk k) NDead in
    match idle_clean fuel pos (nxt (lk k) pos) k with
    | Some (k, frees) => IdleCleaned (rt_hw_interrupt_enable temp k) frees
    | None => IdleWild
    end.

(** ** Start-up *)

Fixpoint init_heads (l : list node) (k : kernel) : kernel :=
  match l with
  | [] => k
  | h :: l => init_heads l (upd_lk (fun L => rt_list_init L h) k)
  end.

Definition thread_init (k : kernel) : kernel :=
  let k := init_heads (map NReady (seqZ 0 RT_THREAD_PRIORITY_MAX)) k in
  let k := init_heads [NDead; NAll; NTimers] k in
  set_group 0 k.

(** [thread_start] selects the first thread and never returns. *)
Definition thread_start (k : kernel) : sched_result :=
  match _get_highest_priority_thread k with
  | (_, None) => SWild
  | (_, Some to_thread) =>
      let k := set_current to_thread (rt_current_priority k) k in
      let k := rt_schedule_remove_thread to_thread k in
      let k := upd_thr to_thread (t_statu RT_THREAD_RUNNING) k in
      SSwitch k NULL to_thread
  end.
