(* ===== verification/KernelInv.v ===== *)
(** * The invariant of the thread kernel

    [kwf] ties the lists, the thread records and the ready group together.  Its
    two sets are the threads whose record is being changed: between the statements
    of a critical section the status ([X]) or the timer flag ([Y]) of a thread does
    not yet agree with the lists it is on. *)

From S2P Require Import Prelude Bits RtList Kernel.

(** ** Where a thread stands *)

Definition is_wait (h : node) : bool :=
  match h with NSem _ | NMbRecv _ | NMbSend _ => true | _ => false end.
Definition is_home (h : node) : bool :=
  match h with NReady _ | NDead => true | _ => is_wait h end.

(** The lists the kernel itself owns. *)
Definition kernel_head (h : node) : bool :=
  match h with
  | NReady p => (0 <=? p) && (p <? RT_THREAD_PRIORITY_MAX)
  | NDead | NAll | NTimers => true
  | _ => false
  end.

(** [t] was created and not yet reclaimed. *)
Definition ex (Q : queues) (t : Z) : Prop := NA t ∈ Q NAll.

Section Place.
Context (Q : queues) (L : links) (T : Z -> rt_thread) (g : Z) (X Y : gset Z).

Definition linked (t : Z) : Prop :=
  (exists h, live Q h = true /\ is_home h = true /\ NT t ∈ Q h /\
     (forall p, h = NReady p -> p = current_priority (T t))) \/
  (free_node Q (NT t) /\ self L (NT t)).

Definition timer_ok (t : Z) : Prop :=
  ((t ∈ Y \/ flag (thread_timer (T t)) = RT_TIMER_FLAG_ACTIVATED) /\
     NTm t ∈ Q NTimers) \/
  ((t ∈ Y \/ flag (thread_timer (T t)) = RT_TIMER_FLAG_NO_ACTIVATED) /\
     free_node Q (NTm t) /\ self L (NTm t)).

Definition timer_idle (t : Z) : Prop :=
  t ∈ Y \/ flag (thread_timer (T t)) = RT_TIMER_FLAG_NO_ACTIVATED.

Definition status_ok (t : Z) : Prop :=
  match statu (T t) with
  | RT_THREAD_READY => NT t ∈ Q (NReady (current_priority (T t))) /\ timer_idle t
  | RT_THREAD_CLOSE => NT t ∈ Q NDead /\ timer_idle t
  | RT_THREAD_RUNNING => free_node Q (NT t) /\ timer_idle t
  | RT_THREAD_SLEEP => free_node Q (NT t)
  | RT_THREAD_SUSPEND => forall h, live Q h = true -> NT t ∈ Q h -> is_wait h = true
  | _ => False
  end.

Definition group_ok : Prop :=
  0 <= g < 2 ^ 32 /\
  forall p, 0 <= p < RT_THREAD_PRIORITY_MAX ->
    Z.testbit g p = negb (bool_decide (Q (NReady p) = [])).

Record kwf_ : Prop := {
  W_q : qwf L Q;
  W_live : forall h, kernel_head h = true -> live Q h = true;
  W_prios : forall p, live Q (NReady p) = true -> 0 <= p < RT_THREAD_PRIORITY_MAX;
  W_all : forall n, n ∈ Q NAll -> exists t, n = NA t;
  W_timers : forall n, n ∈ Q NTimers -> exists t, n = NTm t /\ ex Q t;
  W_home : forall h n, live Q h = true -> is_home h = true -> n ∈ Q h ->
    exists t, n = NT t /\ ex Q t;
  W_prio : forall t, ex Q t -> 0 <= current_priority (T t) < RT_THREAD_PRIORITY_MAX /\
    number_mask (T t) = 2 ^ current_priority (T t);
  W_group : group_ok;
  W_linked : forall t, ex Q t -> linked t;
  W_timer : forall t, ex Q t -> timer_ok t;
  W_status : forall t, ex Q t -> t ∉ X -> status_ok t }.
End Place.

(** The invariant of a kernel state: only the lists, the records and the ready
    group matter, so it holds across the other updates by conversion. *)
Abbreviation kwf X Y k Q :=
  (kwf_ Q (lk k) (thr k) (rt_thread_ready_priority_group k) X Y).

(** The thread that executes. *)
Definition kcur (k : kernel) (Q : queues) : Prop :=
  ex Q (rt_current_thread k) /\
  statu_of k (rt_current_thread k) <> RT_THREAD_READY /\
  forall t, ex Q t -> statu_of k t = RT_THREAD_RUNNING -> t = rt_current_thread k.

(** The invariant outside critical sections. *)
Definition kinv (k : kernel) (Q : queues) : Prop :=
  kwf ∅ ∅ k Q /\ kcur k Q /\ statu_of k (rt_current_thread k) = RT_THREAD_RUNNING.

(** ** Changing one node's place *)

(** [Q'] differs from [Q] by the place of node [n] only. *)
Definition moved (n : node) (Q Q' : queues) : Prop :=
  live Q' = live Q /\ forall h m, m ≠ n -> m ∈ Q' h <-> m ∈ Q h.

Lemma moved_del (n : node) (Q : queues) : moved n Q (q_del Q n).
Proof. split; [done|]. intros h m Hm. rewrite elem_of_q_del. tauto. Qed.

Lemma moved_append (h n : node) (Q : queues) : moved n Q (q_append Q h n).
Proof.
  split; [done|]. intros h' m Hm. destruct (decide (h' = h)) as [->|].
  - unfold q_append. rewrite q_set_eq. set_solver.
  - unfold q_append. by rewrite q_set_ne.
Qed.

Lemma moved_prepend (h n : node) (Q : queues) : moved n Q (q_prepend Q h n).
Proof.
  split; [done|]. intros h' m Hm. destruct (decide (h' = h)) as [->|].
  - unfold q_prepend. rewrite q_set_eq. set_solver.
  - unfold q_prepend. by rewrite q_set_ne.
Qed.

Lemma in_q_append (Q : queues) (h n : node) : n ∈ q_append Q h n h.
Proof. unfold q_append. rewrite q_set_eq. set_solver. Qed.

Lemma in_q_prepend (Q : queues) (h n : node) : n ∈ q_prepend Q h n h.
Proof. unfold q_prepend. rewrite q_set_eq. apply list_elem_of_here. Qed.

Section Moved.
Context (n : node) (Q Q' : queues) (HM : moved n Q Q').

Lemma moved_free (m : node) : m ≠ n -> free_node Q' m <-> free_node Q m.
Proof.
  intros Hm. destruct HM as [Hl H]. unfold free_node. rewrite Hl.
  split; intros Hf h Hh; [rewrite <- H by done|rewrite H by done]; auto.
Qed.

Lemma moved_ex (t : Z) : n ≠ NA t -> ex Q' t <-> ex Q t.
Proof. intros Hn. apply HM. congruence. Qed.

Lemma moved_linked (L L' : links) (T : Z -> rt_thread) (t : Z) :
  n ≠ NT t -> (free_node Q (NT t) -> self L (NT t) -> self L' (NT t)) ->
  linked Q L T t -> linked Q' L' T t.
Proof.
  intros Hn Hs. destruct HM as [Hl H]. intros [(h & Hh & Hm & Hi & Hp)|[Hf Hsf]].
  - left. exists h. rewrite Hl. split_and!; [done..| |done]. by apply H.
  - right. rewrite moved_free by congruence. auto.
Qed.

Lemma moved_timer_ok (L L' : links) (T : Z -> rt_thread) (Y : gset Z) (t : Z) :
  n ≠ NTm t -> (free_node Q (NTm t) -> self L (NTm t) -> self L' (NTm t)) ->
  timer_ok Q L T Y t -> timer_ok Q' L' T Y t.
Proof.
  intros Hn Hs. destruct HM as [Hl H]. intros [[Hf Hi]|(Hf & Hi & Hsf)].
  - left. split; [done|]. by apply H.
  - right. rewrite moved_free by congruence. auto.
Qed.

Lemma moved_status_ok (T : Z -> rt_thread) (Y : gset Z) (t : Z) :
  n ≠ NT t -> status_ok Q T Y t -> status_ok Q' T Y t.
Proof.
  intros Hn. pose proof (moved_free (NT t) ltac:(congruence)) as Hf.
  destruct HM as [Hl H]. unfold status_ok.
  destruct (statu (T t)); rewrite ?H, ?Hf by congruence; try done.
  rewrite Hl. intros Hs h Hh. rewrite H by congruence. auto.
Qed.

Lemma moved_members (P : node -> Prop) (h : node) :
  (n ∈ Q' h -> P n) -> (forall m, m ∈ Q h -> P m) -> forall m, m ∈ Q' h -> P m.
Proof.
  destruct HM as [_ H]. intros Hn Ho m Hm.
  destruct (decide (m = n)) as [->|]; [auto|]. apply Ho. by apply H.
Qed.
End Moved.

(** A link update leaves every unlinked node but [n] alone. *)
Definition keeps_self (n : node) (Q : queues) (L L' : links) : Prop :=
  forall x, x ≠ n -> is_head x = false -> free_node Q x -> self L x -> self L' x.

Section Move.
Context (X Y : gset Z) (Q Q' : queues) (L L' : links) (T : Z -> rt_thread) (g g' : Z).
Context (HW : kwf_ Q L T g X Y) (t : Z) (Ht : ex Q t).

(** The place of a thread's [tlist] changes. *)
Lemma kwf_move :
  t ∈ X -> moved (NT t) Q Q' -> keeps_self (NT t) Q L L' -> qwf L' Q' ->
  group_ok Q' g' -> linked Q' L' T t ->
  (forall h, live Q h = true -> NT t ∈ Q' h -> is_home h = true) ->
  kwf_ Q' L' T g' X Y.
Proof.
  intros HX HM HK HQ HG HL HH. destruct HW. pose proof HM as [El Em].
  assert (Hex : forall u, ex Q' u <-> ex Q u).
  { intros u. eapply moved_ex; [done|congruence]. }
  split; [done|..|done| | |].
  - intros h. rewrite El. auto.
  - intros p. rewrite El. auto.
  - intros n. apply (moved_members _ _ _ HM (fun n => exists t, n = NA t)); [|auto].
    intros Hi. by apply HH in Hi; [|apply W_live0].
  - intros n. apply (moved_members _ _ _ HM (fun n => exists t, n = NTm t /\ ex Q' t)).
    + intros Hi. by apply HH in Hi; [|apply W_live0].
    + intros m Hm. destruct (W_timers0 m Hm) as (u & ? & ?). exists u. by rewrite Hex.
  - intros h n Hh Hm. rewrite El in Hh. revert n.
    apply (moved_members _ _ _ HM (fun n => exists t, n = NT t /\ ex Q' t)).
    + exists t. by rewrite Hex.
    + intros m Hi. destruct (W_home0 h m Hh Hm Hi) as (u & ? & ?). exists u. by rewrite Hex.
  - intros u. rewrite Hex. auto.
  - intros u. rewrite Hex. intros Hu. destruct (decide (u = t)) as [->|]; [done|].
    eapply moved_linked; [done|congruence| |by apply W_linked0].
    intros. apply HK; [congruence|done..].
  - intros u. rewrite Hex. intros Hu.
    eapply moved_timer_ok; [done|congruence| |by apply W_timer0].
    intros. apply HK; [congruence|done..].
  - intros u. rewrite Hex. intros Hu Hx.
    eapply moved_status_ok; [done| |by apply W_status0]. congruence.
Qed.

(** The place of a thread's timer changes. *)
Lemma kwf_move_timer :
  t ∈ Y -> moved (NTm t) Q Q' -> keeps_self (NTm t) Q L L' -> qwf L' Q' ->
  (forall p, 0 <= p < RT_THREAD_PRIORITY_MAX -> Q' (NReady p) = Q (NReady p)) ->
  (NTm t ∈ Q' NTimers \/ free_node Q' (NTm t) /\ self L' (NTm t)) ->
  (forall h, live Q h = true -> NTm t ∈ Q' h -> h = NTimers) ->
  kwf_ Q' L' T g X Y.
Proof.
  intros HY HM HK HQ HR HL HH. destruct HW. pose proof HM as [El Em].
  assert (Hex : forall u, ex Q' u <-> ex Q u).
  { intros u. eapply moved_ex; [done|congruence]. }
  split; [done|..| | | |].
  - intros h. rewrite El. auto.
  - intros p. rewrite El. auto.
  - intros n. apply (moved_members _ _ _ HM (fun n => exists t, n = NA t)); [|auto].
    intros Hi. by apply HH in Hi; [|apply W_live0].
  - intros n. apply (moved_members _ _ _ HM (fun n => exists t, n = NTm t /\ ex Q' t)).
    + exists t. by rewrite Hex.
    + intros m Hm. destruct (W_timers0 m Hm) as (u & ? & ?). exists u. by rewrite Hex.
  - intros h n Hh Hm. rewrite El in Hh. revert n.
    apply (moved_members _ _ _ HM (fun n => exists t, n = NT t /\ ex Q' t)).
    + intros Hi. apply HH in Hi; [|done]. by subst.
    + intros m Hi. destruct (W_home0 h m Hh Hm Hi) as (u & ? & ?). exists u. by rewrite Hex.
  - intros u. rewrite Hex. auto.
  - destruct W_group0 as [? Hg]. split; [done|]. intros p Hp. rewrite HR by done. auto.
  - intros u. rewrite Hex. intros Hu.
    eapply moved_linked; [done|congruence| |by apply W_linked0].
    intros. apply HK; [congruence|done..].
  - intros u. rewrite Hex. intros Hu. destruct (decide (u = t)) as [->|].
    { unfold timer_ok. naive_solver. }
    eapply moved_timer_ok; [done|congruence| |by apply W_timer0].
    intros. apply HK; [congruence|done..].
  - intros u. rewrite Hex. intros Hu Hx.
    eapply moved_status_ok; [done| |by apply W_status0]. congruence.
Qed.
End Move.

(** Moving a [tlist] or [timelist] node creates and reclaims no thread. *)
Section Ex.
Context (Q : queues) (h : node) (t u : Z).

Lemma ex_del_T : ex (q_del Q (NT u)) t <-> ex Q t.
Proof. by eapply moved_ex; [apply moved_del|]. Qed.
Lemma ex_del_Tm : ex (q_del Q (NTm u)) t <-> ex Q t.
Proof. by eapply moved_ex; [apply moved_del|]. Qed.
Lemma ex_append_T : ex (q_append Q h (NT u)) t <-> ex Q t.
Proof. by eapply moved_ex; [apply moved_append|]. Qed.
Lemma ex_prepend_T : ex (q_prepend Q h (NT u)) t <-> ex Q t.
Proof. by eapply moved_ex; [apply moved_prepend|]. Qed.
Lemma ex_prepend_Tm : ex (q_prepend Q h (NTm u)) t <-> ex Q t.
Proof. by eapply moved_ex; [apply moved_prepend|]. Qed.
End Ex.
#[export] Hint Rewrite ex_del_T ex_del_Tm ex_append_T ex_prepend_T ex_prepend_Tm : luoji_rw.

(** ** Changing a record *)

Section Change.
Context (Q : queues) (L : links) (T : Z -> rt_thread) (g : Z).

(** A change of thread [t]'s record that keeps its priority; its status may only
    change while [t ∈ X] and its flag while [t ∈ Y]. *)
Lemma kwf_thr (X Y : gset Z) (t : Z) (v : rt_thread) :
  kwf_ Q L T g X Y ->
  current_priority v = current_priority (T t) -> number_mask v = number_mask (T t) ->
  (statu v = statu (T t) \/ t ∈ X) ->
  (flag (thread_timer v) = flag (thread_timer (T t)) \/ t ∈ Y) ->
  kwf_ Q L (fupd T t v) g X Y.
Proof.
  intros [] Hp Hm Hs Hf. split; try done.
  - intros u Hu. destruct (decide (u = t)) as [->|]; simpl_fupd; [rewrite Hp, Hm|]; auto.
  - intros u Hu. specialize (W_linked0 u Hu). unfold linked in *.
    destruct (decide (u = t)) as [->|]; simpl_fupd; [rewrite Hp|]; done.
  - intros u Hu. specialize (W_timer0 u Hu). unfold timer_ok in *.
    destruct (decide (u = t)) as [->|]; simpl_fupd; [|done].
    destruct Hf as [->|]; [done|]. naive_solver.
  - intros u Hu Hx. specialize (W_status0 u Hu Hx). unfold status_ok, timer_idle in *.
    destruct (decide (u = t)) as [->|]; simpl_fupd; [|done].
    destruct Hs as [->|]; [|done]. rewrite Hp.
    destruct Hf as [Hf|]; rewrite ?Hf; destruct (statu (T t)); rewrite ?Hf; naive_solver.
Qed.

Lemma kwf_weaken (X X' Y Y' : gset Z) :
  X ⊆ X' -> Y ⊆ Y' -> kwf_ Q L T g X Y -> kwf_ Q L T g X' Y'.
Proof.
  intros HX HY []. split; try done.
  - intros u Hu. specialize (W_timer0 u Hu). unfold timer_ok in *.
    clear -W_timer0 HY. naive_solver.
  - intros u Hu Hx. specialize (W_status0 u Hu ltac:(set_solver)).
    unfold status_ok, timer_idle in *. destruct (statu (T u)); set_solver.
Qed.

(** The change is over. *)
Lemma kwf_settle (X Y : gset Z) (t : Z) :
  kwf_ Q L T g X Y -> (ex Q t -> status_ok Q T Y t) -> kwf_ Q L T g (X ∖ {[t]}) Y.
Proof.
  intros [] Hs. split; try done. intros u Hu Hx.
  destruct (decide (u = t)) as [->|]; [auto|]. apply W_status0; set_solver.
Qed.

Lemma kwf_settle_timer (X Y : gset Z) (t : Z) :
  kwf_ Q L T g X Y ->
  (ex Q t -> timer_ok Q L T (Y ∖ {[t]}) t) ->
  (ex Q t -> t ∉ X -> status_ok Q T (Y ∖ {[t]}) t) ->
  kwf_ Q L T g X (Y ∖ {[t]}).
Proof.
  intros [] Ht Hs. split; try done.
  - intros u Hu. destruct (decide (u = t)) as [->|]; [auto|].
    specialize (W_timer0 u Hu). unfold timer_ok in *. clear -W_timer0 n.
    rewrite elem_of_difference, elem_of_singleton. tauto.
  - intros u Hu Hx. destruct (decide (u = t)) as [->|]; [auto|].
    specialize (W_status0 u Hu Hx). unfold status_ok, timer_idle in *.
    destruct (statu (T u)); set_solver.
Qed.
End Change.

(** ** The kernel's list operations *)

Lemma testbit_pow2 (p i : Z) : 0 <= p -> 0 <= i -> Z.testbit (2 ^ p) i = (p =? i).
Proof. intros. rewrite Z.pow2_bits_eqb by done. done. Qed.

Lemma testbit_not32 (m i : Z) : 0 <= i < 32 -> Z.testbit (not32 m) i = negb (Z.testbit m i).
Proof. intros. unfold not32. rewrite testbit_u32 by done. apply Z.lnot_spec. lia. Qed.

Lemma group_set (Q Q' : queues) (g p : Z) :
  group_ok Q g -> 0 <= p < 32 -> Q' (NReady p) <> [] ->
  (forall p', 0 <= p' < RT_THREAD_PRIORITY_MAX -> p' ≠ p ->
     Q' (NReady p') = Q (NReady p')) ->
  group_ok Q' (Z.lor g (2 ^ p)).
Proof.
  intros [Hr Hg] Hp Hne Ho. split.
  - apply bits_range; [lia|]. assert (0 <= 2 ^ p) by lia. split.
    + apply Z.lor_nonneg. lia.
    + intros i Hi. rewrite Z.lor_spec, (bits_below 32 g), testbit_pow2 by lia.
      apply Z.eqb_neq. lia.
  - intros p' Hp'. rewrite Z.lor_spec, testbit_pow2 by lia.
    destruct (decide (p' = p)) as [->|].
    + rewrite Z.eqb_refl, orb_true_r. by rewrite bool_decide_false.
    + rewrite Hg, Ho by done. assert ((p =? p') = false) as -> by lia. apply orb_false_r.
Qed.

Lemma group_clear (Q Q' : queues) (g p : Z) :
  group_ok Q g -> 0 <= p < 32 -> Q' (NReady p) = [] ->
  (forall p', 0 <= p' < RT_THREAD_PRIORITY_MAX -> p' ≠ p ->
     Q' (NReady p') = Q (NReady p')) ->
  group_ok Q' (Z.land g (not32 (2 ^ p))).
Proof.
  intros [Hr Hg] Hp Hne Ho. split.
  - apply bits_range; [lia|]. split.
    + apply Z.land_nonneg. lia.
    + intros i Hi. by rewrite Z.land_spec, (bits_below 32 g) by lia.
  - intros p' Hp'. rewrite Z.land_spec, testbit_not32, testbit_pow2 by (unfold RT_THREAD_PRIORITY_MAX in *; lia).
    destruct (decide (p' = p)) as [->|].
    + rewrite Z.eqb_refl, andb_false_r. by rewrite bool_decide_true.
    + rewrite Hg, Ho by done. assert ((p =? p') = false) as -> by lia. apply andb_true_r.
Qed.

Lemma group_same (Q Q' : queues) (g : Z) :
  group_ok Q g ->
  (forall p, 0 <= p < RT_THREAD_PRIORITY_MAX -> Q' (NReady p) = [] <-> Q (NReady p) = []) ->
  group_ok Q' g.
Proof.
  intros [Hr Hg] Ho. split; [done|]. intros p Hp. rewrite Hg by done. f_equal.
  apply bool_decide_ext. by rewrite Ho.
Qed.

Lemma q_del_same (Q : queues) (n h : node) : n ∉ Q h -> q_del Q n h = Q h.
Proof. intros. by apply filter_ne_notin. Qed.

Lemma linked_del (Q : queues) (L : links) (T : Z -> rt_thread) (t : Z) :
  linked Q L T t -> (exists h, live Q h = true /\ NT t ∈ Q h) \/
    (free_node Q (NT t) /\ self L (NT t)).
Proof. intros [(h & ? & ? & ? & ?)|?]; eauto. Qed.

(** A thread is on the ready list of its own priority or on no ready list. *)
Lemma linked_ready (Q : queues) (L : links) (T : Z -> rt_thread) (t p : Z) :
  qwf L Q -> live Q (NReady p) = true -> linked Q L T t -> NT t ∈ Q (NReady p) ->
  p = current_priority (T t).
Proof.
  intros HQ Hp [(h & Hh & _ & Hi & E)|[Hf _]] Hin; [|by destruct (Hf (NReady p))].
  apply E. symmetry. by eapply (qwf_disj _ _ HQ).
Qed.

Lemma remove_thread_eq (t : Z) (k : kernel) : rt_schedule_remove_thread t k =
  set_group
    (if rt_list_isempty (rt_list_remove (lk k) (NT t))
          (NReady (current_priority (thr k t)))
     then Z.land (rt_thread_ready_priority_group k) (not32 (number_mask (thr k t)))
     else rt_thread_ready_priority_group k)
    (upd_lk (fun L => rt_list_remove L (NT t)) k).
Proof.
  unfold rt_schedule_remove_thread, rt_hw_interrupt_enable, rt_hw_interrupt_disable; simpl.
  destruct k; simpl. by destruct (rt_list_isempty _ _).
Qed.

Lemma insert_thread_eq (t : Z) (k : kernel) : t ≠ rt_current_thread k -> rt_schedule_insert_thread t k =
  set_group (Z.lor (rt_thread_ready_priority_group k) (number_mask (thr k t)))
    (upd_lk (fun L => rt_list_insert_before L (NReady (current_priority (thr k t))) (NT t))
      (upd_thr t (t_statu RT_THREAD_READY) k)).
Proof.
  intros Hne. unfold rt_schedule_insert_thread, rt_hw_interrupt_enable, rt_hw_interrupt_disable.
  simpl. rewrite (proj2 (Z.eqb_neq _ _) Hne). unfold upd_thr; simpl. simpl_fupd. done.
Qed.

Lemma insert_current_eq (t : Z) (k : kernel) : t = rt_current_thread k ->
  rt_schedule_insert_thread t k = upd_thr t (t_statu RT_THREAD_RUNNING) k.
Proof.
  intros ->. unfold rt_schedule_insert_thread, rt_hw_interrupt_enable, rt_hw_interrupt_disable.
  simpl. by rewrite Z.eqb_refl.
Qed.

#[global] Opaque rt_schedule_remove_thread rt_schedule_insert_thread.
#[global] Opaque rt_list_remove rt_list_insert_before rt_list_insert_after rt_list_isempty.

Section Ops.
Context (X Y : gset Z) (k : kernel) (Q : queues) (HW : kwf X Y k Q).
Context (t : Z) (Ht : ex Q t).

Lemma unlink_facts :
  qwf (rt_list_remove (lk k) (NT t)) (q_del Q (NT t)) /\
  self (rt_list_remove (lk k) (NT t)) (NT t) /\
  keeps_self (NT t) Q (lk k) (rt_list_remove (lk k) (NT t)).
Proof.
  destruct (qwf_del (lk k) Q (NT t)) as (? & ? & Hk);
    [apply HW|by eapply linked_del, HW|].
  split_and!; [done..|]. intros x _. apply Hk.
Qed.

(** [rt_list_remove(&thread->tlist)] of a thread that is on no ready list. *)
Lemma kwf_unlink :
  t ∈ X -> (forall p, live Q (NReady p) = true -> NT t ∉ Q (NReady p)) ->
  kwf X Y (upd_lk (fun L => rt_list_remove L (NT t)) k) (q_del Q (NT t)).
Proof.
  intros HX Hr. destruct unlink_facts as (Hq & Hs & Hk).
  apply (kwf_move X Y Q _ (lk k) _ (thr k) _ _ HW t Ht); [done|apply moved_del|done..| | |].
  - eapply group_same; [by apply HW|]. intros p Hp.
    rewrite q_del_same; [done|]. apply Hr, HW. simpl.
    unfold RT_THREAD_PRIORITY_MAX in *; lia.
  - right. split; [apply free_q_del|done].
  - intros h Hh [? _]%elem_of_q_del. done.
Qed.

Lemma kwf_remove_thread :
  t ∈ X -> kwf X Y (rt_schedule_remove_thread t k) (q_del Q (NT t)).
Proof.
  intros HX. destruct unlink_facts as (Hq & Hs & Hk). rewrite remove_thread_eq.
  destruct (W_prio _ _ _ _ _ _ HW t Ht) as [Hp Hm]. simpl.
  assert (Hl : live Q (NReady (current_priority (thr k t))) = true).
  { apply HW. simpl. unfold RT_THREAD_PRIORITY_MAX in *; lia. }
  apply (kwf_move X Y Q _ (lk k) _ (thr k) _ _ HW t Ht); [done|apply moved_del|done..| | |].
  - rewrite (qwf_isempty _ _ Hq) by done. rewrite Hm.
    assert (Ho : forall p', 0 <= p' < RT_THREAD_PRIORITY_MAX ->
              p' ≠ current_priority (thr k t) ->
              q_del Q (NT t) (NReady p') = Q (NReady p')).
    { intros p' Hp' Hne. apply q_del_same. intros Hi. apply Hne.
      assert (live Q (NReady p') = true).
      { apply HW. simpl. unfold RT_THREAD_PRIORITY_MAX in *; lia. }
      eapply linked_ready; [apply HW|done|by apply HW|done]. }
    pose proof (W_group _ _ _ _ _ _ HW) as [Hgr Hg].
    destruct (bool_decide_reflect (q_del Q (NT t) (NReady (current_priority (thr k t))) = []))
      as [E|E].
    + eapply group_clear; [by split|done|done|]. intros. by apply Ho.
    + split; [done|]. intros p' Hpp.
      destruct (decide (p' = current_priority (thr k t))) as [->|Hne].
      * rewrite (bool_decide_false (q_del _ _ _ = [])) by done. rewrite Hg by done.
        rewrite bool_decide_false; [done|]. intros E'. apply E.
        unfold q_del; simpl. by rewrite E'.
      * rewrite Ho by done. by apply Hg.
  - right. split; [apply free_q_del|done].
  - intros h Hh [? _]%elem_of_q_del. done.
Qed.
End Ops.

Lemma kwf_q_eq (Q Q' : queues) (L : links) (T : Z -> rt_thread) (g : Z) (X Y : gset Z) :
  q_eq Q Q' -> kwf_ Q L T g X Y -> kwf_ Q' L T g X Y.
Proof.
  intros E []. pose proof E as [El Eq].
  assert (Hk : forall h, kernel_head h = true -> Q' h = Q h).
  { intros h Hh. symmetry. by apply Eq, W_live0. }
  assert (Hex : forall t, ex Q' t <-> ex Q t) by (intros t; unfold ex; by rewrite Hk).
  split.
  - by rewrite <- E.
  - intros h Hh. rewrite <- El. auto.
  - intros p. rewrite <- El. auto.
  - intros n. rewrite Hk by done. auto.
  - intros n. rewrite Hk by done. intros Hn. destruct (W_timers0 n Hn) as (u & ? & ?).
    exists u. by rewrite Hex.
  - intros h n Hh Hm. rewrite <- El in Hh. rewrite <- Eq by done. intros Hn.
    destruct (W_home0 h n Hh Hm Hn) as (u & ? & ?). exists u. by rewrite Hex.
  - intros t. rewrite Hex. auto.
  - eapply group_same; [done|]. intros p Hp. rewrite Hk; [done|]. simpl. lia.
  - intros t. rewrite Hex. intros Ht. destruct (W_linked0 t Ht) as [(h & Hh & ?)|?].
    + left. exists h. rewrite <- El, <- Eq by done. done.
    + right. by rewrite <- E.
  - intros t. rewrite Hex. intros Ht. specialize (W_timer0 t Ht). unfold timer_ok in *.
    by rewrite Hk, <- E.
  - intros t. rewrite Hex. intros Ht Hx. specialize (W_status0 t Ht Hx).
    destruct (W_prio0 t Ht) as [Hp _].
    unfold status_ok in *. destruct (statu (T t)); try done.
    + rewrite Hk by (simpl; lia). done.
    + intros h. rewrite <- El. intros Hh. rewrite <- Eq by done. by apply W_status0.
    + by rewrite <- E.
    + by rewrite <- E.
    + by rewrite Hk.
Qed.

Section InsertOps.
Context (X Y : gset Z) (k : kernel) (Q : queues) (HW : kwf X Y k Q).
Context (t : Z) (Ht : ex Q t) (HX : t ∈ X) (Hf : free_node Q (NT t)).

Lemma insert_keeps (h : node) : live Q h = true ->
  keeps_self (NT t) Q (lk k) (rt_list_insert_before (lk k) h (NT t)) /\
  keeps_self (NT t) Q (lk k) (rt_list_insert_after (lk k) h (NT t)).
Proof.
  intros Hh. split; intros x Hx Hn Hfx Hs;
    [by eapply self_insert_before; [apply HW|..]
    |by eapply self_insert_after; [apply HW|..]].
Qed.

Lemma only_at (h h' : node) (l : list node) :
  h' ≠ h -> live Q h' = true -> NT t ∈ q_set Q h l h' -> False.
Proof. intros Hne Hh'. rewrite q_set_ne by done. by apply Hf. Qed.

(** [rt_list_insert_before] of a waiting list's head. *)
Lemma kwf_enqueue (h : node) : live Q h = true -> is_wait h = true ->
  kwf X Y (upd_lk (fun L => rt_list_insert_before L h (NT t)) k) (q_append Q h (NT t)).
Proof.
  intros Hh Hw. apply (kwf_move X Y Q _ (lk k) _ (thr k) _ _ HW t Ht); [done|..].
  - apply moved_append.
  - by apply insert_keeps.
  - apply qwf_insert_before; [apply HW|done..].
  - eapply group_same; [apply HW|]. intros p _. unfold q_append.
    rewrite q_set_ne; [done|]. by intros <-.
  - left. exists h. unfold q_append. rewrite q_set_eq. split_and!; [done| |set_solver|].
    + unfold is_home. by destruct h.
    + by intros p ->.
  - intros h' Hh' Hi. destruct (decide (h' = h)) as [->|]; [by destruct h|].
    by destruct (only_at _ _ _ n Hh' Hi).
Qed.

(** [rt_list_insert_after(&rt_thread_dead, ...)]. *)
Lemma kwf_bury :
  kwf X Y (upd_lk (fun L => rt_list_insert_after L NDead (NT t)) k) (q_prepend Q NDead (NT t)).
Proof.
  assert (Hh : live Q NDead = true) by by apply HW.
  apply (kwf_move X Y Q _ (lk k) _ (thr k) _ _ HW t Ht); [done|..].
  - apply moved_prepend.
  - by apply insert_keeps.
  - apply qwf_insert_after; [apply HW|done..].
  - eapply group_same; [apply HW|]. intros p _. unfold q_prepend. by rewrite q_set_ne.
  - left. exists NDead. unfold q_prepend. rewrite q_set_eq. split_and!; [done..|set_solver|done].
  - intros h' Hh' Hi. destruct (decide (h' = NDead)) as [->|]; [done|].
    by destruct (only_at _ _ _ n Hh' Hi).
Qed.

Lemma kwf_insert_thread : t ≠ rt_current_thread k ->
  kwf X Y (rt_schedule_insert_thread t k)
    (q_append Q (NReady (current_priority (thr k t))) (NT t)).
Proof.
  intros Hne. rewrite insert_thread_eq by done.
  destruct (W_prio _ _ _ _ _ _ HW t Ht) as [Hp Hm]. rewrite Hm.
  assert (Hh : live Q (NReady (current_priority (thr k t))) = true).
  { apply HW. simpl. unfold RT_THREAD_PRIORITY_MAX in *; lia. }
  refine (kwf_move X Y Q _ (lk k) _ _ _ _ (kwf_thr _ _ _ _ X Y t
            (t_statu RT_THREAD_READY (thr k t)) HW _ _ _ _) t Ht _ _ _ _ _ _ _); auto.
  - apply moved_append.
  - by apply insert_keeps.
  - apply qwf_insert_before; [apply HW|done..].
  - eapply group_set; [apply HW|done|..]; unfold q_append.
    + rewrite q_set_eq. by destruct (Q _).
    + intros p' _ Hp'. rewrite q_set_ne by congruence. done.
  - left. eexists. unfold q_append. rewrite q_set_eq. split_and!; [done..|set_solver|].
    intros p [= <-]. simpl. simpl_fupd. done.
  - intros h' Hh' Hi. destruct (decide (h' = NReady (current_priority (thr k t)))) as [->|];
      [done|]. by destruct (only_at _ _ _ n Hh' Hi).
Qed.
End InsertOps.

(** ** Timers *)

Section TimerOps.
Context (X Y : gset Z) (k : kernel) (Q : queues) (HW : kwf X Y k Q).
Context (t : Z) (Ht : ex Q t).

Lemma timer_only_at (h : node) : live Q h = true -> NTm t ∈ Q h -> h = NTimers.
Proof.
  intros Hh Hi. pose proof (W_live _ _ _ _ _ _ HW NTimers eq_refl) as Hl.
  destruct (W_timer _ _ _ _ _ _ HW t Ht) as [[_ ?]|[_ [Hf _]]]; [|by destruct (Hf h)].
  by eapply (qwf_disj _ _ (W_q _ _ _ _ _ _ HW)).
Qed.

Lemma kwf_timer_unlink : t ∈ Y ->
  kwf X Y (upd_lk (fun L => rt_list_remove L (NTm t)) k) (q_del Q (NTm t)).
Proof.
  intros HY. destruct (qwf_del (lk k) Q (NTm t)) as (Hq & Hs & Hk).
  { apply HW. }
  { pose proof (W_live _ _ _ _ _ _ HW NTimers eq_refl).
    destruct (W_timer _ _ _ _ _ _ HW t Ht) as [[_ ?]|[_ ?]]; eauto. }
  apply (kwf_move_timer X Y Q _ (lk k) _ (thr k) _ HW t Ht); [done|apply moved_del|..]; try done.
  - intros x _. apply Hk.
  - intros p Hp. apply q_del_same. intros Hi%timer_only_at; [done|].
    apply HW. simpl. unfold RT_THREAD_PRIORITY_MAX in *; lia.
  - right. split; [apply free_q_del|done].
  - intros h Hh [? _]%elem_of_q_del. done.
Qed.

Lemma kwf_timer_link : t ∈ Y -> free_node Q (NTm t) ->
  kwf X Y (upd_lk (fun L => rt_list_insert_after L NTimers (NTm t)) k)
    (q_prepend Q NTimers (NTm t)).
Proof.
  intros HY Hf. pose proof (W_live _ _ _ _ _ _ HW NTimers eq_refl) as Hl.
  apply (kwf_move_timer X Y Q _ (lk k) _ (thr k) _ HW t Ht); [done|apply moved_prepend|..].
  - intros x Hx Hn Hfx Hs. by eapply self_insert_after; [apply HW|..].
  - apply qwf_insert_after; [apply HW|done..].
  - intros p _. by apply q_set_ne.
  - left. unfold q_prepend. rewrite q_set_eq. set_solver.
  - intros h Hh. destruct (decide (h = NTimers)) as [->|]; [done|].
    unfold q_prepend. rewrite q_set_ne by done. intros Hi. by destruct (Hf h).
Qed.

(** Setting the flag ends the change of the timer. *)
Lemma kwf_set_flag (v : Z) : t ∈ Y ->
  (v = RT_TIMER_FLAG_ACTIVATED /\ NTm t ∈ Q NTimers /\
     (t ∈ X \/ statu_of k t = RT_THREAD_SLEEP \/ statu_of k t = RT_THREAD_SUSPEND) \/
   v = RT_TIMER_FLAG_NO_ACTIVATED /\ free_node Q (NTm t) /\ self (lk k) (NTm t)) ->
  kwf X (Y ∖ {[t]}) (upd_thr t (t_timer (tm_flag v)) k) Q.
Proof.
  intros HY Hv. apply kwf_settle_timer.
  - apply kwf_thr; simpl; auto.
  - intros _. unfold timer_ok. simpl. simpl_fupd. simpl. naive_solver.
  - intros _ Hx. pose proof (W_status _ _ _ _ _ _ HW t Ht Hx) as Hs.
    unfold status_ok, timer_idle in *. simpl. simpl_fupd. simpl.
    unfold statu_of in *. destruct (statu (thr k t)); naive_solver.
Qed.

Definition timer_stopped : kernel :=
  upd_thr t (t_timer (tm_flag RT_TIMER_FLAG_NO_ACTIVATED))
    (upd_lk (fun L => rt_list_remove L (NTm t)) k).

Lemma rt_timer_stop_eq : t ∉ Y ->
  rt_timer_stop t k = (RT_EOK, timer_stopped) /\ NTm t ∈ Q NTimers \/
  rt_timer_stop t k = (- RT_ERROR, k) /\ free_node Q (NTm t).
Proof.
  intros HY. unfold rt_timer_stop, rt_hw_interrupt_disable, rt_hw_interrupt_enable.
  unfold timer_of, timer_stopped, upd_thr, upd_lk. simpl.
  destruct (W_timer _ _ _ _ _ _ HW t Ht) as [[[?|Hf] Hi]|[[?|Hf] Hi]]; [done| |done|];
    rewrite Hf; simpl.
  - by left.
  - right. split; [by destruct k|]. apply Hi.
Qed.

End TimerOps.

Section TimerStop.
Context (X Y : gset Z) (k : kernel) (Q : queues) (HW : kwf X Y k Q).
Context (t : Z) (Ht : ex Q t) (HY : t ∉ Y).

(** [rt_timer_stop] takes the timer off the list, if it is on it. *)
Lemma kwf_timer_stop : kwf X Y (snd (rt_timer_stop t k)) (q_del Q (NTm t)).
Proof.
  destruct (rt_timer_stop_eq X Y k Q HW t Ht HY) as [[-> Hi]|[-> Hf]]; simpl.
  - rewrite (add_diff Y t HY).
    assert (HW' : kwf X (Y ∪ {[t]}) k Q) by (eapply kwf_weaken; [..|exact HW]; sets).
    pose proof (kwf_timer_unlink _ _ _ _ HW' t Ht (union_in_r _ _)) as HW2.
    apply (kwf_set_flag _ _ _ _ HW2 t); [by rewrite ex_del_Tm|sets|].
    right. split_and!; [done|apply free_q_del|apply remove_self].
  - eapply kwf_q_eq; [|exact HW]. symmetry. by apply q_del_free.
Qed.

Lemma timer_stop_flag :
  flag (timer_of (snd (rt_timer_stop t k)) t) = RT_TIMER_FLAG_NO_ACTIVATED.
Proof.
  destruct (rt_timer_stop_eq X Y k Q HW t Ht HY) as [[-> Hi]|[-> Hf]]; simpl.
  - unfold timer_of; simpl. by simpl_fupd.
  - destruct (W_timer _ _ _ _ _ _ HW t Ht) as [[_ Hi]|[[?|?] _]]; [|done|done].
    destruct (Hf NTimers); [|done]. by apply HW.
Qed.

(** [rt_timer_start] of a stopped timer links it and sets its deadline. *)
Lemma kwf_timer_start : timer_idle (thr k) Y t ->
  (t ∈ X \/ statu_of k t = RT_THREAD_SLEEP \/ statu_of k t = RT_THREAD_SUSPEND) ->
  kwf X Y (snd (rt_timer_start t k)) (q_prepend Q NTimers (NTm t)).
Proof.
  intros [?|Hidle] HS; [done|].
  rewrite (add_diff Y t HY).
  assert (Hf : free_node Q (NTm t)).
  { destruct (W_timer _ _ _ _ _ _ HW t Ht) as [[[?|Hn] _]|[_ [? _]]]; [done| |done].
    by rewrite Hn in Hidle. }
  assert (HW' : kwf X (Y ∪ {[t]}) k Q) by (eapply kwf_weaken; [..|exact HW]; sets).
  set (f := fun tm => tm_timeout_tick (system_tick k +u timer_init_tick tm) tm).
  assert (HW1 : kwf X (Y ∪ {[t]}) (upd_thr t (t_timer f) k) Q).
  { apply kwf_thr; simpl; auto. }
  apply (kwf_timer_link _ _ _ _ HW1 t Ht) in Hf as HW2; [|sets].
  unfold rt_timer_start. simpl.
  apply (kwf_set_flag _ _ _ _ HW2 t); [by rewrite ex_prepend_Tm|sets|].
  left. split_and!; [done| |].
  - unfold q_prepend. rewrite q_set_eq. set_solver.
  - unfold statu_of in *. simpl. simpl_fupd. done.
Qed.
End TimerStop.
