(* ===== verification/Sched.v ===== *)
(** * The scheduler, timeouts and thread states

    [rt_schedule] against its specification, a priority scheduler with one FIFO
    queue per priority, and the preservation of the kernel invariant by the
    routines that stop, start, time out and reclaim threads. *)

From S2P Require Import Prelude Bits RtList Kernel KernelInv.

(** ** Specification *)

(** The ready threads in the order in which the scheduler is to run them. *)
Definition ready_order (Q : queues) : list node :=
  flat_map (fun p => Q (NReady p)) (seqZ 0 RT_THREAD_PRIORITY_MAX).

(** The lists after a switch: a thread that could go on goes to the tail of its
    priority's queue, the chosen one leaves its own. *)
Definition sched_queues (k : kernel) (Q : queues) (from to : Z) : queues :=
  q_del (if keeps_running (statu_of k from)
         then q_append Q (NReady (current_priority (thr k from))) (NT from) else Q) (NT to).

(** What a switch changes besides the lists. *)
Record sched_effect (k : kernel) (from to : Z) (k' : kernel) : Prop := {
  se_current : rt_current_thread k' = to;
  se_priority : rt_current_priority k' = current_priority (thr k to);
  se_to : thr k' to = t_statu RT_THREAD_RUNNING (thr k to);
  se_from : thr k' from = if keeps_running (statu_of k from)
                          then t_statu RT_THREAD_READY (thr k from) else thr k from;
  se_thr : forall t, t ≠ to -> t ≠ from -> thr k' t = thr k t;
  se_sem : sem_value k' = sem_value k;
  se_mbox : mbox k' = mbox k;
  se_nest : rt_interrupt_nest k' = rt_interrupt_nest k;
  se_tick : system_tick k' = system_tick k }.

(** ** The highest ready thread *)

Lemma hd_flat_map {A} (f : Z -> list A) (l1 l2 : list Z) (p : Z) (x : A) (r : list A) :
  (forall q, q ∈ l1 -> f q = []) -> f p = x :: r ->
  hd_error (flat_map f (l1 ++ p :: l2)) = Some x.
Proof.
  intros Hn Hp. rewrite flat_map_app. simpl. rewrite Hp.
  assert (flat_map f l1 = []) as ->; [|done].
  induction l1 as [|y l1 IH]; [done|]. simpl. rewrite Hn by set_solver.
  apply IH. set_solver.
Qed.

Lemma seqZ_split (n p : Z) : 0 <= p < n ->
  seqZ 0 n = seqZ 0 p ++ p :: seqZ (p + 1) (n - p - 1).
Proof.
  intros Hp. replace n with (p + (n - p)) at 1 by lia.
  rewrite seqZ_app by lia. f_equal. rewrite seqZ_cons by lia.
  f_equal; f_equal; lia.
Qed.

Section Highest.
Context (Y : gset Z) (k : kernel) (Q : queues) (HW : kwf ∅ Y k Q).

Lemma live_ready (p : Z) : 0 <= p < 32 -> live Q (NReady p) = true.
Proof. intros Hp. apply HW. simpl. unfold RT_THREAD_PRIORITY_MAX. lia. Qed.

(** A thread on a ready list is READY and has that list's priority. *)
Lemma on_ready (p : Z) (n : node) : 0 <= p < 32 -> n ∈ Q (NReady p) ->
  exists t, n = NT t /\ ex Q t /\ current_priority (thr k t) = p /\
    statu_of k t = RT_THREAD_READY.
Proof.
  intros Hp Hi. pose proof (live_ready p Hp) as Hl.
  destruct (W_home _ _ _ _ _ _ HW _ n Hl eq_refl Hi) as (t & -> & Ht).
  assert (Ep : p = current_priority (thr k t)).
  { eapply linked_ready; [apply HW|done|by apply HW|done]. }
  exists t. split_and!; [done..|].
  pose proof (W_status _ _ _ _ _ _ HW t Ht (not_elem_of_empty t)) as Hs.
  unfold status_ok, statu_of in *. destruct (statu (thr k t)); try done.
  - by specialize (Hs _ Hl Hi).
  - by destruct (Hs (NReady p)).
  - destruct Hs as [Hs _]. by destruct (Hs (NReady p)).
  - destruct Hs as [Hs _]. pose proof (W_live _ _ _ _ _ _ HW NDead eq_refl).
    by pose proof (qwf_disj _ _ (W_q _ _ _ _ _ _ HW) _ _ _ Hl H Hi Hs).
Qed.

Lemma group_positive : rt_thread_ready_priority_group k ≠ 0 ->
  0 < rt_thread_ready_priority_group k < 2 ^ 32.
Proof. destruct (W_group _ _ _ _ _ _ HW). lia. Qed.

Lemma highest_ready : rt_thread_ready_priority_group k ≠ 0 ->
  exists p to rest, 0 <= p < 32 /\
    _get_highest_priority_thread k = (p, Some to) /\
    Q (NReady p) = NT to :: rest /\ (forall q, 0 <= q < p -> Q (NReady q) = []) /\
    ex Q to /\ current_priority (thr k to) = p /\ statu_of k to = RT_THREAD_READY.
Proof.
  intros Hg%group_positive. destruct (rt_ffs_group _ Hg) as [(_ & H1 & H2) Hr].
  destruct (W_group _ _ _ _ _ _ HW) as [_ HG].
  set (p := __rt_ffs (s32 (rt_thread_ready_priority_group k)) - 1) in *.
  rewrite HG in H1 by done. apply negb_true_iff, bool_decide_eq_false in H1.
  destruct (Q (NReady p)) as [|n rest] eqn:EQ; [done|].
  destruct (on_ready p n) as (to & -> & Hto & Hp & Hs); [done|rewrite EQ; apply list_elem_of_here|].
  exists p, to, rest. split_and!; try done; try lia.
  - unfold _get_highest_priority_thread. fold p. rewrite u32_small by lia.
    rewrite (qwf_next _ _ (W_q _ _ _ _ _ _ HW)) by by apply live_ready.
    by rewrite EQ.
  - intros q Hq. specialize (H2 q Hq). rewrite HG in H2 by (unfold RT_THREAD_PRIORITY_MAX; lia).
    by apply negb_false_iff, bool_decide_eq_true in H2.
Qed.

(** No ready thread: the group is zero. *)
Lemma group_zero : rt_thread_ready_priority_group k = 0 <-> ready_order Q = [].
Proof.
  unfold ready_order. split.
  - intros E. destruct (W_group _ _ _ _ _ _ HW) as [_ HG]. rewrite E in HG.
    assert (Hn : forall p, p ∈ seqZ 0 RT_THREAD_PRIORITY_MAX -> Q (NReady p) = []).
    { intros p Hp%elem_of_seqZ. specialize (HG p ltac:(lia)). rewrite Z.bits_0 in HG.
      by apply symmetry, negb_false_iff, bool_decide_eq_true in HG. }
    induction (seqZ _ _) as [|x l IH]; [done|]. simpl. rewrite Hn, IH by set_solver. done.
  - intros E. destruct (decide (rt_thread_ready_priority_group k = 0)) as [|Hg]; [done|].
    destruct (highest_ready Hg) as (p & to & rest & Hp & _ & EQ & _).
    rewrite (seqZ_split RT_THREAD_PRIORITY_MAX p) in E by done.
    rewrite flat_map_app in E. apply app_eq_nil in E as [_ E]. simpl in E. by rewrite EQ in E.
Qed.
End Highest.

(** ** The switch *)

Definition switch_from (from : Z) (k : kernel) : kernel :=
  if keeps_running (statu_of k from) then rt_schedule_insert_thread from k else k.

(** The kernel at the context switch. *)
Definition switched (to p : Z) (k : kernel) : kernel :=
  rt_schedule_remove_thread to
    (switch_from (rt_current_thread k)
       (upd_thr to (t_statu RT_THREAD_RUNNING) (set_current to p (set_ie false k)))).

Lemma remove_thread_fields (t : Z) (k : kernel) :
  let k' := rt_schedule_remove_thread t k in
  thr k' = thr k /\ sem_value k' = sem_value k /\ mbox k' = mbox k /\
  rt_current_thread k' = rt_current_thread k /\
  rt_current_priority k' = rt_current_priority k /\
  rt_interrupt_nest k' = rt_interrupt_nest k /\ system_tick k' = system_tick k /\ ie k' = ie k.
Proof. rewrite remove_thread_eq. done. Qed.

Lemma insert_thread_fields (t : Z) (k : kernel) : t ≠ rt_current_thread k ->
  let k' := rt_schedule_insert_thread t k in
  thr k' = fupd (thr k) t (t_statu RT_THREAD_READY (thr k t)) /\
  sem_value k' = sem_value k /\ mbox k' = mbox k /\
  rt_current_thread k' = rt_current_thread k /\
  rt_current_priority k' = rt_current_priority k /\
  rt_interrupt_nest k' = rt_interrupt_nest k /\ system_tick k' = system_tick k /\ ie k' = ie k.
Proof. intros Hne. rewrite insert_thread_eq by done. done. Qed.

Section Schedule.
Context (Y : gset Z) (k : kernel) (Q : queues) (HW : kwf ∅ Y k Q) (HC : kcur k Q).

Lemma current_keeps : keeps_running (statu_of k (rt_current_thread k)) = true ->
  statu_of k (rt_current_thread k) = RT_THREAD_RUNNING /\
  free_node Q (NT (rt_current_thread k)) /\ timer_idle (thr k) Y (rt_current_thread k).
Proof.
  destruct HC as (Hc & Hr & _).
  pose proof (W_status _ _ _ _ _ _ HW _ Hc (not_elem_of_empty _)) as Hs.
  unfold status_ok, statu_of in *. by destruct (statu (thr k (rt_current_thread k))).
Qed.

Context (to p : Z) (Hto : ex Q to) (Hs : statu_of k to = RT_THREAD_READY).

Lemma to_not_current : to ≠ rt_current_thread k.
Proof. intros ->. destruct HC as (_ & Hr & _). done. Qed.

Lemma to_idle : timer_idle (thr k) Y to.
Proof.
  pose proof (W_status _ _ _ _ _ _ HW _ Hto (not_elem_of_empty _)) as H.
  unfold status_ok, statu_of in *. rewrite Hs in H. apply H.
Qed.

Lemma switched_thr : thr (switched to p k) =
  (if keeps_running (statu_of k (rt_current_thread k)) then
     fupd (fupd (thr k) to (t_statu RT_THREAD_RUNNING (thr k to))) (rt_current_thread k)
       (t_statu RT_THREAD_READY (thr k (rt_current_thread k)))
   else fupd (thr k) to (t_statu RT_THREAD_RUNNING (thr k to))).
Proof.
  pose proof to_not_current as Hne. unfold switched.
  rewrite (proj1 (remove_thread_fields _ _)). unfold switch_from, statu_of. simpl. simpl_fupd.
  destruct (keeps_running _); [|done].
  match goal with |- context [rt_schedule_insert_thread ?t ?k'] =>
    rewrite (proj1 (insert_thread_fields t k' (not_eq_sym Hne))) end.
  simpl. by simpl_fupd.
Qed.

Lemma switched_effect :
  p = current_priority (thr k to) -> sched_effect k (rt_current_thread k) to (switched to p k).
Proof.
  intros Hp. pose proof to_not_current as Hne.
  assert (Hx : forall k' : kernel, rt_current_thread k' = to ->
      let k2 := rt_schedule_remove_thread to (switch_from (rt_current_thread k) k') in
      rt_current_thread k2 = to /\ rt_current_priority k2 = rt_current_priority k' /\
      sem_value k2 = sem_value k' /\ mbox k2 = mbox k' /\
      rt_interrupt_nest k2 = rt_interrupt_nest k' /\ system_tick k2 = system_tick k').
  { intros k' E. cbv zeta. destruct (remove_thread_fields to (switch_from (rt_current_thread k) k'))
      as (_ & -> & -> & -> & -> & -> & -> & _).
    unfold switch_from. destruct (keeps_running _); [|done].
    rewrite <- E in Hne.
    destruct (insert_thread_fields (rt_current_thread k) k') as (_ & -> & -> & -> & -> & -> & -> & _);
      [congruence|done]. }
  edestruct Hx as (H1 & H2 & H3 & H4 & H5 & H6); [|clear Hx].
  2: split; [exact H1|by rewrite <- Hp; exact H2| | | |exact H3|exact H4|exact H5|exact H6].
  { done. }
  all: rewrite switched_thr; destruct (keeps_running _); intros; by simpl_fupd.
Qed.

(** The lists, statuses and ready group agree again after the switch. *)
Lemma switched_kwf :
  kwf ∅ Y (switched to p k) (sched_queues k Q (rt_current_thread k) to).
Proof.
  pose proof to_not_current as Hne. pose proof to_idle as Hi.
  pose proof (remove_thread_fields to (switch_from (rt_current_thread k)
     (upd_thr to (t_statu RT_THREAD_RUNNING) (set_current to p (set_ie false k))))) as HF.
  set (k1 := upd_thr to (t_statu RT_THREAD_RUNNING) (set_current to p (set_ie false k))) in *.
  assert (H1 : kwf {[to]} Y k1 Q).
  { apply (kwf_thr _ _ (thr k)); [|done|done|right; sets|by left].
    eapply kwf_weaken; [..|exact HW]; sets. }
  assert (H2 : kwf {[to]} Y (switch_from (rt_current_thread k) k1)
      (if keeps_running (statu_of k (rt_current_thread k))
       then q_append Q (NReady (current_priority (thr k (rt_current_thread k))))
              (NT (rt_current_thread k)) else Q)).
  { unfold switch_from. assert (statu_of k1 (rt_current_thread k)
                                = statu_of k (rt_current_thread k)) as ->.
    { unfold statu_of, k1. simpl. by simpl_fupd. }
    destruct (keeps_running _) eqn:Ek; [|done].
    destruct (current_keeps Ek) as (Er & Hf & Hidle). destruct HC as (Hc & _).
    rewrite (pair_diff to (rt_current_thread k)) by done.
    assert (Et : thr k1 (rt_current_thread k) = thr k (rt_current_thread k)).
    { unfold k1. simpl. by simpl_fupd. }
    rewrite <- Et.
    apply kwf_settle.
    - apply kwf_insert_thread; [|done|sets|done|by apply not_eq_sym].
      eapply kwf_weaken; [..|exact H1]; sets.
    - intros _. unfold status_ok.
      destruct (insert_thread_fields (rt_current_thread k) k1) as (-> & _); [by apply not_eq_sym|].
      simpl_fupd. simpl. split.
      + apply in_q_append.
      + unfold timer_idle in *. simpl_fupd. simpl. done. }
  rewrite (sing_diff to) at 1.
  apply kwf_settle.
  - apply kwf_remove_thread; [exact H2| |sets].
    destruct (keeps_running _); [by rewrite ex_append_T|done].
  - intros _. unfold status_ok.
    rewrite switched_thr. destruct (keeps_running _); simpl_fupd; simpl;
      (split; [apply free_q_del|unfold timer_idle in *; simpl_fupd; done]).
Qed.

Lemma ex_sched_queues (from t : Z) : ex (sched_queues k Q from to) t <-> ex Q t.
Proof.
  unfold sched_queues. rewrite ex_del_T. destruct (keeps_running _); [|done].
  apply ex_append_T.
Qed.

Lemma switched_kcur :
  p = current_priority (thr k to) ->
  kcur (switched to p k) (sched_queues k Q (rt_current_thread k) to) /\
  statu_of (switched to p k) to = RT_THREAD_RUNNING.
Proof.
  intros Hp. destruct (switched_effect Hp) as [E1 E2 E3 E4 E5 _ _ _ _].
  pose proof to_not_current as Hne. unfold kcur. rewrite E1, ex_sched_queues.
  unfold statu_of in *. rewrite E3. split_and!; [done..| |done].
  intros t. rewrite ex_sched_queues. intros Ht Hr.
  destruct (decide (t = to)) as [|Hnt]; [done|].
  destruct HC as (_ & _ & Huniq).
  destruct (decide (t = rt_current_thread k)) as [->|Hnc].
  - rewrite E4 in Hr. destruct (keeps_running _) eqn:Ek; [done|].
    unfold keeps_running in Ek. rewrite Hr in Ek. done.
  - rewrite E5 in Hr by done. by destruct Hnc; apply Huniq.
Qed.
End Schedule.

(** ** [rt_schedule] *)

(** Every thread's stack passes the check made at each switch. *)
Definition stacks_ok (k : kernel) (Q : queues) : Prop :=
  forall t, ex Q t -> _rt_scheduler_stack_check k t = true.

Definition switch_result (k k' : kernel) (to : Z) : sched_result :=
  if negb (_rt_scheduler_stack_check k to) then SHang
  else if rt_interrupt_nest k =? 0 then SSwitch k' (rt_current_thread k) to
  else SSwitchInt (set_ie (ie k) k') (rt_current_thread k) to.

Lemma stack_check_ext (k k' : kernel) (t : Z) :
  stack_guard (thr k' t) = stack_guard (thr k t) -> sp (thr k' t) = sp (thr k t) ->
  stack_addr (thr k' t) = stack_addr (thr k t) -> stack_size (thr k' t) = stack_size (thr k t) ->
  _rt_scheduler_stack_check k' t = _rt_scheduler_stack_check k t.
Proof. unfold _rt_scheduler_stack_check. by intros -> -> -> ->. Qed.

Lemma schedule_idle (k : kernel) :
  rt_thread_ready_priority_group k = 0 -> rt_schedule k = SReturn k.
Proof.
  intros E. unfold rt_schedule, rt_hw_interrupt_disable, rt_hw_interrupt_enable.
  rewrite (E : rt_thread_ready_priority_group (set_ie false k) = 0). cbn [Z.eqb].
  f_equal. by destruct k.
Qed.

Lemma schedule_switch (Y : gset Z) (k : kernel) (Q : queues) :
  kwf ∅ Y k Q -> kcur k Q -> rt_thread_ready_priority_group k ≠ 0 ->
  exists p to rest, 0 <= p < 32 /\ Q (NReady p) = NT to :: rest /\
    (forall q, 0 <= q < p -> Q (NReady q) = []) /\
    ex Q to /\ current_priority (thr k to) = p /\ statu_of k to = RT_THREAD_READY /\
    rt_schedule k = switch_result k (switched to p k) to.
Proof.
  intros HW HC Hg. destruct (highest_ready _ _ _ HW Hg) as (p & to & rest & Hp & Eh & EQ & Hl & Hto & Ep & Hs).
  exists p, to, rest. split_and!; try done; try lia.
  unfold rt_schedule, rt_hw_interrupt_disable. cbn [fst snd].
  assert (Eg : (rt_thread_ready_priority_group (set_ie false k) =? 0) = false) by (simpl; lia).
  rewrite Eg. change (_get_highest_priority_thread (set_ie false k)) with (_get_highest_priority_thread k).
  rewrite Eh. assert (Ec : (to =? rt_current_thread (set_ie false k)) = false).
  { simpl. apply Z.eqb_neq. by eapply to_not_current. }
  rewrite Ec, u8_small by lia.
  set (k' := rt_schedule_remove_thread _ _). change (switched to p k) with k'.
  unfold switch_result.
  assert (Et : thr k' to = t_statu RT_THREAD_RUNNING (thr k to)).
  { by apply (se_to _ _ _ _ (switched_effect k Q HC to p Hto Hs (eq_sym Ep))). }
  rewrite (stack_check_ext k k' to) by (by rewrite Et).
  rewrite (se_nest _ _ _ _ (switched_effect k Q HC to p Hto Hs (eq_sym Ep)) : rt_interrupt_nest k' = _).
  done.
Qed.

(** The kernel a call of the scheduler leads to. *)
Definition r_kernel (r : sched_result) : option kernel :=
  match r with SReturn k | SSwitch k _ _ | SSwitchInt k _ _ => Some k | _ => None end.

(** Not switched away: the caller's code goes on. *)
Definition r_returns (r : sched_result) : bool :=
  match r with SReturn _ | SSwitchInt _ _ _ => true | _ => false end.

Definition awake (s : status) : bool :=
  match s with RT_THREAD_READY | RT_THREAD_RUNNING => true | _ => false end.

(** What a call of the scheduler leaves unchanged. *)
Record sched_stable (k : kernel) (Q : queues) (k' : kernel) (Q' : queues) : Prop := {
  ss_live : live Q' = live Q;
  ss_all : Q' NAll = Q NAll;
  ss_timers : Q' NTimers = Q NTimers;
  ss_thr : forall t, exists s, thr k' t = t_statu s (thr k t) /\
    (ex Q t -> awake s = awake (statu_of k t)) /\
    (awake (statu_of k t) = false -> s = statu_of k t);
  ss_sem : sem_value k' = sem_value k;
  ss_mbox : mbox k' = mbox k;
  ss_nest : rt_interrupt_nest k' = rt_interrupt_nest k;
  ss_tick : system_tick k' = system_tick k;
  ss_wait : forall h, is_wait h = true -> live Q h = true -> Q' h = Q h }.

Record kgood (Y : gset Z) (k : kernel) (Q : queues) : Prop := {
  kg_wf : kwf ∅ Y k Q;
  kg_cur : kcur k Q;
  kg_stacks : stacks_ok k Q }.

Lemma kgood_ie (Y : gset Z) (k : kernel) (Q : queues) (b : bool) :
  kgood Y k Q -> kgood Y (set_ie b k) Q.
Proof. intros []; by split. Qed.

Lemma stable_ie (k : kernel) (Q : queues) (k' : kernel) (Q' : queues) (b : bool) :
  sched_stable k Q k' Q' -> sched_stable k Q (set_ie b k') Q'.
Proof. intros []; by split. Qed.

Lemma t_statu_same (th : rt_thread) : t_statu (statu th) th = th.
Proof. by destruct th. Qed.

Lemma sched_stable_refl (k : kernel) (Q : queues) : sched_stable k Q k Q.
Proof.
  split; try done. intros t. exists (statu_of k t). unfold statu_of.
  by rewrite t_statu_same.
Qed.

Section Stable.
Context (Y : gset Z) (k : kernel) (Q : queues) (HG : kgood Y k Q).
Context (to p : Z) (rest : list node).
Context (Hto : ex Q to) (Hs : statu_of k to = RT_THREAD_READY).
Context (Ep : p = current_priority (thr k to)).

Lemma sched_queues_other (h : node) : live Q h = true ->
  (forall q, h ≠ NReady q) -> sched_queues k Q (rt_current_thread k) to h = Q h.
Proof.
  intros Hl Hh. unfold sched_queues. destruct HG as [HW HC _].
  assert (E : (if keeps_running (statu_of k (rt_current_thread k))
               then q_append Q (NReady (current_priority (thr k (rt_current_thread k))))
                      (NT (rt_current_thread k)) else Q) h = Q h).
  { destruct (keeps_running _); [|done]. unfold q_append. by rewrite q_set_ne. }
  unfold q_del at 1. simpl. rewrite E. apply filter_ne_notin. intros Hi.
  destruct (on_ready _ _ _ HW (current_priority (thr k to)) (NT to)) as (? & _ & _ & _ & _).
  { apply (W_prio _ _ _ _ _ _ HW). done. }
  { pose proof (W_status _ _ _ _ _ _ HW _ Hto (not_elem_of_empty _)) as H.
    unfold status_ok, statu_of in *. rewrite Hs in H. apply H. }
  pose proof (W_status _ _ _ _ _ _ HW _ Hto (not_elem_of_empty _)) as H.
  unfold status_ok, statu_of in *. rewrite Hs in H. destruct H as [H _].
  apply (Hh (current_priority (thr k to))).
  eapply (qwf_disj _ _ (W_q _ _ _ _ _ _ HW)); [done| |done|done].
  apply (live_ready _ _ _ HW). by apply (W_prio _ _ _ _ _ _ HW).
Qed.

Lemma switched_good :
  kgood Y (switched to p k) (sched_queues k Q (rt_current_thread k) to) /\
  sched_stable k Q (switched to p k) (sched_queues k Q (rt_current_thread k) to).
Proof.
  destruct HG as [HW HC HS].
  destruct (switched_effect k Q HC to p Hto Hs Ep) as [E1 E2 E3 E4 E5 E6 E7 E8 E9].
  assert (HT : forall t, exists s, thr (switched to p k) t = t_statu s (thr k t) /\
    awake s = awake (statu_of k t) /\ (awake (statu_of k t) = false -> s = statu_of k t)).
  { intros t. unfold statu_of in *.
    destruct (decide (t = to)) as [->|]; [eexists; rewrite E3, Hs; done|].
    destruct (decide (t = rt_current_thread k)) as [->|].
    - destruct (keeps_running _) eqn:Ek.
      + destruct (current_keeps _ _ _ HW HC Ek) as [Er _]. unfold statu_of in Er.
        eexists; rewrite E4, Er; done.
      + exists (statu (thr k (rt_current_thread k))). by rewrite t_statu_same.
    - exists (statu (thr k t)). by rewrite t_statu_same, E5. }
  split; split; try done.
  - by eapply switched_kwf.
  - by eapply switched_kcur.
  - intros t Ht. rewrite ex_sched_queues in Ht.
    rewrite <- (HS t Ht). destruct (HT t) as (s & E & _).
    apply stack_check_ext; by rewrite E.
  - unfold sched_queues. simpl. by destruct (keeps_running _).
  - apply sched_queues_other; [by apply HW|done].
  - apply sched_queues_other; [by apply HW|done].
  - intros t. destruct (HT t) as (s & ? & ? & ?). eauto.
  - intros h Hw Hl. apply sched_queues_other; [done|]. by intros q ->.
Qed.
End Stable.

(** [rt_schedule] never takes a list head for a thread, never stops, and leads to a
    state that satisfies the invariant. *)
Lemma schedule_good (Y : gset Z) (k : kernel) (Q : queues) : kgood Y k Q ->
  exists k' Q', r_kernel (rt_schedule k) = Some k' /\ kgood Y k' Q' /\
    sched_stable k Q k' Q' /\
    (r_returns (rt_schedule k) = true \/ rt_interrupt_nest k = 0) /\
    (rt_thread_ready_priority_group k ≠ 0 -> statu_of k' (rt_current_thread k') = RT_THREAD_RUNNING).
Proof.
  intros HG. destruct (decide (rt_thread_ready_priority_group k = 0)) as [E|Hne].
  - rewrite schedule_idle by done. exists k, Q. split_and!; try done.
    + apply sched_stable_refl.
    + by left.
  - pose proof HG as [HW HC HS].
    destruct (schedule_switch _ _ _ HW HC Hne) as (p & to & rest & Hp & EQ & Hl & Hto & Ep & Hst & ->).
    destruct (switched_good Y k Q HG to p Hto Hst (eq_sym Ep)) as [HG' HS'].
    destruct (switched_kcur k Q HC to p Hto Hst (eq_sym Ep)) as [_ Hrun].
    pose proof (se_current _ _ _ _ (switched_effect k Q HC to p Hto Hst (eq_sym Ep))) as Ec.
    assert (Hrun' : statu_of (switched to p k) (rt_current_thread (switched to p k))
                    = RT_THREAD_RUNNING) by by rewrite Ec.
    unfold switch_result. rewrite HS by done. simpl.
    destruct (Z.eqb_spec (rt_interrupt_nest k) 0) as [En|En].
    + eexists _, _. split_and!; [done|exact HG'|exact HS'|by right|]. intros _. exact Hrun'.
    + eexists (set_ie (ie k) _), _. split_and!; [done| | |by left|].
      3: { intros _. exact Hrun'. }
      * by apply kgood_ie.
      * by apply stable_ie.
Qed.
