(* ===== verification/ThreadOps.v ===== *)
(** * Thread operations and the tick

    The routines that stop, wake, time out and reclaim threads keep the kernel
    invariant; the timer check wakes exactly the threads whose deadline has
    passed. *)

From S2P Require Import Prelude Bits RtList Kernel KernelInv Sched.

(** ** Waking *)

Definition wake_status (k : kernel) (t : Z) : status :=
  if decide (t = rt_current_thread k) then RT_THREAD_RUNNING else RT_THREAD_READY.

(** The lists after [rt_schedule_insert_thread]. *)
Definition wake_queues (k : kernel) (Q : queues) (t : Z) : queues :=
  if decide (t = rt_current_thread k) then Q
  else q_append Q (NReady (current_priority (thr k t))) (NT t).

Lemma ex_wake (k : kernel) (Q : queues) (t u : Z) : ex (wake_queues k Q t) u <-> ex Q u.
Proof. unfold wake_queues. case_decide; [done|apply ex_append_T]. Qed.

Lemma wake_queues_other (k : kernel) (Q : queues) (t : Z) (h : node) :
  (forall p, h ≠ NReady p) -> wake_queues k Q t h = Q h.
Proof. intros Hh. unfold wake_queues. case_decide; [done|]. by apply q_set_ne. Qed.

Lemma wake_live (k : kernel) (Q : queues) (t : Z) : live (wake_queues k Q t) = live Q.
Proof. unfold wake_queues. by case_decide. Qed.

Lemma insert_thread_effect (t : Z) (k : kernel) :
  let k' := rt_schedule_insert_thread t k in
  thr k' = fupd (thr k) t (t_statu (wake_status k t) (thr k t)) /\
  sem_value k' = sem_value k /\ mbox k' = mbox k /\
  rt_current_thread k' = rt_current_thread k /\
  rt_current_priority k' = rt_current_priority k /\
  rt_interrupt_nest k' = rt_interrupt_nest k /\ system_tick k' = system_tick k /\ ie k' = ie k.
Proof.
  unfold wake_status. case_decide as Hc.
  - rewrite insert_current_eq by done. done.
  - by apply insert_thread_fields.
Qed.

Lemma kcur_status (k : kernel) (Q : queues) (t : Z) (s : status) (k' : kernel) (Q' : queues) :
  kcur k Q -> (forall u, ex Q' u <-> ex Q u) -> rt_current_thread k' = rt_current_thread k ->
  (forall u, u ≠ t -> statu_of k' u = statu_of k u) -> statu_of k' t = s ->
  (t = rt_current_thread k -> s ≠ RT_THREAD_READY) ->
  (t ≠ rt_current_thread k -> s ≠ RT_THREAD_RUNNING) -> kcur k' Q'.
Proof.
  intros (H1 & H2 & H3) Hex Hc Ho Hs Hr Hn. unfold kcur. rewrite Hc, Hex.
  destruct (decide (t = rt_current_thread k)) as [->|Hne]; (split_and!; [done| |]).
  - rewrite Hs. auto.
  - intros u. rewrite Hex. intros Hu.
    destruct (decide (u = rt_current_thread k)) as [|]; [done|]. rewrite Ho by done. auto.
  - by rewrite Ho.
  - intros u. rewrite Hex. intros Hu. destruct (decide (u = t)) as [->|]; [|rewrite Ho by done; auto].
    rewrite Hs. intros Hr'. by destruct (Hn Hne).
Qed.

Lemma stacks_ok_thr (k : kernel) (Q : queues) (k' : kernel) (Q' : queues) :
  stacks_ok k Q -> (forall u, ex Q' u -> ex Q u) ->
  (forall u, stack_guard (thr k' u) = stack_guard (thr k u) /\ sp (thr k' u) = sp (thr k u) /\
     stack_addr (thr k' u) = stack_addr (thr k u) /\ stack_size (thr k' u) = stack_size (thr k u)) ->
  stacks_ok k' Q'.
Proof.
  intros H He Ht u Hu. destruct (Ht u) as (? & ? & ? & ?).
  rewrite <- (H u) by auto. by apply stack_check_ext.
Qed.

(** [rt_schedule_insert_thread] of a thread that was taken off its list. *)
Lemma insert_good (Y : gset Z) (k : kernel) (Q : queues) (t : Z) :
  kwf {[t]} Y k Q -> kcur k Q -> stacks_ok k Q -> ex Q t -> free_node Q (NT t) ->
  timer_idle (thr k) Y t ->
  kgood Y (rt_schedule_insert_thread t k) (wake_queues k Q t).
Proof.
  intros HW HC HS Ht Hf Hi.
  destruct (insert_thread_effect t k) as (ET & _ & _ & EC & _).
  split.
  - rewrite (sing_diff t). apply kwf_settle.
    + unfold wake_queues. case_decide as Hc.
      * rewrite insert_current_eq by done. apply kwf_thr; simpl; try done; set_solver.
      * apply kwf_insert_thread; [done..|set_solver|done|done].
    + intros _. unfold status_ok. rewrite ET. simpl_fupd. simpl.
      unfold wake_status, wake_queues. unfold timer_idle in *.
      case_decide as Hc; simpl_fupd; simpl; [done|]. split; [|done].
      unfold q_append; simpl. simpl_fupd. set_solver.
  - apply (kcur_status k Q t (wake_status k t)); [done|apply ex_wake|done|..].
    + intros u Hu. unfold statu_of. rewrite ET. by simpl_fupd.
    + unfold statu_of. rewrite ET. by simpl_fupd.
    + intros Hc. unfold wake_status. by rewrite decide_True.
    + intros Hc. unfold wake_status. by rewrite decide_False.
  - apply (stacks_ok_thr k Q); [done|by intros u; rewrite ex_wake|].
    intros u. rewrite ET. unfold fupd. by case_decide; subst.
Qed.

(** A thread that sleeps or waits is on no ready list. *)
Lemma asleep_not_ready (X Y : gset Z) (k : kernel) (Q : queues) (t p : Z) :
  kwf X Y k Q -> ex Q t -> t ∉ X ->
  statu_of k t = RT_THREAD_SLEEP \/ statu_of k t = RT_THREAD_SUSPEND ->
  live Q (NReady p) = true -> NT t ∉ Q (NReady p).
Proof.
  intros HW Ht Hx Hs Hl Hi. pose proof (W_status _ _ _ _ _ _ HW t Ht Hx) as H.
  unfold status_ok, statu_of in *. destruct Hs as [E|E]; rewrite E in H.
  - by apply (H (NReady p)).
  - by specialize (H _ Hl Hi).
Qed.

Lemma unlink_good (Y : gset Z) (k : kernel) (Q : queues) (t : Z) :
  kgood Y k Q -> ex Q t ->
  statu_of k t = RT_THREAD_SLEEP \/ statu_of k t = RT_THREAD_SUSPEND ->
  kwf {[t]} Y (upd_lk (fun L => rt_list_remove L (NT t)) k) (q_del Q (NT t)) /\
  kcur (upd_lk (fun L => rt_list_remove L (NT t)) k) (q_del Q (NT t)) /\
  stacks_ok (upd_lk (fun L => rt_list_remove L (NT t)) k) (q_del Q (NT t)).
Proof.
  intros [HW HC HS] Ht Hs. split_and!.
  - apply kwf_unlink; [|done|set_solver|].
    + eapply kwf_weaken; [..|exact HW]; sets.
    + intros p. by eapply asleep_not_ready; [exact HW|..].
  - unfold kcur. setoid_rewrite ex_del_T. done.
  - intros u. rewrite ex_del_T. apply HS.
Qed.

(** ** Timeouts *)

(** A call that came back to its caller with kernel [k]. *)
Definition came_back (r : sched_result) (k : kernel) : Prop :=
  r_kernel r = Some k /\ r_returns r = true.

Lemma came_back_bind (r : sched_result) (f : kernel -> sched_result) (k k' : kernel) :
  came_back r k -> came_back (f k) k' -> came_back (sbind r f) k'.
Proof.
  intros [H1 H2] [H3 H4]. destruct r; simplify_eq/=; [done|].
  by destruct (f _); simplify_eq/=.
Qed.

(** The thread that executes is marked so. *)
Definition running (k : kernel) : Prop := statu_of k (rt_current_thread k) = RT_THREAD_RUNNING.

(** What the interrupt-level routines leave alone: they create no thread, put no
    thread on a waiting list, and leave a running thread behind them. *)
Record quiet (k : kernel) (Q : queues) (k' : kernel) (Q' : queues) : Prop := {
  qt_live : live Q' = live Q;
  qt_all : Q' NAll = Q NAll;
  qt_tick : system_tick k' = system_tick k;
  qt_nest : rt_interrupt_nest k' = rt_interrupt_nest k;
  qt_sem : sem_value k' = sem_value k;
  qt_mbox : mbox k' = mbox k;
  qt_wait : forall h, is_wait h = true -> live Q h = true -> forall n, n ∈ Q' h -> n ∈ Q h;
  qt_run : running k -> running k' }.

Lemma quiet_refl (k : kernel) (Q : queues) : quiet k Q k Q.
Proof. by split. Qed.

Lemma quiet_trans (k1 k2 k3 : kernel) (Q1 Q2 Q3 : queues) :
  quiet k1 Q1 k2 Q2 -> quiet k2 Q2 k3 Q3 -> quiet k1 Q1 k3 Q3.
Proof.
  intros [A1 A2 A3 A4 A5 A6 A7 A8] [B1 B2 B3 B4 B5 B6 B7 B8]. split; try congruence.
  - intros h Hw Hl n Hn. apply A7; [done..|]. apply B7; [done|congruence|done].
  - auto.
Qed.

(** A call of the scheduler. *)
Lemma quiet_sched (Y : gset Z) (k : kernel) (Q : queues) : kgood Y k Q ->
  exists k' Q', r_kernel (rt_schedule k) = Some k' /\ kgood Y k' Q' /\
    sched_stable k Q k' Q' /\ quiet k Q k' Q' /\
    (r_returns (rt_schedule k) = true \/ rt_interrupt_nest k = 0) /\
    (rt_thread_ready_priority_group k ≠ 0 -> running k').
Proof.
  intros HG. destruct (schedule_good Y k Q HG) as (k' & Q' & Er & HG' & HS & Hret & Hrun).
  exists k', Q'. split_and!; [done|done|done| |done|exact Hrun].
  pose proof HS as [S1 S2 S3 S4 S5 S6 S7 S8 S9].
  split; try done.
  - intros h Hw Hl n. by rewrite S9.
  - intros Hr. destruct (decide (rt_thread_ready_priority_group k = 0)) as [E|E]; [|by apply Hrun].
    rewrite schedule_idle in Er by done. by injection Er as <-.
Qed.

(** The effect of a timeout of [t] on the records. *)
Definition timed_out (th : rt_thread) : rt_thread := t_error (- RT_ETIMEOUT) th.

Lemma timeout_good (Y : gset Z) (k : kernel) (Q : queues) (t : Z) :
  kgood Y k Q -> ex Q t -> t ∈ Y ->
  statu_of k t = RT_THREAD_SLEEP \/ statu_of k t = RT_THREAD_SUSPEND ->
  rt_interrupt_nest k ≠ 0 ->
  exists k' Q', came_back (rt_thread_timeout t k) k' /\ kgood Y k' Q' /\
    quiet k Q k' Q' /\ Q' NTimers = Q NTimers /\
    forall u, ex Q u -> exists s,
      thr k' u = t_statu s (if decide (u = t) then timed_out (thr k u) else thr k u) /\
      awake s = awake (statu_of k u) || bool_decide (u = t).
Proof.
  intros HG Ht HY Hs Hn. unfold rt_thread_timeout.
  set (k1 := upd_thr t (t_error (- RT_ETIMEOUT)) k).
  assert (HG1 : kgood Y k1 Q).
  { destruct HG as [HW HC HS]. split.
    - apply kwf_thr; simpl; auto.
    - apply (kcur_status k Q t (statu_of k t)); try done.
      + intros u Hu. unfold statu_of, k1. simpl. by simpl_fupd.
      + unfold statu_of, k1. simpl. by simpl_fupd.
      + destruct Hs as [-> | ->]; done.
      + destruct Hs as [-> | ->]; done.
    - apply (stacks_ok_thr k Q); [done..|]. intros u. unfold k1. simpl.
      unfold fupd. by case_decide; subst. }
  assert (Es : statu_of k1 t = statu_of k t).
  { unfold statu_of, k1. simpl. by simpl_fupd. }
  destruct (unlink_good Y k1 Q t HG1 Ht) as (HW2 & HC2 & HS2); [by rewrite Es|].
  set (k2 := upd_lk _ k1) in *.
  assert (HG3 : kgood Y (rt_schedule_insert_thread t k2) (wake_queues k2 (q_del Q (NT t)) t)).
  { apply insert_good; try done; [by rewrite ex_del_T|apply free_q_del|by left]. }
  destruct (insert_thread_effect t k2) as (ET & ES & EM & EC & _ & EN & EK & _).
  destruct (quiet_sched Y _ _ HG3) as (k' & Q' & Er & HG' & HS' & HQt & Hret & _).
  destruct HS' as [SL SA ST STh _ _ SN SK _].
  assert (HQ : forall h, (forall p, h ≠ NReady p) -> NT t ∉ Q h ->
                 wake_queues k2 (q_del Q (NT t)) t h = Q h).
  { intros h Hh Hi. rewrite wake_queues_other by done. by apply filter_ne_notin. }
  assert (HA : NT t ∉ Q NAll).
  { intros Hi. by destruct (W_all _ _ _ _ _ _ (kg_wf _ _ _ HG) _ Hi). }
  assert (HTm : NT t ∉ Q NTimers).
  { intros Hi. by destruct (W_timers _ _ _ _ _ _ (kg_wf _ _ _ HG) _ Hi) as (? & ? & _). }
  exists k', Q'. split_and!; try done.
  - split; [done|]. destruct Hret as [?|E]; [done|]. rewrite EN in E. done.
  - eapply quiet_trans; [|exact HQt]. split.
    + by rewrite wake_live.
    + by rewrite HQ.
    + exact EK.
    + exact EN.
    + exact ES.
    + exact EM.
    + intros h Hw Hl n. rewrite wake_queues_other by by intros p ->.
      by intros [_ ?]%elem_of_q_del.
    + unfold running. rewrite EC. intros Hr.
      change (rt_current_thread k2) with (rt_current_thread k).
      unfold statu_of. rewrite ET.
      destruct (decide (rt_current_thread k = t)) as [E|E].
      * exfalso. rewrite <- E, Hr in Hs. by destruct Hs.
      * rewrite fupd_ne by done.
        change (thr k2) with (fupd (thr k) t (t_error (- RT_ETIMEOUT) (thr k t))).
        by rewrite fupd_ne.
  - by rewrite ST, HQ.
  - intros u Hu. destruct (STh u) as (s & E1 & E2 & _). exists s.
    rewrite E1. unfold statu_of in *. rewrite ET in E2 |- *.
    rewrite ex_wake, ex_del_T in E2. specialize (E2 Hu).
    unfold k2, k1 in *. simpl in *. case_decide as Hc.
    + subst u. rewrite fupd_eq in *. rewrite (bool_decide_true (t = t)) by done.
      rewrite orb_true_r. split; [by rewrite fupd_eq|]. rewrite E2. simpl. unfold wake_status. by case_decide.
    + rewrite !fupd_ne in E2 |- * by done. rewrite (bool_decide_false (u = t)) by done.
      by rewrite orb_false_r.
Qed.

(** ** The timer check *)

Definition expired (k : kernel) (t : Z) : bool :=
  (flag (timer_of k t) =? RT_TIMER_FLAG_ACTIVATED)
  && (timeout_tick (timer_of k t) <? system_tick k).
Definition node_expired (k : kernel) (n : node) : bool :=
  match n with NTm t => expired k t | _ => false end.

(** The timers of [l] that are due. *)
Definition fired (k : kernel) (l : list node) (t : Z) : bool :=
  bool_decide (NTm t ∈ l) && expired k t.

Definition fire (th : rt_thread) : rt_thread :=
  t_timer (tm_flag RT_TIMER_FLAG_NO_ACTIVATED) (timed_out th).

(** What a pass over the timers [l] does to the kernel. *)
Record checked (l : list node) (k : kernel) (Q : queues) (k' : kernel) (Q' : queues) : Prop := {
  ch_quiet : quiet k Q k' Q';
  ch_thr : forall u, ex Q u -> exists s,
    thr k' u = t_statu s (if fired k l u then fire (thr k u) else thr k u) /\
    awake s = awake (statu_of k u) || fired k l u }.

Lemma qwf_next_in (L : links) (Q : queues) (h x : node) (l1 l2 : list node) :
  qwf L Q -> live Q h = true -> Q h = l1 ++ x :: l2 -> nxt L x = hd h l2.
Proof.
  intros HQ Hh E. destruct (qwf_ring _ _ HQ h Hh) as [Hd _]. rewrite E in Hd.
  apply dseg_app in Hd as [_ Hd]. destruct l2; simpl in *; naive_solver.
Qed.

Lemma q_del_split (L : links) (Q : queues) (h x : node) (l1 l2 : list node) :
  qwf L Q -> live Q h = true -> Q h = l1 ++ x :: l2 -> q_del Q x h = l1 ++ l2.
Proof.
  intros HQ Hh E. unfold q_del; simpl. rewrite E. apply filter_ne_split.
  rewrite <- E. by eapply qwf_NoDup.
Qed.

(** A linked timer is active, and its thread sleeps or waits. *)
Lemma linked_timer_thread (k : kernel) (Q : queues) (t : Z) :
  kgood ∅ k Q -> NTm t ∈ Q NTimers -> ex Q t /\
  flag (timer_of k t) = RT_TIMER_FLAG_ACTIVATED /\
  (statu_of k t = RT_THREAD_SLEEP \/ statu_of k t = RT_THREAD_SUSPEND).
Proof.
  intros [HW _ _] Hi.
  destruct (W_timers _ _ _ _ _ _ HW _ Hi) as (u & [= <-] & Ht).
  assert (Hfl : flag (timer_of k t) = RT_TIMER_FLAG_ACTIVATED).
  { destruct (W_timer _ _ _ _ _ _ HW t Ht) as [[[?|?] _]|[_ [Hf _]]]; [set_solver|done|].
    destruct (Hf NTimers); [by apply HW|done]. }
  split_and!; [done..|].
  pose proof (W_status _ _ _ _ _ _ HW t Ht (not_elem_of_empty t)) as H.
  unfold status_ok, statu_of, timer_idle, timer_of in *.
  destruct (statu (thr k t)); auto; try done;
    (destruct H as [_ [H|H]]; [set_solver|by rewrite Hfl in H]).
Qed.

(** One due timer. *)
Lemma fire_good (k : kernel) (Q : queues) (t : Z) (l1 l2 : list node) :
  kgood ∅ k Q -> rt_interrupt_nest k ≠ 0 -> Q NTimers = l1 ++ NTm t :: l2 ->
  exists k' Q',
    came_back (sbind (rt_thread_timeout t (upd_lk (fun L => rt_list_remove L (NTm t)) k))
      (fun k => SReturn (upd_thr t (t_timer (tm_flag RT_TIMER_FLAG_NO_ACTIVATED)) k))) k' /\
    kgood ∅ k' Q' /\ quiet k Q k' Q' /\ Q' NTimers = l1 ++ l2 /\
    forall u, ex Q u -> exists s,
      thr k' u = t_statu s (if decide (u = t) then fire (thr k u) else thr k u) /\
      awake s = awake (statu_of k u) || bool_decide (u = t).
Proof.
  intros HG Hn EQ. assert (Hi : NTm t ∈ Q NTimers) by (rewrite EQ; set_solver).
  destruct (linked_timer_thread k Q t HG Hi) as (Ht & Hfl & Hs).
  pose proof HG as [HW HC HS]. pose proof (W_live _ _ _ _ _ _ HW NTimers eq_refl) as Hl.
  set (k1 := upd_lk (fun L => rt_list_remove L (NTm t)) k).
  assert (HG1 : kgood {[t]} k1 (q_del Q (NTm t))).
  { split.
    - apply kwf_timer_unlink; [|done|set_solver].
      eapply kwf_weaken; [..|exact HW]; sets.
    - unfold kcur. setoid_rewrite ex_del_Tm. done.
    - intros u. rewrite ex_del_Tm. apply HS. }
  destruct (timeout_good {[t]} k1 (q_del Q (NTm t)) t HG1)
    as (k2 & Q2 & Hb & HG2 & HQt & E3 & E6); [by rewrite ex_del_Tm|set_solver|done..|].
  assert (HQk : quiet k Q k1 (q_del Q (NTm t))).
  { split; try done.
    - apply q_del_same. intros Hi2. by destruct (W_all _ _ _ _ _ _ HW _ Hi2).
    - intros h _ _ n. by intros [_ ?]%elem_of_q_del. }
  pose proof (quiet_trans _ _ _ _ _ _ HQk HQt) as HQ2.
  assert (E3' : Q2 NTimers = l1 ++ l2) by (rewrite E3; eapply q_del_split; [apply HW|done..]).
  assert (Ht2 : ex Q2 t).
  { unfold ex. by rewrite (qt_all _ _ _ _ HQ2). }
  exists (upd_thr t (t_timer (tm_flag RT_TIMER_FLAG_NO_ACTIVATED)) k2), Q2.
  pose proof HG2 as [HW2 HC2 HS2].
  split_and!; try done.
  - by eapply came_back_bind.
  - split.
    + rewrite (sing_diff t) at 2. apply kwf_set_flag; [done..|sets|]. right. split; [done|].
      destruct (W_timer _ _ _ _ _ _ HW2 t Ht2) as [[_ Hi2]|[_ ?]]; [exfalso|done].
      rewrite E3 in Hi2. by apply elem_of_q_del in Hi2 as [? _].
    + apply (kcur_status k2 Q2 t (statu_of k2 t)); [done..| | | |].
      * intros u Hu. unfold statu_of. simpl. by simpl_fupd.
      * unfold statu_of. simpl. by simpl_fupd.
      * intros ->. apply HC2.
      * intros Hne Hr. apply Hne. by apply HC2.
    + apply (stacks_ok_thr k2 Q2); [done..|]. intros u. simpl.
      unfold fupd. by case_decide; subst.
  - eapply quiet_trans; [exact HQ2|]. split; try done.
    intros Hr. unfold running, statu_of in *. cbn [rt_current_thread upd_thr thr].
    unfold fupd. case_decide as E; [|exact Hr]. rewrite E in Hr. exact Hr.
  - intros u Hu. destruct (E6 u) as (s & Es & Ea); [by apply ex_del_Tm|].
    exists s. split; [|done]. simpl. unfold fupd.
    repeat case_decide; subst; rewrite Es; repeat case_decide; done.
Qed.

Lemma timer_loop_good (l2 : list node) : forall fuel l1 k Q,
  kgood ∅ k Q -> rt_interrupt_nest k ≠ 0 -> Q NTimers = l1 ++ l2 ->
  (length l2 < fuel)%nat ->
  exists k' Q',
    came_back (rt_timer_check_loop fuel (hd NTimers l2) (nxt (lk k) (hd NTimers l2)) k) k' /\
    kgood ∅ k' Q' /\ Q' NTimers = l1 ++ filter (fun n => node_expired k n = false) l2 /\
    checked l2 k Q k' Q'.
Proof.
  induction l2 as [|n l2 IH]; intros fuel l1 k Q HG Hn EQ Hf;
    (destruct fuel as [|fuel]; [simpl in *; lia|]).
  { exists k, Q. simpl. split_and!; try done.
    split; [apply quiet_refl|]. intros u Hu. exists (statu_of k u).
    unfold fired. rewrite bool_decide_false by set_solver. simpl.
    unfold statu_of. rewrite t_statu_same, orb_false_r. done. }
  pose proof HG as [HW _ _]. pose proof (W_live _ _ _ _ _ _ HW NTimers eq_refl) as Hl.
  assert (Hi : n ∈ Q NTimers) by (rewrite EQ; set_solver).
  destruct (W_timers _ _ _ _ _ _ HW _ Hi) as (t & -> & Ht).
  assert (Hnd : NoDup (l1 ++ NTm t :: l2)).
  { rewrite <- EQ. eapply qwf_NoDup; [apply HW|done]. }
  assert (Hnt : NTm t ∉ l2).
  { apply NoDup_app in Hnd as (_ & _ & Hnd). by apply NoDup_cons in Hnd as [? _]. }
  assert (Hnx : nxt (lk k) (NTm t) = hd NTimers l2).
  { eapply qwf_next_in; [apply HW|done|exact EQ]. }
  simpl hd. rewrite Hnx. cbn [rt_timer_check_loop timelist_entry].
  rewrite decide_False by done.
  change ((flag (timer_of k t) =? RT_TIMER_FLAG_ACTIVATED)
          && (timeout_tick (timer_of k t) <? system_tick k)) with (expired k t).
  rewrite filter_cons. simpl node_expired. destruct (expired k t) eqn:Ex.
  - destruct (fire_good k Q t l1 l2 HG Hn EQ) as (k1 & Q1 & Hb & HG1 & HQ1 & E3 & E6).
    pose proof HQ1 as [E1 E2 E4 E5 _ _ _ _].
    assert (Hex : forall u, u ≠ t -> ex Q u -> expired k1 u = expired k u).
    { intros u Hu Hx. unfold expired, timer_of. destruct (E6 u Hx) as (s & -> & _).
      rewrite decide_False by done. by rewrite E4. }
    destruct (IH fuel l1 k1 Q1) as (k2 & Q2 & Hb2 & HG2 & E7 & E8); [done|by rewrite E5|done|simpl in Hf; lia|].
    exists k2, Q2. split_and!.
    + by eapply came_back_bind.
    + done.
    + rewrite E7. f_equal. rewrite decide_False by done. apply filter_ext_in.
      intros m Hm. unfold node_expired. destruct m as [| | | | | | | | |u]; try done.
      rewrite Hex; [done|by intros ->|].
      destruct (W_timers _ _ _ _ _ _ HW (NTm u)) as (? & [= <-] & ?); [|done].
      rewrite EQ. set_solver.
    + destruct E8 as [F1 F5]. split; [by eapply quiet_trans|].
      intros u Hu. destruct (E6 u Hu) as (s1 & Es1 & Ea1).
      destruct (F5 u) as (s2 & Es2 & Ea2); [unfold ex; by rewrite E2|].
      exists s2. rewrite Es2. unfold statu_of in *. rewrite Ea2, Es1. simpl.
      rewrite Ea1. unfold fired. destruct (decide (u = t)) as [->|Hne].
      * rewrite (bool_decide_false (NTm t ∈ l2)) by done.
        rewrite (bool_decide_true (NTm t ∈ NTm t :: l2)) by set_solver.
        rewrite Ex, (bool_decide_true (t = t)) by done. simpl.
        rewrite !orb_true_r. done.
      * rewrite Hex by done. rewrite (bool_decide_false (u = t)) by done. rewrite orb_false_r.
        rewrite (bool_decide_ext (NTm u ∈ NTm t :: l2) (NTm u ∈ l2)) by set_solver.
        by destruct (bool_decide (NTm u ∈ l2) && expired k u).
  - destruct (IH fuel (l1 ++ [NTm t]) k Q) as (k2 & Q2 & Hb2 & HG2 & E7 & E8);
      [done..|by rewrite <- app_assoc|simpl in Hf; lia|].
    exists k2, Q2. split_and!.
    + by apply (came_back_bind _ _ k).
    + done.
    + rewrite E7, <- app_assoc. by rewrite decide_True.
    + destruct E8 as [F1 F5]. split; [exact F1|].
      intros u Hu. destruct (F5 u Hu) as (s & Es & Ea). exists s.
      assert (fired k (NTm t :: l2) u = fired k l2 u) as ->; [|done].
      unfold fired. destruct (decide (u = t)) as [->|]; [by rewrite Ex, !andb_false_r|].
      f_equal. apply bool_decide_ext. set_solver.
Qed.

(** [rt_timer_check] in an interrupt: more fuel than timers is enough. *)
Lemma timer_check_good (fuel : nat) (k : kernel) (Q : queues) :
  kgood ∅ k Q -> rt_interrupt_nest k ≠ 0 -> (length (Q NTimers) < fuel)%nat ->
  exists k' Q', came_back (rt_timer_check fuel k) k' /\ kgood ∅ k' Q' /\
    Q' NTimers = filter (fun n => node_expired k n = false) (Q NTimers) /\
    checked (Q NTimers) k Q k' Q'.
Proof.
  intros HG Hn Hf. unfold rt_timer_check, rt_hw_interrupt_disable.
  pose proof HG as [HW _ _].
  assert (Hl : live Q NTimers = true) by by apply HW.
  assert (HG' : kgood ∅ (set_ie false k) Q) by by apply kgood_ie.
  destruct (timer_loop_good (Q NTimers) fuel [] (set_ie false k) Q HG' Hn eq_refl Hf)
    as (k' & Q' & Hb & HG2 & EQ & HC).
  exists (set_ie (ie k) k'), Q'. split_and!.
  - apply (came_back_bind _ _ k'); [|done]. simpl lk in *.
    by rewrite (qwf_next _ _ (W_q _ _ _ _ _ _ HW)) by done.
  - by apply kgood_ie.
  - done.
  - destruct HC as [[] ?]. by split.
Qed.

(** ** The tick *)

(** A record change that touches no field the invariant reads. *)
Lemma kgood_thr (Y : gset Z) (k : kernel) (Q : queues) (t : Z) (f : rt_thread -> rt_thread) :
  kgood Y k Q ->
  let v := f (thr k t) in
  current_priority v = current_priority (thr k t) -> number_mask v = number_mask (thr k t) ->
  statu v = statu (thr k t) -> flag (thread_timer v) = flag (thread_timer (thr k t)) ->
  stack_guard v = stack_guard (thr k t) -> sp v = sp (thr k t) ->
  stack_addr v = stack_addr (thr k t) -> stack_size v = stack_size (thr k t) ->
  kgood Y (upd_thr t f k) Q.
Proof.
  intros [HW HC HS] v Hp Hm Hs Hf H1 H2 H3 H4. split.
  - apply kwf_thr; auto.
  - assert (Hst : forall u, statu_of (upd_thr t f k) u = statu_of k u).
    { intros u. unfold statu_of. simpl. unfold fupd. by case_decide; subst. }
    unfold kcur. setoid_rewrite Hst. done.
  - apply (stacks_ok_thr k Q); [done..|]. intros u. simpl. unfold fupd.
    by case_decide; subst.
Qed.

Lemma quiet_thr (k k' : kernel) (Q : queues) :
  (forall u, statu_of k' u = statu_of k u) ->
  rt_current_thread k' = rt_current_thread k -> system_tick k' = system_tick k ->
  rt_interrupt_nest k' = rt_interrupt_nest k -> sem_value k' = sem_value k ->
  mbox k' = mbox k -> quiet k Q k' Q.
Proof. intros Hs Hc Ht Hn Hv Hm. split; try done. unfold running. by rewrite Hc, Hs. Qed.

(** The running thread uses up one tick of its slice; at the end of the slice the
    slice is renewed and the scheduler called. *)
Lemma consume_tick_good (k : kernel) (Q : queues) :
  kgood ∅ k Q -> rt_interrupt_nest k ≠ 0 ->
  exists k' Q', came_back (consume_tick k) k' /\ kgood ∅ k' Q' /\
    quiet k Q k' Q' /\ Q' NTimers = Q NTimers /\
    forall u, ex Q u -> exists s r, thr k' u = t_statu s (t_remaining r (thr k u)) /\
      awake s = awake (statu_of k u).
Proof.
  intros HG Hn. unfold consume_tick. set (c := rt_current_thread k).
  set (k1 := upd_thr c _ k).
  assert (HG1 : kgood ∅ k1 Q) by by apply kgood_thr.
  assert (Hup : forall u, exists r, thr k1 u = t_remaining r (thr k u)).
  { intros u. unfold k1. simpl. destruct (decide (u = c)) as [->|]; simpl_fupd; [by eexists|].
    exists (remaining_tick (thr k u)). by destruct (thr k u). }
  destruct (remaining_tick (thr k1 c) =? 0).
  - set (k2 := upd_thr c _ k1).
    assert (HG2 : kgood ∅ k2 Q) by by apply kgood_thr.
    assert (Hup2 : forall u, exists r, thr k2 u = t_remaining r (thr k u)).
    { intros u. destruct (Hup u) as [r E].
      change (thr k2 u) with (fupd (thr k1) c (t_remaining (init_tick (thr k1 c)) (thr k1 c)) u).
      destruct (decide (u = c)) as [->|].
      - rewrite fupd_eq, E. by eexists.
      - rewrite fupd_ne by done. by exists r. }
    destruct (quiet_sched ∅ _ _ HG2) as (k' & Q' & Er & HG' & [SL SA ST STh _ _ SN SK _] & HQt & Hret & _).
    exists k', Q'. split_and!; [|done| |done|].
    + split; [done|]. by destruct Hret.
    + eapply quiet_trans; [|exact HQt]. apply quiet_thr; try done. intros u.
      unfold statu_of. by destruct (Hup2 u) as [r ->].
    + intros u Hu. destruct (STh u) as (s & E1 & E2 & _). destruct (Hup2 u) as [r Eu].
      exists s, r. rewrite E1, Eu. split; [done|]. unfold statu_of in *.
      rewrite Eu in E2. auto.
  - exists k1, Q. split_and!; [done|done| |done|].
    + apply quiet_thr; try done. intros u. unfold statu_of. by destruct (Hup u) as [r ->].
    + intros u Hu.
      destruct (Hup u) as [r Eu]. exists (statu_of k u), r. split; [|done].
      rewrite Eu. unfold statu_of. by destruct (thr k u).
Qed.

(** The whole tick interrupt. *)
Lemma tick_good (fuel : nat) (k : kernel) (Q : queues) :
  kgood ∅ k Q -> rt_interrupt_nest k ≠ 0 -> rt_current_thread k ≠ NULL ->
  (length (Q NTimers) < fuel)%nat ->
  let now := sys_tick_increase k in
  exists k' Q', came_back (sys_tick_handler fuel k) k' /\ kgood ∅ k' Q' /\
    quiet now Q k' Q' /\
    Q' NTimers = filter (fun n => node_expired now n = false) (Q NTimers) /\
    forall u, ex Q u ->
      awake (statu_of k' u) = awake (statu_of k u) || fired now (Q NTimers) u /\
      error (thr k' u) = (if fired now (Q NTimers) u then - RT_ETIMEOUT else error (thr k u)) /\
      timer_of k' u = (if fired now (Q NTimers) u
                       then tm_flag RT_TIMER_FLAG_NO_ACTIVATED (timer_of k u) else timer_of k u).
Proof.
  intros HG Hn Hc Hf now. unfold sys_tick_handler. fold now.
  assert (HGn : kgood ∅ now Q) by (destruct HG; by split).
  rewrite (proj2 (Z.eqb_neq _ _) (Hc : rt_current_thread now ≠ NULL)).
  destruct (consume_tick_good now Q HGn Hn) as (k1 & Q1 & Hb1 & HG1 & HQ1 & E3 & E6).
  pose proof HQ1 as [E1 E2 E4 E5 _ _ _ _].
  destruct (timer_check_good fuel k1 Q1) as (k2 & Q2 & Hb2 & HG2 & E7 & [F1 F5]);
    [done|by rewrite E5|by rewrite E3|].
  assert (Hx : forall u, ex Q u -> expired k1 u = expired now u).
  { intros u Hu. unfold expired, timer_of. destruct (E6 u Hu) as (s & r & -> & _). by rewrite E4. }
  exists k2, Q2. split_and!.
  - by eapply came_back_bind.
  - done.
  - by eapply quiet_trans.
  - rewrite E7, E3. apply filter_ext_in. intros m Hm.
    destruct (W_timers _ _ _ _ _ _ (kg_wf _ _ _ HG) m Hm) as (u & -> & Hu).
    simpl. by rewrite Hx.
  - intros u Hu. destruct (E6 u Hu) as (s1 & r1 & Es1 & Ea1).
    destruct (F5 u) as (s2 & Es2 & Ea2); [unfold ex; by rewrite E2|].
    assert (Ef : fired k1 (Q1 NTimers) u = fired now (Q NTimers) u).
    { unfold fired. by rewrite E3, Hx. }
    rewrite Ef in *. unfold timer_of, statu_of in *. rewrite Es2. rewrite Es1 in Ea2 |- *.
    split_and!.
    { change (awake s2 = awake (statu (thr now u)) || fired now (Q NTimers) u).
      rewrite <- Ea1. exact Ea2. }
    all: clear; by destruct (fired now (Q NTimers) u).
Qed.

(** ** Suspend, sleep, resume *)

Lemma set_ie_id (k : kernel) (b : bool) : ie k = b -> set_ie b k = k.
Proof. intros <-. by destruct k. Qed.

Lemma set_ie_twice (k : kernel) (b c : bool) : set_ie b (set_ie c k) = set_ie b k.
Proof. done. Qed.

Lemma upd_thr_ie (t : Z) (f : rt_thread -> rt_thread) (k : kernel) (b : bool) :
  upd_thr t f (set_ie b k) = set_ie b (upd_thr t f k).
Proof. done. Qed.

Lemma upd_lk_ie (f : links -> links) (k : kernel) (b : bool) :
  upd_lk f (set_ie b k) = set_ie b (upd_lk f k).
Proof. done. Qed.

Lemma upd_thr_fields (t : Z) (f : rt_thread -> rt_thread) (k : kernel) :
  let k' := upd_thr t f k in
  sem_value k' = sem_value k /\ mbox k' = mbox k /\
  rt_current_thread k' = rt_current_thread k /\
  rt_interrupt_nest k' = rt_interrupt_nest k /\ system_tick k' = system_tick k /\ ie k' = ie k.
Proof. done. Qed.

Lemma timer_start_ie (t : Z) (k : kernel) (b : bool) :
  snd (rt_timer_start t (set_ie b k)) = set_ie b (snd (rt_timer_start t k)).
Proof. done. Qed.

Lemma remove_thread_ie (t : Z) (k : kernel) (b : bool) :
  rt_schedule_remove_thread t (set_ie b k) = set_ie b (rt_schedule_remove_thread t k).
Proof. rewrite !remove_thread_eq. reflexivity. Qed.

Lemma remove_thread_ie_of (t : Z) (k : kernel) : ie (rt_schedule_remove_thread t k) = ie k.
Proof. rewrite remove_thread_eq. reflexivity. Qed.

Section Suspend.
Context (k : kernel) (Q : queues) (HG : kgood ∅ k Q) (t : Z) (Ht : ex Q t).

Lemma awake_timer : awake (statu_of k t) = true ->
  flag (timer_of k t) = RT_TIMER_FLAG_NO_ACTIVATED.
Proof.
  intros Ha. destruct HG as [HW _ _].
  pose proof (W_status _ _ _ _ _ _ HW t Ht (not_elem_of_empty t)) as H.
  unfold status_ok, statu_of, timer_idle, timer_of in *.
  destruct (statu (thr k t)); try done; (destruct H as [_ [H|H]]; [set_solver|done]).
Qed.

Definition suspended (s : status) : kernel :=
  upd_thr t (t_statu s) (rt_schedule_remove_thread t k).

(** [rt_thread_suspend] of a thread that is ready or runs. *)
Lemma rt_thread_suspend_eq (s : status) : awake (statu_of k t) = true ->
  rt_thread_suspend t s k = (RT_EOK, suspended s).
Proof.
  intros Ha. pose proof (awake_timer Ha) as Hf.
  unfold rt_thread_suspend, rt_hw_interrupt_disable, rt_hw_interrupt_enable.
  assert (E : negb (bool_decide (statu_of (set_ie false k) t = RT_THREAD_READY))
      && negb (bool_decide (statu_of (set_ie false k) t = RT_THREAD_RUNNING)) = false).
  { unfold statu_of in *; simpl. by destruct (statu (thr k t)). }
  rewrite E. unfold rt_timer_stop, rt_hw_interrupt_disable, rt_hw_interrupt_enable.
  assert (Ef : flag (timer_of (set_ie false (upd_thr t (t_statu s)
      (rt_schedule_remove_thread t (set_ie false k)))) t) = RT_TIMER_FLAG_NO_ACTIVATED).
  { unfold timer_of. rewrite remove_thread_eq. simpl. simpl_fupd. done. }
  rewrite Ef. change (Z.land RT_TIMER_FLAG_NO_ACTIVATED RT_TIMER_FLAG_ACTIVATED =? 0) with true.
  cbv iota beta. rewrite remove_thread_ie, upd_thr_ie, !set_ie_twice. unfold suspended.
  rewrite set_ie_id; [reflexivity|]. cbn [ie upd_thr]. apply remove_thread_ie_of.
Qed.

Lemma suspend_good (s : status) :
  awake (statu_of k t) = true -> s = RT_THREAD_SLEEP \/ s = RT_THREAD_SUSPEND ->
  kgood ∅ (suspended s) (q_del Q (NT t)) /\
  thr (suspended s) = fupd (thr k) t (t_statu s (thr k t)).
Proof.
  intros Ha Hs. pose proof HG as [HW HC HS].
  destruct (remove_thread_fields t k) as (ET & _ & _ & EC & _).
  assert (ET' : thr (suspended s) = fupd (thr k) t (t_statu s (thr k t))).
  { unfold suspended. rewrite remove_thread_eq. done. }
  split; [|done]. split.
  - rewrite (sing_diff t) at 1. apply kwf_settle.
    + unfold suspended. cbn [upd_thr lk thr rt_thread_ready_priority_group].
      apply (kwf_thr _ _ (thr (rt_schedule_remove_thread t k)));
        [|reflexivity|reflexivity|right; sets|by left].
      apply kwf_remove_thread; [|done|sets].
      eapply kwf_weaken; [..|exact HW]; sets.
    + intros _. unfold status_ok. rewrite ET', fupd_eq. cbn [statu t_statu].
      destruct Hs as [-> | ->]; [apply free_q_del|].
      intros h Hh Hi. by apply elem_of_q_del in Hi as [? _].
  - apply (kcur_status k Q t s); [exact HC|intros; apply ex_del_T|exact EC|..].
    + intros u Hu. unfold statu_of. rewrite ET'. by simpl_fupd.
    + unfold statu_of. rewrite ET'. by simpl_fupd.
    + by destruct Hs as [-> | ->].
    + by destruct Hs as [-> | ->].
  - apply (stacks_ok_thr k Q); [done|by intros u; rewrite ex_del_T|].
    intros u. rewrite ET'. unfold fupd. by case_decide; subst.
Qed.
End Suspend.

Lemma suspended_ie (t : Z) (s : status) (k : kernel) (b : bool) :
  suspended (set_ie b k) t s = set_ie b (suspended k t s).
Proof. unfold suspended. by rewrite remove_thread_ie, upd_thr_ie. Qed.

(** The fields a suspension leaves alone. *)
Lemma suspended_fields (t : Z) (s : status) (k : kernel) :
  let k' := suspended k t s in
  sem_value k' = sem_value k /\ mbox k' = mbox k /\
  rt_current_thread k' = rt_current_thread k /\
  rt_interrupt_nest k' = rt_interrupt_nest k /\ system_tick k' = system_tick k /\ ie k' = ie k.
Proof.
  cbv zeta. unfold suspended. destruct (upd_thr_fields t (t_statu s) (rt_schedule_remove_thread t k))
    as (-> & -> & -> & -> & -> & ->).
  by destruct (remove_thread_fields t k) as (_ & -> & -> & -> & _ & -> & -> & ->).
Qed.

Lemma timer_start_fields (t : Z) (k : kernel) :
  let k' := snd (rt_timer_start t k) in
  sem_value k' = sem_value k /\ mbox k' = mbox k /\
  rt_current_thread k' = rt_current_thread k /\
  rt_interrupt_nest k' = rt_interrupt_nest k /\ system_tick k' = system_tick k /\ ie k' = ie k.
Proof. done. Qed.

#[global] Opaque suspended.

(** [rt_timer_start] keeps the invariant for a sleeping or waiting thread whose
    timer is stopped. *)
Lemma timer_start_good (k : kernel) (Q : queues) (t : Z) :
  kgood ∅ k Q -> ex Q t -> flag (timer_of k t) = RT_TIMER_FLAG_NO_ACTIVATED ->
  statu_of k t = RT_THREAD_SLEEP \/ statu_of k t = RT_THREAD_SUSPEND ->
  kgood ∅ (snd (rt_timer_start t k)) (q_prepend Q NTimers (NTm t)) /\
  timeout_tick (timer_of (snd (rt_timer_start t k)) t)
    = system_tick k +u timer_init_tick (timer_of k t).
Proof.
  intros [HW HC HS] Ht Hf Hs.
  assert (HT : forall u, exists tm, thr (snd (rt_timer_start t k)) u
                 = t_timer (fun _ => tm) (thr k u)).
  { intros u. simpl. unfold fupd. repeat case_decide; subst; try done.
    - by eexists.
    - exists (thread_timer (thr k u)). by destruct (thr k u). }
  split; [split|].
  - apply kwf_timer_start; [done..|set_solver|by right|by right].
  - assert (Hst : forall u, statu_of (snd (rt_timer_start t k)) u = statu_of k u).
    { intros u. unfold statu_of. by destruct (HT u) as [tm ->]. }
    unfold kcur. setoid_rewrite ex_prepend_Tm. setoid_rewrite Hst. done.
  - apply (stacks_ok_thr k Q); [done|by intros u; rewrite ex_prepend_Tm|].
    intros u. by destruct (HT u) as [tm ->].
  - unfold timer_of. simpl. by simpl_fupd.
Qed.

(** The running thread goes to sleep. *)
Definition asleep (tick : Z) (k : kernel) : kernel :=
  let t := rt_current_thread k in
  snd (rt_timer_start t (suspended (upd_thr t (t_timer (tm_init_tick tick)) k) t RT_THREAD_SLEEP)).

Lemma asleep_good (tick : Z) (k : kernel) (Q : queues) :
  kgood ∅ k Q -> statu_of k (rt_current_thread k) = RT_THREAD_RUNNING ->
  let t := rt_current_thread k in
  rt_thread_sleep tick k = rt_schedule (asleep tick k) /\
  kgood ∅ (asleep tick k) (q_prepend (q_del Q (NT t)) NTimers (NTm t)) /\
  statu_of (asleep tick k) t = RT_THREAD_SLEEP /\
  timeout_tick (timer_of (asleep tick k) t) = system_tick k +u tick /\
  rt_current_thread (asleep tick k) = t.
Proof.
  intros HG Hr t. pose proof HG as [_ (Ht & _) _]. fold t in Ht, Hr.
  set (k1 := upd_thr t (t_timer (tm_init_tick tick)) k).
  assert (HG1 : kgood ∅ k1 Q) by by apply kgood_thr.
  assert (Es : statu_of k1 t = RT_THREAD_RUNNING).
  { unfold statu_of, k1; simpl. by simpl_fupd. }
  assert (Ha : awake (statu_of k1 t) = true) by by rewrite Es.
  destruct (suspend_good k1 Q HG1 t Ht RT_THREAD_SLEEP Ha (or_introl eq_refl)) as [HG2 ET].
  set (k2 := suspended k1 t RT_THREAD_SLEEP) in *.
  assert (Et : thr k2 t = t_statu RT_THREAD_SLEEP (t_timer (tm_init_tick tick) (thr k t))).
  { rewrite ET. unfold k1; simpl. by rewrite !fupd_eq. }
  assert (Hf2 : flag (timer_of k2 t) = RT_TIMER_FLAG_NO_ACTIVATED).
  { unfold timer_of. rewrite Et. simpl. apply (awake_timer k Q HG t Ht). by rewrite Hr. }
  assert (Hs2 : statu_of k2 t = RT_THREAD_SLEEP) by (unfold statu_of; by rewrite Et).
  destruct (timer_start_good k2 _ t HG2) as [HG3 Eto]; [by rewrite ex_del_T|done|by left|].
  assert (Ef : rt_current_thread k2 = t /\ system_tick k2 = system_tick k).
  { destruct (suspended_fields t RT_THREAD_SLEEP k1) as (_ & _ & E1 & _ & E2 & _).
    split; [exact E1|exact E2]. }
  assert (Ea : asleep tick k = snd (rt_timer_start t k2)) by done.
  rewrite Ea. split_and!.
  - unfold rt_thread_sleep, rt_hw_interrupt_disable. fold t.
    change (upd_thr (rt_current_thread (set_ie false k)) (t_timer (tm_init_tick tick)) (set_ie false k))
      with (set_ie false k1).
    change (rt_current_thread (set_ie false k)) with t.
    rewrite (rt_thread_suspend_eq _ Q (kgood_ie _ _ _ _ HG1)) by done.
    rewrite suspended_ie. fold k2. unfold rt_hw_interrupt_enable.
    rewrite (surjective_pairing (rt_timer_start t (set_ie false k2))), timer_start_ie.
    rewrite set_ie_twice, set_ie_id; [reflexivity|].
    destruct (timer_start_fields t k2) as (_ & _ & _ & _ & _ & ->).
    destruct (suspended_fields t RT_THREAD_SLEEP k1) as (_ & _ & _ & _ & _ & E). exact E.
  - done.
  - unfold statu_of. simpl. simpl_fupd. simpl. exact Hs2.
  - rewrite Eto. destruct Ef as [_ ->]. unfold timer_of. by rewrite Et.
  - destruct (timer_start_fields t k2) as (_ & _ & E & _). rewrite E. apply (proj1 Ef).
Qed.

(** The lists after [rt_thread_resume]. *)
Definition resume_queues (k : kernel) (Q : queues) (t : Z) : queues :=
  wake_queues k (q_del (q_del Q (NT t)) (NTm t)) t.

(** What [rt_thread_resume] leaves: [t] off its waiting list, its timer stopped. *)
Definition resumed (t : Z) (k : kernel) : kernel :=
  rt_schedule_insert_thread t
    (snd (rt_timer_stop t (upd_lk (fun L => rt_list_remove L (NT t)) k))).

Lemma timer_stop_ie (t : Z) (k : kernel) (b : bool) :
  snd (rt_timer_stop t (set_ie b k)) = set_ie b (snd (rt_timer_stop t k)).
Proof.
  unfold rt_timer_stop, rt_hw_interrupt_disable, rt_hw_interrupt_enable.
  change (timer_of (set_ie false (set_ie b k)) t) with (timer_of k t).
  change (timer_of (set_ie false k) t) with (timer_of k t).
  by destruct (Z.land (flag (timer_of k t)) RT_TIMER_FLAG_ACTIVATED =? 0).
Qed.

Lemma insert_thread_ie (t : Z) (k : kernel) (b : bool) :
  rt_schedule_insert_thread t (set_ie b k) = set_ie b (rt_schedule_insert_thread t k).
Proof.
  destruct (decide (t = rt_current_thread k)) as [E|E].
  - by rewrite !insert_current_eq.
  - by rewrite !insert_thread_eq.
Qed.

Lemma timer_stop_fields (t : Z) (k : kernel) :
  let k' := snd (rt_timer_stop t k) in
  sem_value k' = sem_value k /\ mbox k' = mbox k /\
  rt_current_thread k' = rt_current_thread k /\
  rt_interrupt_nest k' = rt_interrupt_nest k /\ system_tick k' = system_tick k /\ ie k' = ie k /\
  forall u, exists f, thr k' u = t_timer (tm_flag f) (thr k u) /\
    (u ≠ t -> f = flag (timer_of k u)).
Proof.
  cbv zeta. unfold rt_timer_stop, rt_hw_interrupt_disable, rt_hw_interrupt_enable.
  assert (Hid : forall u, t_timer (tm_flag (flag (timer_of k u))) (thr k u) = thr k u).
  { intros u. unfold timer_of. by destruct (thr k u) as [? ? ? ? ? ? ? ? ? ? ? ? ? ? []]. }
  destruct (_ =? 0); cbn [snd]; split_and!; try done; intros u.
  - exists (flag (timer_of k u)). by rewrite Hid.
  - destruct (decide (u = t)) as [->|]; simpl; simpl_fupd; [by eexists|].
    exists (flag (timer_of k u)). by rewrite Hid.
Qed.

Lemma resume_good (k : kernel) (Q : queues) (t : Z) :
  kgood ∅ k Q -> ex Q t ->
  statu_of k t = RT_THREAD_SLEEP \/ statu_of k t = RT_THREAD_SUSPEND ->
  rt_thread_resume t k = (RT_EOK, resumed t k) /\ kgood ∅ (resumed t k) (resume_queues k Q t) /\
  statu_of (resumed t k) t = wake_status k t /\
  (forall u, u ≠ t -> thr (resumed t k) u = thr k u) /\
  error (thr (resumed t k) t) = error (thr k t) /\
  rt_current_thread (resumed t k) = rt_current_thread k /\
  rt_interrupt_nest (resumed t k) = rt_interrupt_nest k /\
  system_tick (resumed t k) = system_tick k.
Proof.
  intros HG Ht Hs. destruct (unlink_good ∅ k Q t HG Ht Hs) as (HW1 & HC1 & HS1).
  unfold resumed. set (k1 := upd_lk (fun L => rt_list_remove L (NT t)) k) in *.
  assert (Ht1 : ex (q_del Q (NT t)) t) by by rewrite ex_del_T.
  pose proof (kwf_timer_stop _ _ _ _ HW1 t Ht1 (not_elem_of_empty t)) as HW2.
  pose proof (timer_stop_flag _ _ _ _ HW1 t Ht1 (not_elem_of_empty t)) as Hf2.
  destruct (timer_stop_fields t k1) as (_ & _ & EC & EN & EK & EI & ET).
  set (k2 := snd (rt_timer_stop t k1)) in *.
  destruct (insert_thread_effect t k2) as (ET3 & _ & _ & EC3 & _ & EN3 & EK3 & EI3).
  assert (EP : current_priority (thr k2 t) = current_priority (thr k t)).
  { destruct (ET t) as (f & -> & _). done. }
  assert (Ew : wake_status k2 t = wake_status k t) by (unfold wake_status; by rewrite EC).
  assert (EQ : resume_queues k Q t = wake_queues k2 (q_del (q_del Q (NT t)) (NTm t)) t).
  { unfold resume_queues, wake_queues. by rewrite EC, EP. }
  split_and!.
  - unfold rt_thread_resume, rt_hw_interrupt_disable, rt_hw_interrupt_enable.
    assert (E : negb (bool_decide (statu_of k t = RT_THREAD_SUSPEND))
                && negb (bool_decide (statu_of k t = RT_THREAD_SLEEP)) = false).
    { by destruct Hs as [-> | ->]. }
    rewrite E.
    change (upd_lk (fun L => rt_list_remove L (NT t)) (set_ie false k)) with (set_ie false k1).
    rewrite (surjective_pairing (rt_timer_stop t (set_ie false k1))), timer_stop_ie.
    fold k2. rewrite insert_thread_ie, set_ie_twice, set_ie_id; [done|].
    rewrite EI3. exact EI.
  - rewrite EQ. apply insert_good; [done|..].
    + unfold kcur. setoid_rewrite ex_del_Tm. rewrite EC.
      assert (Hst : forall u, statu_of k2 u = statu_of k1 u).
      { intros u. unfold statu_of. by destruct (ET u) as (f & -> & _). }
      setoid_rewrite Hst. exact HC1.
    + apply (stacks_ok_thr k1 (q_del Q (NT t))); [done|by intros u; rewrite ex_del_Tm|].
      intros u. by destruct (ET u) as (f & -> & _).
    + by rewrite ex_del_Tm.
    + intros h Hh [_ Hi]%elem_of_q_del. by apply free_q_del in Hi.
    + by right.
  - unfold statu_of. rewrite ET3, fupd_eq. exact Ew.
  - intros u Hu. rewrite ET3, fupd_ne by done. destruct (ET u) as (f & E & Hf).
    rewrite E, (Hf Hu). unfold timer_of.
    change (thr k1 u) with (thr k u). by destruct (thr k u) as [? ? ? ? ? ? ? ? ? ? ? ? ? ? []].
  - rewrite ET3, fupd_eq. destruct (ET t) as (f & E & _). by rewrite E.
  - rewrite EC3. exact EC.
  - rewrite EN3. exact EN.
  - rewrite EK3. exact EK.
Qed.

Lemma resume_refused (k : kernel) (t : Z) :
  statu_of k t ≠ RT_THREAD_SLEEP -> statu_of k t ≠ RT_THREAD_SUSPEND ->
  rt_thread_resume t k = (- RT_ERROR, k).
Proof.
  intros H1 H2. unfold rt_thread_resume.
  by rewrite !bool_decide_false.
Qed.

Lemma resumed_eq (t : Z) (k : kernel) : resumed t k =
  rt_schedule_insert_thread t
    (snd (rt_timer_stop t (upd_lk (fun L => rt_list_remove L (NT t)) k))).
Proof. reflexivity. Qed.

Lemma resumed_ie (t : Z) (k : kernel) (b : bool) :
  resumed t (set_ie b k) = set_ie b (resumed t k).
Proof. unfold resumed. by rewrite upd_lk_ie, timer_stop_ie, insert_thread_ie. Qed.

Lemma resumed_fields (t : Z) (k : kernel) :
  let k' := resumed t k in
  sem_value k' = sem_value k /\ mbox k' = mbox k /\ ie k' = ie k.
Proof.
  cbv zeta. unfold resumed.
  set (k1 := upd_lk _ k).
  assert (E : sem_value k1 = sem_value k /\ mbox k1 = mbox k /\ ie k1 = ie k) by done.
  clearbody k1. destruct E as (E1 & E2 & E3).
  destruct (timer_stop_fields t k1) as (F1 & F2 & _ & _ & _ & F3 & _).
  destruct (insert_thread_effect t (snd (rt_timer_stop t k1))) as (_ & G1 & G2 & _ & _ & _ & _ & G3).
  rewrite G1, F1, G2, F2, G3, F3. done.
Qed.

#[global] Opaque resumed.
