(* ===== verification/Lifecycle.v ===== *)
(** * Creation and termination of threads (os/thread.c, os/context_gcc.h)

    [thread_init], [thread_join_init], [thread_start], the exit of a thread, the
    [kill] command and the idle thread's reclamation.  The heap is a parameter: an
    [Allocator] gives [malloc] and [free], which os/mem.c implements. *)

From S2P Require Import Prelude Bits CStr RtList Kernel KernelInv Sched ThreadOps.

(** ** The allocator's interface *)

(** [malloc] may not return ([None]); it returns [NULL] when there is no block. *)
Class Allocator (H : Type) := {
  malloc : Z -> H -> option (Z * H);
  free : Z -> H -> option H }.

(** ** The first stack frame *)

(** The words of [struct threadframe] in the order of its fields. *)
Definition threadframe_words (tentry parameter stack_top texit g_sr g_gp : Z) : list Z :=
  [0; 0; 0; 0;                              (* zero at v0 v1 *)
   parameter; 0; 0; 0;                      (* a0-a3 *)
   0; 0; 0; 0; 0; 0; 0; 0;                  (* t0-t7 *)
   0; 0; 0; 0; 0; 0; 0; 0;                  (* s0-s7 *)
   0; 0; 0; 0;                              (* t8 t9 k0 k1 *)
   g_gp; stack_top; 0; texit;               (* gp sp s8 ra *)
   g_sr; 0; 0; 0; 0; tentry].               (* sr mullo mulhi badvaddr cause pc *)

Definition SIZEOF_THREADFRAME : Z := 152.

(** [g_sr]: interrupts and the hardware timer line enabled at the first switch. *)
Definition frame_sr (status : Z) : Z := Z.lor (Z.land status 0xfffffffe) 0x8401.

(** Writes the frame below [stack_top]: its address and its words. *)
Definition rt_hw_stack_init (tentry parameter stack_top texit status gp : Z) : Z * list Z :=
  (stack_top -u SIZEOF_THREADFRAME,
   threadframe_words tentry parameter stack_top texit (frame_sr status) gp).

(** The byte of a little-endian word. *)
Definition word_byte (w i : Z) : Z := Z.land (Z.shiftr w (8 * i)) 0xff.

(** The byte at [a] of a stack that was filled with ['#'] before the frame [f] was
    written at [top]. *)
Definition stack_byte (top : Z) (f : list Z) (a : Z) : Z :=
  let off := a -u top in
  if off <? SIZEOF_THREADFRAME then word_byte (znth 0 f (off / 4)) (off mod 4) else HASH.

(** ** Creation *)

Definition RT_NAME_MAX : Z := 24.
Definition SIZEOF_RT_THREAD : Z := 132.

Definition rt_timer_init (t time : Z) (k : kernel) : kernel :=
  let k := upd_thr t (t_timer (fun _ => RtTimer RT_TIMER_FLAG_NO_ACTIVATED time 0)) k in
  upd_lk (fun L => rt_list_init L (NTm t)) k.

Section Create.
Context {H : Type} `{Allocator H}.
(** CP0 status and global pointer when the first frame is written, and the address
    of [rt_thread_exit]. *)
Context (cp0_status gp texit : Z).

(** The file's state: the kernel, the heap and [threadIdIndex]. *)
Record threads := Threads { tk : kernel; th_heap : H; threadIdIndex : Z }.

Definition new_thread (nm : list Z) (ident fn userdata stack stackSize priority runtick : Z) : rt_thread :=
  let nameLen := if strlen nm >? RT_NAME_MAX - 1 then RT_NAME_MAX - 1 else strlen nm in
  let stack_size := u32 stackSize in
  let prio := u8 priority in
  let stack_top := u32 (stack + stack_size - 4) in
  let '(sp, frame) := rt_hw_stack_init fn userdata stack_top texit cp0_status gp in
  RtThread (take (Z.to_nat nameLen) nm) ident prio prio (u32 runtick) (u32 runtick)
    (u32 (Z.shiftl 1 prio)) userdata RT_THREAD_READY sp stack stack_size
    (stack_byte sp frame stack) 0 (RtTimer RT_TIMER_FLAG_NO_ACTIVATED 0 0).

(** The list and ready-group updates for the new record. *)
Definition enlist (t : Z) (k : kernel) : kernel :=
  let k := upd_lk (fun L => rt_list_init L (NTm t)) k in
  let k := upd_lk (fun L => rt_list_init L (NT t)) k in
  let k := upd_lk (fun L => rt_list_init L (NA t)) k in
  let k := upd_lk (fun L => rt_list_insert_after L NAll (NA t)) k in
  let k := set_group (Z.lor (rt_thread_ready_priority_group k)
                        (number_mask (thr k t))) k in
  upd_lk (fun L => rt_list_insert_before L (NReady (current_priority (thr k t))) (NT t)) k.

(** The thread, or [NULL]; an early return leaves the interrupts as they are. *)
Definition thread_join_init (thread_name : list Z) (fn userdata stackSize priority runtick : Z)
    (s : threads) : option (Z * threads) :=
  let level := ie (tk s) in
  let started := negb (rt_current_thread (tk s) =? NULL) in
  let k := if started then set_ie false (tk s) else tk s in
  if priority >? RT_THREAD_PRIORITY_MAX - 1 then
    Some (NULL, Threads k (th_heap s) (threadIdIndex s))
  else
    match malloc SIZEOF_RT_THREAD (th_heap s) with
    | None => None
    | Some (newThread, h) =>
      if newThread =? NULL then Some (NULL, Threads k h (threadIdIndex s))
      else if stackSize =? 0 then
        match free newThread h with
        | None => None
        | Some h => Some (NULL, Threads k h (threadIdIndex s))
        end
      else
        match malloc (u32 stackSize) h with
        | None => None
        | Some (stack, h) =>
          if stack =? NULL then
            match free newThread h with
            | None => None
            | Some h => Some (NULL, Threads k h (threadIdIndex s))
            end
          else
            let k := upd_thr newThread (fun _ =>
                       new_thread thread_name (threadIdIndex s) fn userdata stack stackSize
                         priority runtick) k in
            let k := enlist newThread k in
            let k := if started then set_ie level k else k in
            Some (newThread, Threads k h (threadIdIndex s +u 1))
        end
    end.
End Create.
Arguments threads H : clear implicits.
Arguments Threads {H} _ _ _.
Arguments tk {H} _.
Arguments th_heap {H} _.
Arguments threadIdIndex {H} _.

(** ** Look-up and kill *)

(** [rt_list_for_each_entry] over [rt_all_thread]. *)
Fixpoint find_loop (fuel : nat) (pos : node) (ident : Z) (k : kernel) : option (option Z) :=
  match fuel with
  | O => None
  | S fuel =>
      if decide (pos = NAll) then Some None
      else match allList_entry pos with
      | None => None
      | Some t => if id (thr k t) =? ident then Some (Some t)
                  else find_loop fuel (nxt (lk k) pos) ident k
      end
  end.

(** [Some None] is the C [NULL]. *)
Definition find_thread_by_id (fuel : nat) (ident : Z) (k : kernel) : option (option Z) :=
  find_loop fuel (nxt (lk k) NAll) ident k.

Definition str_idle : list Z := [105; 100; 108; 101].
Definition str_shell : list Z := [115; 104; 101; 108; 108].

Definition killThreadFun (fuel : nat) (ident : Z) (k : kernel) : option sched_result :=
  let '(temp, k) := rt_hw_interrupt_disable k in
  match find_thread_by_id fuel (u32 ident) k with
  | None => None
  | Some None => Some (SReturn (rt_hw_interrupt_enable temp k))
  | Some (Some t) =>
      if (striequ str_idle (name (thr k t)) =? 0) && (striequ str_shell (name (thr k t)) =? 0)
      then
        let k := close_thread t k in
        if t =? rt_current_thread k then
          Some (sbind (rt_schedule k) (fun k => SReturn (rt_hw_interrupt_enable temp k)))
        else Some (SReturn (rt_hw_interrupt_enable temp k))
      else Some (SReturn (rt_hw_interrupt_enable temp k))
  end.

(** ** Creation keeps the invariant *)

(** No list holds a node of [t]. *)
Definition fresh (Q : queues) (t : Z) : Prop :=
  free_node Q (NA t) /\ free_node Q (NT t) /\ free_node Q (NTm t).

Definition enlist_queues (Q : queues) (t p : Z) : queues :=
  q_append (q_prepend Q NAll (NA t)) (NReady p) (NT t).

Lemma live_all (Q : queues) (L : links) (T : Z -> rt_thread) (g : Z) (X Y : gset Z) :
  kwf_ Q L T g X Y -> live Q NAll = true.
Proof. intros HW. by apply HW. Qed.

Lemma fresh_not_ex (k : kernel) (Q : queues) (X Y : gset Z) (t : Z) :
  kwf X Y k Q -> fresh Q t -> ~ ex Q t.
Proof. intros HW (Hf & _) Hi. by apply (Hf NAll); [eapply live_all|]. Qed.

(** The links after [enlist]. *)
Definition enlist_links (L : links) (t p : Z) : links :=
  rt_list_insert_before
    (rt_list_insert_after
       (rt_list_init (rt_list_init (rt_list_init L (NTm t)) (NT t)) (NA t)) NAll (NA t))
    (NReady p) (NT t).

Section Enlist.
Context (k : kernel) (Q : queues) (HW : kwf ∅ ∅ k Q) (t : Z) (HF : fresh Q t).
Context (th : rt_thread) (p : Z) (Hp : 0 <= p < RT_THREAD_PRIORITY_MAX).
Context (Ep : current_priority th = p) (Em : number_mask th = 2 ^ p).
Context (Es : statu th = RT_THREAD_READY).
Context (Ef : flag (thread_timer th) = RT_TIMER_FLAG_NO_ACTIVATED).

Lemma enlist_eq : enlist t (upd_thr t (fun _ => th) k) =
  Kernel (enlist_links (lk k) t p) (fupd (thr k) t th) (sem_value k) (mbox k)
    (rt_current_thread k) (rt_current_priority k)
    (Z.lor (rt_thread_ready_priority_group k) (2 ^ p))
    (rt_interrupt_nest k) (system_tick k) (ie k).
Proof.
  assert (Ep' : current_priority (fupd (thr k) t th t) = p) by by rewrite fupd_eq.
  assert (Em' : number_mask (fupd (thr k) t th t) = 2 ^ p) by by rewrite fupd_eq.
  apply kernel_ext; try reflexivity.
  - cbn [lk enlist upd_lk set_group]. unfold enlist_links. rewrite <- Ep'. reflexivity.
  - cbn [enlist rt_thread_ready_priority_group]. rewrite <- Em'. reflexivity.
Qed.

Let L0 := rt_list_init (rt_list_init (rt_list_init (lk k) (NTm t)) (NT t)) (NA t).
Let L1 := rt_list_insert_after L0 NAll (NA t).
Let Q1 := q_prepend Q NAll (NA t).

Lemma enlist_live (h : node) : live (enlist_queues Q t p) h = live Q h.
Proof. done. Qed.

Lemma enlist_qwf0 : qwf L0 Q.
Proof.
  destruct HF as (HA & HT & HTm).
  apply qwf_init; [|done|done]. apply qwf_init; [|done|done].
  apply qwf_init; [apply HW|done|done].
Qed.

Lemma enlist_qwf1 : qwf L1 Q1.
Proof.
  apply qwf_insert_after; [apply enlist_qwf0|by eapply live_all|done|apply HF].
Qed.

Lemma enlist_free1 (u : node) : u ≠ NA t -> free_node Q1 u <-> free_node Q u.
Proof. intros Hu. eapply moved_free; [apply moved_prepend|done]. Qed.

Lemma enlist_ready_live : live Q (NReady p) = true.
Proof. apply HW. simpl. unfold RT_THREAD_PRIORITY_MAX in *. lia. Qed.

Lemma enlist_qwf : qwf (enlist_links (lk k) t p) (enlist_queues Q t p).
Proof.
  apply (qwf_insert_before L1 Q1); [apply enlist_qwf1|apply enlist_ready_live|done|].
  apply enlist_free1; [done|apply HF].
Qed.

Lemma enlist_self (x : node) : x ≠ NA t -> x ≠ NT t -> is_head x = false ->
  free_node Q x -> self (lk k) x \/ x = NTm t -> self (enlist_links (lk k) t p) x.
Proof.
  intros H1 H2 Hh Hf Hs.
  apply (self_insert_before L1 Q1); [apply enlist_qwf1|done| | |apply enlist_ready_live|done].
  - by apply enlist_free1.
  - apply (self_insert_after L0 Q); [apply enlist_qwf0|done|done| |by eapply live_all|done].
    apply self_init, self_init. destruct Hs as [Hs| ->]; [by apply self_init|apply init_self].
Qed.

Lemma enlist_ex (u : Z) : ex (enlist_queues Q t p) u <-> u = t \/ ex Q u.
Proof.
  unfold enlist_queues. rewrite ex_append_T. unfold ex, q_prepend. rewrite q_set_eq.
  rewrite elem_of_cons. split; [intros [[= ->]|?]; auto|intros [->|?]; auto].
Qed.

Lemma enlist_other (h m : node) : m ≠ NA t -> m ≠ NT t ->
  m ∈ enlist_queues Q t p h <-> m ∈ Q h.
Proof.
  intros H1 H2. unfold enlist_queues.
  rewrite (proj2 (moved_append (NReady p) (NT t) _) h m H2).
  by apply (moved_prepend NAll (NA t) Q).
Qed.

Lemma enlist_new (h : node) : live Q h = true ->
  (NA t ∈ enlist_queues Q t p h -> h = NAll) /\ (NT t ∈ enlist_queues Q t p h -> h = NReady p).
Proof.
  intros Hh. destruct HF as (HA & HT & _). unfold enlist_queues. split.
  - intros Hi.
    apply (proj2 (moved_append (NReady p) (NT t) (q_prepend Q NAll (NA t)))) in Hi; [|done].
    destruct (decide (h = NAll)) as [|Hne]; [done|]. unfold q_prepend in Hi.
    rewrite q_set_ne in Hi by done. by destruct (HA h).
  - destruct (decide (h = NReady p)) as [|Hne]; [done|]. unfold q_append.
    rewrite q_set_ne by done. intros Hi.
    apply (proj2 (moved_prepend NAll (NA t) Q)) in Hi; [|done]. by destruct (HT h).
Qed.

Lemma enlist_ready (p' : Z) : p' ≠ p ->
  enlist_queues Q t p (NReady p') = Q (NReady p').
Proof.
  intros Hne. unfold enlist_queues, q_append. rewrite q_set_ne by congruence.
  unfold q_prepend. by rewrite q_set_ne.
Qed.

Lemma enlist_free (u : Z) : u ≠ t -> free_node (enlist_queues Q t p) (NT u) <-> free_node Q (NT u).
Proof.
  intros Hu. unfold free_node. split; intros Hf h Hh Hi; apply (Hf h Hh).
  - apply enlist_other; [done|congruence|done].
  - apply enlist_other in Hi; [done|done|congruence].
Qed.

Lemma enlist_free_timer (u : Z) :
  free_node (enlist_queues Q t p) (NTm u) <-> free_node Q (NTm u).
Proof.
  unfold free_node. split; intros Hf h Hh Hi; apply (Hf h Hh).
  - by apply enlist_other.
  - by apply enlist_other in Hi.
Qed.

Lemma enlist_kwf : kwf ∅ ∅ (enlist t (upd_thr t (fun _ => th) k)) (enlist_queues Q t p).
Proof.
  rewrite enlist_eq. cbn [lk thr rt_thread_ready_priority_group].
  pose proof (fresh_not_ex _ _ _ _ _ HW HF) as Hnx.
  split.
  - apply enlist_qwf.
  - intros h Hh. apply HW, Hh.
  - intros q. apply HW.
  - intros n Hn. destruct (decide (n = NA t)) as [->|H1]; [by eexists|].
    destruct (decide (n = NT t)) as [->|H2].
    + apply enlist_new in Hn; [done|by eapply live_all].
    + apply enlist_other in Hn; [|done|done]. by eapply W_all.
  - intros n Hn. assert (Hl : live Q NTimers = true) by by apply HW.
    destruct (decide (n = NA t)) as [->|H1]; [by apply enlist_new in Hn|].
    destruct (decide (n = NT t)) as [->|H2]; [by apply enlist_new in Hn|].
    apply enlist_other in Hn; [|done|done].
    destruct (W_timers _ _ _ _ _ _ HW n Hn) as (u & -> & Hu). exists u.
    rewrite enlist_ex. auto.
  - intros h n Hh Hm Hn. destruct (decide (n = NA t)) as [->|H1].
    { apply enlist_new in Hn; [by subst|done]. }
    destruct (decide (n = NT t)) as [->|H2].
    { exists t. rewrite enlist_ex. auto. }
    apply enlist_other in Hn; [|done|done].
    destruct (W_home _ _ _ _ _ _ HW h n Hh Hm Hn) as (u & -> & Hu). exists u.
    rewrite enlist_ex. auto.
  - intros u. rewrite enlist_ex. intros Hu. destruct (decide (u = t)) as [->|Hne].
    + rewrite fupd_eq, Ep, Em. done.
    + rewrite fupd_ne by done. destruct Hu as [?|Hu]; [done|]. by apply (W_prio _ _ _ _ _ _ HW).
  - eapply group_set; [apply HW|exact Hp| |].
    + unfold enlist_queues, q_append. rewrite q_set_eq.
      by destruct (q_prepend Q NAll (NA t) (NReady p)).
    + intros p' _ Hne. by apply enlist_ready.
  - intros u. rewrite enlist_ex. intros Hu. destruct (decide (u = t)) as [->|Hne].
    + left. exists (NReady p). split_and!; [apply enlist_ready_live|done| |].
      * unfold enlist_queues. apply in_q_append.
      * intros p' [= <-]. by rewrite fupd_eq.
    + destruct Hu as [?|Hu]; [done|].
      destruct (W_linked _ _ _ _ _ _ HW u Hu) as [(h & Hl & Hh & Hi & E)|[Hf Hs]].
      * left. exists h. rewrite fupd_ne by done. split_and!; [done..| |done].
        apply enlist_other; [done|congruence|done].
      * right. rewrite enlist_free by done. split; [done|].
        apply enlist_self; [done|congruence|done|done|by left].
  - intros u. rewrite enlist_ex. intros Hu. destruct (decide (u = t)) as [->|Hne].
    + right. rewrite fupd_eq, enlist_free_timer. split_and!; [by right|apply HF|].
      apply enlist_self; [done..|apply HF|by right].
    + destruct Hu as [?|Hu]; [done|]. unfold timer_ok. rewrite fupd_ne by done.
      destruct (W_timer _ _ _ _ _ _ HW u Hu) as [[Hf Hi]|(Hf & Hfr & Hs)].
      * left. split; [done|]. by apply enlist_other.
      * right. rewrite enlist_free_timer. split_and!; [done..|].
        apply enlist_self; [done..|by left].
  - intros u. rewrite enlist_ex. intros Hu _. destruct (decide (u = t)) as [->|Hne].
    + unfold status_ok, timer_idle. rewrite fupd_eq, Es, Ep, Ef. split; [apply in_q_append|by right].
    + destruct Hu as [?|Hu]; [done|].
      pose proof (W_status _ _ _ _ _ _ HW u Hu (not_elem_of_empty u)) as Hs.
      unfold status_ok, timer_idle in *. rewrite fupd_ne by done.
      destruct (statu (thr k u)); rewrite ?enlist_free, ?enlist_other by congruence; try done.
      intros h Hh Hi. apply enlist_other in Hi; [auto|done|congruence].
Qed.
End Enlist.

(** What [enlist] leaves alone, and the records. *)
Lemma enlist_fields (t p : Z) (th : rt_thread) (k : kernel) :
  current_priority th = p -> number_mask th = 2 ^ p ->
  let k' := enlist t (upd_thr t (fun _ => th) k) in
  thr k' = fupd (thr k) t th /\ rt_current_thread k' = rt_current_thread k /\
  rt_interrupt_nest k' = rt_interrupt_nest k /\ system_tick k' = system_tick k /\ ie k' = ie k.
Proof. intros Ep Em. cbv zeta. by rewrite (enlist_eq k t th p Ep Em). Qed.

(** The state of the kernel before [thread_start]: nothing runs. *)
Record kboot (k : kernel) (Q : queues) : Prop := {
  kb_wf : kwf ∅ ∅ k Q;
  kb_stacks : stacks_ok k Q;
  kb_idle : rt_current_thread k = NULL;
  kb_ready : forall t, ex Q t -> statu_of k t ≠ RT_THREAD_RUNNING }.

Section CreateGood.
Context (k : kernel) (Q : queues) (t p : Z) (th : rt_thread) (HF : fresh Q t).
Context (Hp : 0 <= p < RT_THREAD_PRIORITY_MAX).
Context (Ep : current_priority th = p) (Em : number_mask th = 2 ^ p).
Context (Es : statu th = RT_THREAD_READY).
Context (Ef : flag (thread_timer th) = RT_TIMER_FLAG_NO_ACTIVATED).
Context (Ek : forall k', thr k' t = th -> _rt_scheduler_stack_check k' t = true).

Lemma enlist_stacks : stacks_ok k Q ->
  stacks_ok (enlist t (upd_thr t (fun _ => th) k)) (enlist_queues Q t p).
Proof.
  intros HS u. rewrite (enlist_ex Q t p u). intros Hu.
  destruct (enlist_fields t p th k Ep Em) as (ET & _).
  destruct (decide (u = t)) as [->|Hne].
  - apply Ek. by rewrite ET, fupd_eq.
  - destruct Hu as [?|Hu]; [done|]. rewrite <- (HS u Hu).
    apply stack_check_ext; by rewrite ET, fupd_ne.
Qed.

Lemma create_good : kgood ∅ k Q ->
  kgood ∅ (enlist t (upd_thr t (fun _ => th) k)) (enlist_queues Q t p).
Proof.
  intros [HW HC HS]. destruct (enlist_fields t p th k Ep Em) as (ET & EC & _).
  pose proof (fresh_not_ex _ _ _ _ _ HW HF) as Hnx.
  split; [by apply enlist_kwf| |by apply enlist_stacks].
  destruct HC as (H1 & H2 & H3). unfold kcur, statu_of in *.
  assert (Hne : rt_current_thread k ≠ t) by congruence.
  rewrite EC, (enlist_ex Q t p), ET, fupd_ne by done. split_and!; [by right|done|].
  intros u. rewrite (enlist_ex Q t p). destruct (decide (u = t)) as [->|].
  - rewrite fupd_eq. congruence.
  - rewrite fupd_ne by done. intros [?|?]; [done|auto].
Qed.

Lemma create_boot : kboot k Q ->
  kboot (enlist t (upd_thr t (fun _ => th) k)) (enlist_queues Q t p).
Proof.
  intros [HW HS HI HR]. destruct (enlist_fields t p th k Ep Em) as (ET & EC & _).
  split; [by apply enlist_kwf|by apply enlist_stacks|congruence|].
  intros u. unfold statu_of. rewrite (enlist_ex Q t p), ET.
  destruct (decide (u = t)) as [->|].
  - rewrite fupd_eq. congruence.
  - rewrite fupd_ne by done. intros [?|?]; [done|by apply HR].
Qed.
End CreateGood.

(** A stack larger than the frame passes the scheduler's check. *)
Lemma new_thread_stack_ok (status gp texit : Z) (nm : list Z)
    (ident fn userdata stack stackSize priority runtick : Z) (k : kernel) (t : Z) :
  0 < stack -> 156 < stackSize -> stack + stackSize < 2 ^ 32 ->
  thr k t = new_thread status gp texit nm ident fn userdata stack stackSize priority runtick ->
  _rt_scheduler_stack_check k t = true.
Proof.
  intros H1 H2 H3 E. unfold _rt_scheduler_stack_check. rewrite E.
  unfold new_thread, rt_hw_stack_init, SIZEOF_THREADFRAME.
  rewrite (u32_small stackSize), (u32_small (stack + stackSize - 4)),
    (u32_small (stack + stackSize - 4 - 152)) by lia.
  cbn [stack_guard sp stack_addr stack_size].
  assert (Eb : stack_byte (stack + stackSize - 4 - 152)
      (threadframe_words fn userdata (stack + stackSize - 4) texit (frame_sr status) gp) stack = HASH).
  { unfold stack_byte, SIZEOF_THREADFRAME.
    replace (stack -u (stack + stackSize - 4 - 152)) with (2 ^ 32 + 156 - stackSize) by zlia.
    rewrite (proj2 (Z.ltb_ge _ _)) by lia. done. }
  rewrite Eb, Z.eqb_refl, (u32_small (stack + stackSize)) by lia.
  rewrite (proj2 (Z.leb_gt _ _)), (proj2 (Z.ltb_ge _ _)) by lia. done.
Qed.

Section JoinInit.
Context {H : Type} `{Allocator H} (status gp texit : Z).

(** A creation whose two allocations succeed. *)
Lemma thread_join_init_ok (nm : list Z) (fn userdata stackSize priority runtick : Z)
    (s : threads H) (t stack : Z) (h1 h2 : H) :
  0 <= priority < RT_THREAD_PRIORITY_MAX -> stackSize <> 0 ->
  malloc SIZEOF_RT_THREAD (th_heap s) = Some (t, h1) -> t <> NULL ->
  malloc (u32 stackSize) h1 = Some (stack, h2) -> stack <> NULL ->
  let th := new_thread status gp texit nm (threadIdIndex s) fn userdata stack stackSize
              priority runtick in
  thread_join_init status gp texit nm fn userdata stackSize priority runtick s =
    Some (t, Threads (enlist t (upd_thr t (fun _ => th) (tk s))) h2 (threadIdIndex s +u 1)).
Proof.
  intros Hp Hs Hm1 Ht Hm2 Hst th. unfold thread_join_init.
  unfold RT_THREAD_PRIORITY_MAX in *.
  assert (Eg : (priority >? 32 - 1) = false) by lia. rewrite Eg, Hm1.
  rewrite (proj2 (Z.eqb_neq _ _) Ht), (proj2 (Z.eqb_neq _ _) Hs), Hm2, (proj2 (Z.eqb_neq _ _) Hst).
  do 3 f_equal. fold th.
  destruct (negb (rt_current_thread (tk s) =? NULL)); [|done].
  apply kernel_ext; reflexivity.
Qed.

Lemma new_thread_fields (nm : list Z) (ident fn userdata stack stackSize priority runtick : Z) :
  0 <= priority < RT_THREAD_PRIORITY_MAX ->
  let th := new_thread status gp texit nm ident fn userdata stack stackSize priority runtick in
  current_priority th = priority /\ number_mask th = 2 ^ priority /\
  statu th = RT_THREAD_READY /\ flag (thread_timer th) = RT_TIMER_FLAG_NO_ACTIVATED.
Proof.
  unfold RT_THREAD_PRIORITY_MAX. intros Hp. cbn [new_thread rt_hw_stack_init].
  cbn [current_priority number_mask statu thread_timer flag].
  rewrite u8_small by lia. split_and!; [done| |done|done].
  rewrite Z.shiftl_1_l. apply u32_small.
  split; [lia|]. apply Z.pow_lt_mono_r; lia.
Qed.

(** Every other outcome returns [NULL] and changes the kernel's IE bit at most; the
    bit is left clear when the scheduler already runs. *)
Lemma thread_join_init_refused (nm : list Z) (fn userdata stackSize priority runtick : Z)
    (s s' : threads H) :
  thread_join_init status gp texit nm fn userdata stackSize priority runtick s = Some (NULL, s') ->
  tk s' = (if rt_current_thread (tk s) =? NULL then tk s else set_ie false (tk s)) /\
  threadIdIndex s' = threadIdIndex s.
Proof.
  unfold thread_join_init. intros E.
  repeat match type of E with
  | Some _ = Some _ => injection E as E
  | (if ?b then _ else _) = _ => destruct b eqn:?; simplify_eq/=
  | match ?b with _ => _ end = _ => destruct b eqn:?; simplify_eq/=
  end; try (by destruct (rt_current_thread (tk s) =? NULL)); done.
Qed.
End JoinInit.

(** ** Exit and kill *)

Definition close_queues (Q : queues) (t : Z) : queues :=
  q_prepend (q_del (q_del Q (NTm t)) (NT t)) NDead (NT t).

Lemma ex_close (Q : queues) (t u : Z) : ex (close_queues Q t) u <-> ex Q u.
Proof. unfold close_queues. by rewrite ex_prepend_T, ex_del_T, ex_del_Tm. Qed.

Lemma free_close (Q : queues) (t : Z) : free_node (q_del Q (NT t)) (NT t).
Proof. apply free_q_del. Qed.

Lemma upd_lk_fields (f : links -> links) (k : kernel) :
  let k' := upd_lk f k in
  thr k' = thr k /\ rt_current_thread k' = rt_current_thread k /\
  rt_interrupt_nest k' = rt_interrupt_nest k /\ system_tick k' = system_tick k /\ ie k' = ie k.
Proof. done. Qed.

(** A closed thread is at the front of the dead list, its timer stopped, whatever it
    did before. *)
Lemma close_good (k : kernel) (Q : queues) (t : Z) : kgood ∅ k Q -> ex Q t ->
  kgood ∅ (close_thread t k) (close_queues Q t) /\
  statu_of (close_thread t k) t = RT_THREAD_CLOSE /\
  (forall u, u ≠ t -> thr (close_thread t k) u = thr k u) /\
  rt_current_thread (close_thread t k) = rt_current_thread k /\
  rt_interrupt_nest (close_thread t k) = rt_interrupt_nest k /\
  ie (close_thread t k) = ie k.
Proof.
  intros [HW HC HS] Ht.
  set (k1 := upd_thr t (t_statu RT_THREAD_CLOSE) k).
  assert (HW1 : kwf {[t]} ∅ k1 Q).
  { apply (kwf_thr _ _ (thr k)); [|done|done|right; sets|by left].
    eapply kwf_weaken; [..|exact HW]; sets. }
  pose proof (kwf_timer_stop _ _ _ _ HW1 t Ht (not_elem_of_empty t)) as HW2.
  pose proof (timer_stop_flag _ _ _ _ HW1 t Ht (not_elem_of_empty t)) as Hf2.
  destruct (timer_stop_fields t k1) as (_ & _ & EC & EN & _ & EI & ET).
  destruct (upd_thr_fields t (t_statu RT_THREAD_CLOSE) k) as (_ & _ & EC1 & EN1 & _ & EI1).
  fold k1 in EC1, EN1, EI1.
  assert (Ecl : close_thread t k = upd_lk (fun L => rt_list_insert_after L NDead (NT t))
            (rt_schedule_remove_thread t (snd (rt_timer_stop t k1)))).
  { unfold close_thread. fold k1. rewrite (surjective_pairing (rt_timer_stop t k1)). reflexivity. }
  rewrite Ecl. set (k2 := snd (rt_timer_stop t k1)) in *.
  assert (Ht2 : ex (q_del Q (NTm t)) t) by by rewrite ex_del_Tm.
  pose proof (kwf_remove_thread _ _ _ _ HW2 t Ht2 (sing_in t)) as HW3.
  destruct (remove_thread_fields t k2) as (ET3 & _ & _ & EC3 & _ & EN3 & _ & EI3).
  set (k3 := rt_schedule_remove_thread t k2) in *.
  assert (HW4 := kwf_bury _ _ _ _ HW3 t (proj2 (ex_del_T _ _ _) Ht2) (sing_in t) (free_close _ t)).
  assert (Eo : forall u, u ≠ t -> thr k3 u = thr k u).
  { intros u Hu. rewrite ET3. destruct (ET u) as (f & E & Ef). rewrite E, (Ef Hu).
    assert (E1 : thr k1 u = thr k u) by exact (fupd_ne (thr k) t _ u Hu).
    unfold timer_of. rewrite E1. by destruct (thr k u) as [? ? ? ? ? ? ? ? ? ? ? ? ? ? []]. }
  assert (Et : exists f, thr k3 t = t_timer (tm_flag f) (t_statu RT_THREAD_CLOSE (thr k t))).
  { rewrite ET3. destruct (ET t) as (f & E & _). exists f. rewrite E.
    assert (E1 : thr k1 t = t_statu RT_THREAD_CLOSE (thr k t)) by exact (fupd_eq (thr k) t _).
    by rewrite E1. }
  destruct Et as [f Et].
  destruct (upd_lk_fields (fun L => rt_list_insert_after L NDead (NT t)) k3)
    as (ET4 & EC4 & EN4 & _ & EI4).
  set (k4 := upd_lk _ k3) in *. rewrite <- ET4 in Eo, Et. split_and!.
  - split.
    + rewrite (sing_diff t) at 1. apply kwf_settle; [exact HW4|]. intros _.
      unfold status_ok. rewrite Et. cbn [statu t_timer t_statu]. split.
      * apply in_q_prepend.
      * right. rewrite ET4, ET3. exact Hf2.
    + apply (kcur_status k Q t RT_THREAD_CLOSE); [exact HC|apply ex_close|congruence| | |done|done].
      * intros u Hu. unfold statu_of. by rewrite Eo.
      * unfold statu_of. by rewrite Et.
    + apply (stacks_ok_thr k Q); [exact HS|intros u; apply ex_close|].
      intros u. destruct (decide (u = t)) as [->|Hne]; [by rewrite Et|by rewrite Eo].
  - unfold statu_of. by rewrite Et.
  - exact Eo.
  - congruence.
  - congruence.
  - congruence.
Qed.

Lemma close_thread_ie (t : Z) (k : kernel) (b : bool) :
  close_thread t (set_ie b k) = set_ie b (close_thread t k).
Proof.
  unfold close_thread. rewrite upd_thr_ie.
  rewrite (surjective_pairing (rt_timer_stop t (set_ie b _))), timer_stop_ie, remove_thread_ie.
  rewrite (surjective_pairing (rt_timer_stop t (upd_thr t (t_statu RT_THREAD_CLOSE) k))).
  cbn [fst snd]. rewrite upd_lk_ie. reflexivity.
Qed.

Lemma set_ie_restore (k : kernel) (b c : bool) (f : kernel -> kernel) :
  (forall b, f (set_ie b k) = set_ie b (f k)) -> ie (f k) = ie k ->
  set_ie (ie k) (f (set_ie b k)) = f k.
Proof. intros Hf Hi. rewrite Hf, set_ie_twice. by apply set_ie_id. Qed.

(** The exit of the running thread: closed, and the processor handed over. *)
Lemma exit_good (k : kernel) (Q : queues) : kgood ∅ k Q ->
  let t := rt_current_thread k in
  rt_thread_exit k = rt_schedule (close_thread t k) /\
  kgood ∅ (close_thread t k) (close_queues Q t).
Proof.
  intros HG t. assert (Ht : ex Q t) by apply HG.
  destruct (close_good k Q t HG Ht) as (HG' & _ & _ & _ & _ & EI).
  split; [|done]. unfold rt_thread_exit, rt_hw_interrupt_disable, rt_hw_interrupt_enable.
  f_equal. apply (set_ie_restore k false false (close_thread t)); [|done].
  intros b. apply close_thread_ie.
Qed.

(** ** Look-up *)

(** The thread with an identifier, by a search of the creation list. *)
Definition node_has_id (k : kernel) (ident : Z) (n : node) : bool :=
  match n with NA t => id (thr k t) =? ident | _ => false end.
Definition find_spec (k : kernel) (ident : Z) (l : list node) : option Z :=
  match List.find (node_has_id k ident) l with Some (NA t) => Some t | _ => None end.

Lemma find_loop_spec (L2 : list node) : forall fuel L1 k Q ident,
  kwf ∅ ∅ k Q -> Q NAll = L1 ++ L2 -> (length L2 < fuel)%nat ->
  find_loop fuel (hd NAll L2) ident k = Some (find_spec k ident L2).
Proof.
  induction L2 as [|n L2 IH]; intros fuel L1 k Q ident HW EQ Hf;
    (destruct fuel as [|fuel]; [simpl in *; lia|]); [done|].
  assert (Hl : live Q NAll = true) by by eapply live_all.
  assert (Hi : n ∈ Q NAll) by (rewrite EQ; set_solver).
  destruct (W_all _ _ _ _ _ _ HW n Hi) as [t ->].
  cbn [find_loop hd allList_entry]. rewrite decide_False by done.
  unfold find_spec. cbn [List.find node_has_id].
  destruct (id (thr k t) =? ident); [done|].
  rewrite (qwf_next_in _ _ NAll (NA t) L1 L2 (W_q _ _ _ _ _ _ HW) Hl EQ).
  apply (IH fuel (L1 ++ [NA t]) k Q); [done|by rewrite <- app_assoc|simpl in *; lia].
Qed.

Lemma find_thread_by_id_spec (fuel : nat) (k : kernel) (Q : queues) (ident : Z) :
  kwf ∅ ∅ k Q -> (length (Q NAll) < fuel)%nat ->
  find_thread_by_id fuel ident k = Some (find_spec k ident (Q NAll)).
Proof.
  intros HW Hf. unfold find_thread_by_id.
  rewrite (qwf_next _ _ (W_q _ _ _ _ _ _ HW)) by by eapply live_all.
  by apply (find_loop_spec _ _ [] _ Q).
Qed.

Lemma find_spec_some (k : kernel) (ident t : Z) (l : list node) :
  find_spec k ident l = Some t -> NA t ∈ l /\ id (thr k t) = ident.
Proof.
  unfold find_spec. destruct (List.find _ l) as [n|] eqn:E; [|done].
  apply find_some in E as [Hi E]. destruct n; intros; simplify_eq. simpl in E.
  split; [by apply list_elem_of_In|by apply Z.eqb_eq].
Qed.

(** ** Kill *)

Lemma bind_enable (r : sched_result) (k : kernel) (b : bool) : r_kernel r = Some k ->
  exists c, r_kernel (sbind r (fun k => SReturn (set_ie b k))) = Some (set_ie c k).
Proof.
  destruct r; intros [= ->]; [by exists b| |by exists b].
  exists (ie k). by rewrite set_ie_id.
Qed.

Lemma kill_good (fuel : nat) (ident : Z) (k : kernel) (Q : queues) :
  kgood ∅ k Q -> 0 <= ident < 2 ^ 31 -> (length (Q NAll) < fuel)%nat ->
  exists r k' Q', killThreadFun fuel ident k = Some r /\ r_kernel r = Some k' /\
    kgood ∅ k' Q' /\ (forall u, ex Q' u <-> ex Q u) /\
    match find_spec k ident (Q NAll) with
    | Some t => if decide (name (thr k t) = str_idle \/ name (thr k t) = str_shell)
                then k' = k else cstring (name (thr k t)) -> statu_of k' t = RT_THREAD_CLOSE
    | None => k' = k
    end.
Proof.
  intros HG Hid Hf. unfold killThreadFun, rt_hw_interrupt_disable, rt_hw_interrupt_enable.
  assert (HG' := kgood_ie _ _ _ false HG).
  rewrite (find_thread_by_id_spec fuel _ Q _ (kg_wf _ _ _ HG') Hf), u32_small by lia.
  change (find_spec (set_ie false k) ident (Q NAll)) with (find_spec k ident (Q NAll)).
  assert (Hid' : set_ie (ie k) (set_ie false k) = k) by (rewrite set_ie_twice; by apply set_ie_id).
  destruct (find_spec k ident (Q NAll)) as [t|] eqn:Ef.
  2: { eexists _, k, Q. rewrite Hid'. split_and!; try done. }
  apply find_spec_some in Ef as [Ht _].
  change (name (thr (set_ie false k) t)) with (name (thr k t)).
  set (nm := name (thr k t)).
  destruct ((striequ str_idle nm =? 0) && (striequ str_shell nm =? 0)) eqn:En.
  - destruct (close_good k Q t HG Ht) as (HG2 & Hst & _ & EC & _ & EI).
    rewrite close_thread_ie.
    change (rt_current_thread (set_ie false (close_thread t k)))
      with (rt_current_thread (close_thread t k)).
    assert (Hpost : forall s, s = RT_THREAD_CLOSE ->
      if decide (nm = str_idle \/ nm = str_shell) then False else cstring nm -> s = RT_THREAD_CLOSE).
    { intros s ->. case_decide as Hd; [|done].
      assert (cstring str_idle /\ cstring str_shell) as [H1 H2].
      { split; repeat (apply Forall_cons; split; [lia|]); apply Forall_nil; done. }
      destruct Hd as [E|E]; rewrite E, !striequ_spec in En by done; discriminate En. }
    destruct (t =? rt_current_thread (close_thread t k)).
    + destruct (schedule_good ∅ _ _ (kgood_ie _ _ _ false HG2)) as (k2 & Q2 & Er & HG3 & HS & _ & _).
      assert (Hc : statu_of k2 t = RT_THREAD_CLOSE).
      { unfold statu_of. destruct (ss_thr _ _ _ _ HS t) as (s & -> & _ & Hs). simpl.
        unfold statu_of in *. change (thr (set_ie false (close_thread t k))) with (thr (close_thread t k)) in Hs.
        rewrite Hst in Hs. by apply Hs. }
      assert (Hex : forall u, ex Q2 u <-> ex Q u).
      { intros u. unfold ex at 1. rewrite (ss_all _ _ _ _ HS). apply ex_close. }
      specialize (Hpost _ Hc).
      destruct (bind_enable _ _ (ie k) Er) as (b & Eb).
      eexists _, (set_ie b k2), Q2.
      split_and!; [done|exact Eb|by apply kgood_ie|exact Hex|by case_decide].
    + specialize (Hpost _ Hst).
      eexists _, (close_thread t k), _. rewrite set_ie_twice, (set_ie_id _ _ EI).
      split_and!; [done..|exact HG2|apply ex_close|by case_decide].
  - eexists _, k, Q. rewrite Hid'. split_and!; try done.
    case_decide as Hd; [done|]. intros Hc. exfalso.
    assert (nm ≠ str_idle /\ nm ≠ str_shell) as [H1 H2] by tauto.
    assert (cstring str_idle /\ cstring str_shell) as [H3 H4].
    { split; repeat (apply Forall_cons; split; [lia|]); apply Forall_nil; done. }
    rewrite !striequ_spec, !decide_False in En by (done || congruence). discriminate En.
Qed.

(** ** Reclamation *)

Section Drop.
Context (k : kernel) (Q : queues) (t : Z).

(** Removing the [allList] node of a thread that is on no other list. *)
Lemma kwf_drop : kwf {[t]} ∅ k Q -> ex Q t ->
  free_node Q (NT t) -> free_node Q (NTm t) ->
  kwf ∅ ∅ (upd_lk (fun L => rt_list_remove L (NA t)) k) (q_del Q (NA t)).
Proof.
  intros HW Ht HT HTm.
  assert (Hl : live Q NAll = true) by by eapply live_all.
  destruct (qwf_del (lk k) Q (NA t)) as (Hq & _ & Hk); [apply HW|left; by exists NAll|].
  assert (Hex : forall u, ex (q_del Q (NA t)) u <-> u ≠ t /\ ex Q u).
  { intros u. unfold ex. rewrite elem_of_q_del. split; intros [H1 H2]; split; congruence. }
  pose proof (moved_del (NA t) Q) as HM.
  cbn [lk thr rt_thread_ready_priority_group upd_lk]. split.
  - done.
  - intros h Hh. by apply HW.
  - intros p. apply HW.
  - intros n [_ Hn]%elem_of_q_del. by eapply W_all.
  - intros n [_ Hn]%elem_of_q_del. destruct (W_timers _ _ _ _ _ _ HW n Hn) as (u & -> & Hu).
    exists u. rewrite Hex. split_and!; [done| |done]. intros ->.
    apply (HTm NTimers); [by apply HW|done].
  - intros h n Hh Hm [_ Hn]%elem_of_q_del.
    destruct (W_home _ _ _ _ _ _ HW h n Hh Hm Hn) as (u & -> & Hu). exists u.
    rewrite Hex. split_and!; [done| |done]. intros ->. by apply (HT h).
  - intros u [_ Hu]%Hex. by apply HW.
  - eapply group_same; [apply HW|]. intros p Hp. rewrite q_del_same; [done|].
    intros Hi. assert (Hr : live Q (NReady p) = true) by (apply HW; simpl; lia).
    by pose proof (qwf_disj _ _ (W_q _ _ _ _ _ _ HW) _ _ _ Hr Hl Hi Ht).
  - intros u [Hne Hu]%Hex. eapply moved_linked; [exact HM|done| |by apply HW]. auto.
  - intros u [Hne Hu]%Hex. eapply moved_timer_ok; [exact HM|done| |by apply HW]. auto.
  - intros u [Hne Hu]%Hex _. eapply moved_status_ok; [exact HM|done|]. apply HW; [done|].
    by rewrite elem_of_singleton.
Qed.

End Drop.

Section Reclaim.
Context (k : kernel) (Q : queues) (t : Z).

Definition reclaim_queues : queues := q_del (q_del Q (NT t)) (NA t).
Definition reclaimed : kernel :=
  upd_lk (fun L => rt_list_remove L (NA t)) (upd_lk (fun L => rt_list_remove L (NT t)) k).

Lemma reclaim_good : kgood ∅ k Q -> NT t ∈ Q NDead ->
  statu_of k (rt_current_thread k) ≠ RT_THREAD_CLOSE ->
  kgood ∅ reclaimed reclaim_queues /\ ex Q t /\ statu_of k t = RT_THREAD_CLOSE.
Proof.
  intros [HW HC HS] Hd Hcur. pose proof (W_live _ _ _ _ _ _ HW NDead eq_refl) as Hl.
  destruct (W_home _ _ _ _ _ _ HW NDead (NT t) Hl eq_refl Hd) as (u & [= <-] & Ht).
  assert (Hs : statu_of k t = RT_THREAD_CLOSE /\ flag (timer_of k t) = RT_TIMER_FLAG_NO_ACTIVATED).
  { pose proof (W_status _ _ _ _ _ _ HW t Ht (not_elem_of_empty t)) as H.
    unfold status_ok, statu_of, timer_idle, timer_of in *.
    destruct (statu (thr k t)); try done.
    - destruct H as [H _].
      pose proof (live_ready ∅ k Q HW _ (proj1 (W_prio _ _ _ _ _ _ HW t Ht))) as Hr.
      by pose proof (qwf_disj _ _ (W_q _ _ _ _ _ _ HW) _ _ _ Hr Hl H Hd).
    - by specialize (H _ Hl Hd).
    - by destruct (H NDead).
    - destruct H as [H _]. by destruct (H NDead).
    - destruct H as [_ [H|H]]; [by apply not_elem_of_empty in H|done]. }
  destruct Hs as [Hs Hfl]. split_and!; [|done|done].
  assert (HTm : free_node Q (NTm t)).
  { destruct (W_timer _ _ _ _ _ _ HW t Ht) as [[[Hb|Hb] _]|(_ & ? & _)]; [| |done].
    - by apply not_elem_of_empty in Hb.
    - unfold timer_of in Hfl. rewrite Hfl in Hb. done. }
  assert (HW1 : kwf {[t]} ∅ (upd_lk (fun L => rt_list_remove L (NT t)) k) (q_del Q (NT t))).
  { apply kwf_unlink; [|done|sets|].
    - eapply kwf_weaken; [..|exact HW]; sets.
    - intros p Hp Hi. by pose proof (qwf_disj _ _ (W_q _ _ _ _ _ _ HW) _ _ _ Hl Hp Hd Hi). }
  assert (Hex : forall u, ex reclaim_queues u <-> u ≠ t /\ ex Q u).
  { intros u. unfold reclaim_queues, ex. rewrite !elem_of_q_del.
    split; [intros (H1 & _ & H2); split; congruence|intros [H1 H2]; split_and!; congruence]. }
  split.
  - apply kwf_drop; [exact HW1|by rewrite ex_del_T|apply free_q_del|].
    eapply moved_free; [apply moved_del|done|done].
  - destruct HC as (H1 & H2 & H3). unfold kcur.
    destruct (upd_lk_fields (fun L => rt_list_remove L (NA t))
                (upd_lk (fun L => rt_list_remove L (NT t)) k)) as (ET & EC & _).
    fold reclaimed in ET, EC. unfold statu_of in *. rewrite EC, ET. simpl.
    rewrite Hex. split_and!; [congruence|done|done|].
    intros u [Hne Hu]%Hex. auto.
  - intros u [_ Hu]%Hex. by rewrite <- (HS u Hu).
Qed.
End Reclaim.

(** The blocks freed for the closed threads of [l]: each thread's stack, then its
    record. *)
Definition frees_of (k : kernel) (l : list node) : list Z :=
  flat_map (fun n => match n with NT t => [stack_addr (thr k t); t] | _ => [] end) l.

Lemma reclaim_dead (Q : queues) (t : Z) (l : list node) :
  NoDup (NT t :: l) -> Q NDead = NT t :: l -> NA t ∉ Q NDead ->
  reclaim_queues Q t NDead = l.
Proof.
  intros Hnd EQ Hna. unfold reclaim_queues. rewrite EQ in Hna.
  apply NoDup_cons in Hnd as [Hn _]. apply not_elem_of_cons in Hna as [_ Hna].
  assert (E : q_del Q (NT t) NDead = l).
  { unfold q_del; simpl. rewrite EQ, filter_cons_False by (intros Hx; by apply Hx).
    by apply filter_ne_notin. }
  unfold q_del at 1; cbn [q_seq]. rewrite E. by apply filter_ne_notin.
Qed.

Lemma idle_clean_good (l : list node) : forall fuel k Q,
  kgood ∅ k Q -> statu_of k (rt_current_thread k) ≠ RT_THREAD_CLOSE ->
  Q NDead = l -> (length l < fuel)%nat ->
  exists k' Q', idle_clean fuel (hd NDead l) (nxt (lk k) (hd NDead l)) k = Some (k', frees_of k l) /\
    kgood ∅ k' Q' /\ Q' NDead = [] /\ thr k' = thr k /\
    rt_current_thread k' = rt_current_thread k /\
    (forall u, ex Q' u <-> ex Q u /\ NT u ∉ l).
Proof.
  induction l as [|n l IH]; intros fuel k Q HG Hc EQ Hf;
    (destruct fuel as [|fuel]; [simpl in Hf; lia|]).
  { exists k, Q. split_and!; try done. intros u. set_solver. }
  pose proof (kg_wf _ _ _ HG) as HW.
  assert (Hl : live Q NDead = true) by by apply HW.
  assert (Hi : n ∈ Q NDead) by (rewrite EQ; set_solver).
  destruct (W_home _ _ _ _ _ _ HW NDead n Hl eq_refl Hi) as (t & -> & _).
  destruct (reclaim_good k Q t HG Hi Hc) as (HG1 & Ht & Hs).
  assert (Hnd : NoDup (NT t :: l)) by (rewrite <- EQ; by eapply qwf_NoDup; [apply HW|]).
  assert (EQ1 : reclaim_queues Q t NDead = l).
  { apply reclaim_dead; [done|done|]. intros Hx.
    destruct (W_home _ _ _ _ _ _ HW NDead _ Hl eq_refl Hx) as (? & ? & _). done. }
  destruct (upd_lk_fields (fun L => rt_list_remove L (NT t)) k) as (ET0 & EC0 & _).
  destruct (upd_lk_fields (fun L => rt_list_remove L (NA t))
              (upd_lk (fun L => rt_list_remove L (NT t)) k)) as (ET & EC & _).
  fold (reclaimed k t) in ET, EC. rewrite ET0 in ET. rewrite EC0 in EC.
  destruct (IH fuel (reclaimed k t) (reclaim_queues Q t) HG1) as (k' & Q' & E & HG' & E1 & E2 & E3 & E4).
  { unfold statu_of. by rewrite EC, ET. }
  { exact EQ1. }
  { simpl in Hf; lia. }
  exists k', Q'. split_and!; [|done|done|congruence|congruence|].
  - cbn [hd idle_clean tlist_entry]. rewrite decide_False by done.
    rewrite (qwf_next_in _ _ NDead (NT t) [] l (W_q _ _ _ _ _ _ HW) Hl EQ).
    fold (reclaimed k t). rewrite E.
    unfold statu_of in *. rewrite ET, Hs. rewrite bool_decide_true by done.
    unfold frees_of. cbn [flat_map]. by rewrite ET.
  - intros u. rewrite E4. unfold ex, reclaim_queues. rewrite !elem_of_q_del, not_elem_of_cons.
    split; [intros ((H1 & _ & H2) & H3); split_and!; congruence|].
    intros (H1 & H2 & H3). split_and!; congruence.
Qed.

(** ** Start-up *)

Definition boot_queues : queues := Queues kernel_head (fun _ => []).

Lemma init_heads_app (l1 l2 : list node) (k : kernel) :
  init_heads (l1 ++ l2) k = init_heads l2 (init_heads l1 k).
Proof. revert k. induction l1 as [|h l1 IH]; intros k; [done|]. apply IH. Qed.

Lemma init_heads_fields (l : list node) (k : kernel) :
  thr (init_heads l k) = thr k /\ rt_current_thread (init_heads l k) = rt_current_thread k.
Proof. revert k. induction l as [|h l IH]; intros k; [done|]. simpl. by rewrite !(proj1 (IH _)), !(proj2 (IH _)). Qed.

Lemma init_heads_self (l : list node) : forall k h, h ∈ l \/ self (lk k) h ->
  self (lk (init_heads l k)) h.
Proof.
  induction l as [|x l IH]; intros k h Hh; [by destruct Hh as [?%elem_of_nil|]|].
  apply IH. destruct Hh as [[->|Hh]%elem_of_cons|Hh]; [|by left|]; right; simpl.
  - apply init_self.
  - by apply self_init.
Qed.

Lemma self_ring (L : links) (h : node) : self L h -> ring L h [].
Proof. intros [H1 H2]. split; [by split|]. apply NoDup_singleton. Qed.

(** [thread_init] establishes the invariant, whatever memory held before. *)
Lemma thread_init_boot (k : kernel) : rt_current_thread k = NULL ->
  kboot (thread_init k) boot_queues.
Proof.
  intros Hc. unfold thread_init.
  set (k1 := init_heads (map NReady (seqZ 0 RT_THREAD_PRIORITY_MAX)) k).
  set (kb := init_heads [NDead; NAll; NTimers] k1).
  assert (Hs : forall h, kernel_head h = true -> self (lk kb) h).
  { intros h Hh. apply init_heads_self. destruct h; try done; try (left; set_solver). right.
    apply init_heads_self. left. apply list_elem_of_In, in_map, list_elem_of_In, elem_of_seqZ.
    simpl in Hh. lia. }
  assert (Hk : rt_current_thread kb = NULL).
  { unfold kb, k1. by rewrite !(proj2 (init_heads_fields _ _)). }
  clearbody kb.
  split.
  - split; simpl.
    + split; simpl.
      * intros h Hh. by apply self_ring, Hs.
      * intros h1 h2 n _ _ []%elem_of_nil.
      * intros h n _ []%elem_of_nil.
      * by intros [].
    + done.
    + intros p Hp. lia.
    + intros n []%elem_of_nil.
    + intros n []%elem_of_nil.
    + intros h n _ _ []%elem_of_nil.
    + intros t []%elem_of_nil.
    + split; [simpl; lia|]. intros p Hp. simpl. apply Z.bits_0.
    + intros t []%elem_of_nil.
    + intros t []%elem_of_nil.
    + intros t []%elem_of_nil.
  - intros t []%elem_of_nil.
  - exact Hk.
  - intros t []%elem_of_nil.
Qed.

(** The state of the processor at the first thread. *)
Definition started (to : Z) (k : kernel) : kernel :=
  upd_thr to (t_statu RT_THREAD_RUNNING)
    (rt_schedule_remove_thread to (set_current to (rt_current_priority k) k)).

Lemma start_good (k : kernel) (Q : queues) : kboot k Q ->
  rt_thread_ready_priority_group k ≠ 0 ->
  exists p to rest, 0 <= p < 32 /\ Q (NReady p) = NT to :: rest /\
    (forall q, 0 <= q < p -> Q (NReady q) = []) /\
    thread_start k = SSwitch (started to k) NULL to /\
    kgood ∅ (started to k) (q_del Q (NT to)) /\
    rt_current_thread (started to k) = to /\ statu_of (started to k) to = RT_THREAD_RUNNING.
Proof.
  intros [HW HS HI HR] Hg.
  destruct (highest_ready _ _ _ HW Hg) as (p & to & rest & Hp & Eh & EQ & Hl & Hto & Ep & Hs).
  set (k1 := set_current to (rt_current_priority k) k).
  destruct (remove_thread_fields to k1) as (ET & _ & _ & EC & _).
  assert (HW1 : kwf {[to]} ∅ k1 Q) by (eapply kwf_weaken; [..|exact HW]; sets).
  pose proof (kwf_remove_thread _ _ _ _ HW1 to Hto (sing_in to)) as HW2.
  assert (Et : thr (started to k) = fupd (thr k) to (t_statu RT_THREAD_RUNNING (thr k to))).
  { unfold started. fold k1. change (thr (upd_thr to (t_statu RT_THREAD_RUNNING)
      (rt_schedule_remove_thread to k1))) with (fupd (thr (rt_schedule_remove_thread to k1)) to
      (t_statu RT_THREAD_RUNNING (thr (rt_schedule_remove_thread to k1) to))). by rewrite ET. }
  assert (Ec : rt_current_thread (started to k) = to).
  { unfold started. fold k1. exact EC. }
  assert (Hst : statu_of (started to k) to = RT_THREAD_RUNNING).
  { unfold statu_of. by rewrite Et, fupd_eq. }
  exists p, to, rest. split_and!; try done; try lia.
  - unfold thread_start. by rewrite Eh.
  - split.
    + rewrite (sing_diff to) at 1. apply kwf_settle.
      * apply (kwf_thr _ _ (thr (rt_schedule_remove_thread to k1)));
          [exact HW2|done|done|right; sets|by left].
      * intros _. unfold status_ok, timer_idle. rewrite Et, fupd_eq.
        cbn [statu t_statu thread_timer]. split; [apply free_q_del|right].
        pose proof (W_status _ _ _ _ _ _ HW to Hto (not_elem_of_empty to)) as H.
        unfold status_ok, statu_of, timer_idle in *. rewrite Hs in H.
        destruct H as [_ [H|H]]; [by apply not_elem_of_empty in H|done].
    + unfold kcur. rewrite Ec, ex_del_T, Hst. split_and!; [done..|].
      intros u. rewrite ex_del_T. unfold statu_of. rewrite Et. intros Hu.
      destruct (decide (u = to)) as [|Hne]; [done|]. rewrite fupd_ne by done.
      intros Hr. by destruct (HR u Hu).
    + apply (stacks_ok_thr k Q); [done|by intros u; rewrite ex_del_T|].
      intros u. rewrite Et. unfold fupd. by case_decide; subst.
Qed.
