(* ===== verification/Ipc.v ===== *)
(** * Semaphores and mailboxes (os/thread.c)

    A call that blocks is the code up to its [rt_schedule] and, as a second
    function, the code from there on, which runs when the thread is switched in
    again.  Semaphores and mailboxes are keyed by their addresses; a counted value
    is kept in [sem_value], a mailbox's ring in [mbox]. *)

From S2P Require Import Prelude Bits RtList Kernel KernelInv Sched ThreadOps Lifecycle.

(** ** Outcomes *)

(** [ISched r ret]: the call is in [rt_schedule], with result [r], and returns
    [ret k] when it goes on in kernel [k]. *)
Inductive ipc_result :=
  | IDone (ret : Z) (k : kernel)
  | ISched (r : sched_result) (ret : kernel -> Z)
  | IAssert.                          (* a failed RT_ASSERT: an endless loop *)

(** The check [RT_DEBUG_IN_THREAD_CONTEXT] passes. *)
Definition in_thread_context (k : kernel) : bool :=
  let '(level, k) := rt_hw_interrupt_disable k in
  negb (rt_current_thread k =? NULL) && (fst (rt_interrupt_get_nest k) =? 0).

(** [thread->error] of a call that was resumed. *)
Definition resumed_error (t : Z) (k : kernel) : Z :=
  if negb (error (thr k t) =? RT_EOK) then error (thr k t) else RT_EOK.

Definition ret_ok (k : kernel) : Z := RT_EOK.

(** ** Semaphores *)

Definition rt_sem_init (s value : Z) (k : kernel) : Z * kernel :=
  let k := upd_lk (fun L => rt_list_init L (NSem s)) k in
  (RT_EOK, set_sem s (u16 value) k).

(** [rt_thread_suspend], then the tail of the waiting list, then the timer. *)
Definition block_on (h : node) (t time : Z) (k : kernel) : kernel :=
  let '(_, k) := rt_thread_suspend t RT_THREAD_SUSPEND k in
  let k := upd_lk (fun L => rt_list_insert_before L h (NT t)) k in
  if time >? 0 then
    let k := upd_thr t (t_timer (tm_init_tick (u32 time))) k in
    snd (rt_timer_start t k)
  else k.

Definition rt_sem_take (s time : Z) (k : kernel) : ipc_result :=
  let '(temp, k) := rt_hw_interrupt_disable k in
  if sem_value k s >? 0 then
    IDone RT_EOK (rt_hw_interrupt_enable temp (set_sem s (u16 (sem_value k s - 1)) k))
  else if time =? 0 then IDone (- RT_ETIMEOUT) (rt_hw_interrupt_enable temp k)
  else if negb (in_thread_context k) then IAssert
  else
    let thread := rt_current_thread k in
    let k := upd_thr thread (t_error RT_EOK) k in
    let k := block_on (NSem s) thread time k in
    ISched (rt_schedule (rt_hw_interrupt_enable temp k)) (resumed_error thread).

Definition rt_sem_release (s : Z) (k : kernel) : ipc_result :=
  let '(temp, k) := rt_hw_interrupt_disable k in
  if negb (rt_list_isempty (lk k) (NSem s)) then
    match tlist_entry (nxt (lk k) (NSem s)) with
    | None => ISched SWild ret_ok
    | Some thread =>
        let '(_, k) := rt_thread_resume thread k in
        ISched (rt_schedule (rt_hw_interrupt_enable temp k)) ret_ok
    end
  else
    IDone RT_EOK (rt_hw_interrupt_enable temp (set_sem s (u16 (sem_value k s + 1)) k)).

(** [rt_list_for_each_entry_safe] over a waiting list, resuming each thread. *)
Fixpoint resume_all (fuel : nat) (h pos n : node) (k : kernel) : option kernel :=
  match fuel with
  | O => None
  | S fuel =>
      if decide (pos = h) then Some k
      else match tlist_entry pos with
      | None => None
      | Some threadP =>
          let '(_, k) := rt_thread_resume threadP k in
          resume_all fuel h n (nxt (lk k) n) k
      end
  end.

Definition resume_list (fuel : nat) (h : node) (k : kernel) : option kernel :=
  let pos := nxt (lk k) h in resume_all fuel h pos (nxt (lk k) pos) k.

Definition rt_sem_detach (fuel : nat) (s : Z) (k : kernel) : option (Z * kernel) :=
  let '(temp, k) := rt_hw_interrupt_disable k in
  match resume_list fuel (NSem s) k with
  | Some k => Some (RT_EOK, rt_hw_interrupt_enable temp k)
  | None => None
  end.

Section IpcHeap.
Context {H : Type} `{Allocator H}.

Definition SIZEOF_RT_SEMAPHORE : Z := 16.
Definition SIZEOF_RT_MAILBOX : Z := 32.

(** [None]: an assertion failed, [malloc] or [free] did not return, or the block was
    cleared before its test and the test fails: [memset(NULL, ...)]. *)
Definition rt_sem_create (value : Z) (k : kernel) (h : H) : option (Z * kernel * H) :=
  if negb (value <? 0x10000) then None
  else match malloc SIZEOF_RT_SEMAPHORE h with
  | None => None
  | Some (sem, h) =>
      if sem =? NULL then None
      else
        let k := upd_lk (fun L => rt_list_init L (NSem sem)) k in
        Some (sem, set_sem sem (u16 value) k, h)
  end.

Definition rt_sem_delete (fuel : nat) (s : Z) (k : kernel) (h : H) : option (Z * kernel * H) :=
  if s =? NULL then None
  else match resume_list fuel (NSem s) k with
  | None => None
  | Some k => match free s h with
              | None => None
              | Some h => Some (RT_EOK, k, h)
              end
  end.

(** ** Mailboxes *)

Definition mb_lists_init (m : Z) (k : kernel) : kernel :=
  upd_lk (fun L => rt_list_init (rt_list_init L (NMbRecv m)) (NMbSend m)) k.

(** [pool] is what the message buffer holds. *)
Definition rt_mb_init (m size : Z) (pool : list Z) (k : kernel) : option (Z * kernel) :=
  if m =? NULL then None
  else Some (RT_EOK, set_mbox m (RtMailbox pool (u16 size) 0 0 0) (mb_lists_init m k)).

(** [pool] is what the buffer's memory holds when it is allocated.  When it cannot be
    allocated the mailbox block itself is not given back. *)
Definition rt_mb_create (size : Z) (pool : list Z) (k : kernel) (h : H)
    : option (Z * kernel * H) :=
  if negb (fst (rt_interrupt_get_nest k) =? 0) then None
  else match malloc SIZEOF_RT_MAILBOX h with
  | None => None
  | Some (mb, h) =>
      if mb =? NULL then Some (NULL, k, h)
      else
        let k1 := upd_lk (fun L => rt_list_init L (NMbRecv mb)) k in
        match malloc (u32 (u16 size * 4)) h with
        | None => None
        | Some (buf, h) =>
            if buf =? NULL then Some (NULL, k1, h)
            else Some (mb, set_mbox mb (RtMailbox pool (u16 size) 0 0 0) (mb_lists_init mb k), h)
        end
  end.

(** [buf] is the address in [mb->msg_pool]. *)
Definition rt_mb_delete (fuel : nat) (m buf : Z) (k : kernel) (h : H) : option (Z * kernel * H) :=
  if negb (fst (rt_interrupt_get_nest k) =? 0) || (m =? NULL) then None
  else match resume_list fuel (NMbRecv m) k with
  | None => None
  | Some k => match resume_list fuel (NMbSend m) k with
    | None => None
    | Some k => match free buf h with
      | None => None
      | Some h => match free m h with
                  | None => None
                  | Some h => Some (RT_EOK, k, h)
                  end
      end
    end
  end.
End IpcHeap.

Definition mb_full (b : rt_mailbox) : bool := mb_entry b =? mb_size b.
Definition mb_empty (b : rt_mailbox) : bool := mb_entry b =? 0.

(** An offset one further on, cyclically. *)
Definition mb_advance (size off : Z) : Z :=
  let off := u16 (off + 1) in if off >=? size then 0 else off.

Definition mb_put (value : Z) (b : rt_mailbox) : rt_mailbox :=
  RtMailbox (<[Z.to_nat (in_offset b) := value]> (msg_pool b)) (mb_size b)
    (u16 (mb_entry b + 1)) (mb_advance (mb_size b) (in_offset b)) (out_offset b).

Definition mb_get (b : rt_mailbox) : Z * rt_mailbox :=
  (znth 0 (msg_pool b) (out_offset b),
   RtMailbox (msg_pool b) (mb_size b) (u16 (mb_entry b - 1)) (in_offset b)
     (mb_advance (mb_size b) (out_offset b))).

(** [MBlock r timeout start]: waiting in [rt_schedule], with the local variables the
    rest of the loop uses. *)
Inductive mb_result :=
  | MDone (ret value : Z) (k : kernel)
  | MSched (r : sched_result) (value : Z)
  | MBlock (r : sched_result) (timeout start : Z)
  | MAssert.

(** The loop test of [rt_mb_send_wait] and what follows it. *)
Definition mb_send_body (m value timeout thread : Z) (temp : bool) (k : kernel) : mb_result :=
  if mb_full (mbox k m) then
    let k := upd_thr thread (t_error RT_EOK) k in
    if timeout =? 0 then MDone (- RT_EFULL) 0 (rt_hw_interrupt_enable temp k)
    else if negb (in_thread_context k) then MAssert
    else
      let start := if timeout >? 0 then system_tick k else 0 in
      let k := block_on (NMbSend m) thread timeout k in
      MBlock (rt_schedule (rt_hw_interrupt_enable temp k)) timeout start
  else
    let k := set_mbox m (mb_put value (mbox k m)) k in
    if negb (rt_list_isempty (lk k) (NMbRecv m)) then
      match tlist_entry (nxt (lk k) (NMbRecv m)) with
      | None => MSched SWild 0
      | Some thread =>
          let '(_, k) := rt_thread_resume thread k in
          MSched (rt_schedule (rt_hw_interrupt_enable temp k)) 0
      end
    else MDone RT_EOK 0 (rt_hw_interrupt_enable temp k).

Definition rt_mb_send_wait (m value timeout : Z) (k : kernel) : mb_result :=
  if m =? NULL then MAssert
  else
    let thread := rt_current_thread k in
    if thread =? NULL then MDone (- RT_ERROR) 0 k
    else
      let '(temp, k) := rt_hw_interrupt_disable k in
      if mb_full (mbox k m) && (timeout =? 0) then
        MDone (- RT_EFULL) 0 (rt_hw_interrupt_enable temp k)
      else mb_send_body m value timeout thread temp k.

Definition rt_mb_send (m value : Z) (k : kernel) : mb_result := rt_mb_send_wait m value 0 k.

(** The loop of [rt_mb_send_wait] after a wait; [timeout] is an [int]. *)
Definition mb_send_continue (m value timeout start thread : Z) (k : kernel) : mb_result :=
  if negb (error (thr k thread) =? RT_EOK) then MDone (error (thr k thread)) 0 k
  else
    let '(temp, k) := rt_hw_interrupt_disable k in
    let timeout :=
      if timeout >? 0 then
        let t := s32 (timeout - (system_tick k -u start)) in if t <? 0 then 0 else t
      else timeout in
    mb_send_body m value timeout thread temp k.

Definition mb_recv_body (m timeout thread : Z) (temp : bool) (k : kernel) : mb_result :=
  if mb_empty (mbox k m) then
    let k := upd_thr thread (t_error RT_EOK) k in
    if timeout =? 0 then
      MDone (- RT_ETIMEOUT) 0
        (upd_thr thread (t_error (- RT_ETIMEOUT)) (rt_hw_interrupt_enable temp k))
    else if negb (in_thread_context k) then MAssert
    else
      let start := system_tick k in
      let k := block_on (NMbRecv m) thread timeout k in
      MBlock (rt_schedule (rt_hw_interrupt_enable temp k)) timeout start
  else
    let '(value, b) := mb_get (mbox k m) in
    let k := set_mbox m b k in
    if negb (rt_list_isempty (lk k) (NMbSend m)) then
      match tlist_entry (nxt (lk k) (NMbSend m)) with
      | None => MSched SWild value
      | Some thread =>
          let k := upd_lk (fun L => rt_list_remove L (NT thread)) k in
          let '(_, k) := rt_timer_stop thread k in
          let k := rt_schedule_insert_thread thread k in
          MSched (rt_schedule (rt_hw_interrupt_enable temp k)) value
      end
    else MDone RT_EOK value (rt_hw_interrupt_enable temp k).

(** [timeout] is unsigned here: it is never negative. *)
Definition rt_mb_recv (m timeout : Z) (k : kernel) : mb_result :=
  if m =? NULL then MAssert
  else
    let thread := rt_current_thread k in
    if thread =? NULL then MDone (- RT_ERROR) 0 k
    else
      let '(temp, k) := rt_hw_interrupt_disable k in
      if mb_empty (mbox k m) && (timeout =? 0) then
        MDone (- RT_ETIMEOUT) 0 (rt_hw_interrupt_enable temp k)
      else mb_recv_body m timeout thread temp k.

Definition mb_recv_continue (m timeout start thread : Z) (k : kernel) : mb_result :=
  if negb (error (thr k thread) =? RT_EOK) then MDone (error (thr k thread)) 0 k
  else
    let '(temp, k) := rt_hw_interrupt_disable k in
    let timeout := if timeout >? 0 then timeout -u (system_tick k -u start) else timeout in
    mb_recv_body m timeout thread temp k.
