(* ===== verification/IpcInv.v ===== *)
(** * Semaphores and mailboxes: correctness

    Blocking puts the caller at the tail of a waiting list and keeps the kernel
    invariant; a release hands over to the head of the list; the ring of a mailbox
    is a bounded queue. *)

From S2P Require Import Prelude Bits RtList Kernel KernelInv Sched ThreadOps Lifecycle Ipc.

(** ** Blocking *)

Lemma upd_lk_ipc (f : links -> links) (k : kernel) :
  sem_value (upd_lk f k) = sem_value k /\ mbox (upd_lk f k) = mbox k.
Proof. done. Qed.

Lemma enqueue_good (k : kernel) (Q : queues) (h : node) (t : Z) :
  kgood ∅ k Q -> ex Q t -> live Q h = true -> is_wait h = true ->
  statu_of k t = RT_THREAD_SUSPEND -> free_node Q (NT t) ->
  kgood ∅ (upd_lk (fun L => rt_list_insert_before L h (NT t)) k) (q_append Q h (NT t)).
Proof.
  intros [HW HC HS] Ht Hl Hw Hs Hf. split.
  - rewrite (sing_diff t) at 1. apply kwf_settle.
    + apply kwf_enqueue; [|done|sets|done|done|done].
      eapply kwf_weaken; [..|exact HW]; sets.
    + intros _. unfold status_ok. unfold statu_of in Hs. simpl. rewrite Hs.
      intros h' Hl' Hi. destruct (decide (h' = h)) as [->|Hne]; [done|].
      unfold q_append in Hi. cbn in Hi. rewrite fupd_ne in Hi by done. by destruct (Hf h').
  - unfold kcur. setoid_rewrite ex_append_T. exact HC.
  - intros u. rewrite ex_append_T. apply HS.
Qed.

Definition block_queues (Q : queues) (h : node) (t time : Z) : queues :=
  let q := q_append (q_del Q (NT t)) h (NT t) in
  if time >? 0 then q_prepend q NTimers (NTm t) else q.

Lemma ex_block (Q : queues) (h : node) (t time u : Z) :
  ex (block_queues Q h t time) u <-> ex Q u.
Proof.
  unfold block_queues. destruct (time >? 0); rewrite ?ex_prepend_Tm, ex_append_T; apply ex_del_T.
Qed.

(** A queue that does not hold the caller is only lengthened at [h]. *)
Lemma block_queues_at (Q : queues) (h : node) (t time : Z) :
  h ≠ NTimers -> NT t ∉ Q h -> block_queues Q h t time h = Q h ++ [NT t].
Proof.
  intros Hh Hi. unfold block_queues, q_prepend, q_append.
  assert (E : q_set (q_del Q (NT t)) h (q_del Q (NT t) h ++ [NT t]) h = Q h ++ [NT t]).
  { rewrite q_set_eq. by rewrite q_del_same. }
  destruct (time >? 0); [|done]. by rewrite q_set_ne.
Qed.

(** [block_on] of a thread that can be suspended. *)
Definition block_eq (h : node) (t time : Z) (k1 : kernel) : kernel :=
  let k := upd_lk (fun L => rt_list_insert_before L h (NT t)) (suspended k1 t RT_THREAD_SUSPEND) in
  if time >? 0 then snd (rt_timer_start t (upd_thr t (t_timer (tm_init_tick (u32 time))) k))
  else k.

Lemma block_eq_ie (h : node) (t time : Z) (k : kernel) (b : bool) :
  block_eq h t time (set_ie b k) = set_ie b (block_eq h t time k).
Proof.
  unfold block_eq. rewrite suspended_ie, upd_lk_ie. destruct (time >? 0); [|reflexivity].
  by rewrite upd_thr_ie, timer_start_ie.
Qed.

Lemma block_on_eq (k1 : kernel) (Q : queues) (h : node) (t time : Z) :
  kgood ∅ k1 Q -> ex Q t -> awake (statu_of k1 t) = true ->
  block_on h t time k1 = block_eq h t time k1.
Proof.
  intros HG Ht Ha. unfold block_on, block_eq.
  by rewrite (rt_thread_suspend_eq k1 Q HG t Ht RT_THREAD_SUSPEND Ha).
Qed.

Section Block.
Context (k : kernel) (Q : queues) (HG : kgood ∅ k Q) (h : node) (time : Z).
Context (Hl : live Q h = true) (Hw : is_wait h = true).

Definition blocked (t : Z) : kernel :=
  block_on h t time (upd_thr t (t_error RT_EOK) k).

Lemma block_good : let t := rt_current_thread k in
  statu_of k t = RT_THREAD_RUNNING ->
  kgood ∅ (blocked t) (block_queues Q h t time) /\
  statu_of (blocked t) t = RT_THREAD_SUSPEND /\ error (thr (blocked t) t) = RT_EOK /\
  rt_current_thread (blocked t) = t /\ ie (blocked t) = ie k /\
  rt_interrupt_nest (blocked t) = rt_interrupt_nest k /\
  sem_value (blocked t) = sem_value k /\ mbox (blocked t) = mbox k /\
  (time > 0 -> timeout_tick (timer_of (blocked t) t) = system_tick k +u u32 time).
Proof.
  intros t Hr. pose proof HG as [_ (Ht & _) _]. fold t in Ht.
  set (k1 := upd_thr t (t_error RT_EOK) k).
  assert (HG1 : kgood ∅ k1 Q) by by apply kgood_thr.
  assert (E1 : thr k1 t = t_error RT_EOK (thr k t)) by exact (fupd_eq (thr k) t _).
  assert (Ha : awake (statu_of k1 t) = true).
  { unfold statu_of in *. rewrite E1. cbn [statu t_error]. by rewrite Hr. }
  destruct (suspend_good k1 Q HG1 t Ht RT_THREAD_SUSPEND Ha (or_intror eq_refl)) as [HG2 ET].
  destruct (suspended_fields t RT_THREAD_SUSPEND k1) as (ES2 & EM2 & EC2 & EN2 & EK2 & EI2).
  assert (Eb : blocked t = block_eq h t time k1).
  { unfold blocked. fold k1. by apply (block_on_eq k1 Q). }
  rewrite Eb. clear Eb. unfold block_eq. set (k2 := suspended k1 t RT_THREAD_SUSPEND) in *.
  assert (E2 : thr k2 t = t_statu RT_THREAD_SUSPEND (t_error RT_EOK (thr k t))).
  { rewrite ET, fupd_eq. by rewrite E1. }
  assert (Hs2 : statu_of k2 t = RT_THREAD_SUSPEND) by (unfold statu_of; by rewrite E2).
  assert (HG3 := enqueue_good k2 _ h t HG2 (proj2 (ex_del_T _ _ _) Ht) Hl Hw Hs2 (free_q_del _ _)).
  destruct (upd_lk_fields (fun L => rt_list_insert_before L h (NT t)) k2) as (ET3 & EC3 & EN3 & EK3 & EI3).
  pose proof (upd_lk_ipc (fun L => rt_list_insert_before L h (NT t)) k2) as EX3.
  set (k3 := upd_lk _ k2) in *. clearbody k3. destruct EX3 as [ES3 EM3].
  assert (Efin : statu_of k3 t = RT_THREAD_SUSPEND /\ error (thr k3 t) = RT_EOK /\
    rt_current_thread k3 = t /\ ie k3 = ie k /\ rt_interrupt_nest k3 = rt_interrupt_nest k /\
    sem_value k3 = sem_value k /\ mbox k3 = mbox k /\ system_tick k3 = system_tick k).
  { destruct (upd_thr_fields t (t_error RT_EOK) k) as (X1 & X2 & X3 & X4 & X5 & X6).
    fold k1 in X1, X2, X3, X4, X5, X6. unfold statu_of in *. rewrite ET3, E2.
    rewrite EC3, EC2, EI3, EI2, EN3, EN2, ES3, ES2, EM3, EM2, EK3, EK2. done. }
  destruct Efin as (F1 & F2 & F3 & F4 & F5 & F6 & F7 & F8).
  unfold block_queues. destruct (Z.gtb_spec time 0) as [Hti|Hti].
  2: { split_and!; done. }
  assert (HG4 : kgood ∅ (upd_thr t (t_timer (tm_init_tick (u32 time))) k3)
                  (q_append (q_del Q (NT t)) h (NT t))) by by apply kgood_thr.
  assert (E4 : thr (upd_thr t (t_timer (tm_init_tick (u32 time))) k3) t
               = t_timer (tm_init_tick (u32 time)) (thr k3 t)) by exact (fupd_eq (thr k3) t _).
  destruct (upd_thr_fields t (t_timer (tm_init_tick (u32 time))) k3) as (X1 & X2 & X3 & X4 & X5 & X6).
  set (k4 := upd_thr t _ k3) in *. clearbody k4.
  destruct (timer_start_good k4 _ t HG4) as [HG5 Eto].
  { by rewrite ex_append_T, ex_del_T. }
  { unfold timer_of. rewrite E4, ET3, E2.
    apply (awake_timer k Q HG t Ht). by rewrite Hr. }
  { right. unfold statu_of. by rewrite E4. }
  destruct (timer_start_fields t k4) as (Y1 & Y2 & Y3 & Y4 & Y5 & Y6).
  assert (E5 : exists tm, thr (snd (rt_timer_start t k4)) t = t_timer (fun _ => tm) (thr k4 t)).
  { eexists. simpl. by rewrite !fupd_eq. }
  destruct E5 as [tm E5]. split_and!; try done; try congruence.
  - unfold statu_of. rewrite E5, E4. exact F1.
  - rewrite E5, E4. exact F2.
  - intros _. rewrite Eto. unfold timer_of. rewrite E4. cbn. congruence.
Qed.
Lemma blocked_ie : let t := rt_current_thread k in
  statu_of k t = RT_THREAD_RUNNING ->
  set_ie (ie k) (block_on h t time (upd_thr t (t_error RT_EOK) (set_ie false k))) = blocked t.
Proof.
  intros t Hr. pose proof HG as [_ (Ht & _) _]. fold t in Ht.
  destruct (block_good Hr) as (_ & _ & _ & _ & EI & _). fold t in EI.
  unfold blocked in *. rewrite upd_thr_ie.
  set (k1 := upd_thr t (t_error RT_EOK) k) in *.
  assert (HG1 : kgood ∅ k1 Q) by by apply kgood_thr.
  assert (E1 : thr k1 t = t_error RT_EOK (thr k t)) by exact (fupd_eq (thr k) t _).
  assert (Ha : awake (statu_of k1 t) = true).
  { unfold statu_of in *. rewrite E1. cbn [statu t_error]. by rewrite Hr. }
  rewrite (block_on_eq _ Q h t time (kgood_ie _ _ _ false HG1) Ht Ha), block_eq_ie.
  rewrite (block_on_eq k1 Q h t time HG1 Ht Ha) in EI |- *.
  rewrite set_ie_twice. by apply set_ie_id.
Qed.
End Block.

(** ** Semaphore operations *)

Section SemTake.
Context (k : kernel) (Q : queues) (HG : kgood ∅ k Q) (s : Z).

Lemma set_sem_good (v : Z) : kgood ∅ (set_sem s v k) Q.
Proof. destruct HG. by split. Qed.

Lemma sem_take_now (time : Z) : 0 < sem_value k s < 2 ^ 16 ->
  rt_sem_take s time k = IDone RT_EOK (set_sem s (sem_value k s - 1) k).
Proof.
  intros Hv. unfold rt_sem_take, rt_hw_interrupt_disable, rt_hw_interrupt_enable.
  change (sem_value (set_ie false k) s) with (sem_value k s).
  assert (E : (sem_value k s >? 0) = true) by lia. rewrite E.
  rewrite u16_small by lia. reflexivity.
Qed.

Lemma sem_take_poll : sem_value k s = 0 -> rt_sem_take s 0 k = IDone (- RT_ETIMEOUT) k.
Proof.
  intros Hv. unfold rt_sem_take, rt_hw_interrupt_disable, rt_hw_interrupt_enable.
  change (sem_value (set_ie false k) s) with (sem_value k s). rewrite Hv.
  cbn [Z.gtb Z.compare Z.eqb]. rewrite set_ie_twice. by rewrite set_ie_id.
Qed.

(** With no unit left the caller waits at the tail of the semaphore's list. *)
Lemma sem_take_wait (time : Z) : sem_value k s = 0 -> time <> 0 ->
  live Q (NSem s) = true -> statu_of k (rt_current_thread k) = RT_THREAD_RUNNING ->
  rt_current_thread k <> NULL -> rt_interrupt_nest k = 0 ->
  let t := rt_current_thread k in
  rt_sem_take s time k =
    ISched (rt_schedule (blocked k (NSem s) time t)) (resumed_error t) /\
  kgood ∅ (blocked k (NSem s) time t) (block_queues Q (NSem s) t time) /\
  block_queues Q (NSem s) t time (NSem s) = Q (NSem s) ++ [NT t] /\
  statu_of (blocked k (NSem s) time t) t = RT_THREAD_SUSPEND.
Proof.
  intros Hv Ht Hl Hr Hc Hn t.
  destruct (block_good k Q HG (NSem s) time Hl eq_refl Hr) as (HG' & Hst & _ & _ & EI & _).
  split_and!; [|exact HG'| |exact Hst].
  - unfold rt_sem_take, rt_hw_interrupt_disable, rt_hw_interrupt_enable.
    change (sem_value (set_ie false k) s) with (sem_value k s). rewrite Hv.
    cbn [Z.gtb Z.compare]. rewrite (proj2 (Z.eqb_neq _ _) Ht).
    assert (Ec : in_thread_context (set_ie false k) = true).
    { unfold in_thread_context, rt_hw_interrupt_disable, rt_interrupt_get_nest. simpl.
      rewrite Hn. by rewrite (proj2 (Z.eqb_neq _ _) Hc). }
    rewrite Ec. cbn [negb]. f_equal. f_equal.
    change (rt_current_thread (set_ie false k)) with t. by apply (blocked_ie k Q HG).
  - apply block_queues_at; [done|]. intros Hi.
    pose proof (W_status _ _ _ _ _ _ (kg_wf _ _ _ HG) t (proj1 (kg_cur _ _ _ HG)) (not_elem_of_empty t)) as Hs.
    unfold status_ok, statu_of in *. fold t in Hr. rewrite Hr in Hs. destruct Hs as [Hs _].
    by apply (Hs (NSem s)).
Qed.
End SemTake.

(** ** Waking *)

(** A member of a waiting list is a suspended thread. *)
Lemma on_wait (k : kernel) (Q : queues) (h n : node) :
  kwf ∅ ∅ k Q -> live Q h = true -> is_wait h = true -> n ∈ Q h ->
  exists t, n = NT t /\ ex Q t /\ statu_of k t = RT_THREAD_SUSPEND.
Proof.
  intros HW Hl Hw Hi. assert (Hh : is_home h = true) by by destruct h.
  destruct (W_home _ _ _ _ _ _ HW h n Hl Hh Hi) as (t & -> & Ht). exists t. split_and!; [done..|].
  pose proof (W_status _ _ _ _ _ _ HW t Ht (not_elem_of_empty t)) as H.
  unfold status_ok, statu_of in *. destruct (statu (thr k t)); try done.
  - destruct H as [H _].
    pose proof (live_ready ∅ k Q HW _ (proj1 (W_prio _ _ _ _ _ _ HW t Ht))) as Hr.
    pose proof (qwf_disj _ _ (W_q _ _ _ _ _ _ HW) _ _ _ Hr Hl H Hi) as E. by rewrite <- E in Hw.
  - by destruct (H h).
  - destruct H as [H _]. by destruct (H h).
  - destruct H as [H _]. pose proof (W_live _ _ _ _ _ _ HW NDead eq_refl) as Hr.
    pose proof (qwf_disj _ _ (W_q _ _ _ _ _ _ HW) _ _ _ Hr Hl H Hi) as E. by rewrite <- E in Hw.
Qed.

Lemma resume_queues_wait (k : kernel) (Q : queues) (t : Z) (h : node) :
  is_wait h = true -> NTm t ∉ Q h -> resume_queues k Q t h = filter (.≠ NT t) (Q h).
Proof.
  intros Hw Hi. unfold resume_queues. rewrite wake_queues_other by by intros p ->.
  rewrite q_del_same; [done|]. by intros [_ ?]%elem_of_q_del.
Qed.

Lemma timer_not_waiting (k : kernel) (Q : queues) (h : node) (t : Z) :
  kwf ∅ ∅ k Q -> live Q h = true -> is_wait h = true -> NTm t ∉ Q h.
Proof. intros HW Hl Hw Hi. by destruct (on_wait k Q h _ HW Hl Hw Hi) as (? & ? & _). Qed.

Lemma resume_head (k : kernel) (Q : queues) (h : node) (t : Z) (l : list node) :
  kwf ∅ ∅ k Q -> live Q h = true -> is_wait h = true -> Q h = NT t :: l ->
  resume_queues k Q t h = l.
Proof.
  intros HW Hl Hw EQ. rewrite resume_queues_wait by (try done; by eapply timer_not_waiting).
  assert (Hnd : NoDup (Q h)) by by eapply qwf_NoDup; [apply HW|].
  rewrite EQ in Hnd |- *. apply NoDup_cons in Hnd as [Hn _].
  rewrite filter_cons_False by (intros Hx; by apply Hx). by apply filter_ne_notin.
Qed.

Lemma ex_resume (k : kernel) (Q : queues) (t u : Z) : ex (resume_queues k Q t) u <-> ex Q u.
Proof. unfold resume_queues. by rewrite ex_wake, ex_del_Tm, ex_del_T. Qed.

Lemma live_resume (k : kernel) (Q : queues) (t : Z) : live (resume_queues k Q t) = live Q.
Proof. unfold resume_queues. by rewrite wake_live. Qed.

(** [rt_thread_resume] inside a critical section. *)
Lemma resume_off (k : kernel) (Q : queues) (h : node) (t : Z) :
  kgood ∅ k Q -> live Q h = true -> is_wait h = true -> NT t ∈ Q h ->
  rt_thread_resume t k = (RT_EOK, resumed t k) /\ kgood ∅ (resumed t k) (resume_queues k Q t) /\
  statu_of (resumed t k) t = wake_status k t /\ ex Q t.
Proof.
  intros HG Hl Hw Hi. destruct (on_wait k Q h _ (kg_wf _ _ _ HG) Hl Hw Hi) as (u & [= <-] & Ht & Hs).
  destruct (resume_good k Q t HG Ht (or_intror Hs)) as (E & HG' & Hst & _). done.
Qed.

Section SemRelease.
Context (k : kernel) (Q : queues) (HG : kgood ∅ k Q) (s : Z) (Hl : live Q (NSem s) = true).

(** With no waiter a release adds one unit. *)
Lemma sem_release_posts : Q (NSem s) = [] -> rt_sem_release s k = IDone RT_EOK (set_sem s (u16 (sem_value k s + 1)) k).
Proof.
  intros EQ. unfold rt_sem_release, rt_hw_interrupt_disable, rt_hw_interrupt_enable.
  change (lk (set_ie false k)) with (lk k).
  rewrite (qwf_isempty _ _ (W_q _ _ _ _ _ _ (kg_wf _ _ _ HG))) by done.
  rewrite bool_decide_true by done. reflexivity.
Qed.

Lemma sem_release_free : Q (NSem s) = [] -> 0 <= sem_value k s < 2 ^ 16 - 1 ->
  rt_sem_release s k = IDone RT_EOK (set_sem s (sem_value k s + 1) k).
Proof.
  intros EQ Hv. unfold rt_sem_release, rt_hw_interrupt_disable, rt_hw_interrupt_enable.
  change (lk (set_ie false k)) with (lk k).
  rewrite (qwf_isempty _ _ (W_q _ _ _ _ _ _ (kg_wf _ _ _ HG))) by done.
  rewrite bool_decide_true by done. cbn [negb].
  change (sem_value (set_ie false k) s) with (sem_value k s).
  rewrite u16_small by lia. reflexivity.
Qed.

(** With waiters the unit goes to the one that waits longest. *)
Lemma sem_release_handoff (t : Z) (rest : list node) : Q (NSem s) = NT t :: rest ->
  rt_sem_release s k = ISched (rt_schedule (resumed t k)) ret_ok /\
  kgood ∅ (resumed t k) (resume_queues k Q t) /\
  resume_queues k Q t (NSem s) = rest /\
  statu_of (resumed t k) t = wake_status k t /\
  sem_value (resumed t k) = sem_value k.
Proof.
  intros EQ. assert (Hi : NT t ∈ Q (NSem s)) by (rewrite EQ; apply list_elem_of_here).
  destruct (resume_off k Q (NSem s) t HG Hl eq_refl Hi) as (_ & HG' & Hst & _).
  destruct (resume_off (set_ie false k) Q (NSem s) t (kgood_ie _ _ _ false HG) Hl eq_refl Hi) as (E & _).
  destruct (resumed_fields t k) as (ES & _ & EI).
  split_and!; [|exact HG'|by eapply resume_head; [apply HG|..]|exact Hst|exact ES].
  unfold rt_sem_release, rt_hw_interrupt_disable, rt_hw_interrupt_enable.
  change (lk (set_ie false k)) with (lk k).
  rewrite (qwf_isempty _ _ (W_q _ _ _ _ _ _ (kg_wf _ _ _ HG))) by done.
  rewrite bool_decide_false by (by rewrite EQ). cbn [negb].
  rewrite (qwf_next _ _ (W_q _ _ _ _ _ _ (kg_wf _ _ _ HG))) by done. rewrite EQ.
  cbn [hd tlist_entry]. rewrite E, resumed_ie, set_ie_twice, set_ie_id by done. done.
Qed.
End SemRelease.

(** ** Waking a whole list *)

Lemma resume_all_good (l : list node) : forall fuel h k Q,
  kgood ∅ k Q -> live Q h = true -> is_wait h = true -> Q h = l -> (length l < fuel)%nat ->
  exists k' Q', resume_all fuel h (hd h l) (nxt (lk k) (hd h l)) k = Some k' /\
    kgood ∅ k' Q' /\ live Q' = live Q /\ Q' h = [] /\ (forall u, ex Q' u <-> ex Q u) /\
    (forall u, NT u ∈ l -> awake (statu_of k' u) = true) /\
    (forall u, awake (statu_of k u) = true -> awake (statu_of k' u) = true) /\ ie k' = ie k.
Proof.
  induction l as [|n l IH]; intros fuel h k Q HG Hl Hw EQ Hf;
    (destruct fuel as [|fuel]; [simpl in Hf; lia|]).
  { exists k, Q. cbn [resume_all hd]. rewrite decide_True by done. split_and!; try done. set_solver. }
  pose proof (kg_wf _ _ _ HG) as HW.
  assert (Hi : n ∈ Q h) by (rewrite EQ; apply list_elem_of_here).
  destruct (on_wait k Q h n HW Hl Hw Hi) as (t & -> & Ht & Hs).
  destruct (resume_good k Q t HG Ht (or_intror Hs)) as (E & HG' & Hst & Ho & _).
  destruct (resumed_fields t k) as (_ & _ & EI).
  destruct (IH fuel h (resumed t k) (resume_queues k Q t) HG')
    as (k' & Q' & E' & HG2 & E1 & E2 & E3 & E4 & E5 & E6);
    [by rewrite live_resume|done|by eapply resume_head; [apply HG|..]|simpl in Hf; lia|].
  exists k', Q'. split_and!; [|done|by rewrite E1, live_resume|done| | | |congruence].
  - cbn [resume_all hd tlist_entry].
    assert (NT t ≠ h) by (intros <-; done). rewrite decide_False by done.
    rewrite (qwf_next_in _ _ h (NT t) [] l (W_q _ _ _ _ _ _ HW) Hl EQ). by rewrite E.
  - intros u. rewrite E3. apply ex_resume.
  - intros u [[= ->]|Hu]%elem_of_cons; [|auto]. apply E5. rewrite Hst.
    unfold wake_status. by case_decide.
  - intros u Hu. apply E5. destruct (decide (u = t)) as [->|Hne].
    + rewrite Hst. unfold wake_status. by case_decide.
    + unfold statu_of in *. by rewrite Ho.
Qed.

(** Detaching or deleting a semaphore wakes every waiter. *)
Lemma resume_list_good (fuel : nat) (h : node) (k : kernel) (Q : queues) :
  kgood ∅ k Q -> live Q h = true -> is_wait h = true -> (length (Q h) < fuel)%nat ->
  exists k' Q', resume_list fuel h k = Some k' /\ kgood ∅ k' Q' /\ live Q' = live Q /\
    Q' h = [] /\ (forall u, ex Q' u <-> ex Q u) /\
    (forall u, NT u ∈ Q h -> awake (statu_of k' u) = true) /\ ie k' = ie k.
Proof.
  intros HG Hl Hw Hf. unfold resume_list.
  rewrite (qwf_next _ _ (W_q _ _ _ _ _ _ (kg_wf _ _ _ HG))) by done.
  destruct (resume_all_good (Q h) fuel h k Q HG Hl Hw eq_refl Hf)
    as (k' & Q' & E & HG' & E1 & E2 & E3 & E4 & _ & E6). by exists k', Q'.
Qed.
