(* ===== verification/Mailbox.v ===== *)
(** * Mailboxes as bounded queues

    The ring buffer of [struct rt_mailbox] against a bounded FIFO queue, and the
    send and receive calls in terms of the queue. *)

From S2P Require Import Prelude Ring Bits RtList Kernel KernelInv Sched ThreadOps Lifecycle Ipc IpcInv.

(** ** The ring *)

Record mb_wf (b : rt_mailbox) : Prop := {
  mb_size_ok : 0 < mb_size b < 2 ^ 16;
  mb_pool_ok : Z.of_nat (length (msg_pool b)) = mb_size b;
  mb_entry_ok : 0 <= mb_entry b <= mb_size b;
  mb_out_ok : 0 <= out_offset b < mb_size b;
  mb_in_ok : in_offset b = (out_offset b + mb_entry b) mod mb_size b }.

(** The messages, oldest first. *)
Definition mb_contents (b : rt_mailbox) : list Z :=
  ring_slice (msg_pool b) (mb_size b) (out_offset b) (mb_entry b).

Lemma mb_advance_spec (size off : Z) : 0 < size < 2 ^ 16 -> 0 <= off < size ->
  mb_advance size off = (off + 1) mod size.
Proof. intros Hs Ho. unfold mb_advance. rewrite u16_small by lia. by apply slice_next. Qed.

Lemma mb_wf_init (size : Z) (pool : list Z) : 0 < size < 2 ^ 16 ->
  Z.of_nat (length pool) = size ->
  mb_wf (RtMailbox pool size 0 0 0) /\ mb_contents (RtMailbox pool size 0 0 0) = [].
Proof. intros Hs Hl. split; [|done]. split; simpl; try lia. by rewrite Z.mod_0_l by lia. Qed.

Lemma mb_contents_length (b : rt_mailbox) : mb_wf b ->
  Z.of_nat (length (mb_contents b)) = mb_entry b.
Proof. intros []. apply slice_length. lia. Qed.

(** Enqueueing into a mailbox that is not full. *)
Lemma mb_put_spec (b : rt_mailbox) (v : Z) : mb_wf b -> mb_full b = false ->
  mb_wf (mb_put v b) /\ mb_contents (mb_put v b) = mb_contents b ++ [v].
Proof.
  intros [Hs Hp He Ho Hi] Hf. unfold mb_full in Hf. apply Z.eqb_neq in Hf.
  assert (Hin : 0 <= in_offset b < mb_size b) by (rewrite Hi; apply Z.mod_pos_bound; lia).
  unfold mb_put. rewrite mb_advance_spec, u16_small by lia. split.
  - split; simpl; [done| |lia|done|].
    + by rewrite length_insert.
    + rewrite Hi, Zplus_mod_idemp_l. f_equal. lia.
  - unfold mb_contents; simpl. rewrite Hi. by apply slice_push; lia.
Qed.

(** Dequeueing from a mailbox that is not empty. *)
Lemma mb_get_spec (b : rt_mailbox) : mb_wf b -> mb_empty b = false ->
  mb_wf (snd (mb_get b)) /\ mb_contents b = fst (mb_get b) :: mb_contents (snd (mb_get b)).
Proof.
  intros [Hs Hp He Ho Hi] Hf. unfold mb_empty in Hf. apply Z.eqb_neq in Hf.
  unfold mb_get. cbn [fst snd]. rewrite mb_advance_spec, u16_small by lia. split.
  - split; simpl; [done|done|lia|apply Z.mod_pos_bound; lia|].
    rewrite Hi, Zplus_mod_idemp_l. f_equal. lia.
  - apply slice_pop; lia.
Qed.

(** ** Sending and receiving *)

Lemma set_mbox_good (k : kernel) (Q : queues) (m : Z) (b : rt_mailbox) :
  kgood ∅ k Q -> kgood ∅ (set_mbox m b k) Q.
Proof. intros []. by split. Qed.

Lemma set_mbox_ie (k : kernel) (m : Z) (b : rt_mailbox) (i : bool) :
  set_mbox m b (set_ie i k) = set_ie i (set_mbox m b k).
Proof. done. Qed.

Lemma restore_ie (k : kernel) : set_ie (ie k) (set_ie false k) = k.
Proof. rewrite set_ie_twice. by apply set_ie_id. Qed.

Lemma in_context (k : kernel) : rt_current_thread k <> NULL -> rt_interrupt_nest k = 0 ->
  in_thread_context k = true.
Proof.
  intros Hc Hn. unfold in_thread_context, rt_hw_interrupt_disable, rt_interrupt_get_nest. simpl.
  rewrite Hn. by rewrite (proj2 (Z.eqb_neq _ _) Hc).
Qed.

(** The outcome of waking the first waiter of [h] and calling the scheduler. *)
Definition wake_first (k : kernel) (Q : queues) (h : node) (r : sched_result) (k0 : kernel) : Prop :=
  exists t rest, Q h = NT t :: rest /\ r = rt_schedule (resumed t k) /\ k0 = resumed t k /\
    kgood ∅ (resumed t k) (resume_queues k Q t) /\ resume_queues k Q t h = rest /\
    statu_of (resumed t k) t = wake_status k t.

Section Mb.
Context (k : kernel) (Q : queues) (HG : kgood ∅ k Q) (m : Z).
Context (Hm : m <> NULL) (Hcur : rt_current_thread k <> NULL).
Context (Hrecv : live Q (NMbRecv m) = true) (Hsend : live Q (NMbSend m) = true).

Lemma wait_cases (h : node) : live Q h = true -> is_wait h = true ->
  Q h = [] \/ exists t rest, Q h = NT t :: rest.
Proof.
  intros Hl Hw. destruct (Q h) as [|n rest] eqn:EQ; [by left|right].
  destruct (on_wait k Q h n (kg_wf _ _ _ HG) Hl Hw) as (t & -> & _); [|by eauto].
  rewrite EQ. apply list_elem_of_here.
Qed.

Lemma mb_isempty (h : node) (b : bool) : live Q h = true ->
  rt_list_isempty (lk (set_ie b k)) h = bool_decide (Q h = []).
Proof. intros Hl. by rewrite (qwf_isempty _ _ (W_q _ _ _ _ _ _ (kg_wf _ _ _ HG))). Qed.

(** A full mailbox refuses a send that may not wait. *)
Lemma mb_send_full (value : Z) : mb_full (mbox k m) = true ->
  rt_mb_send_wait m value 0 k = MDone (- RT_EFULL) 0 k.
Proof.
  intros Hf. unfold rt_mb_send_wait, rt_hw_interrupt_disable, rt_hw_interrupt_enable.
  rewrite (proj2 (Z.eqb_neq _ _) Hm), (proj2 (Z.eqb_neq _ _) Hcur).
  change (mbox (set_ie false k)) with (mbox k). rewrite Hf. cbn [andb Z.eqb].
  by rewrite restore_ie.
Qed.

(** A mailbox with room takes the message, and a waiting receiver is woken. *)
Lemma mb_send_room (value timeout : Z) : mb_full (mbox k m) = false ->
  let k1 := set_mbox m (mb_put value (mbox k m)) k in
  kgood ∅ k1 Q /\
  (Q (NMbRecv m) = [] -> rt_mb_send_wait m value timeout k = MDone RT_EOK 0 k1) /\
  (forall t rest, Q (NMbRecv m) = NT t :: rest ->
     rt_mb_send_wait m value timeout k = MSched (rt_schedule (resumed t k1)) 0 /\
     kgood ∅ (resumed t k1) (resume_queues k1 Q t) /\
     resume_queues k1 Q t (NMbRecv m) = rest /\
     statu_of (resumed t k1) t = wake_status k t).
Proof.
  intros Hf k1. assert (HG1 : kgood ∅ k1 Q) by by apply set_mbox_good.
  assert (Ebody : rt_mb_send_wait m value timeout k =
            mb_send_body m value timeout (rt_current_thread k) (ie k) (set_ie false k)).
  { unfold rt_mb_send_wait, rt_hw_interrupt_disable.
    rewrite (proj2 (Z.eqb_neq _ _) Hm), (proj2 (Z.eqb_neq _ _) Hcur).
    change (mbox (set_ie false k)) with (mbox k). by rewrite Hf. }
  split; [done|]. rewrite Ebody. unfold mb_send_body, rt_hw_interrupt_enable.
  change (mbox (set_ie false k)) with (mbox k). rewrite Hf, set_mbox_ie. fold k1.
  change (lk (set_ie false k1)) with (lk k).
  rewrite (qwf_isempty _ _ (W_q _ _ _ _ _ _ (kg_wf _ _ _ HG))) by done. split.
  - intros EQ. rewrite bool_decide_true by done. cbn [negb]. by rewrite set_ie_twice, set_ie_id.
  - intros t rest EQ. rewrite bool_decide_false by (by rewrite EQ). cbn [negb].
    rewrite (qwf_next _ _ (W_q _ _ _ _ _ _ (kg_wf _ _ _ HG))) by done. rewrite EQ.
    cbn [hd tlist_entry].
    assert (Hi : NT t ∈ Q (NMbRecv m)) by (rewrite EQ; apply list_elem_of_here).
    destruct (resume_off (set_ie false k1) Q (NMbRecv m) t (kgood_ie _ _ _ false HG1) Hrecv eq_refl Hi)
      as (E & _).
    destruct (resume_off k1 Q (NMbRecv m) t HG1 Hrecv eq_refl Hi) as (_ & HG2 & Hst & _).
    destruct (resumed_fields t k1) as (_ & _ & EI).
    split_and!; [|exact HG2|by eapply resume_head; [apply HG1|..]|exact Hst].
    rewrite E, resumed_ie, set_ie_twice, set_ie_id by done. done.
Qed.

(** An empty mailbox with [timeout] 0 reports the timeout at once. *)
Lemma mb_recv_empty : mb_empty (mbox k m) = true ->
  rt_mb_recv m 0 k = MDone (- RT_ETIMEOUT) 0 k.
Proof.
  intros Hf. unfold rt_mb_recv, rt_hw_interrupt_disable, rt_hw_interrupt_enable.
  rewrite (proj2 (Z.eqb_neq _ _) Hm), (proj2 (Z.eqb_neq _ _) Hcur).
  change (mbox (set_ie false k)) with (mbox k). rewrite Hf. cbn [andb Z.eqb].
  by rewrite restore_ie.
Qed.

Lemma mb_recv_body_eq (timeout : Z) : mb_empty (mbox k m) = false ->
  rt_mb_recv m timeout k =
    mb_recv_body m timeout (rt_current_thread k) (ie k) (set_ie false k).
Proof.
  intros Hf. unfold rt_mb_recv, rt_hw_interrupt_disable.
  rewrite (proj2 (Z.eqb_neq _ _) Hm), (proj2 (Z.eqb_neq _ _) Hcur).
  change (mbox (set_ie false k)) with (mbox k). by rewrite Hf.
Qed.

(** A receive takes the oldest message, and a waiting sender is woken. *)
Lemma mb_recv_some (timeout : Z) : mb_empty (mbox k m) = false ->
  let value := fst (mb_get (mbox k m)) in
  let k1 := set_mbox m (snd (mb_get (mbox k m))) k in
  kgood ∅ k1 Q /\
  (Q (NMbSend m) = [] -> rt_mb_recv m timeout k = MDone RT_EOK value k1) /\
  (forall t rest, Q (NMbSend m) = NT t :: rest ->
     rt_mb_recv m timeout k = MSched (rt_schedule (resumed t k1)) value /\
     kgood ∅ (resumed t k1) (resume_queues k1 Q t) /\
     resume_queues k1 Q t (NMbSend m) = rest /\
     statu_of (resumed t k1) t = wake_status k t).
Proof.
  intros Hf value k1. assert (HG1 : kgood ∅ k1 Q) by by apply set_mbox_good.
  split; [done|]. rewrite mb_recv_body_eq by done.
  unfold mb_recv_body, rt_hw_interrupt_enable.
  change (mbox (set_ie false k)) with (mbox k). rewrite Hf.
  rewrite (surjective_pairing (mb_get (mbox k m))), set_mbox_ie. fold k1.
  fold value.
  change (lk (set_ie false k1)) with (lk k).
  rewrite (qwf_isempty _ _ (W_q _ _ _ _ _ _ (kg_wf _ _ _ HG))) by done. split.
  - intros EQ. rewrite bool_decide_true by done. cbn [negb]. by rewrite set_ie_twice, set_ie_id.
  - intros t rest EQ. rewrite bool_decide_false by (by rewrite EQ). cbn [negb].
    rewrite (qwf_next _ _ (W_q _ _ _ _ _ _ (kg_wf _ _ _ HG))) by done. rewrite EQ.
    cbn [hd tlist_entry].
    assert (Hi : NT t ∈ Q (NMbSend m)) by (rewrite EQ; apply list_elem_of_here).
    destruct (resume_off k1 Q (NMbSend m) t HG1 Hsend eq_refl Hi) as (E & HG2 & Hst & Ht).
    destruct (resumed_fields t k1) as (_ & _ & EI).
    split_and!; [|exact HG2|by eapply resume_head; [apply HG1|..]|exact Hst].
    rewrite upd_lk_ie.
    rewrite (surjective_pairing (rt_timer_stop t (set_ie false _))), timer_stop_ie, insert_thread_ie.
    cbn [fst snd]. rewrite <- resumed_eq. by rewrite set_ie_twice, set_ie_id.
Qed.
End Mb.
