(* ===== verification/System.v ===== *)
(** * The kernel as a transition system

    One step is one call of a kernel routine from the running thread or one event of
    an interrupt.  A configuration names, besides the kernel's memory, the list heads
    that were initialised and the threads that exist.  The invariant [sys_inv] holds
    in every reachable configuration. *)

From S2P Require Import Prelude Bits RtList Kernel KernelInv Sched ThreadOps Lifecycle Ipc IpcInv Mailbox.

Record config := Cfg { lv : node -> bool; ths : gset Z; kn : kernel }.

Definition open_head (l : node -> bool) (h : node) : node -> bool := fupd l h true.

(** From some fuel on. *)
Definition eventually (P : nat -> Prop) : Prop := exists n, forall fuel, (n <= fuel)%nat -> P fuel.

(** A successful [thread_join_init]: the record in a block [t] of the heap, the stack
    large enough for the first frame. *)
Inductive creates (t : Z) (k : kernel) : kernel -> Prop :=
  | creates_intro status gp texit nm ident fn userdata stack stackSize priority runtick :
      0 <= priority < RT_THREAD_PRIORITY_MAX -> t ≠ NULL ->
      0 < stack -> 156 < stackSize -> stack + stackSize < 2 ^ 32 ->
      creates t k (enlist t (upd_thr t (fun _ =>
        new_thread status gp texit nm ident fn userdata stack stackSize priority runtick) k)).

(** The condition under which a thread may give the processor up: another one is ready to
    take it.  The kernel does not check it; without it [rt_schedule] comes back to the
    caller although it is marked asleep, closed or waiting (KernelSpec.v,
    [idle_alone_hangs]). *)
Definition another_ready (k : kernel) : Prop := rt_thread_ready_priority_group k ≠ 0.

(** The calls and events, with what is asked of the callers: clock interrupts come between
    [rt_interrupt_enter] and [rt_interrupt_leave]; a thread sleeps, exits or waits for a
    semaphore only while another one is ready; a thread kills others (one that kills
    itself does what [rt_thread_exit] does); threads and semaphores that are named exist,
    and new ones do not. *)
Inductive kstep : config -> config -> Prop :=
  | st_enter l T k : kstep (Cfg l T k) (Cfg l T (rt_interrupt_enter k))
  | st_leave l T k : kstep (Cfg l T k) (Cfg l T (rt_interrupt_leave k))
  | st_tick l T k k' : rt_interrupt_nest k ≠ 0 ->
      eventually (fun fuel => came_back (sys_tick_handler fuel k) k') ->
      kstep (Cfg l T k) (Cfg l T k')
  | st_yield l T k k' : r_kernel (rt_schedule k) = Some k' ->
      kstep (Cfg l T k) (Cfg l T k')
  | st_sleep l T k k' tick : another_ready k ->
      r_kernel (rt_thread_sleep tick k) = Some k' -> kstep (Cfg l T k) (Cfg l T k')
  | st_exit l T k k' : another_ready k ->
      r_kernel (rt_thread_exit k) = Some k' -> kstep (Cfg l T k) (Cfg l T k')
  | st_resume l T k t : t ∈ T ->
      kstep (Cfg l T k) (Cfg l T (snd (rt_thread_resume t k)))
  | st_kill l T k t : t ∈ T -> t ≠ rt_current_thread k ->
      kstep (Cfg l T k) (Cfg l T (close_thread t k))
  | st_create l T k t k' : t ∉ T -> creates t k k' ->
      kstep (Cfg l T k) (Cfg l ({[t]} ∪ T) k')
  | st_sem_init l T k s v : l (NSem s) = false ->
      kstep (Cfg l T k) (Cfg (open_head l (NSem s)) T (snd (rt_sem_init s v k)))
  | st_sem_take l T k s time ret k' : l (NSem s) = true -> rt_sem_take s time k = IDone ret k' ->
      kstep (Cfg l T k) (Cfg l T k')
  | st_sem_wait l T k s time r ret k' : l (NSem s) = true -> another_ready k ->
      rt_sem_take s time k = ISched r ret -> r_kernel r = Some k' ->
      kstep (Cfg l T k) (Cfg l T k')
  | st_sem_post l T k s ret k' : l (NSem s) = true ->
      rt_sem_release s k = IDone ret k' -> kstep (Cfg l T k) (Cfg l T k')
  | st_sem_handoff l T k s r ret k' : l (NSem s) = true ->
      rt_sem_release s k = ISched r ret -> r_kernel r = Some k' ->
      kstep (Cfg l T k) (Cfg l T k').

(** The set-up before the first thread runs. *)
Inductive boots : gset Z -> kernel -> Prop :=
  | bt_init k : rt_current_thread k = NULL -> boots ∅ (thread_init k)
  | bt_create T k t k' : boots T k -> t ∉ T -> creates t k k' -> boots ({[t]} ∪ T) k'.

Inductive ksteps : config -> config -> Prop :=
  | ks_refl c : ksteps c c
  | ks_step c1 c2 c3 : ksteps c1 c2 -> kstep c2 c3 -> ksteps c1 c3.

(** ** The invariant *)

(** A semaphore with a free unit has no waiter. *)
Definition sems_ok (k : kernel) (Q : queues) : Prop :=
  forall s, live Q (NSem s) = true ->
    0 <= sem_value k s < 2 ^ 16 /\ (sem_value k s ≠ 0 -> Q (NSem s) = []).

Record sys_inv (c : config) (Q : queues) : Prop := {
  si_good : kgood ∅ (kn c) Q;
  si_run : running (kn c);
  si_live : forall h, live Q h = lv c h;
  si_ths : forall t, ex Q t <-> t ∈ ths c;
  si_sem : sems_ok (kn c) Q;
  si_null : NULL ∉ ths c }.

(** The waiting lists may shrink. *)
Lemma sems_shrink (k : kernel) (Q : queues) (k' : kernel) (Q' : queues) :
  sems_ok k Q -> (forall h, live Q' h = live Q h) -> sem_value k' = sem_value k ->
  (forall s n, live Q (NSem s) = true -> n ∈ Q' (NSem s) -> n ∈ Q (NSem s)) ->
  sems_ok k' Q'.
Proof.
  intros HS Hl Hv Hn s Hs. rewrite Hl in Hs. rewrite Hv. destruct (HS s Hs) as [H1 H2].
  split; [done|]. intros Hz. specialize (H2 Hz).
  destruct (Q' (NSem s)) as [|n r] eqn:E; [done|]. exfalso.
  assert (Hi : n ∈ Q (NSem s)) by (apply Hn; [done|rewrite E; apply list_elem_of_here]).
  rewrite H2 in Hi. by apply elem_of_nil in Hi.
Qed.

Lemma ex_fresh (k : kernel) (Q : queues) (t : Z) : kwf ∅ ∅ k Q -> ~ ex Q t -> fresh Q t.
Proof.
  intros HW Hx.
  assert (Hcase : forall n, n = NA t \/ n = NT t \/ n = NTm t -> free_node Q n).
  { intros n Hn h Hh Hi. pose proof (qwf_live _ _ (W_q _ _ _ _ _ _ HW) h Hh) as Hhead.
    destruct (is_home h) eqn:Eh.
    - destruct (W_home _ _ _ _ _ _ HW h n Hh Eh Hi) as (u & -> & Hu).
      destruct Hn as [?|[E|?]]; [done| |done]. injection E as ->. done.
    - destruct h; try done.
      + destruct (W_all _ _ _ _ _ _ HW n Hi) as [u ->].
        destruct Hn as [E|[?|?]]; [|done|done]. injection E as ->. done.
      + destruct (W_timers _ _ _ _ _ _ HW n Hi) as (u & -> & Hu).
        destruct Hn as [?|[?|E]]; [done|done|]. injection E as ->. done. }
  split_and!; apply Hcase; auto.
Qed.

(** A change of the kernel that the scheduler or an interrupt makes. *)
Lemma sys_quiet (c : config) (Q : queues) (k' : kernel) (Q' : queues) :
  sys_inv c Q -> kgood ∅ k' Q' -> quiet (kn c) Q k' Q' ->
  sys_inv (Cfg (lv c) (ths c) k') Q'.
Proof.
  intros [HG HR HL HT HS HN] HG' [Q1 Q2 _ _ Q5 _ Q7 Q8]. split; simpl; [done|by apply Q8| | | |done].
  - intros h. rewrite Q1. apply HL.
  - intros t. unfold ex. rewrite Q2. apply HT.
  - apply (sems_shrink (kn c) Q); [done|by intros; rewrite Q1|done|].
    intros s n Hl. by apply Q7.
Qed.

(** The scheduler after a critical section that gave the running thread up or woke
    another one. *)
Lemma sys_sched (c : config) (k1 : kernel) (Q1 : queues) (k' : kernel) :
  kgood ∅ k1 Q1 -> (running k1 \/ rt_thread_ready_priority_group k1 ≠ 0) ->
  (forall h, live Q1 h = lv c h) -> (forall t, ex Q1 t <-> t ∈ ths c) -> sems_ok k1 Q1 ->
  NULL ∉ ths c -> r_kernel (rt_schedule k1) = Some k' ->
  exists Q', sys_inv (Cfg (lv c) (ths c) k') Q'.
Proof.
  intros HG Hrun HL HT HS HN Er.
  destruct (quiet_sched ∅ k1 Q1 HG) as (k2 & Q2 & Er2 & HG2 & _ & [A1 A2 _ _ A5 _ A7 A8] & _ & Hrun2).
  rewrite Er in Er2. injection Er2 as <-. exists Q2. split; simpl; [done| | | | |done].
  - destruct Hrun; auto.
  - intros h. rewrite A1. apply HL.
  - intros t. unfold ex. rewrite A2. apply HT.
  - apply (sems_shrink k1 Q1); [done|by intros; rewrite A1|done|].
    intros s n Hl. by apply A7.
Qed.

(** The running thread is on no list of threads. *)
Lemma running_free (k : kernel) (Q : queues) : kgood ∅ k Q -> running k ->
  free_node Q (NT (rt_current_thread k)).
Proof.
  intros [HW (Hc & _) _] Hr.
  pose proof (W_status _ _ _ _ _ _ HW _ Hc (not_elem_of_empty _)) as Hs.
  unfold status_ok, running, statu_of in *. rewrite Hr in Hs. apply Hs.
Qed.

Lemma ready_order_ext (Q Q' : queues) :
  (forall p, 0 <= p < RT_THREAD_PRIORITY_MAX -> Q' (NReady p) = Q (NReady p)) ->
  ready_order Q' = ready_order Q.
Proof.
  intros H. unfold ready_order. rewrite !flat_map_concat_map. f_equal.
  apply map_ext_in. intros p Hp%list_elem_of_In%elem_of_seqZ. apply H. lia.
Qed.

Lemma group_nonzero (k k' : kernel) (Q Q' : queues) : kwf ∅ ∅ k Q -> kwf ∅ ∅ k' Q' ->
  (forall p, 0 <= p < RT_THREAD_PRIORITY_MAX -> Q' (NReady p) = Q (NReady p)) ->
  rt_thread_ready_priority_group k ≠ 0 -> rt_thread_ready_priority_group k' ≠ 0.
Proof.
  intros HW HW' H Hg. rewrite (group_zero _ _ _ HW') . rewrite (group_zero _ _ _ HW) in Hg.
  by rewrite (ready_order_ext Q Q' H).
Qed.

(** Taking the running thread and its timer off their lists leaves the ready lists. *)
Section Stops.
Context (k : kernel) (Q : queues) (HG : kgood ∅ k Q) (Hrun : running k).
Let t := rt_current_thread k.

Lemma ready_stop (p : Z) : 0 <= p < RT_THREAD_PRIORITY_MAX ->
  q_del Q (NT t) (NReady p) = Q (NReady p) /\
  q_del (q_del Q (NTm t)) (NT t) (NReady p) = Q (NReady p).
Proof.
  intros Hp. pose proof HG as [HW _ _].
  assert (Hl : live Q (NReady p) = true) by (apply (live_ready ∅ k Q HW); unfold RT_THREAD_PRIORITY_MAX in Hp; lia).
  assert (H1 : NT t ∉ Q (NReady p)) by (apply running_free; done).
  assert (H2 : NTm t ∉ Q (NReady p)).
  { intros Hi. destruct (W_home _ _ _ _ _ _ HW (NReady p) _ Hl eq_refl Hi) as (u & E & _). done. }
  split; [by apply q_del_same|].
  rewrite q_del_same; [by apply q_del_same|]. by rewrite (q_del_same Q _ _ H2).
Qed.

Lemma group_asleep (tick : Z) : rt_thread_ready_priority_group k ≠ 0 ->
  rt_thread_ready_priority_group (asleep tick k) ≠ 0.
Proof.
  destruct (asleep_good tick k Q HG Hrun) as (_ & [HW' _ _] & _).
  apply (group_nonzero k _ Q _ (kg_wf _ _ _ HG) HW'). intros p Hp.
  unfold q_prepend. rewrite q_set_ne by done. apply (ready_stop p Hp).
Qed.

Lemma group_close : rt_thread_ready_priority_group k ≠ 0 ->
  rt_thread_ready_priority_group (close_thread t k) ≠ 0.
Proof.
  destruct (exit_good k Q HG) as (_ & [HW' _ _]).
  apply (group_nonzero k _ Q _ (kg_wf _ _ _ HG) HW'). intros p Hp.
  unfold close_queues, q_prepend. rewrite q_set_ne by done. apply (ready_stop p Hp).
Qed.

Lemma group_block (h : node) (time : Z) : live Q h = true -> is_wait h = true ->
  rt_thread_ready_priority_group k ≠ 0 ->
  rt_thread_ready_priority_group (blocked k h time t) ≠ 0.
Proof.
  intros Hl Hw. destruct (block_good k Q HG h time Hl Hw Hrun) as ([HW' _ _] & _).
  apply (group_nonzero k _ Q _ (kg_wf _ _ _ HG) HW'). intros p Hp.
  unfold block_queues, q_prepend, q_append. destruct (time >? 0); repeat rewrite q_set_ne by (by destruct h);
    apply (ready_stop p Hp).
Qed.
End Stops.

(** ** A new waiting list *)

Section Open.
Context (k : kernel) (Q : queues) (h : node).
Context (Hw : is_wait h = true) (Hn : live Q h = false).

Lemma open_at (h' : node) : live Q h' = true -> q_open Q h h' = Q h'.
Proof. intros Hl. simpl. rewrite fupd_ne; [done|]. intros ->. congruence. Qed.

Lemma open_live (h' : node) : live (q_open Q h) h' = true ->
  h' = h \/ h' ≠ h /\ live Q h' = true.
Proof. simpl. unfold fupd. case_decide; auto. Qed.

Lemma open_live_mono (h' : node) : live Q h' = true -> live (q_open Q h) h' = true.
Proof. intros Hl. simpl. unfold fupd. by case_decide. Qed.

Lemma open_mem (h' n : node) : live (q_open Q h) h' = true -> n ∈ q_open Q h h' ->
  live Q h' = true /\ n ∈ Q h'.
Proof.
  intros [->|[Hne Hl]]%open_live.
  - simpl. rewrite fupd_eq. by intros ?%elem_of_nil.
  - by rewrite open_at.
Qed.

Lemma open_free (n : node) : free_node (q_open Q h) n <-> free_node Q n.
Proof.
  split; intros Hf h' Hl Hi.
  - apply (Hf h' (open_live_mono h' Hl)). by rewrite open_at.
  - destruct (open_mem h' n Hl Hi) as [H1 H2]. by apply (Hf h' H1).
Qed.

Lemma open_ex (t : Z) : live Q NAll = true -> ex (q_open Q h) t <-> ex Q t.
Proof. intros Hl. unfold ex. by rewrite open_at. Qed.

(** [rt_list_init] of a waiting list's head that is not in use. *)
Lemma kwf_open : kwf ∅ ∅ k Q -> kwf ∅ ∅ (upd_lk (fun L => rt_list_init L h) k) (q_open Q h).
Proof.
  intros HW. pose proof (W_live _ _ _ _ _ _ HW) as HK.
  assert (Hex : forall t, ex (q_open Q h) t <-> ex Q t) by (intros; apply open_ex; by apply HK).
  assert (HR : forall p, live Q (NReady p) = true -> q_open Q h (NReady p) = Q (NReady p))
    by (intros; by apply open_at).
  assert (Hself : forall n, is_head n = false -> self (lk k) n -> self (rt_list_init (lk k) h) n).
  { intros n _. apply self_init. }
  destruct HW as [W1 W2 W3 W4 W5 W6 W7 W8 W9 W10 W11]. split; simpl lk; simpl thr.
  - apply qwf_open; [done| |done]. by destruct h.
  - intros h' Hh'. apply open_live_mono. by apply W2.
  - intros p [E|[_ Hl]]%open_live; [by subst h|by apply W3].
  - intros n. rewrite open_at by (by apply W2). apply W4.
  - intros n. rewrite open_at by (by apply W2). intros Hi.
    destruct (W5 n Hi) as (t & -> & Ht). exists t. by rewrite Hex.
  - intros h' n Hl Hh Hi. destruct (open_mem h' n Hl Hi) as [Hl' Hi'].
    destruct (W6 h' n Hl' Hh Hi') as (t & -> & Ht). exists t. by rewrite Hex.
  - intros t Ht%Hex. by apply W7.
  - destruct W8 as [G1 G2]. split; [done|]. intros p Hp. rewrite HR; [by apply G2|].
    apply W2. unfold kernel_head. zlia.
  - intros t Ht%Hex. destruct (W9 t Ht) as [(h' & H1 & H2 & H3 & H4)|[H1 H2]].
    + left. exists h'. split_and!; [by apply open_live_mono|done|by rewrite open_at|done].
    + right. split; [by apply open_free|by apply Hself].
  - intros t Ht%Hex. unfold timer_ok. rewrite open_at by (by apply W2). rewrite open_free.
    destruct (W10 t Ht) as [?|(H1 & H2 & H3)]; [by left|right].
    split_and!; [done|done|by apply Hself].
  - intros t Ht%Hex HX. specialize (W11 t Ht HX). destruct (W7 t Ht) as [Hp _].
    unfold status_ok in *. destruct (statu (thr k t)); try done.
    + rewrite HR; [done|]. apply W2. unfold kernel_head. zlia.
    + intros h' Hl Hi. destruct (open_mem h' _ Hl Hi). by apply W11.
    + by rewrite open_free.
    + by rewrite open_free.
    + by rewrite open_at by (by apply W2).
Qed.
End Open.

(** ** Every step keeps the invariant *)

Section Steps.
Context (l : node -> bool) (T : gset Z) (k : kernel) (Q : queues).
Context (HI : sys_inv (Cfg l T k) Q).

Lemma cur_ex : ex Q (rt_current_thread k).
Proof. destruct HI as [[_ (Hc & _) _] _ _ _ _ _]. exact Hc. Qed.

(** Changes of the nesting counter or the IE bit. *)
Lemma step_nest (f : kernel -> kernel) :
  (forall k, exists n b, f k = set_ie b (set_nest n k)) -> sys_inv (Cfg l T (f k)) Q.
Proof.
  intros Hf. destruct (Hf k) as (n & b & ->). destruct HI as [[H1 H2 H3] HR HL HT HS].
  split; simpl; [by split|done..].
Qed.

Lemma cur_not_null : rt_current_thread k ≠ NULL.
Proof.
  intros E. pose proof cur_ex as Hc. destruct HI as [_ _ _ HT _ HN].
  apply HN. rewrite <- E. by apply HT.
Qed.

Lemma step_tick (k' : kernel) : rt_interrupt_nest k ≠ 0 ->
  eventually (fun fuel => came_back (sys_tick_handler fuel k) k') ->
  exists Q', sys_inv (Cfg l T k') Q'.
Proof.
  intros Hn [N HF]. pose proof cur_not_null as Hc. set (fuel := (N + S (length (Q NTimers)))%nat).
  destruct (tick_good fuel k Q (si_good _ _ HI) Hn Hc) as (k2 & Q2 & H1 & H2 & H3 & _); [lia|].
  destruct (HF fuel) as [E _]; [lia|]. destruct H1 as [E2 _]. simpl in *.
  rewrite E in E2. injection E2 as <-. exists Q2.
  assert (HI' : sys_inv (Cfg l T (sys_tick_increase k)) Q).
  { destruct HI as [[? ? ?] ? ? ? ? ?]. split; simpl; [by split|done..]. }
  exact (sys_quiet _ Q k' Q2 HI' H2 H3).
Qed.

Lemma step_sleep (k' : kernel) (tick : Z) : rt_thread_ready_priority_group k ≠ 0 ->
  r_kernel (rt_thread_sleep tick k) = Some k' -> exists Q', sys_inv (Cfg l T k') Q'.
Proof.
  intros Hg Er. pose proof HI as [HG HR HL HT HS HN]. simpl in *.
  pose proof (asleep_good tick k Q HG HR) as (E & HG1 & _).
  rewrite E in Er. eapply (sys_sched (Cfg l T k) _ _ k' HG1); [|exact HL| | |exact HN|exact Er].
  - right. by apply (group_asleep k Q HG HR).
  - intros t. by rewrite ex_prepend_Tm, ex_del_T.
  - apply (sems_shrink k Q); [done|done| |].
    + unfold asleep. rewrite (proj1 (timer_start_fields _ _)), (proj1 (suspended_fields _ _ _)).
      apply (upd_thr_fields _ _ k).
    + intros s n _. unfold q_prepend. rewrite q_set_ne by done. simpl. apply list_elem_of_filter.
Qed.

Lemma close_sem (t : Z) : sem_value (close_thread t k) = sem_value k.
Proof.
  unfold close_thread. destruct (rt_timer_stop t (upd_thr t (t_statu RT_THREAD_CLOSE) k)) as [r k1] eqn:E.
  pose proof (timer_stop_fields t (upd_thr t (t_statu RT_THREAD_CLOSE) k)) as (H1 & _).
  rewrite E in H1. simpl snd in H1.
  rewrite (proj1 (upd_lk_ipc _ _)). destruct (remove_thread_fields t k1) as (_ & -> & _).
  rewrite H1. apply (upd_thr_fields t _ k).
Qed.

Lemma close_sems (t : Z) : sems_ok (close_thread t k) (close_queues Q t).
Proof.
  apply (sems_shrink k Q); [apply HI|done|apply close_sem|].
  intros s n _. unfold close_queues, q_prepend. rewrite q_set_ne by done. simpl.
  rewrite !list_elem_of_filter. naive_solver.
Qed.

Lemma step_exit (k' : kernel) : rt_thread_ready_priority_group k ≠ 0 ->
  r_kernel (rt_thread_exit k) = Some k' -> exists Q', sys_inv (Cfg l T k') Q'.
Proof.
  intros Hg Er. pose proof HI as [HG HR HL HT HS HN]. simpl in *.
  pose proof (exit_good k Q HG) as (E & HG1). rewrite E in Er.
  eapply (sys_sched (Cfg l T k) _ _ k' HG1); [|exact HL| |apply close_sems|exact HN|exact Er].
  - right. by apply (group_close k Q HG HR).
  - intros t. by rewrite ex_close.
Qed.

Lemma step_kill (t : Z) : t ∈ T -> t ≠ rt_current_thread k ->
  sys_inv (Cfg l T (close_thread t k)) (close_queues Q t).
Proof.
  intros Ht Hne. pose proof HI as [HG HR HL HT HS HN]. simpl in *.
  pose proof (close_good k Q t HG (proj2 (HT t) Ht)) as (HG1 & _ & Hthr & Hcur & _).
  split; simpl; [done| |done| |apply close_sems|done].
  - unfold running, statu_of. by rewrite Hcur, Hthr.
  - intros u. by rewrite ex_close.
Qed.

Lemma resume_sems (t : Z) : sems_ok (resumed t k) (resume_queues k Q t).
Proof.
  apply (sems_shrink k Q); [apply HI|intros h; by rewrite live_resume|apply resumed_fields|].
  intros s n _. unfold resume_queues. rewrite wake_queues_other by done. simpl.
  rewrite !list_elem_of_filter. naive_solver.
Qed.

(** A resumed thread is made ready; the running one goes on. *)
Lemma step_resumed (t : Z) : t ∈ T ->
  statu_of k t = RT_THREAD_SLEEP \/ statu_of k t = RT_THREAD_SUSPEND ->
  sys_inv (Cfg l T (resumed t k)) (resume_queues k Q t) /\ rt_thread_resume t k = (RT_EOK, resumed t k).
Proof.
  intros Ht Hs. pose proof HI as [HG HR HL HT HS HN]. simpl in *.
  pose proof (resume_good k Q t HG (proj2 (HT t) Ht) Hs) as (E & HG1 & Hst & Hthr & _ & Hcur & _).
  split; [|done]. split; simpl; [done| | | |apply resume_sems|done].
  - unfold running. rewrite Hcur. destruct (decide (t = rt_current_thread k)) as [->|Hne].
    + rewrite Hst. unfold wake_status. by case_decide.
    + unfold statu_of. by rewrite Hthr.
  - intros h. rewrite live_resume. apply HL.
  - intros u. by rewrite ex_resume.
Qed.

Lemma step_resume (t : Z) : t ∈ T ->
  exists Q', sys_inv (Cfg l T (snd (rt_thread_resume t k))) Q'.
Proof.
  intros Ht. destruct (decide (statu_of k t = RT_THREAD_SLEEP \/ statu_of k t = RT_THREAD_SUSPEND)) as [Hs|Hs].
  - destruct (step_resumed t Ht Hs) as [H ->]. by eexists.
  - rewrite resume_refused by tauto. by exists Q.
Qed.

Lemma step_create (t : Z) (k' : kernel) : t ∉ T -> creates t k k' ->
  exists Q', sys_inv (Cfg l ({[t]} ∪ T) k') Q'.
Proof.
  intros Ht Hc. destruct Hc as [status gp texit nm ident fn ud stack size p tick Hp Hnull H1 H2 H3].
  pose proof HI as [HG HR HL HT HS HN]. simpl in HG, HR, HL, HT, HS, HN.
  set (th := new_thread status gp texit nm ident fn ud stack size p tick).
  destruct (new_thread_fields status gp texit nm ident fn ud stack size p tick Hp) as (Ep & Em & Es & Ef).
  assert (Hx : ~ ex Q t) by (by rewrite HT).
  pose proof (ex_fresh k Q t (kg_wf _ _ _ HG) Hx) as HF.
  assert (Ek : forall k', thr k' t = th -> _rt_scheduler_stack_check k' t = true).
  { intros k' E. exact (new_thread_stack_ok _ _ _ _ _ _ _ _ _ _ _ k' t H1 H2 H3 E). }
  pose proof (create_good k Q t p th HF Hp Ep Em Es Ef Ek HG) as HG1.
  destruct (enlist_fields t p th k Ep Em) as (F1 & F2 & _).
  exists (enlist_queues Q t p). split; simpl; [done| |done| | |set_solver].
  - unfold running, statu_of. rewrite F2, F1. rewrite fupd_ne; [exact HR|].
    intros E. apply Hx. rewrite <- E. apply cur_ex.
  - intros u. rewrite (enlist_ex Q t p u), HT. rewrite elem_of_union, elem_of_singleton. done.
  - apply (sems_shrink k Q); [done|done| |].
    + rewrite (enlist_eq k t th p Ep Em). done.
    + intros s n _. unfold enlist_queues, q_append. rewrite q_set_ne by done.
      unfold q_prepend. by rewrite q_set_ne.
Qed.
End Steps.

(** ** Semaphore steps *)

Section SemSteps.
Context (l : node -> bool) (T : gset Z) (k : kernel) (Q : queues).
Context (HI : sys_inv (Cfg l T k) Q) (s : Z).

Lemma step_sem_init (v : Z) : l (NSem s) = false ->
  sys_inv (Cfg (open_head l (NSem s)) T (snd (rt_sem_init s v k))) (q_open Q (NSem s)).
Proof.
  intros Hl. pose proof HI as [HG HR HL HT HS HN]. simpl in HG, HR, HL, HT, HS, HN.
  destruct HG as [HW HC HK]. assert (Hn : live Q (NSem s) = false) by (by rewrite HL).
  assert (Hex : forall t, ex (q_open Q (NSem s)) t <-> ex Q t).
  { intros t. apply open_ex; [done|]. by apply (W_live _ _ _ _ _ _ HW). }
  split; simpl lv; simpl ths; simpl kn.
  - split.
    + exact (kwf_open k Q (NSem s) eq_refl Hn HW).
    + destruct HC as (C1 & C2 & C3). split_and!; [by apply Hex|done|].
      intros t Ht%Hex. by apply C3.
    + intros t Ht%Hex. by apply HK.
  - done.
  - intros h. simpl. unfold open_head, fupd. by case_decide.
  - intros t. by rewrite Hex.
  - intros s' [E|[Hne Hs]]%open_live; simpl sem_value; unfold fupd; case_decide as Hd.
    + split; [apply u16_range|]. intros _. simpl. by rewrite E, fupd_eq.
    + injection E as ->. done.
    + subst s'. done.
    + rewrite open_at by done. by apply HS.
  - done.
Qed.

Lemma set_sems (v : Z) : live Q (NSem s) = true -> 0 <= v < 2 ^ 16 -> (v ≠ 0 -> Q (NSem s) = []) ->
  sys_inv (Cfg l T (set_sem s v k)) Q.
Proof.
  intros Hl Hv Hz. destruct HI as [HG HR HL HT HS HN]. simpl in *.
  split; simpl; [by apply set_sem_good|done|done|done| |done].
  intros s' Hs'. simpl. unfold fupd. case_decide as Hd; [subst s'; done|by apply HS].
Qed.

Lemma step_sem_take (time ret : Z) (k' : kernel) : l (NSem s) = true ->
  rt_sem_take s time k = IDone ret k' -> sys_inv (Cfg l T k') Q.
Proof.
  intros Hl E. pose proof HI as [HG HR HL HT HS HN]. simpl in HG, HR, HL, HT, HS, HN.
  assert (Hs : live Q (NSem s) = true) by (by rewrite HL).
  destruct (HS s Hs) as [Hv Hz]. destruct (decide (sem_value k s = 0)) as [E0|E0].
  - destruct (decide (time = 0)) as [->|Ht].
    + rewrite sem_take_poll in E by done. injection E as <- <-. exact HI.
    + unfold rt_sem_take in E. simpl in E. rewrite E0 in E. simpl in E.
      apply Z.eqb_neq in Ht. rewrite Ht in E.
      destruct (negb (in_thread_context (set_ie false k))); done.
  - rewrite sem_take_now in E by lia. injection E as <- <-.
    apply set_sems; [done|lia|]. intros _. by apply Hz.
Qed.

Lemma step_sem_post (ret : Z) (k' : kernel) : l (NSem s) = true ->
  rt_sem_release s k = IDone ret k' -> sys_inv (Cfg l T k') Q.
Proof.
  intros Hl E. pose proof HI as [HG HR HL HT HS HN]. simpl in HG, HR, HL, HT, HS, HN.
  assert (Hs : live Q (NSem s) = true) by (by rewrite HL).
  destruct (wait_cases k Q HG (NSem s) Hs eq_refl) as [E0|(t & rest & E0)].
  - rewrite (sem_release_posts k Q HG s Hs E0) in E. injection E as <- <-.
    apply set_sems; [done|apply u16_range|done].
  - pose proof (sem_release_handoff k Q HG s Hs t rest E0) as [E1 _]. by rewrite E1 in E.
Qed.

Lemma step_sem_handoff (r : sched_result) (ret : kernel -> Z) (k' : kernel) : l (NSem s) = true ->
  rt_sem_release s k = ISched r ret -> r_kernel r = Some k' -> exists Q', sys_inv (Cfg l T k') Q'.
Proof.
  intros Hl E Er. pose proof HI as [HG HR HL HT HS HN]. simpl in HG, HR, HL, HT, HS, HN.
  assert (Hs : live Q (NSem s) = true) by (by rewrite HL).
  destruct (HS s Hs) as [Hv Hz].
  destruct (wait_cases k Q HG (NSem s) Hs eq_refl) as [E0|(t & rest & E0)].
  - unfold rt_sem_release, rt_hw_interrupt_disable in E.
    rewrite (mb_isempty k Q HG (NSem s) false Hs) in E. by rewrite bool_decide_true in E.
  - pose proof (sem_release_handoff k Q HG s Hs t rest E0) as (E1 & _).
    rewrite E1 in E. injection E as <- <-.
    destruct (on_wait k Q (NSem s) (NT t) (kg_wf _ _ _ HG) Hs eq_refl) as (u & Eu & Hu & Hst);
      [rewrite E0; apply list_elem_of_here|]. injection Eu as <-.
    destruct (step_resumed l T k Q HI t (proj1 (HT t) Hu) (or_intror Hst)) as [HI1 _].
    destruct HI1 as [G1 G2 G3 G4 G5 G6].
    exact (sys_sched (Cfg l T k) _ _ k' G1 (or_introl G2) G3 G4 G5 G6 Er).
Qed.

Lemma step_sem_wait (time : Z) (r : sched_result) (ret : kernel -> Z) (k' : kernel) :
  l (NSem s) = true -> rt_thread_ready_priority_group k ≠ 0 ->
  rt_sem_take s time k = ISched r ret -> r_kernel r = Some k' -> exists Q', sys_inv (Cfg l T k') Q'.
Proof.
  intros Hl Hg E Er. pose proof HI as [HG HR HL HT HS HN]. simpl in HG, HR, HL, HT, HS, HN.
  assert (Hs : live Q (NSem s) = true) by (by rewrite HL).
  destruct (HS s Hs) as [Hv Hz].
  assert (Hcase : sem_value k s = 0 /\ rt_sem_take s time k =
    ISched (rt_schedule (blocked k (NSem s) time (rt_current_thread k))) (resumed_error (rt_current_thread k))).
  { unfold rt_sem_take in E |- *. simpl in E |- *.
    destruct (sem_value k s >? 0) eqn:E0; [done|]. destruct (time =? 0); [done|].
    destruct (negb (in_thread_context (set_ie false k))); [done|].
    split; [lia|]. f_equal. f_equal. unfold rt_hw_interrupt_enable.
    exact (blocked_ie k Q HG (NSem s) time Hs eq_refl HR). }
  destruct Hcase as [E0 E1]. rewrite E1 in E. injection E as <- <-.
  destruct (block_good k Q HG (NSem s) time Hs eq_refl HR) as (HG1 & _ & _ & _ & _ & _ & Hsv & _).
  apply (sys_sched (Cfg l T k) _ _ k' HG1); [| | | |exact HN|exact Er].
  - right. by apply (group_block k Q HG HR).
  - intros h. transitivity (live Q h); [|apply HL]. unfold block_queues. by destruct (time >? 0).
  - intros t. by rewrite ex_block.
  - intros s' Hl'. rewrite Hsv. assert (Hl2 : live Q (NSem s') = true).
    { unfold block_queues in Hl'. by destruct (time >? 0). }
    destruct (HS s' Hl2) as [H1 H2]. split; [done|]. intros Hz'. specialize (H2 Hz').
    assert (Hne : s' ≠ s) by (intros ->; congruence).
    assert (Eq : q_append (q_del Q (NT (rt_current_thread k))) (NSem s) (NT (rt_current_thread k)) (NSem s') = []).
    { unfold q_append. rewrite q_set_ne by congruence. simpl. by rewrite H2. }
    unfold block_queues. destruct (time >? 0); [|exact Eq].
    unfold q_prepend. by rewrite q_set_ne.
Qed.
End SemSteps.

(** A call of [rt_sem_take] that waits. *)
Lemma sem_take_waits (l : node -> bool) (T : gset Z) (k : kernel) (Q : queues) (s time : Z) (r : sched_result) (ret : kernel -> Z) :
  sys_inv (Cfg l T k) Q -> l (NSem s) = true -> rt_sem_take s time k = ISched r ret -> r_kernel r ≠ None.
Proof.
  intros HI Hl E. pose proof HI as [HG HR HL _ _ _]. simpl in HG, HR, HL. assert (Hs : live Q (NSem s) = true) by (by rewrite HL).
  unfold rt_sem_take in E. simpl in E. destruct (sem_value k s >? 0); [done|]. destruct (time =? 0); [done|].
  destruct (negb (in_thread_context (set_ie false k))); [done|]. injection E as <- _. unfold rt_hw_interrupt_enable.
  rewrite (blocked_ie k Q HG (NSem s) time Hs eq_refl HR). destruct (block_good k Q HG (NSem s) time Hs eq_refl HR) as (HG1 & _).
  destruct (quiet_sched ∅ _ _ HG1) as (k2 & Q2 & E2 & _). by rewrite E2.
Qed.

Lemma sem_release_comes_back (l : node -> bool) (T : gset Z) (k : kernel) (Q : queues) (s : Z) : sys_inv (Cfg l T k) Q -> l (NSem s) = true ->
  (exists ret k', rt_sem_release s k = IDone ret k') \/ exists r ret, rt_sem_release s k = ISched r ret /\ r_kernel r ≠ None.
Proof.
  intros HI Hl. pose proof HI as [HG HR HL _ _ _]. simpl in HG, HR, HL. assert (Hs : live Q (NSem s) = true) by (by rewrite HL).
  destruct (wait_cases k Q HG (NSem s) Hs eq_refl) as [E0|(t & rest & E0)].
  - left. rewrite (sem_release_posts k Q HG s Hs E0). eauto.
  - right. destruct (sem_release_handoff k Q HG s Hs t rest E0) as (-> & HG1 & _). eexists _, _. split; [reflexivity|].
    destruct (quiet_sched ∅ _ _ HG1) as (k2 & Q2 & E2 & _). by rewrite E2.
Qed.

(** More fuel does not change a result. *)
Lemma sbind_more (r : sched_result) (f f' : kernel -> sched_result) : (forall k, f k ≠ SHang -> f' k = f k) -> sbind r f ≠ SHang -> sbind r f' = sbind r f.
Proof. intros Hf Hr. destruct r as [k|k a b|k a b| |]; cbn [sbind] in *; [by apply Hf|done| |done|done]. rewrite Hf; [done|]. by intros E; rewrite E in Hr. Qed.

Lemma timer_loop_more (fuel fuel' : nat) : forall pos n k, (fuel <= fuel')%nat -> rt_timer_check_loop fuel pos n k ≠ SHang ->
  rt_timer_check_loop fuel' pos n k = rt_timer_check_loop fuel pos n k.
Proof.
  revert fuel'. induction fuel as [|fuel IH]; intros fuel' pos n k Hle; cbn [rt_timer_check_loop]; [done|].
  destruct fuel' as [|fuel']; [lia|]. cbn [rt_timer_check_loop]. case_decide; [done|]. destruct (timelist_entry pos) as [t|]; [|done].
  intros Hr. apply sbind_more; [|done]. intros k1 Hk1. apply IH; [lia|done].
Qed.

Lemma tick_more (fuel fuel' : nat) (k : kernel) : (fuel <= fuel')%nat -> sys_tick_handler fuel k ≠ SHang -> sys_tick_handler fuel' k = sys_tick_handler fuel k.
Proof.
  intros Hle. unfold sys_tick_handler. destruct (_ =? NULL); [done|]. apply sbind_more. intros k1. unfold rt_timer_check, rt_hw_interrupt_disable.
  intros Hr. destruct (rt_timer_check_loop fuel _ _ _) eqn:E; cbn [sbind] in Hr; try done; rewrite (timer_loop_more fuel fuel') by (done || by rewrite E); by rewrite E.
Qed.

(** In every state of the invariant every call comes back. *)
Record calls_return (l : node -> bool) (k : kernel) : Prop := {
  cr_yield : r_kernel (rt_schedule k) ≠ None;
  cr_sleep tick : r_kernel (rt_thread_sleep tick k) ≠ None;
  cr_exit : r_kernel (rt_thread_exit k) ≠ None;
  cr_tick : rt_interrupt_nest k ≠ 0 -> exists k', eventually (fun fuel => came_back (sys_tick_handler fuel k) k');
  cr_take s time r ret : l (NSem s) = true -> rt_sem_take s time k = ISched r ret -> r_kernel r ≠ None;
  cr_release s : l (NSem s) = true ->
    (exists ret k', rt_sem_release s k = IDone ret k') \/ exists r ret, rt_sem_release s k = ISched r ret /\ r_kernel r ≠ None }.

Lemma sys_calls_return (c : config) (Q : queues) : sys_inv c Q -> calls_return (lv c) (kn c).
Proof.
  intros HI. destruct c as [l T k]. simpl. pose proof HI as [HG HR _ _ _ _]. simpl in HG, HR. split.
  - destruct (quiet_sched ∅ k Q HG) as (k' & Q' & E & _). by rewrite E.
  - intros tick. destruct (asleep_good tick k Q HG HR) as (-> & HG1 & _). destruct (quiet_sched ∅ _ _ HG1) as (k' & Q' & E & _). by rewrite E.
  - destruct (exit_good k Q HG) as (-> & HG1). destruct (quiet_sched ∅ _ _ HG1) as (k' & Q' & E & _). by rewrite E.
  - intros Hn. pose proof (cur_not_null l T k Q HI) as Hc.
    destruct (tick_good (S (length (Q NTimers))) k Q HG Hn Hc) as (k1 & Q1 & H1 & _); [lia|].
    exists k1, (S (length (Q NTimers))). intros fuel Hf. rewrite (tick_more (S (length (Q NTimers))) fuel); [done|lia|].
    intros E. rewrite E in H1. by destruct H1.
  - intros s time r ret. by apply (sem_take_waits l T k Q).
  - intros s. by apply (sem_release_comes_back l T k Q).
Qed.

(** The invariant is preserved by every step. *)
Lemma kstep_inv (c c' : config) (Q : queues) : sys_inv c Q -> kstep c c' ->
  exists Q', sys_inv c' Q'.
Proof.
  intros HI HS. destruct HS.
  - exists Q. apply (step_nest l T k Q HI). intros k0. by eexists _, _.
  - exists Q. apply (step_nest l T k Q HI). intros k0. by eexists _, _.
  - by apply (step_tick l T k Q HI).
  - destruct HI as [H1 H2 H3 H4 H5 H6]. exact (sys_sched (Cfg l T k) k Q k' H1 (or_introl H2) H3 H4 H5 H6 H).
  - by apply (step_sleep l T k Q HI k' tick).
  - by apply (step_exit l T k Q HI).
  - by apply (step_resume l T k Q HI).
  - eexists. by apply (step_kill l T k Q HI).
  - by apply (step_create l T k Q HI t).
  - eexists. by apply (step_sem_init l T k Q HI).
  - eexists. by apply (step_sem_take l T k Q HI s time ret).
  - by apply (step_sem_wait l T k Q HI s time r ret k').
  - eexists. by apply (step_sem_post l T k Q HI s ret).
  - by apply (step_sem_handoff l T k Q HI s r ret k').
Qed.

Lemma ksteps_inv (c c' : config) (Q : queues) : ksteps c c' -> sys_inv c Q ->
  exists Q', sys_inv c' Q'.
Proof.
  intros H. induction H as [|c1 c2 c3 _ IH Hs]; intros HI; [by exists Q|].
  destruct (IH HI) as [Q2 HI2]. by apply (kstep_inv c2 c3 Q2).
Qed.

(** ** Boot *)

Lemma boots_good (T : gset Z) (k : kernel) : boots T k ->
  exists Q, kboot k Q /\ (forall h, live Q h = kernel_head h) /\ (forall t, ex Q t <-> t ∈ T) /\
    NULL ∉ T /\ (forall t, t ∈ T -> statu_of k t = RT_THREAD_READY).
Proof.
  induction 1 as [k Hk|T k t k' _ (Q & HB & HL & HT & HN & HR) Ht Hc].
  - exists boot_queues. split_and!; [by apply thread_init_boot|done| |set_solver|set_solver].
    intros t. unfold ex. simpl. set_solver.
  - destruct Hc as [status gp texit nm ident fn ud stack size p tick Hp Hnull H1 H2 H3].
    destruct (new_thread_fields status gp texit nm ident fn ud stack size p tick Hp) as (Ep & Em & Es & Ef).
    assert (Hx : ~ ex Q t) by (by rewrite HT).
    exists (enlist_queues Q t p). split_and!.
    + apply create_boot; try done; [by apply (ex_fresh k Q t (kb_wf _ _ HB))|].
      intros k' E. exact (new_thread_stack_ok _ _ _ _ _ _ _ _ _ _ _ k' t H1 H2 H3 E).
    + exact HL.
    + intros u. rewrite (enlist_ex Q t p u), HT, elem_of_union, elem_of_singleton. done.
    + set_solver.
    + intros u Hu. unfold statu_of. rewrite (proj1 (enlist_fields t p _ k Ep Em)).
      destruct (decide (u = t)) as [->|Hne]; [by rewrite fupd_eq|]. rewrite fupd_ne by done.
      apply HR. set_solver.
Qed.

(** The first switch. *)
Lemma start_inv (T : gset Z) (k : kernel) : boots T k ->
  rt_thread_ready_priority_group k ≠ 0 ->
  exists to k1 Q, thread_start k = SSwitch k1 NULL to /\ sys_inv (Cfg kernel_head T k1) Q.
Proof.
  intros HB Hg. destruct (boots_good T k HB) as (Q & HK & HL & HT & HN & _).
  destruct (start_good k Q HK Hg) as (p & to & rest & _ & _ & _ & E & HG & Ec & Es).
  exists to, (started to k), (q_del Q (NT to)). split; [done|]. split; simpl; [done| |done| | |done].
  - unfold running. by rewrite Ec.
  - intros t. by rewrite ex_del_T.
  - intros s Hs. simpl in Hs. by rewrite HL in Hs.
Qed.

(** The configurations the system can be in once the first thread runs. *)
Inductive reachable (c : config) : Prop :=
  | reach T k to k1 : boots T k -> rt_thread_ready_priority_group k ≠ 0 ->
      thread_start k = SSwitch k1 NULL to -> ksteps (Cfg kernel_head T k1) c -> reachable c.

Lemma reachable_inv (c : config) : reachable c -> exists Q, sys_inv c Q.
Proof.
  intros [T k to k1 HB Hg E Hs]. destruct (start_inv T k HB Hg) as (to' & k2 & Q & E' & HI).
  rewrite E in E'. injection E' as -> ->. by apply (ksteps_inv _ c Q Hs).
Qed.
