(* ===== verification/Demo.v ===== *)
(** * A small system
    The kernel after [thread_init], the creation of three threads (the idle thread at
    the lowest priority and two at priority 10) and [thread_start]: the concrete
    state at which the theorems on the kernel are instantiated. *)

From S2P Require Import Prelude Bits RtList Kernel KernelInv Sched ThreadOps Lifecycle Ipc IpcInv Mailbox System.

Definition zero_thread : rt_thread :=
  RtThread [] 0 0 0 0 0 0 0 RT_THREAD_INIT 0 0 0 0 0 (RtTimer 0 0 0).

(** Memory before the set-up. *)
Definition demo_memory : kernel :=
  Kernel (Links (fun n => n) (fun n => n)) (fun _ => zero_thread) (fun _ => 0)
    (fun _ => RtMailbox [] 0 0 0 0) NULL 0 0 0 0 true.

Definition demo_record (nm : list Z) (ident stack prio : Z) : rt_thread :=
  new_thread 0x10008400 0x80200000 0x80012340 nm ident 0x80010000 0 stack 2048 prio 5.

Definition demo_add (t ident stack prio : Z) (nm : list Z) (k : kernel) : kernel :=
  enlist t (upd_thr t (fun _ => demo_record nm ident stack prio) k).

Definition IDLE : Z := 0x1000.
Definition THR_A : Z := 0x2000.
Definition THR_B : Z := 0x3000.

Definition demo_idle : kernel := demo_add IDLE 0 0x10000 31 str_idle (thread_init demo_memory).
Definition demo_a : kernel := demo_add THR_A 1 0x20000 10 [97] demo_idle.
Definition demo_boot : kernel := demo_add THR_B 2 0x30000 10 [98] demo_a.

Definition demo_boot_queues : queues :=
  enlist_queues (enlist_queues (enlist_queues boot_queues IDLE 31) THR_A 10) THR_B 10.

(** Thread A runs; B and the idle thread are ready. *)
Definition demo : kernel := started THR_A demo_boot.
Definition demo_queues : queues := q_del demo_boot_queues (NT THR_A).
Definition demo_threads : gset Z := {[THR_B]} ∪ ({[THR_A]} ∪ ({[IDLE]} ∪ ∅)).

Lemma demo_creates (t ident stack prio : Z) (nm : list Z) (k : kernel) :
  0 <= prio < RT_THREAD_PRIORITY_MAX -> t ≠ NULL -> 0 < stack -> stack + 2048 < 2 ^ 32 ->
  creates t k (demo_add t ident stack prio nm k).
Proof. intros. unfold demo_add, demo_record. by constructor. Qed.

Ltac num := unfold RT_THREAD_PRIORITY_MAX, NULL, IDLE, THR_A, THR_B in *; lia.

Lemma demo_boots : boots demo_threads demo_boot.
Proof.
  apply (bt_create _ demo_a); [|set_solver by num|apply demo_creates; num].
  apply (bt_create _ demo_idle); [|set_solver by num|apply demo_creates; num].
  apply (bt_create _ (thread_init demo_memory)); [|set_solver by num|apply demo_creates; num].
  by constructor.
Qed.

(** One creation of the set-up, with the lists named. *)
Lemma demo_add_boot (t ident stack prio : Z) (nm : list Z) (k : kernel) (Q : queues) :
  0 <= prio < RT_THREAD_PRIORITY_MAX -> 0 < stack -> stack + 2048 < 2 ^ 32 ->
  kboot k Q -> ~ ex Q t ->
  kboot (demo_add t ident stack prio nm k) (enlist_queues Q t prio).
Proof.
  intros Hp H1 H3 HB Hx. unfold demo_add, demo_record.
  destruct (new_thread_fields 0x10008400 0x80200000 0x80012340 nm ident 0x80010000 0 stack 2048 prio 5 Hp)
    as (Ep & Em & Es & Ef).
  apply create_boot; try done; [by apply (ex_fresh k Q t (kb_wf _ _ HB))|].
  intros k' E. by eapply (new_thread_stack_ok _ _ _ _ _ _ _ _ _ _ _ k' t H1 _ H3 E).
Unshelve. lia.
Qed.

Lemma not_listed (Q : queues) (t : Z) (l : list node) :
  Q NAll = l -> bool_decide (NA t ∈ l) = false -> ~ ex Q t.
Proof. intros E H. unfold ex. rewrite E. by apply bool_decide_eq_false in H. Qed.

Lemma demo_boot_good : kboot demo_boot demo_boot_queues.
Proof.
  apply demo_add_boot; [num..| |eapply not_listed; vm_compute; reflexivity].
  apply demo_add_boot; [num..| |eapply not_listed; vm_compute; reflexivity].
  apply demo_add_boot; [num..| |eapply not_listed; vm_compute; reflexivity].
  by apply thread_init_boot.
Qed.

Lemma listed (Q : queues) (h n : node) : bool_decide (n ∈ Q h) = true -> n ∈ Q h.
Proof. apply bool_decide_eq_true_1. Qed.

Lemma listed_ex (Q : queues) (t : Z) : bool_decide (NA t ∈ Q NAll) = true -> ex Q t.
Proof. apply listed. Qed.

Definition switch_to (r : sched_result) : option Z :=
  match r with SSwitch _ _ to | SSwitchInt _ _ to => Some to | _ => None end.

Lemma demo_inv : thread_start demo_boot = SSwitch demo NULL THR_A /\
  kgood ∅ demo demo_queues /\ running demo.
Proof.
  assert (Hto : switch_to (thread_start demo_boot) = Some THR_A) by (vm_compute; reflexivity).
  destruct (start_good demo_boot demo_boot_queues demo_boot_good) as (p & to & rest & _ & _ & _ & E & HG & Ec & Es).
  { intros E. vm_compute in E. discriminate. }
  rewrite E in Hto. injection Hto as ->. split_and!; [done|done|].
  unfold running, demo. by rewrite Ec.
Qed.

Lemma demo_good : kgood ∅ demo demo_queues.
Proof. apply demo_inv. Qed.

Lemma demo_running : running demo.
Proof. apply demo_inv. Qed.

Lemma demo_group : rt_thread_ready_priority_group demo ≠ 0.
Proof. intros E. vm_compute in E. discriminate. Qed.

Lemma demo_reach (c : config) : ksteps (Cfg kernel_head demo_threads demo) c -> reachable c.
Proof.
  intros H. apply (reach c demo_threads demo_boot THR_A demo demo_boots); [|apply demo_inv|done].
  intros E. vm_compute in E. discriminate.
Qed.

(** A heap that only grows: the block of the next request starts at the counter, as
    long as it ends inside the address space. *)
Definition bump_heap : Allocator Z :=
  {| malloc n h := if (0 <? h) && (h + n <? 2 ^ 32) then Some (h, h + n) else Some (NULL, h);
     free _ h := Some h |}.

Lemma bump_blocks (n h a h' : Z) : @malloc Z bump_heap n h = Some (a, h') -> a ≠ NULL ->
  0 < a /\ a + n < 2 ^ 32.
Proof.
  simpl. destruct ((0 <? h) && (h + n <? 2 ^ 32)) eqn:E; intros E' Hn; simplify_eq. lia.
Qed.

(** The idle thread alone. *)
Definition lone_queues : queues := q_del (enlist_queues boot_queues IDLE 31) (NT IDLE).
Definition lone : kernel := started IDLE demo_idle.
