(* ===== verification/KernelSpec.v ===== *)
(** * What the thread kernel guarantees
    The properties of the scheduler, the tick, sleeping, waking, termination and
    set-up, each for every state that satisfies the invariant, and the invariant for
    every reachable state. *)

From S2P Require Import Prelude Bits CStr RtList Kernel KernelInv Sched ThreadOps Lifecycle Ipc IpcInv Mailbox System Demo.

(** ** Safety of every execution *)

(** C1: Safety of the executions that keep the rules of [kstep].  After [thread_start], with
    at least one thread ready, let any sequence of interrupts, clock ticks, yields, sleeps,
    exits, kills, resumes, creations, and takes and releases of semaphores follow, under
    these rules: a thread sleeps, exits or waits for a semaphore only while another thread
    is ready (the kernel does not check this, and without it the scheduler goes wrong, see
    [idle_alone_hangs]); clock ticks come between [rt_interrupt_enter] and
    [rt_interrupt_leave]; a thread kills other threads only; a thread is created with a
    priority from 0 to 31 and a stack of more than 156 bytes inside the address space, in a
    block that no thread uses; a semaphore is used after its initialisation and not
    initialised again.  Then in every state exactly one thread is RUNNING and it is
    [rt_current_thread]; every READY thread is on the queue of its priority, every dead one on
    the dead list; a bit of the ready group is set exactly when its queue is not empty; no
    thread waits for a semaphore that has a free unit; and every call of the scheduler,
    sleep, exit, tick, take (where its assertion on the context holds) and release ends with
    a result: none loops and none takes a list head for a thread. *)
Theorem reachable_safe (c : config) : reachable c -> exists Q : queues,
  qwf (lk (kn c)) Q /\
  (forall t, ex Q t <-> t ∈ ths c) /\
  (forall t, t ∈ ths c -> statu_of (kn c) t = RT_THREAD_RUNNING <-> t = rt_current_thread (kn c)) /\
  (forall t, t ∈ ths c -> statu_of (kn c) t = RT_THREAD_READY ->
     NT t ∈ Q (NReady (current_priority (thr (kn c) t)))) /\
  (forall t, t ∈ ths c -> statu_of (kn c) t = RT_THREAD_CLOSE -> NT t ∈ Q NDead) /\
  (forall p, 0 <= p < RT_THREAD_PRIORITY_MAX ->
     Z.testbit (rt_thread_ready_priority_group (kn c)) p = true <-> Q (NReady p) ≠ []) /\
  (forall s, live Q (NSem s) = true -> sem_value (kn c) s ≠ 0 -> Q (NSem s) = []) /\
  calls_return (lv c) (kn c).
Proof.
  intros HR. destruct (reachable_inv c HR) as [Q HI]. pose proof (sys_calls_return c Q HI) as Hret. destruct HI as [[HW HC HK] Hrun HL HT HS HN]. exists Q.
  assert (Hst : forall t, t ∈ ths c -> status_ok Q (thr (kn c)) ∅ t).
  { intros t Ht. apply (W_status _ _ _ _ _ _ HW); [by apply HT|set_solver]. }
  split_and!; [apply HW|exact HT| | | | | |exact Hret].
  - intros t Ht. split; [|by intros ->]. by apply HC, HT.
  - intros t Ht E. specialize (Hst t Ht). unfold status_ok, statu_of in *. rewrite E in Hst. apply Hst.
  - intros t Ht E. specialize (Hst t Ht). unfold status_ok, statu_of in *. rewrite E in Hst. apply Hst.
  - intros p Hp. destruct (W_group _ _ _ _ _ _ HW) as [_ G]. rewrite (G p Hp).
    rewrite negb_true_iff, bool_decide_eq_false. done.
  - intros s Hs. by apply HS.
Qed.

(** The configuration in which a semaphore was made and A waits in an interrupt's
    shadow. *)
Definition demo_sem : config :=
  Cfg (open_head kernel_head (NSem 0x4000)) demo_threads
    (rt_interrupt_enter (snd (rt_sem_init 0x4000 1 demo))).

Lemma demo_sem_steps : ksteps (Cfg kernel_head demo_threads demo) demo_sem.
Proof.
  eapply ks_step; [eapply ks_step; [apply ks_refl|]|].
  - exact (st_sem_init kernel_head demo_threads demo 0x4000 1 eq_refl).
  - apply st_enter.
Qed.

Lemma reachable_safe_witness : reachable demo_sem /\
  statu_of (kn demo_sem) THR_A = RT_THREAD_RUNNING /\ r_kernel (rt_schedule (kn demo_sem)) ≠ None.
Proof.
  assert (H : reachable demo_sem) by (apply demo_reach, demo_sem_steps).
  destruct (reachable_safe demo_sem H) as (Q & _ & _ & H1 & _ & _ & _ & _ & H2).
  split; [exact H|split; [|exact (cr_yield _ _ H2)]]. apply H1; [|vm_compute; reflexivity].
  apply elem_of_union_r, elem_of_union_l, elem_of_singleton. reflexivity.
Defined.

(** ** The scheduler *)

(** C2: [rt_schedule] runs the first thread of the ready queues taken in priority
    order, each first in first out; the thread that gives the processor up goes to the
    tail of its own queue when it can go on; with no ready thread nothing changes. *)
Theorem schedule_fifo (k : kernel) (Q : queues) : kgood ∅ k Q ->
  match ready_order Q with
  | [] => rt_schedule k = SReturn k
  | n :: _ => exists to k', n = NT to /\ r_kernel (rt_schedule k) = Some k' /\
      rt_current_thread k' = to /\ statu_of k' to = RT_THREAD_RUNNING /\
      (forall u, ex Q u -> statu_of k u = RT_THREAD_READY ->
         current_priority (thr k to) <= current_priority (thr k u)) /\
      kgood ∅ k' (sched_queues k Q (rt_current_thread k) to)
  end.
Proof.
  intros HG. pose proof HG as [HW HC HK].
  destruct (decide (rt_thread_ready_priority_group k = 0)) as [E|E].
  - rewrite (proj1 (group_zero ∅ k Q HW) E). by apply schedule_idle.
  - destruct (schedule_switch ∅ k Q HW HC E) as (p & to & rest & Hp & Eq & Hlow & Hex & Epr & Est & Esch).
    assert (Eo : hd_error (ready_order Q) = Some (NT to)).
    { unfold ready_order. rewrite (seqZ_split _ p) by (unfold RT_THREAD_PRIORITY_MAX; lia).
      apply (hd_flat_map (fun p => Q (NReady p)) _ _ p (NT to) rest); [|done].
      intros q Hq%elem_of_seqZ. apply Hlow. lia. }
    destruct (ready_order Q) as [|n l]; [done|]. injection Eo as ->.
    destruct (switched_good ∅ k Q HG to p Hex Est (eq_sym Epr)) as [HG' _].
    destruct (switched_kcur k Q HC to p Hex Est (eq_sym Epr)) as [_ Hrun].
    assert (Hstk : _rt_scheduler_stack_check k to = true) by by apply HK.
    assert (Hlowest : forall u, ex Q u -> statu_of k u = RT_THREAD_READY ->
              current_priority (thr k to) <= current_priority (thr k u)).
    { intros u Hu Hr. pose proof (W_status _ _ _ _ _ _ HW u Hu (not_elem_of_empty u)) as Hs.
      unfold status_ok, statu_of in *. rewrite Hr in Hs. destruct Hs as [Hs _].
      destruct (W_prio _ _ _ _ _ _ HW u Hu) as [Hpu _]. rewrite Epr.
      destruct (decide (p <= current_priority (thr k u))) as [|Hlt]; [done|].
      rewrite (Hlow (current_priority (thr k u))) in Hs by lia. by apply elem_of_nil in Hs. }
    assert (Ecur : rt_current_thread (switched to p k) = to).
    { apply (switched_effect k Q HC to p Hex Est (eq_sym Epr)). }
    exists to. rewrite Esch. unfold switch_result. rewrite Hstk. simpl negb. cbv iota.
    destruct (rt_interrupt_nest k =? 0).
    + exists (switched to p k). by split_and!.
    + exists (set_ie (ie k) (switched to p k)). split_and!; try done. by apply kgood_ie.
Qed.

Lemma schedule_fifo_witness : kgood ∅ demo demo_queues /\
  ready_order demo_queues = [NT THR_B; NT IDLE] /\
  option_map rt_current_thread (r_kernel (rt_schedule demo)) = Some THR_B.
Proof.
  pose proof (schedule_fifo demo demo_queues demo_good) as H.
  assert (E : ready_order demo_queues = [NT THR_B; NT IDLE]) by (vm_compute; reflexivity).
  rewrite E in H. destruct H as (to & k' & H1 & H2 & H3 & _). injection H1 as H1.
  split; [exact demo_good|split; [exact E|]]. rewrite H2. simpl. f_equal. congruence.
Defined.

(** ** Round robin *)

(** [n] calls of the scheduler, each by the thread that runs. *)
Fixpoint yields (n : nat) (k : kernel) : option kernel :=
  match n with
  | O => Some k
  | S n => match r_kernel (rt_schedule k) with Some k' => yields n k' | None => None end
  end.

(** The running thread has priority [p], no thread of a higher one is ready, and [l]
    are the ready threads of its own. *)
Record turn (k : kernel) (Q : queues) (p : Z) (l : list node) : Prop := {
  tn_good : kgood ∅ k Q;
  tn_run : running k;
  tn_prio : current_priority (thr k (rt_current_thread k)) = p;
  tn_range : 0 <= p < 32;
  tn_ready : Q (NReady p) = l;
  tn_low : forall q, 0 <= q < p -> Q (NReady q) = [] }.

Lemma turn_yield (k : kernel) (Q : queues) (p t : Z) (l : list node) :
  turn k Q p (NT t :: l) -> exists k' Q', r_kernel (rt_schedule k) = Some k' /\
    rt_current_thread k' = t /\ turn k' Q' p (l ++ [NT (rt_current_thread k)]).
Proof.
  intros [HG Hrun Ep Hp Er Hlow]. pose proof HG as [HW HC HK]. set (c := rt_current_thread k) in *.
  assert (Hl : forall q, 0 <= q < 32 -> live Q (NReady q) = true) by apply (live_ready ∅ k Q HW).
  destruct (on_ready ∅ k Q HW p (NT t) Hp) as (t' & E' & Hex & Ept & Est);
    [rewrite Er; apply list_elem_of_here|]. injection E' as <-.
  destruct (switched_good ∅ k Q HG t p Hex Est (eq_sym Ept)) as [HG' _].
  destruct (switched_kcur k Q HC t p Hex Est (eq_sym Ept)) as [_ Hrun'].
  destruct (switched_effect k Q HC t p Hex Est (eq_sym Ept)) as [S1 _ S3 _ _ _ _ _ _].
  assert (Hk : keeps_running (statu_of k c) = true).
  { unfold running in Hrun. fold c in Hrun. by rewrite Hrun. }
  assert (Hkeep : rt_schedule k = switch_result k (switched t p k) t).
  { destruct (schedule_switch ∅ k Q HW HC) as (p' & to & r' & Hp' & Eq' & Hlow' & _ & _ & _ & E).
    - intros E0. apply (group_zero ∅ k Q HW) in E0. assert (Hi : NT t ∈ ready_order Q); [|by rewrite E0 in Hi; apply elem_of_nil in Hi].
      unfold ready_order. apply list_elem_of_In, in_flat_map. exists p. rewrite Er. split; [|by left].
      apply list_elem_of_In, elem_of_seqZ. unfold RT_THREAD_PRIORITY_MAX. lia.
    - assert (p' = p) as ->.
      { destruct (Z.lt_total p' p) as [H|[H|H]]; [|done|].
        - rewrite Hlow in Eq' by lia. done.
        - rewrite Hlow' in Er by lia. done. }
      rewrite Er in Eq'. injection Eq' as <- <-. exact E. }
  assert (Hstk : _rt_scheduler_stack_check k t = true) by by apply HK.
  assert (Hq : sched_queues k Q c t (NReady p) = l ++ [NT c]).
  { unfold sched_queues. rewrite Hk. fold c in Ep. rewrite Ep. simpl.
    rewrite fupd_eq, Er. simpl. rewrite filter_cons_False by (intros H; by apply H).
    apply filter_ne_notin. pose proof (qwf_NoDup _ _ (W_q _ _ _ _ _ _ HW) (NReady p) (Hl p Hp)) as Hnd.
    rewrite Er in Hnd. apply NoDup_cons in Hnd as [Hni _].
    rewrite not_elem_of_app, list_elem_of_singleton. split; [done|].
    intros E. injection E as E. unfold running in Hrun. fold c in Hrun. congruence. }
  assert (Hlow' : forall q, 0 <= q < p -> sched_queues k Q c t (NReady q) = []).
  { intros q Hq'. unfold sched_queues. rewrite Hk. fold c in Ep. rewrite Ep. simpl.
    rewrite fupd_ne by (intros E; injection E; lia). by rewrite Hlow. }
  assert (HT : forall k', kgood ∅ k' (sched_queues k Q c t) -> thr k' = thr (switched t p k) ->
    rt_current_thread k' = t -> turn k' (sched_queues k Q c t) p (l ++ [NT c])).
  { intros k' G E1 E2. split; [done| | |done|done|done].
    - unfold running, statu_of. rewrite E1, E2. exact Hrun'.
    - rewrite E1, E2, S3. exact Ept. }
  rewrite Hkeep. unfold switch_result. rewrite Hstk. simpl negb. cbv iota.
  destruct (rt_interrupt_nest k =? 0).
  - exists (switched t p k), (sched_queues k Q c t). split_and!; [done|done|]. by apply HT.
  - exists (set_ie (ie k) (switched t p k)), (sched_queues k Q c t). split_and!; [done|done|].
    apply HT; [by apply kgood_ie|done|done].
Qed.

Lemma turn_rotate (l1 : list node) : forall k Q p u l2, turn k Q p (l1 ++ NT u :: l2) ->
  exists k' Q', yields (S (length l1)) k = Some k' /\ rt_current_thread k' = u /\
    turn k' Q' p (l2 ++ NT (rt_current_thread k) :: l1).
Proof.
  induction l1 as [|n l1 IH]; intros k Q p u l2 HT.
  - destruct (turn_yield k Q p u l2 HT) as (k' & Q' & E & Ec & HT'). exists k', Q'.
    simpl. by rewrite E.
  - assert (Hn : exists t, n = NT t).
    { destruct HT as [HG _ _ Hp Er _]. destruct (on_ready ∅ k Q (kg_wf _ _ _ HG) p n Hp) as (t & -> & _).
      - rewrite Er. apply list_elem_of_here.
      - by exists t. }
    destruct Hn as [t ->]. simpl in HT.
    destruct (turn_yield k Q p t _ HT) as (k1 & Q1 & E & Ec & HT1). rewrite <- app_assoc in HT1.
    destruct (IH k1 Q1 p u _ HT1) as (k2 & Q2 & E2 & Ec2 & HT2). exists k2, Q2.
    simpl. rewrite E. split_and!; [exact E2|done|].
    rewrite Ec in HT2. rewrite <- app_assoc in HT2. exact HT2.
Qed.

(** C4: round robin among the threads of one priority: the [i]-th thread of the
    running thread's own queue runs after [i + 1] yields, and when all [n] have run the
    first one runs again, so that none of them starves. *)
Theorem round_robin (k : kernel) (Q : queues) (p u : Z) (l1 l2 : list node) :
  turn k Q p (l1 ++ NT u :: l2) ->
  exists k1 Q1 k2 Q2,
    yields (S (length l1)) k = Some k1 /\ rt_current_thread k1 = u /\
    turn k1 Q1 p (l2 ++ NT (rt_current_thread k) :: l1) /\
    yields (S (length l2)) k1 = Some k2 /\ rt_current_thread k2 = rt_current_thread k /\
    turn k2 Q2 p (l1 ++ NT u :: l2).
Proof.
  intros HT. destruct (turn_rotate l1 k Q p u l2 HT) as (k1 & Q1 & E1 & Ec1 & HT1).
  destruct (turn_rotate l2 k1 Q1 p (rt_current_thread k) l1 HT1) as (k2 & Q2 & E2 & Ec2 & HT2).
  rewrite Ec1 in HT2. by exists k1, Q1, k2, Q2.
Qed.

Lemma demo_turn : turn demo demo_queues 10 ([] ++ [NT THR_B]).
Proof.
  split; [apply demo_good|apply demo_running|vm_compute; reflexivity|lia|vm_compute; reflexivity|].
  intros q Hq. assert (q = 0 \/ q = 1 \/ q = 2 \/ q = 3 \/ q = 4 \/ q = 5 \/ q = 6 \/ q = 7 \/ q = 8 \/ q = 9) as Hc by lia.
  repeat destruct Hc as [->|Hc]; try subst q; vm_compute; reflexivity.
Qed.

Lemma round_robin_witness : turn demo demo_queues 10 ([] ++ [NT THR_B]) /\
  exists k1 k2, yields 1 demo = Some k1 /\ rt_current_thread k1 = THR_B /\
    yields 1 k1 = Some k2 /\ rt_current_thread k2 = THR_A.
Proof.
  split; [exact demo_turn|].
  destruct (round_robin demo demo_queues 10 THR_B [] [] demo_turn)
    as (k1 & Q1 & k2 & Q2 & H1 & H2 & _ & H3 & H4 & _).
  exists k1, k2. split; [exact H1|split; [exact H2|split; [exact H3|]]].
  rewrite H4. vm_compute. reflexivity.
Defined.

(** ** Time *)

(** C5: a tick interrupt advances the time by one and takes exactly the timers off the
    list whose deadline has passed; their threads, and no others, become ready, with
    [-RT_ETIMEOUT] in their error field; the handler terminates and comes back to the
    interrupted code. *)
Theorem tick_wakes_expired (fuel : nat) (k : kernel) (Q : queues) :
  kgood ∅ k Q -> rt_interrupt_nest k ≠ 0 -> rt_current_thread k ≠ NULL ->
  (length (Q NTimers) < fuel)%nat ->
  exists k' Q', came_back (sys_tick_handler fuel k) k' /\ kgood ∅ k' Q' /\
    system_tick k' = system_tick k +u 1 /\
    Q' NTimers = filter (fun n => node_expired (sys_tick_increase k) n = false) (Q NTimers) /\
    forall u, ex Q u ->
      awake (statu_of k' u) = awake (statu_of k u) || fired (sys_tick_increase k) (Q NTimers) u /\
      error (thr k' u) =
        (if fired (sys_tick_increase k) (Q NTimers) u then - RT_ETIMEOUT else error (thr k u)).
Proof.
  intros HG Hn Hc Hf.
  destruct (tick_good fuel k Q HG Hn Hc Hf) as (k' & Q' & H1 & H2 & H3 & H4 & H5).
  exists k', Q'. split_and!; [done|done|apply H3|done|].
  intros u Hu. by destruct (H5 u Hu) as (A & B & _).
Qed.

(** A sleeps 3 ticks; B runs, in the clock interrupt. *)
Definition demo_asleep : kernel := rt_interrupt_enter (set_ie true (switched THR_B 10 (asleep 3 demo))).
Definition demo_asleep_queues : queues :=
  sched_queues (asleep 3 demo) (q_prepend (q_del demo_queues (NT THR_A)) NTimers (NTm THR_A)) THR_A THR_B.

Lemma kgood_enter (k : kernel) (Q : queues) (b : bool) :
  kgood ∅ k Q -> kgood ∅ (rt_interrupt_enter (set_ie b k)) Q.
Proof. intros [H1 H2 H3]. by split. Qed.

Lemma demo_asleep_good : kgood ∅ demo_asleep demo_asleep_queues.
Proof.
  destruct (asleep_good 3 demo demo_queues demo_good demo_running) as (_ & HG & _ & _ & Ec).
  assert (E : rt_current_thread demo = THR_A) by (vm_compute; reflexivity). rewrite E in HG, Ec.
  assert (Hx : ex (q_prepend (q_del demo_queues (NT THR_A)) NTimers (NTm THR_A)) THR_B).
  { rewrite ex_prepend_Tm, ex_del_T. apply listed_ex. vm_compute. reflexivity. }
  destruct (switched_good ∅ _ _ HG THR_B 10 Hx) as [HG' _].
  - vm_compute. reflexivity.
  - vm_compute. reflexivity.
  - rewrite Ec in HG'. exact (kgood_enter _ _ true HG').
Qed.

Lemma tick_wakes_expired_witness : kgood ∅ demo_asleep demo_asleep_queues /\
  rt_interrupt_nest demo_asleep ≠ 0 /\ (length (demo_asleep_queues NTimers) < 5)%nat /\
  exists k', came_back (sys_tick_handler 5 demo_asleep) k' /\ system_tick k' = 1 /\
    awake (statu_of k' THR_A) = false.
Proof.
  assert (Hn : rt_interrupt_nest demo_asleep ≠ 0) by (intros E; vm_compute in E; discriminate).
  assert (Hc : rt_current_thread demo_asleep ≠ NULL) by (intros E; vm_compute in E; discriminate).
  assert (Hf : (length (demo_asleep_queues NTimers) < 5)%nat) by (vm_compute; lia).
  split; [exact demo_asleep_good|split; [exact Hn|split; [exact Hf|]]].
  destruct (tick_wakes_expired 5 demo_asleep demo_asleep_queues demo_asleep_good Hn Hc Hf)
    as (k' & Q' & H1 & _ & H3 & _ & H5).
  exists k'. split; [exact H1|]. split; [rewrite H3; vm_compute; reflexivity|].
  destruct (H5 THR_A) as [H6 _]; [apply listed_ex; vm_compute; reflexivity|].
  rewrite H6. vm_compute. reflexivity.
Defined.

(** The clock interrupts that follow each other; what runs between them is left out. *)
Fixpoint ticks (n fuel : nat) (k : kernel) : option kernel :=
  match n with
  | O => Some k
  | S n => match sys_tick_handler fuel k with
           | SReturn k' | SSwitchInt k' _ _ => ticks n fuel k'
           | _ => None
           end
  end.

Lemma came_back_ticks (n fuel : nat) (k k' : kernel) :
  came_back (sys_tick_handler fuel k) k' -> ticks (S n) fuel k = ticks n fuel k'.
Proof.
  intros [H1 H2]. simpl. by destruct (sys_tick_handler fuel k); simplify_eq/=.
Qed.

(** One tick and a timer whose deadline is [d]. *)
Lemma tick_deadline (fuel : nat) (k : kernel) (Q : queues) (t d : Z) :
  kgood ∅ k Q -> rt_interrupt_nest k ≠ 0 -> (length (Q NTimers) < fuel)%nat ->
  NTm t ∈ Q NTimers -> timeout_tick (timer_of k t) = d ->
  0 <= system_tick k -> system_tick k + 1 < 2 ^ 32 ->
  ~ ex Q NULL ->
  exists k' Q', came_back (sys_tick_handler fuel k) k' /\ kgood ∅ k' Q' /\
    (length (Q' NTimers) < fuel)%nat /\
    rt_interrupt_nest k' = rt_interrupt_nest k /\ system_tick k' = system_tick k + 1 /\
    (forall u, ex Q' u <-> ex Q u) /\
    if d <=? system_tick k then awake (statu_of k' t) = true /\ error (thr k' t) = - RT_ETIMEOUT
    else NTm t ∈ Q' NTimers /\ timeout_tick (timer_of k' t) = d.
Proof.
  intros HG Hn Hf Hi Ed H0 H1 HN.
  destruct (tick_good fuel k Q HG Hn) as (k' & Q' & Hb & HG' & [_ Q2 Q3 Q4 _ _ _ _] & Et & Hu);
    [intros E; apply HN; rewrite <- E; apply HG|done|]. set (now := sys_tick_increase k) in *.
  destruct (linked_timer_thread k Q t HG Hi) as (Hx & Hfl & _).
  assert (Enow : system_tick now = system_tick k + 1) by (apply u32_small; lia).
  assert (Ef : fired now (Q NTimers) t = (d <=? system_tick k)).
  { unfold fired, expired. rewrite bool_decide_true by done. change (timer_of now t) with (timer_of k t).
    rewrite Hfl, Ed, Enow. simpl. lia. }
  destruct (Hu t Hx) as (A1 & A2 & A3). rewrite Ef in A1, A2, A3.
  exists k', Q'. split_and!; [done|done| |done|congruence| |].
  - rewrite Et. eapply Nat.le_lt_trans; [apply length_filter|done].
  - intros u. unfold ex. by rewrite Q2.
  - destruct (d <=? system_tick k) eqn:E.
    + by rewrite A1, orb_true_r, A2.
    + split; [|congruence]. rewrite Et. apply list_elem_of_filter. split; [|done].
      simpl. unfold fired in Ef. rewrite bool_decide_true in Ef by done. exact Ef.
Qed.

Lemma leb_ext (a b c d : Z) : a <= b <-> c <= d -> (a <=? b) = (c <=? d).
Proof. intros H. destruct (Z.leb_spec a b), (Z.leb_spec c d); try done; lia. Qed.

Lemma deadline_ticks (n fuel : nat) (t d : Z) : forall k Q,
  kgood ∅ k Q -> rt_interrupt_nest k ≠ 0 -> (length (Q NTimers) < fuel)%nat ->
  NTm t ∈ Q NTimers -> timeout_tick (timer_of k t) = d ->
  0 <= system_tick k <= d -> d + 1 < 2 ^ 32 -> ~ ex Q NULL ->
  Z.of_nat n <= d + 1 - system_tick k ->
  exists k', ticks n fuel k = Some k' /\
    if Z.of_nat n <=? d - system_tick k then awake (statu_of k' t) = false
    else awake (statu_of k' t) = true /\ error (thr k' t) = - RT_ETIMEOUT.
Proof.
  induction n as [|n IH]; intros k Q HG Hn Hf Hi Ed H0 H1 HN Hle.
  - exists k. split; [done|]. rewrite (proj2 (Z.leb_le _ _)) by lia.
    by destruct (linked_timer_thread k Q t HG Hi) as (_ & _ & [->| ->]).
  - destruct (tick_deadline fuel k Q t d HG Hn Hf Hi Ed) as (k1 & Q1 & Hb & HG1 & Hf1 & En & Et & Hx & Hcase);
      [lia|lia|done|].
    rewrite (came_back_ticks n fuel k k1 Hb). destruct (d <=? system_tick k) eqn:E.
    + assert (n = O) as -> by lia. exists k1. split; [done|].
      by rewrite (proj2 (Z.leb_gt _ _)) by lia.
    + destruct Hcase as [Hi1 Ed1].
      destruct (IH k1 Q1) as (k' & E' & H'); try done; try lia; [by rewrite Hx|].
      exists k'. split; [done|].
      rewrite (leb_ext (Z.of_nat (S n)) _ (Z.of_nat n) (d - system_tick k1)) by lia. exact H'.
Qed.

(** The state after [rt_thread_sleep]: another thread runs, the caller's timer is the
    first of the list. *)
Lemma sleep_timer (k : kernel) (Q : queues) (tick : Z) :
  kgood ∅ k Q -> running k -> rt_thread_ready_priority_group k ≠ 0 ->
  let t := rt_current_thread k in
  exists k1 Q1, r_kernel (rt_thread_sleep tick k) = Some k1 /\ kgood ∅ k1 Q1 /\ running k1 /\
    rt_current_thread k1 ≠ t /\ Q1 NTimers = NTm t :: filter (.≠ NTm t) (Q NTimers) /\
    timeout_tick (timer_of k1 t) = system_tick k +u tick /\
    system_tick k1 = system_tick k /\ rt_interrupt_nest k1 = rt_interrupt_nest k /\
    (forall u, ex Q1 u <-> ex Q u).
Proof.
  intros HG Hr Hg t.
  destruct (asleep_good tick k Q HG Hr) as (E & HG1 & Hs & Hd & Hc). fold t in HG1, Hs, Hd, Hc.
  set (Q0 := q_prepend (q_del Q (NT t)) NTimers (NTm t)) in *.
  destruct (quiet_sched ∅ _ _ HG1) as (k1 & Q1 & E1 & HG2 & [S1 S2 S3 S4 _ _ S7 S8 _] & _ & _ & Hrun).
  assert (Hst : statu_of k1 t = RT_THREAD_SLEEP).
  { destruct (S4 t) as (s & Es & _ & Hsl). unfold statu_of. rewrite Es. simpl. rewrite Hsl; [exact Hs|by rewrite Hs]. }
  assert (Hlive : live Q NTimers = true) by (by apply (W_live _ _ _ _ _ _ (kg_wf _ _ _ HG))).
  assert (HQT : Q NTimers = filter (.≠ NTm t) (Q NTimers)).
  { symmetry. apply filter_ne_notin. intros Hi.
    destruct (linked_timer_thread k Q t HG Hi) as (_ & _ & [H|H]); unfold running in Hr; fold t in Hr; congruence. }
  assert (HnT : NT t ∉ Q NTimers).
  { intros Hi. by destruct (W_timers _ _ _ _ _ _ (kg_wf _ _ _ HG) _ Hi) as (u & ? & _). }
  exists k1, Q1. rewrite E. split_and!.
  - done.
  - done.
  - apply Hrun. by apply (group_asleep k Q HG Hr).
  - intros Ec. specialize (Hrun (group_asleep k Q HG Hr tick Hg)). unfold running in Hrun. congruence.
  - rewrite S3. unfold Q0, q_prepend. rewrite q_set_eq. f_equal. rewrite <- HQT. simpl. by apply filter_ne_notin.
  - destruct (S4 t) as (s & Es & _). unfold timer_of. rewrite Es. exact Hd.
  - rewrite S8. destruct (timer_start_fields t (suspended (upd_thr t (t_timer (tm_init_tick tick)) k) t RT_THREAD_SLEEP))
      as (_ & _ & _ & _ & H & _).
    etransitivity; [exact H|]. by destruct (suspended_fields t RT_THREAD_SLEEP (upd_thr t (t_timer (tm_init_tick tick)) k))
      as (_ & _ & _ & _ & -> & _).
  - rewrite S7. destruct (timer_start_fields t (suspended (upd_thr t (t_timer (tm_init_tick tick)) k) t RT_THREAD_SLEEP))
      as (_ & _ & _ & H & _).
    etransitivity; [exact H|]. by destruct (suspended_fields t RT_THREAD_SLEEP (upd_thr t (t_timer (tm_init_tick tick)) k))
      as (_ & _ & _ & -> & _).
  - intros u. unfold ex at 1. rewrite S2. fold (ex Q0 u). unfold Q0. by rewrite ex_prepend_Tm, ex_del_T.
Qed.

(** C3: a thread that calls [rt_thread_sleep(tick)] outside of interrupts, while another one
    is ready and the tick counter is not about to pass 2^32 ([system_tick + tick + 1] is
    below), gives the processor up, sleeps through the next [tick] clock interrupts, and is
    ready after one more, when nothing else happens in between.  When no other thread is
    ready the call comes back at once and the timer list can be damaged
    ([idle_alone_hangs]). *)
Theorem sleep_wakes (k : kernel) (Q : queues) (tick : Z) (fuel n : nat) :
  kgood ∅ k Q -> running k -> rt_thread_ready_priority_group k ≠ 0 ->
  rt_interrupt_nest k = 0 -> ~ ex Q NULL ->
  0 <= system_tick k -> 0 <= tick -> system_tick k + tick + 1 < 2 ^ 32 ->
  (S (length (Q NTimers)) < fuel)%nat -> Z.of_nat n <= tick + 1 ->
  exists k1, r_kernel (rt_thread_sleep tick k) = Some k1 /\
    rt_current_thread k1 ≠ rt_current_thread k /\
    exists k2, ticks n fuel (rt_interrupt_enter k1) = Some k2 /\
      if Z.of_nat n <=? tick then awake (statu_of k2 (rt_current_thread k)) = false
      else awake (statu_of k2 (rt_current_thread k)) = true /\
           error (thr k2 (rt_current_thread k)) = - RT_ETIMEOUT.
Proof.
  intros HG Hr Hg Hn HN H0 Ht Hmax Hf Hle.
  destruct (sleep_timer k Q tick HG Hr Hg) as (k1 & Q1 & E1 & HG1 & Hr1 & Hc1 & ET & Ed & Es & En & Hx).
  exists k1. split_and!; [done|done|].
  assert (Ed' : timeout_tick (timer_of k1 (rt_current_thread k)) = system_tick k + tick)
    by (rewrite Ed; apply u32_small; lia).
  assert (HG2 : kgood ∅ (rt_interrupt_enter k1) Q1) by (destruct HG1; by split).
  destruct (deadline_ticks n fuel (rt_current_thread k) (system_tick k + tick) _ Q1 HG2) as (k2 & E2 & H2).
  - change (rt_interrupt_nest k1 +u 1 ≠ 0). rewrite En, Hn. done.
  - rewrite ET. simpl. eapply Nat.le_lt_trans; [apply le_n_S, length_filter|]. lia.
  - rewrite ET. apply list_elem_of_here.
  - exact Ed'.
  - change (0 <= system_tick k1 <= system_tick k + tick). lia.
  - lia.
  - by rewrite Hx.
  - change (Z.of_nat n <= system_tick k + tick + 1 - system_tick k1). lia.
  - exists k2. split; [done|]. change (system_tick (rt_interrupt_enter k1)) with (system_tick k1) in H2.
    rewrite (leb_ext _ _ (Z.of_nat n) (system_tick k + tick - system_tick k1)) by lia. exact H2.
Qed.

Lemma sleep_wakes_witness : kgood ∅ demo demo_queues /\ running demo /\
  (exists k1, r_kernel (rt_thread_sleep 3 demo) = Some k1 /\
   exists k2, ticks 3 9 (rt_interrupt_enter k1) = Some k2 /\ awake (statu_of k2 THR_A) = false) /\
  (exists k1, r_kernel (rt_thread_sleep 3 demo) = Some k1 /\
   exists k2, ticks 4 9 (rt_interrupt_enter k1) = Some k2 /\ awake (statu_of k2 THR_A) = true).
Proof.
  assert (Hn : rt_interrupt_nest demo = 0) by (vm_compute; reflexivity).
  assert (Hx : ~ ex demo_queues NULL) by (eapply not_listed; vm_compute; reflexivity).
  assert (H0 : 0 <= system_tick demo) by (vm_compute; congruence).
  assert (Hm : system_tick demo + 3 + 1 < 2 ^ 32) by (vm_compute; reflexivity).
  assert (Hf : (S (length (demo_queues NTimers)) < 9)%nat) by (vm_compute; lia).
  assert (E : rt_current_thread demo = THR_A) by (vm_compute; reflexivity).
  split; [exact demo_good|split; [exact demo_running|split]].
  - destruct (sleep_wakes demo demo_queues 3 9 3 demo_good demo_running demo_group Hn Hx H0)
      as (k1 & H1 & _ & k2 & H2 & H3); [lia|exact Hm|exact Hf|lia|].
    exists k1. split; [exact H1|]. exists k2. split; [exact H2|]. rewrite E in H3. exact H3.
  - destruct (sleep_wakes demo demo_queues 3 9 4 demo_good demo_running demo_group Hn Hx H0)
      as (k1 & H1 & _ & k2 & H2 & H3); [lia|exact Hm|exact Hf|lia|].
    exists k1. split; [exact H1|]. exists k2. split; [exact H2|]. rewrite E in H3. apply H3.
Defined.

(** ** Threads *)

(** [rt_thread_resume] makes a sleeping or waiting thread ready at the tail of its
    priority's queue, with its timer stopped, and refuses a thread in any other state
    without changing anything. *)
Theorem resume_spec (k : kernel) (Q : queues) (t : Z) : kgood ∅ k Q -> ex Q t ->
  if bool_decide (statu_of k t = RT_THREAD_SLEEP) || bool_decide (statu_of k t = RT_THREAD_SUSPEND)
  then exists k' Q', rt_thread_resume t k = (RT_EOK, k') /\ kgood ∅ k' Q' /\
    flag (timer_of k' t) = RT_TIMER_FLAG_NO_ACTIVATED /\
    (t ≠ rt_current_thread k ->
       statu_of k' t = RT_THREAD_READY /\
       exists l, Q' (NReady (current_priority (thr k t))) = l ++ [NT t]) /\
    (forall u, u ≠ t -> thr k' u = thr k u)
  else rt_thread_resume t k = (- RT_ERROR, k).
Proof.
  intros HG Ht. destruct (bool_decide (statu_of k t = RT_THREAD_SLEEP) || bool_decide (statu_of k t = RT_THREAD_SUSPEND)) eqn:E.
  - assert (Hs : statu_of k t = RT_THREAD_SLEEP \/ statu_of k t = RT_THREAD_SUSPEND).
    { apply orb_true_iff in E as [E|E]; apply bool_decide_eq_true in E; auto. }
    destruct (resume_good k Q t HG Ht Hs) as (H1 & H2 & H3 & H4 & _).
    exists (resumed t k), (resume_queues k Q t). split_and!; [done|done| | |done].
    + pose proof (W_status _ _ _ _ _ _ (kg_wf _ _ _ H2) t) as HS.
      assert (Hx : ex (resume_queues k Q t) t) by by apply ex_resume.
      specialize (HS Hx (not_elem_of_empty t)). unfold status_ok, statu_of, wake_status in *.
      rewrite H3 in HS. unfold timer_of. destruct (decide (t = rt_current_thread k)), HS as [_ [HS|HS]]; done.
    + intros Hne. rewrite H3. unfold wake_status, resume_queues, wake_queues.
      rewrite !decide_False by done. split; [done|]. simpl. rewrite fupd_eq. by eexists.
  - apply orb_false_iff in E as [E1 E2]. apply bool_decide_eq_false in E1, E2. by apply resume_refused.
Qed.

Lemma resume_spec_witness : kgood ∅ demo_asleep demo_asleep_queues /\ ex demo_asleep_queues THR_A /\
  exists k', rt_thread_resume THR_A demo_asleep = (RT_EOK, k') /\ statu_of k' THR_A = RT_THREAD_READY.
Proof.
  assert (Hx : ex demo_asleep_queues THR_A) by (apply listed_ex; vm_compute; reflexivity).
  split; [exact demo_asleep_good|split; [exact Hx|]].
  pose proof (resume_spec demo_asleep demo_asleep_queues THR_A demo_asleep_good Hx) as H.
  assert (E : statu_of demo_asleep THR_A = RT_THREAD_SLEEP) by (vm_compute; reflexivity).
  rewrite E in H. destruct H as (k' & Q' & H1 & _ & _ & H2 & _). exists k'. split; [exact H1|].
  apply H2. vm_compute. discriminate.
Defined.

(** a kill closes the thread with the given identifier, whatever it was doing, and
    keeps the invariant; the idle and shell threads and an unknown identifier are left
    alone, without any change of the kernel. *)
Theorem kill_closes (fuel : nat) (ident : Z) (k : kernel) (Q : queues) :
  kgood ∅ k Q -> 0 <= ident < 2 ^ 31 -> (length (Q NAll) < fuel)%nat ->
  (forall t, ex Q t -> cstring (name (thr k t))) ->
  exists r k' Q', killThreadFun fuel ident k = Some r /\ r_kernel r = Some k' /\
    kgood ∅ k' Q' /\ (forall u, ex Q' u <-> ex Q u) /\
    match find_spec k ident (Q NAll) with
    | Some t => id (thr k t) = ident /\
                if decide (name (thr k t) = str_idle \/ name (thr k t) = str_shell)
                then k' = k else statu_of k' t = RT_THREAD_CLOSE
    | None => k' = k
    end.
Proof.
  intros HG Hi Hf Hc. destruct (kill_good fuel ident k Q HG Hi Hf) as (r & k' & Q' & H1 & H2 & H3 & H4 & H5).
  exists r, k', Q'. split_and!; [done..|]. destruct (find_spec k ident (Q NAll)) as [t|] eqn:E; [|done].
  destruct (find_spec_some _ _ _ _ E) as [Hin Hid]. split; [done|].
  destruct (decide _); [done|]. apply H5, Hc, Hin.
Qed.

Lemma demo_names (t : Z) : ex demo_queues t -> cstring (name (thr demo t)).
Proof.
  intros Ht. assert (E : demo_queues NAll = [NA THR_B; NA THR_A; NA IDLE]) by (vm_compute; reflexivity).
  unfold ex in Ht. rewrite E in Ht.
  apply list_elem_of_In in Ht. destruct Ht as [H|[H|[H|[]]]]; injection H as <-;
    (match goal with |- cstring ?n => let v := eval vm_compute in n in change n with v end);
    repeat constructor; done.
Qed.

Lemma kill_closes_witness : kgood ∅ demo demo_queues /\
  exists r k', killThreadFun 9 2 demo = Some r /\ r_kernel r = Some k' /\
    statu_of k' THR_B = RT_THREAD_CLOSE.
Proof.
  split; [exact demo_good|].
  destruct (kill_closes 9 2 demo demo_queues demo_good) as (r & k' & Q' & H1 & H2 & _ & _ & H3);
    [lia|vm_compute; lia|exact demo_names|].
  exists r, k'. split; [exact H1|split; [exact H2|]].
  assert (E : find_spec demo 2 (demo_queues NAll) = Some THR_B) by (vm_compute; reflexivity).
  rewrite E in H3. destruct H3 as [_ H3].
  destruct (decide (name (thr demo THR_B) = str_idle \/ name (thr demo THR_B) = str_shell)) as [D|D].
  - exfalso. destruct D as [D|D]; vm_compute in D; discriminate.
  - exact H3.
Defined.

(** The closed threads are those on the dead list. *)
Lemma dead_closed (k : kernel) (Q : queues) (u : Z) : kgood ∅ k Q -> running k ->
  NT u ∈ Q NDead <-> ex Q u /\ statu_of k u = RT_THREAD_CLOSE.
Proof.
  intros HG Hr. pose proof (kg_wf _ _ _ HG) as HW.
  assert (Hl : live Q NDead = true) by by apply HW. split.
  - intros Hi. destruct (W_home _ _ _ _ _ _ HW NDead _ Hl eq_refl Hi) as (t & [= <-] & Hx). split; [done|].
    apply (reclaim_good k Q u HG Hi). unfold running in Hr. congruence.
  - intros [Hx Hc]. pose proof (W_status _ _ _ _ _ _ HW u Hx (not_elem_of_empty u)) as Hs.
    unfold status_ok, statu_of in *. rewrite Hc in Hs. apply Hs.
Qed.

Lemma idle_body_good (fuel : nat) (k : kernel) (Q : queues) :
  kgood ∅ k Q -> running k -> (length (Q NDead) < fuel)%nat ->
  if bool_decide (Q NDead = []) then idle_thread_body fuel k = IdleDelay (rt_thread_delay 1000 k)
  else exists k' Q', idle_thread_body fuel k = IdleCleaned k' (frees_of k (Q NDead)) /\
    kgood ∅ k' Q' /\ Q' NDead = [] /\ thr k' = thr k /\
    (forall u, ex Q' u <-> ex Q u /\ statu_of k u ≠ RT_THREAD_CLOSE).
Proof.
  intros HG Hr Hf. pose proof HG as [HW HC HK].
  assert (Hl : live Q NDead = true) by by apply (W_live _ _ _ _ _ _ HW).
  unfold idle_thread_body. rewrite (qwf_isempty _ _ (W_q _ _ _ _ _ _ HW) NDead Hl).
  case_bool_decide as E; [done|]. unfold rt_hw_interrupt_disable.
  assert (HG0 : kgood ∅ (set_ie false k) Q) by by apply kgood_ie.
  destruct (idle_clean_good (Q NDead) fuel (set_ie false k) Q HG0) as (k' & Q' & E1 & HG' & E2 & E3 & _ & E5);
    [unfold running in Hr; change (statu_of k (rt_current_thread k) ≠ RT_THREAD_CLOSE); congruence|done|done|].
  change (lk (set_ie false k)) with (lk k) in *.
  rewrite (qwf_next _ _ (W_q _ _ _ _ _ _ HW) NDead Hl). rewrite E1.
  exists (set_ie (ie k) k'), Q'. split_and!; [done|by apply kgood_ie|done|exact E3|].
  intros u. rewrite E5, (dead_closed k Q u HG Hr). tauto.
Qed.

(** a pass of the idle thread takes every closed thread off the dead list and off
    the list of all threads and hands its stack and its record to [free], in that
    order, and no other block; with no dead thread it sleeps. *)
Theorem idle_reclaims (fuel : nat) (k : kernel) (Q : queues) :
  kgood ∅ k Q -> running k -> (length (Q NDead) < fuel)%nat ->
  if bool_decide (Q NDead = []) then idle_thread_body fuel k = IdleDelay (rt_thread_delay 1000 k)
  else exists k' Q', idle_thread_body fuel k = IdleCleaned k' (frees_of k (Q NDead)) /\
    kgood ∅ k' Q' /\ Q' NDead = [] /\ thr k' = thr k /\
    (forall u, ex Q' u <-> ex Q u /\ statu_of k u ≠ RT_THREAD_CLOSE).
Proof. apply idle_body_good. Qed.

Lemma idle_reclaims_witness : exists k Q, kgood ∅ k Q /\ running k /\
  exists k', idle_thread_body 9 k = IdleCleaned k' [0x30000; THR_B].
Proof.
  assert (Hx : ex demo_queues THR_B) by (apply listed_ex; vm_compute; reflexivity).
  destruct (close_good demo demo_queues THR_B demo_good Hx) as (HG & _ & Ht & Hc & _).
  assert (Hr : running (close_thread THR_B demo)).
  { unfold running, statu_of. rewrite Hc, Ht; [vm_compute; reflexivity|vm_compute; discriminate]. }
  exists (close_thread THR_B demo), (close_queues demo_queues THR_B).
  split; [exact HG|split; [exact Hr|]].
  pose proof (idle_reclaims 9 _ _ HG Hr) as H.
  assert (E : close_queues demo_queues THR_B NDead = [NT THR_B]) by (vm_compute; reflexivity).
  rewrite E in H. destruct H as (k' & Q' & H1 & _); [simpl; lia|].
  exists k'. rewrite H1. reflexivity.
Defined.

(** When [thread_join_init] does not come back: a call of the allocator does not. *)
Definition creation_blocks {H : Type} `{Allocator H} (stackSize : Z) (h : H) : Prop :=
  malloc SIZEOF_RT_THREAD h = None \/
  exists t h1, malloc SIZEOF_RT_THREAD h = Some (t, h1) /\ t ≠ NULL /\
    (stackSize = 0 /\ free t h1 = None \/
     stackSize ≠ 0 /\ (malloc (u32 stackSize) h1 = None \/ exists h2, malloc (u32 stackSize) h1 = Some (NULL, h2) /\ free t h2 = None)).

Lemma thread_join_init_blocks {H : Type} `{Allocator H} (status gp texit : Z) (nm : list Z)
    (fn userdata stackSize priority runtick : Z) (s : threads H) :
  thread_join_init status gp texit nm fn userdata stackSize priority runtick s = None <->
  priority < RT_THREAD_PRIORITY_MAX /\ creation_blocks stackSize (th_heap s).
Proof.
  unfold thread_join_init, creation_blocks. rewrite Z.gtb_ltb. destruct (Z.ltb_spec (RT_THREAD_PRIORITY_MAX - 1) priority) as [Hp|Hp]; [split; [done|intros [? _]; lia]|].
  assert (priority < RT_THREAD_PRIORITY_MAX) by lia. destruct (malloc SIZEOF_RT_THREAD (th_heap s)) as [[t h1]|]; [|by split; [auto|]].
  destruct (Z.eqb_spec t NULL) as [->|Ht]; [split; [done|intros (_ & [?|(t' & h' & [= <- <-] & ? & _)]); done]|].
  destruct (Z.eqb_spec stackSize 0) as [E|E].
  - destruct (free t h1) eqn:Ef; split; try done.
    + intros (_ & [?|(t' & h' & [= <- <-] & _ & [[_ ?]|[? _]])]); congruence.
    + intros _. split; [done|]. right. exists t, h1. auto.
  - destruct (malloc (u32 stackSize) h1) as [[stack h2]|] eqn:Em; [|split; [intros _; split; [done|]; right; exists t, h1; split_and!; [done|done|]; right; auto|done]].
    assert (Hno : forall P, (P /\ ((Some (t, h1) = None :> option (Z * H)) \/ exists t' h', Some (t, h1) = Some (t', h') /\ t' ≠ NULL /\
      (stackSize = 0 /\ free t' h' = None \/ stackSize ≠ 0 /\ (malloc (u32 stackSize) h' = None \/ exists h3, malloc (u32 stackSize) h' = Some (NULL, h3) /\ free t' h3 = None)))) ->
      stack = NULL /\ free t h2 = None).
    { intros P (_ & [?|(t' & h' & [= <- <-] & _ & [[? _]|[_ [E0|(h3 & E3 & Ef)]]])]); [done|done|congruence|].
      rewrite Em in E3. injection E3 as -> ->. done. }
    destruct (Z.eqb_spec stack NULL) as [->|Hs].
    + destruct (free t h2) eqn:Ef; split; try done.
      * intros Hc%Hno. by destruct Hc.
      * intros _. split; [done|]. right. exists t, h1. split_and!; [done|done|]. right. eauto.
    + split; [done|]. intros Hc%Hno. by destruct Hc.
Qed.

(** C12: [thread_join_init] with a priority that is not negative (the code does not check
    this) and a stack of 0 or more than 156 bytes, for an allocator whose blocks lie inside
    the address space and overlap no thread.  When it comes back, it has added exactly one
    thread, ready at the tail of its priority's queue with a fresh identifier, and kept the
    invariant, or it has returned [NULL] (priority above 31, a stack of size 0, no memory),
    added nothing and changed nothing but that the interrupts stay disabled once threads
    run.  It comes back exactly when the calls of the allocator that it makes do: it blocks
    when the record cannot be given back after [malloc] has refused the stack, which is
    what the heap of os/mem.c does with a stack larger than the heap ([malloc_spec] in
    HeapSpec.v). *)
Theorem thread_join_init_spec {H : Type} `{Allocator H} (status gp texit : Z) (nm : list Z)
    (fn userdata stackSize priority runtick : Z) (s : threads H) (Q : queues) :
  kgood ∅ (tk s) Q -> 0 <= priority -> (stackSize = 0 \/ 156 < stackSize) ->
  (* documented of malloc: a block lies inside the address space *)
  (forall n h a h', malloc n h = Some (a, h') -> a ≠ NULL -> 0 < a /\ a + n < 2 ^ 32) ->
  stackSize < 2 ^ 32 ->
  (thread_join_init status gp texit nm fn userdata stackSize priority runtick s = None <->
   priority < RT_THREAD_PRIORITY_MAX /\ creation_blocks stackSize (th_heap s)) /\
  (forall s' r, thread_join_init status gp texit nm fn userdata stackSize priority runtick s = Some (r, s') ->
    (* documented of malloc: a new block is not one in use *)
    ~ ex Q r ->
    if r =? NULL then
      tk s' = (if rt_current_thread (tk s) =? NULL then tk s else set_ie false (tk s)) /\ threadIdIndex s' = threadIdIndex s
    else priority < RT_THREAD_PRIORITY_MAX /\ kgood ∅ (tk s') (enlist_queues Q r priority) /\
      (forall u, ex (enlist_queues Q r priority) u <-> u = r \/ ex Q u) /\
      statu_of (tk s') r = RT_THREAD_READY /\ id (thr (tk s') r) = threadIdIndex s /\
      current_priority (thr (tk s') r) = priority /\
      enlist_queues Q r priority (NReady priority) = Q (NReady priority) ++ [NT r] /\
      threadIdIndex s' = threadIdIndex s +u 1).
Proof.
  intros HG Hp Hsz Hblk Hmax. split; [apply thread_join_init_blocks|]. intros s' r E Hx. pose proof E as E0. destruct (r =? NULL) eqn:Er.
  - apply Z.eqb_eq in Er. subst r. apply thread_join_init_refused in E as [E1 E2].
    done.
  - unfold thread_join_init in E. destruct (priority >? RT_THREAD_PRIORITY_MAX - 1) eqn:Epr.
    { injection E as E _. by subst r. }
    assert (Hpr : 0 <= priority < RT_THREAD_PRIORITY_MAX) by lia.
    destruct (malloc SIZEOF_RT_THREAD (th_heap s)) as [[t h1]|] eqn:Em; [|done].
    destruct (t =? NULL) eqn:Et; [by injection E as E _; subst r|].
    destruct (stackSize =? 0) eqn:Es0.
    { destruct (free t h1); [|done]. by injection E as E _; subst r. }
    destruct (malloc (u32 stackSize) h1) as [[stack h2]|] eqn:Em2; [|done].
    destruct (stack =? NULL) eqn:Est.
    { destruct (free t h2); [|done]. by injection E as E _; subst r. }
    clear E. rewrite (thread_join_init_ok status gp texit nm fn userdata stackSize priority runtick s t stack h1 h2)
      in E0 by (first [done|lia]).
    injection E0 as <- <-. simpl tk in *. simpl threadIdIndex.
    rewrite u32_small in Em2 by lia. destruct (Hblk _ _ _ _ Em2) as [B1 B2]; [lia|].
    destruct (new_thread_fields status gp texit nm (threadIdIndex s) fn userdata stack stackSize priority runtick Hpr)
      as (F1 & F2 & F3 & F4).
    set (th := new_thread status gp texit nm (threadIdIndex s) fn userdata stack stackSize priority runtick) in *.
    destruct (enlist_fields t priority th (tk s) F1 F2) as (G1 & _).
    assert (Ek : forall k', thr k' t = th -> _rt_scheduler_stack_check k' t = true).
    { intros k' Ek. eapply (new_thread_stack_ok _ _ _ _ _ _ _ _ _ _ _ k' t B1 _ B2 Ek). }
    pose proof (ex_fresh (tk s) Q t (kg_wf _ _ _ HG) Hx) as HF.
    split_and!.
    + lia.
    + by apply create_good.
    + intros u. apply enlist_ex.
    + unfold statu_of. by rewrite G1, fupd_eq.
    + by rewrite G1, fupd_eq.
    + by rewrite G1, fupd_eq.
    + unfold enlist_queues, q_append. rewrite q_set_eq. unfold q_prepend. by rewrite q_set_ne.
    + done.
Unshelve. lia.
Qed.

Lemma thread_join_init_spec_witness : kgood ∅ demo demo_queues /\
  exists s', @thread_join_init Z bump_heap 0 0 0 [99] 0x80010000 0 2048 4 5 (Threads demo 0x40000 7)
               = Some (0x40000, s') /\
    statu_of (tk s') 0x40000 = RT_THREAD_READY /\ id (thr (tk s') 0x40000) = 7.
Proof.
  split; [exact demo_good|].
  assert (Hx : ~ ex demo_queues 0x40000) by (eapply not_listed; vm_compute; reflexivity).
  assert (E : exists s', @thread_join_init Z bump_heap 0 0 0 [99] 0x80010000 0 2048 4 5
            (Threads demo 0x40000 7) = Some (0x40000, s')).
  { eexists. apply (@thread_join_init_ok Z bump_heap 0 0 0 [99] 0x80010000 0 2048 4 5
      (Threads demo 0x40000 7) 0x40000 0x40084 0x40084 0x40884); try done. }
  destruct E as [s' E]. exists s'. split; [exact E|].
  destruct (@thread_join_init_spec Z bump_heap 0 0 0 [99] 0x80010000 0 2048 4 5 (Threads demo 0x40000 7)
    demo_queues demo_good) as [_ Hspec]; [lia|right; lia|exact bump_blocks|lia|].
  destruct (Hspec s' 0x40000 E Hx) as (_ & _ & _ & H1 & H2 & _). split; [exact H1|exact H2].
Defined.

(** whatever memory holds, [thread_init] and any sequence of creations end in a
    state from which [thread_start] runs a thread of the highest priority, the one
    created first among them, with the invariant established. *)
Theorem boot_starts (T : gset Z) (k : kernel) : boots T k ->
  rt_thread_ready_priority_group k ≠ 0 ->
  exists to k1 Q rest, thread_start k = SSwitch k1 NULL to /\ to ∈ T /\
    sys_inv (Cfg kernel_head T k1) Q /\
    rt_current_thread k1 = to /\
    (forall u, u ∈ T -> current_priority (thr k to) <= current_priority (thr k u)) /\
    (exists Q0, kboot k Q0 /\ Q0 (NReady (current_priority (thr k to))) = NT to :: rest).
Proof.
  intros HB Hg. destruct (boots_good T k HB) as (Q0 & HK & HL & HT & HN & HR).
  destruct (start_good k Q0 HK Hg) as (p & to & rest & Hp & Er & Hlow & E & HG & Ec & Es).
  destruct (start_inv T k HB Hg) as (to' & k1 & Q & E' & HI). rewrite E in E'. injection E' as <- <-.
  pose proof (kb_wf _ _ HK) as HW.
  destruct (on_ready ∅ k Q0 HW p (NT to) Hp) as (t & Et & Hex & Ept & _);
    [rewrite Er; apply list_elem_of_here|]. injection Et as <-.
  exists to, (started to k), Q, rest. split_and!; [done|by apply HT|done|done| |].
  - intros u Hu. rewrite Ept. destruct (W_prio _ _ _ _ _ _ HW u (proj2 (HT u) Hu)) as [Hpu _].
    destruct (decide (p <= current_priority (thr k u))) as [|Hlt]; [done|]. exfalso.
    pose proof (W_status _ _ _ _ _ _ HW u (proj2 (HT u) Hu) (not_elem_of_empty u)) as Hs.
    pose proof (HR u Hu) as Hru. unfold status_ok, statu_of in *. rewrite Hru in Hs.
    destruct Hs as [Hs _]. rewrite Hlow in Hs by lia. by apply elem_of_nil in Hs.
  - exists Q0. by rewrite Ept.
Qed.

Lemma boot_starts_witness : boots demo_threads demo_boot /\
  rt_thread_ready_priority_group demo_boot ≠ 0 /\
  exists k1, thread_start demo_boot = SSwitch k1 NULL THR_A /\ rt_current_thread k1 = THR_A.
Proof.
  assert (Hg : rt_thread_ready_priority_group demo_boot ≠ 0) by (intros E; vm_compute in E; discriminate).
  split; [exact demo_boots|split; [exact Hg|]].
  destruct (boot_starts demo_threads demo_boot demo_boots Hg) as (to & k1 & Q & rest & E & _ & _ & Ec & _).
  exists k1. destruct demo_inv as (E' & _). rewrite E' in E. injection E as <- <-. split; [exact E'|exact Ec].
Defined.

(** ** A state the invariant excludes *)

Lemma timer_loop_stuck (fuel : nat) (t : Z) (k : kernel) :
  nxt (lk k) (NTm t) = NTm t -> (timeout_tick (timer_of k t) <? system_tick k) = false ->
  rt_timer_check_loop fuel (NTm t) (NTm t) k = SHang.
Proof.
  intros Hn Ht. induction fuel as [|fuel IH]; [done|]. cbn [rt_timer_check_loop].
  rewrite decide_False by done. cbn [timelist_entry]. rewrite Ht, andb_false_r. cbn [sbind].
  by rewrite Hn.
Qed.

Lemma timer_check_stuck (fuel : nat) (t : Z) (k : kernel) :
  nxt (lk k) NTimers = NTm t -> nxt (lk k) (NTm t) = NTm t ->
  (timeout_tick (timer_of k t) <? system_tick k) = false ->
  rt_timer_check fuel k = SHang.
Proof.
  intros H1 Hn Ht. unfold rt_timer_check, rt_hw_interrupt_disable.
  change (lk (set_ie false k)) with (lk k). rewrite H1, Hn. by rewrite timer_loop_stuck.
Qed.

Definition after (r : sched_result) (k : kernel) : kernel := default k (r_kernel r).

(** C14: when the idle thread is the only ready thread, [rt_schedule] comes back to it
    although it is marked asleep; its next [rt_thread_delay] then links its timer a
    second time, the timer list closes on itself, and the next [rt_timer_check] never
    ends. *)
Theorem idle_alone_hangs :
  (forall fuel, idle_thread_body fuel lone = IdleDelay (rt_thread_delay 1000 lone)) /\
  let k1 := after (rt_thread_delay 1000 lone) lone in
  r_returns (rt_thread_delay 1000 lone) = true /\
  statu_of k1 (rt_current_thread k1) = RT_THREAD_SLEEP /\
  let k2 := after (rt_thread_delay 1000 k1) k1 in
  r_returns (rt_thread_delay 1000 k1) = true /\
  forall fuel, rt_timer_check fuel k2 = SHang.
Proof.
  split; [intros fuel; unfold idle_thread_body|intros k1; split_and!].
  - assert (E : rt_list_isempty (lk lone) NDead = true) by (vm_compute; reflexivity). by rewrite E.
  - vm_compute. reflexivity.
  - vm_compute. reflexivity.
  - intros k2. split; [vm_compute; reflexivity|]. intros fuel.
    apply (timer_check_stuck fuel IDLE); vm_compute; reflexivity.
Qed.
