(* ===== verification/IpcSpec.v ===== *)
(** * What semaphores and mailboxes guarantee
    A semaphore refines a counter with a queue of waiters, a mailbox a bounded queue of
    messages; the calls are related to these on every branch. *)

From S2P Require Import Prelude Bits RtList Kernel KernelInv Sched ThreadOps Lifecycle Ipc IpcInv Mailbox System Demo.

(** ** Semaphores *)

(** A semaphore is a count and the threads that wait, first come first. *)
Definition sem_state : Type := Z * list node.

Definition sem_abs (k : kernel) (Q : queues) (s : Z) : sem_state := (sem_value k s, Q (NSem s)).

Inductive take_outcome := Taken | Refused | Waits.

Definition take_spec (t time : Z) (a : sem_state) : take_outcome * sem_state :=
  let '(v, l) := a in
  if 0 <? v then (Taken, (v - 1, l))
  else if time =? 0 then (Refused, (v, l))
  else (Waits, (v, l ++ [NT t])).

(** The thread the unit goes to, if one waits. *)
Definition release_spec (a : sem_state) : option node * sem_state :=
  let '(v, l) := a in
  match l with
  | [] => (None, (v + 1, []))
  | n :: l => (Some n, (v, l))
  end.

(** C6: [rt_sem_take] refines the abstract semaphore: it takes a unit at once, or
    reports the timeout of a poll, or puts the caller at the tail of the waiters and
    calls the scheduler; the invariant holds in each case. *)
Theorem sem_take_refines (k : kernel) (Q : queues) (s time : Z) :
  kgood ∅ k Q -> running k -> live Q (NSem s) = true ->
  rt_current_thread k ≠ NULL -> rt_interrupt_nest k = 0 -> 0 <= sem_value k s < 2 ^ 16 ->
  let t := rt_current_thread k in
  exists k1 Q1, kgood ∅ k1 Q1 /\ sem_abs k1 Q1 s = snd (take_spec t time (sem_abs k Q s)) /\
    match fst (take_spec t time (sem_abs k Q s)) with
    | Taken => rt_sem_take s time k = IDone RT_EOK k1
    | Refused => rt_sem_take s time k = IDone (- RT_ETIMEOUT) k1
    | Waits => rt_sem_take s time k = ISched (rt_schedule k1) (resumed_error t) /\
               statu_of k1 t = RT_THREAD_SUSPEND
    end.
Proof.
  intros HG Hr Hl Hc Hn Hv t. unfold sem_abs, take_spec.
  destruct (Z.ltb_spec 0 (sem_value k s)) as [H|H].
  - exists (set_sem s (sem_value k s - 1) k), Q. simpl. split_and!; [by apply set_sem_good| |].
    + by rewrite fupd_eq.
    + apply sem_take_now. lia.
  - assert (E : sem_value k s = 0) by lia. destruct (Z.eqb_spec time 0) as [->|Ht].
    + exists k, Q. simpl. split_and!; [done|done|]. by apply sem_take_poll.
    + destruct (sem_take_wait k Q HG s time E Ht Hl Hr Hc Hn) as (H1 & H2 & H3 & H4).
      destruct (block_good k Q HG (NSem s) time Hl eq_refl Hr) as (_ & _ & _ & _ & _ & _ & Hs & _).
      exists (blocked k (NSem s) time t), (block_queues Q (NSem s) t time). cbn [fst snd].
      split_and!; [done| |done|done]. unfold t. by rewrite H3, Hs.
Qed.

(** The semaphore at [0x4000] of the small system, without units. *)
Definition demo_s : kernel := snd (rt_sem_init 0x4000 0 demo).
Definition demo_s_queues : queues := q_open demo_queues (NSem 0x4000).

Lemma demo_s_inv : kgood ∅ demo_s demo_s_queues /\ running demo_s.
Proof.
  destruct (boots_good _ _ demo_boots) as (Q0 & _).
  assert (HI : sys_inv (Cfg (live demo_queues) demo_threads demo) demo_queues).
  { split; simpl.
    - apply demo_good.
    - apply demo_running.
    - done.
    - intros t. unfold ex. assert (E : demo_queues NAll = [NA THR_B; NA THR_A; NA IDLE]) by (vm_compute; reflexivity).
      rewrite E. unfold demo_threads. set_solver.
    - intros s Hs. by vm_compute in Hs.
    - unfold demo_threads. set_solver by num. }
  destruct (step_sem_init (live demo_queues) demo_threads demo demo_queues HI 0x4000 0 eq_refl)
    as [HG Hr _ _ _ _]. split; [exact HG|exact Hr].
Qed.

(** A waits for a unit. *)
Definition demo_w : kernel := blocked demo_s (NSem 0x4000) 5 THR_A.
Definition demo_w_queues : queues := block_queues demo_s_queues (NSem 0x4000) THR_A 5.

Lemma demo_w_good : kgood ∅ demo_w demo_w_queues.
Proof.
  destruct demo_s_inv as [HG Hr].
  assert (Ec : rt_current_thread demo_s = THR_A) by (vm_compute; reflexivity).
  unfold demo_w, demo_w_queues. rewrite <- Ec.
  apply (block_good demo_s demo_s_queues HG); [vm_compute; reflexivity|done|done].
Qed.

Lemma sem_take_refines_witness : kgood ∅ demo_s demo_s_queues /\ running demo_s /\
  exists k1 Q1, rt_sem_take 0x4000 5 demo_s = ISched (rt_schedule k1) (resumed_error THR_A) /\
    sem_abs k1 Q1 0x4000 = (0, [NT THR_A]).
Proof.
  destruct demo_s_inv as [HG Hr]. split; [exact HG|split; [exact Hr|]].
  destruct (sem_take_refines demo_s demo_s_queues 0x4000 5 HG Hr) as (k1 & Q1 & _ & H2 & H3);
    [vm_compute; reflexivity|vm_compute; discriminate|vm_compute; reflexivity|vm_compute; split; congruence|].
  assert (E : sem_abs demo_s demo_s_queues 0x4000 = (0, [])) by (vm_compute; reflexivity).
  assert (Ec : rt_current_thread demo_s = THR_A) by (vm_compute; reflexivity).
  rewrite E, Ec in H2, H3. exists k1, Q1. split; [apply H3|exact H2].
Defined.

(** C7: [rt_sem_release] refines the abstract semaphore: with no waiter the count
    grows by one; otherwise the count stays and the unit goes to the thread that has
    waited longest, which becomes ready, and the scheduler is called. *)
Theorem sem_release_refines (k : kernel) (Q : queues) (s : Z) :
  kgood ∅ k Q -> live Q (NSem s) = true -> 0 <= sem_value k s < 2 ^ 16 - 1 ->
  exists k1 Q1, kgood ∅ k1 Q1 /\ sem_abs k1 Q1 s = snd (release_spec (sem_abs k Q s)) /\
    match fst (release_spec (sem_abs k Q s)) with
    | None => rt_sem_release s k = IDone RT_EOK k1
    | Some n => exists t, n = NT t /\ rt_sem_release s k = ISched (rt_schedule k1) ret_ok /\
        statu_of k t = RT_THREAD_SUSPEND /\ statu_of k1 t = wake_status k t
    end.
Proof.
  intros HG Hl Hv. unfold sem_abs, release_spec.
  destruct (wait_cases k Q HG (NSem s) Hl eq_refl) as [E|(t & rest & E)]; rewrite E.
  - exists (set_sem s (sem_value k s + 1) k), Q. cbn [fst snd]. split_and!; [by apply set_sem_good| |].
    + simpl. by rewrite fupd_eq, E.
    + by apply (sem_release_free k Q HG s Hl E).
  - destruct (sem_release_handoff k Q HG s Hl t rest E) as (H1 & H2 & H3 & H4 & H5).
    exists (resumed t k), (resume_queues k Q t). cbn [fst snd]. split_and!; [done|by rewrite H3, H5|].
    exists t. split_and!; [done|done| |done].
    destruct (on_wait k Q (NSem s) (NT t) (kg_wf _ _ _ HG) Hl eq_refl) as (u & Eu & _ & Hu);
      [rewrite E; apply list_elem_of_here|]. by injection Eu as <-.
Qed.

Lemma sem_release_refines_witness : kgood ∅ demo_w demo_w_queues /\
  sem_abs demo_w demo_w_queues 0x4000 = (0, [NT THR_A]) /\
  exists k1 Q1, rt_sem_release 0x4000 demo_w = ISched (rt_schedule k1) ret_ok /\
    sem_abs k1 Q1 0x4000 = (0, []).
Proof.
  split; [exact demo_w_good|].
  assert (E : sem_abs demo_w demo_w_queues 0x4000 = (0, [NT THR_A])) by (vm_compute; reflexivity).
  split; [exact E|].
  destruct (sem_release_refines demo_w demo_w_queues 0x4000 demo_w_good) as (k1 & Q1 & _ & H2 & H3);
    [vm_compute; reflexivity|vm_compute; split; congruence|].
  rewrite E in H2, H3. destruct H3 as (t & _ & H3 & _). exists k1, Q1. split; [exact H3|exact H2].
Defined.

(** C11: [rt_sem_detach] terminates, makes every waiter ready and leaves the waiting
    list empty. *)
Theorem sem_detach_wakes_all (fuel : nat) (k : kernel) (Q : queues) (s : Z) :
  kgood ∅ k Q -> live Q (NSem s) = true -> (length (Q (NSem s)) < fuel)%nat ->
  exists k' Q', rt_sem_detach fuel s k = Some (RT_EOK, k') /\ kgood ∅ k' Q' /\ Q' (NSem s) = [] /\
    (forall t, NT t ∈ Q (NSem s) -> awake (statu_of k' t) = true) /\
    (forall u, ex Q' u <-> ex Q u).
Proof.
  intros HG Hl Hf. unfold rt_sem_detach, rt_hw_interrupt_disable.
  destruct (resume_list_good fuel (NSem s) (set_ie false k) Q) as (k' & Q' & E & HG' & _ & HQ & Hx & Hw & _);
    [by apply kgood_ie|done|done|done|].
  rewrite E. exists (set_ie (ie k) k'), Q'. split_and!; [done|by apply kgood_ie|done|exact Hw|done].
Qed.

Lemma sem_detach_wakes_all_witness : kgood ∅ demo_w demo_w_queues /\
  exists k', rt_sem_detach 3 0x4000 demo_w = Some (RT_EOK, k') /\ awake (statu_of k' THR_A) = true.
Proof.
  split; [exact demo_w_good|].
  destruct (sem_detach_wakes_all 3 demo_w demo_w_queues 0x4000 demo_w_good) as (k' & Q' & H & _ & _ & H1 & _);
    [vm_compute; reflexivity|vm_compute; lia|].
  exists k'. split; [exact H|]. apply H1, listed. vm_compute. reflexivity.
Defined.

(** ** Mailboxes *)

Inductive mb_op := OpPut (v : Z) | OpGet.

(** The code's tests and ring operations: what each operation gives, [None] where it is
    refused. *)
Fixpoint mb_exec (ops : list mb_op) (b : rt_mailbox) : list (option Z) * rt_mailbox :=
  match ops with
  | [] => ([], b)
  | OpPut v :: ops =>
      if mb_full b then let '(o, b) := mb_exec ops b in (None :: o, b)
      else let '(o, b) := mb_exec ops (mb_put v b) in (Some v :: o, b)
  | OpGet :: ops =>
      if mb_empty b then let '(o, b) := mb_exec ops b in (None :: o, b)
      else let '(o, b') := mb_exec ops (snd (mb_get b)) in (Some (fst (mb_get b)) :: o, b')
  end.

(** A bounded queue. *)
Fixpoint queue_exec (ops : list mb_op) (size : Z) (q : list Z) : list (option Z) * list Z :=
  match ops with
  | [] => ([], q)
  | OpPut v :: ops =>
      if Z.of_nat (length q) =? size then let '(o, q) := queue_exec ops size q in (None :: o, q)
      else let '(o, q) := queue_exec ops size (q ++ [v]) in (Some v :: o, q)
  | OpGet :: ops =>
      match q with
      | [] => let '(o, q) := queue_exec ops size q in (None :: o, q)
      | v :: q => let '(o, q) := queue_exec ops size q in (Some v :: o, q)
      end
  end.

(** C8: the ring buffer of a mailbox refines a bounded first-in first-out queue: every
    sequence of sends and receives gives the same results, and leaves the same messages,
    as on the queue. *)
Theorem mailbox_refines_queue (ops : list mb_op) (b : rt_mailbox) : mb_wf b ->
  let '(out, b') := mb_exec ops b in
  mb_wf b' /\ queue_exec ops (mb_size b) (mb_contents b) = (out, mb_contents b').
Proof.
  revert b. induction ops as [|[v|] ops IH]; intros b Hb; cbn [mb_exec queue_exec]; [done| |].
  - pose proof (mb_contents_length b Hb) as Hlen. rewrite Hlen. fold (mb_full b).
    destruct (mb_full b) eqn:Ef.
    + specialize (IH b Hb). destruct (mb_exec ops b) as [o b']. destruct IH as [H1 H2]. by rewrite H2.
    + destruct (mb_put_spec b v Hb Ef) as [Hw Hc]. specialize (IH _ Hw).
      destruct (mb_exec ops (mb_put v b)) as [o b']. destruct IH as [H1 H2].
      rewrite Hc in H2. simpl in H2. by rewrite H2.
  - destruct (mb_empty b) eqn:Ee.
    + assert (E : mb_contents b = []).
      { unfold mb_empty in Ee. apply Z.eqb_eq in Ee. unfold mb_contents. by rewrite Ee. }
      specialize (IH b Hb). destruct (mb_exec ops b) as [o b']. rewrite E in *.
      destruct IH as [H1 H2]. by rewrite H2.
    + destruct (mb_get_spec b Hb Ee) as [Hw Hc]. specialize (IH _ Hw).
      destruct (mb_exec ops (snd (mb_get b))) as [o b']. destruct IH as [H1 H2].
      rewrite Hc. change (mb_size (snd (mb_get b))) with (mb_size b) in H2. by rewrite H2.
Qed.

Definition demo_mb : rt_mailbox := RtMailbox [0; 0] 2 0 0 0.

Lemma mailbox_refines_queue_witness : mb_wf demo_mb /\
  fst (mb_exec [OpPut 7; OpPut 8; OpPut 9; OpGet; OpPut 9; OpGet; OpGet; OpGet] demo_mb)
    = [Some 7; Some 8; None; Some 7; Some 9; Some 8; Some 9; None] /\
  fst (queue_exec [OpPut 7; OpPut 8; OpPut 9; OpGet; OpPut 9; OpGet; OpGet; OpGet] 2 (mb_contents demo_mb))
    = [Some 7; Some 8; None; Some 7; Some 9; Some 8; Some 9; None].
Proof.
  destruct (mb_wf_init 2 [0; 0]) as [Hw _]; [lia|reflexivity|].
  split; [exact Hw|split; [vm_compute; reflexivity|]].
  pose proof (mailbox_refines_queue [OpPut 7; OpPut 8; OpPut 9; OpGet; OpPut 9; OpGet; OpGet; OpGet] demo_mb Hw) as H.
  destruct (mb_exec [OpPut 7; OpPut 8; OpPut 9; OpGet; OpPut 9; OpGet; OpGet; OpGet] demo_mb) as [o b'] eqn:E.
  destruct H as [_ H]. change (mb_size demo_mb) with 2 in H. rewrite H. simpl.
  vm_compute in E. injection E as <- _. reflexivity.
Defined.

(** C9: a send to a mailbox with room stores the message behind the others and, when a
    thread waits to receive, makes the one that waits longest ready; a full mailbox
    refuses a send that may not wait; the invariant holds in each case. *)
Theorem mb_send_spec (k : kernel) (Q : queues) (m value : Z) :
  kgood ∅ k Q -> m ≠ NULL -> rt_current_thread k ≠ NULL -> live Q (NMbRecv m) = true ->
  mb_wf (mbox k m) ->
  if mb_full (mbox k m) then rt_mb_send m value k = MDone (- RT_EFULL) 0 k
  else exists k1 Q1, kgood ∅ k1 Q1 /\ mb_wf (mbox k1 m) /\
    mb_contents (mbox k1 m) = mb_contents (mbox k m) ++ [value] /\
    match Q (NMbRecv m) with
    | [] => rt_mb_send m value k = MDone RT_EOK 0 k1
    | n :: rest => exists t, n = NT t /\ rt_mb_send m value k = MSched (rt_schedule k1) 0 /\
        Q1 (NMbRecv m) = rest /\ statu_of k1 t = wake_status k t
    end.
Proof.
  intros HG Hm Hc Hl Hw. unfold rt_mb_send. destruct (mb_full (mbox k m)) eqn:Ef.
  - by apply (mb_send_full k m Hm Hc).
  - destruct (mb_send_room k Q HG m Hm Hc Hl value 0 Ef) as (HG1 & Hfree & Hwake).
    destruct (mb_put_spec (mbox k m) value Hw Ef) as [Hw1 Hc1].
    set (k1 := set_mbox m (mb_put value (mbox k m)) k) in *.
    assert (Em : mbox k1 m = mb_put value (mbox k m)) by apply fupd_eq.
    destruct (wait_cases k Q HG (NMbRecv m) Hl eq_refl) as [E|(t & rest & E)]; rewrite E.
    + exists k1, Q. rewrite Em. by split_and!; [|..|apply Hfree].
    + destruct (Hwake t rest E) as (H1 & H2 & H3 & H4).
      exists (resumed t k1), (resume_queues k1 Q t).
      destruct (resumed_fields t k1) as (_ & Emb & _). rewrite Emb, Em.
      split_and!; [done..|]. exists t. by split_and!.
Qed.

(** A mailbox of two words at [0x5000]. *)
Definition demo_m : kernel :=
  set_mbox 0x5000 demo_mb (mb_lists_init 0x5000 demo).
Definition demo_m_queues : queues := q_open (q_open demo_queues (NMbRecv 0x5000)) (NMbSend 0x5000).

Lemma kgood_open (k : kernel) (Q : queues) (h : node) : is_wait h = true -> live Q h = false ->
  kgood ∅ k Q -> kgood ∅ (upd_lk (fun L => rt_list_init L h) k) (q_open Q h).
Proof.
  intros Hw Hn [HW (C1 & C2 & C3) HK].
  assert (Hex : forall t, ex (q_open Q h) t <-> ex Q t).
  { intros t. apply open_ex; [done|]. by apply (W_live _ _ _ _ _ _ HW). }
  split.
  - by apply kwf_open.
  - split_and!; [by apply Hex|done|]. intros t Ht%Hex. by apply C3.
  - intros t Ht%Hex. by apply HK.
Qed.

(** [rt_mb_init]: two new waiting lists. *)
Lemma mb_lists_good (k : kernel) (Q : queues) (m : Z) (b : rt_mailbox) :
  live Q (NMbRecv m) = false -> live Q (NMbSend m) = false -> kgood ∅ k Q ->
  kgood ∅ (set_mbox m b (mb_lists_init m k)) (q_open (q_open Q (NMbRecv m)) (NMbSend m)).
Proof.
  intros H1 H2 HG. apply set_mbox_good.
  change (mb_lists_init m k) with
    (upd_lk (fun L => rt_list_init L (NMbSend m)) (upd_lk (fun L => rt_list_init L (NMbRecv m)) k)).
  apply kgood_open; [done| |by apply kgood_open]. simpl. by rewrite fupd_ne.
Qed.

Lemma demo_m_good : kgood ∅ demo_m demo_m_queues.
Proof. apply mb_lists_good; [done|done|]. apply demo_good. Qed.

Lemma mb_send_spec_witness : kgood ∅ demo_m demo_m_queues /\
  exists k1, rt_mb_send 0x5000 42 demo_m = MDone RT_EOK 0 k1 /\ mb_contents (mbox k1 0x5000) = [42].
Proof.
  split; [exact demo_m_good|].
  assert (Hw : mb_wf (mbox demo_m 0x5000)) by (apply (mb_wf_init 2 [0; 0]); [lia|reflexivity]).
  pose proof (mb_send_spec demo_m demo_m_queues 0x5000 42 demo_m_good) as H.
  assert (E : mb_full (mbox demo_m 0x5000) = false) by (vm_compute; reflexivity).
  assert (E2 : demo_m_queues (NMbRecv 0x5000) = []) by (vm_compute; reflexivity).
  assert (E3 : mb_contents (mbox demo_m 0x5000) = []) by (vm_compute; reflexivity).
  rewrite E, E2, E3 in H. destruct H as (k1 & Q1 & _ & _ & H1 & H2);
    [discriminate|vm_compute; discriminate|vm_compute; reflexivity|exact Hw|].
  exists k1. split; [exact H2|exact H1].
Defined.

(** C10: a receive from a mailbox that holds a message returns the oldest one and, when
    a thread waits to send, makes the one that waits longest ready; an empty mailbox
    reports the timeout of a poll; the invariant holds in each case. *)
Theorem mb_recv_spec (k : kernel) (Q : queues) (m timeout : Z) :
  kgood ∅ k Q -> m ≠ NULL -> rt_current_thread k ≠ NULL -> live Q (NMbSend m) = true ->
  mb_wf (mbox k m) ->
  match mb_contents (mbox k m) with
  | [] => rt_mb_recv m 0 k = MDone (- RT_ETIMEOUT) 0 k
  | v :: l => exists k1 Q1, kgood ∅ k1 Q1 /\ mb_wf (mbox k1 m) /\ mb_contents (mbox k1 m) = l /\
    match Q (NMbSend m) with
    | [] => rt_mb_recv m timeout k = MDone RT_EOK v k1
    | n :: rest => exists t, n = NT t /\ rt_mb_recv m timeout k = MSched (rt_schedule k1) v /\
        Q1 (NMbSend m) = rest /\ statu_of k1 t = wake_status k t
    end
  end.
Proof.
  intros HG Hm Hc Hl Hw. destruct (mb_empty (mbox k m)) eqn:Ee.
  - assert (E : mb_contents (mbox k m) = []).
    { unfold mb_empty in Ee. apply Z.eqb_eq in Ee. unfold mb_contents. by rewrite Ee. }
    rewrite E. by apply (mb_recv_empty k m Hm Hc).
  - destruct (mb_get_spec (mbox k m) Hw Ee) as [Hw1 ->].
    destruct (mb_recv_some k Q HG m Hm Hc Hl timeout Ee) as (HG1 & Hfree & Hwake).
    set (k1 := set_mbox m (snd (mb_get (mbox k m))) k) in *.
    assert (Em : mbox k1 m = snd (mb_get (mbox k m))) by apply fupd_eq.
    destruct (wait_cases k Q HG (NMbSend m) Hl eq_refl) as [E|(t & rest & E)]; rewrite E.
    + exists k1, Q. rewrite Em. by split_and!; [|..|apply Hfree].
    + destruct (Hwake t rest E) as (H1 & H2 & H3 & H4).
      exists (resumed t k1), (resume_queues k1 Q t).
      destruct (resumed_fields t k1) as (_ & Emb & _). rewrite Emb, Em.
      split_and!; [done..|]. exists t. by split_and!.
Qed.

(** The mailbox after one message. *)
Definition demo_r : kernel := set_mbox 0x5000 (mb_put 42 demo_mb) (mb_lists_init 0x5000 demo).

Lemma mb_recv_spec_witness : kgood ∅ demo_r demo_m_queues /\
  exists k1, rt_mb_recv 0x5000 0 demo_r = MDone RT_EOK 42 k1 /\ mb_contents (mbox k1 0x5000) = [].
Proof.
  assert (HG : kgood ∅ demo_r demo_m_queues).
  { apply mb_lists_good; [done|done|]. apply demo_good. }
  split; [exact HG|].
  assert (Hw : mb_wf (mbox demo_r 0x5000)).
  { apply (mb_put_spec demo_mb 42); [apply (mb_wf_init 2 [0; 0]); [lia|reflexivity]|vm_compute; reflexivity]. }
  pose proof (mb_recv_spec demo_r demo_m_queues 0x5000 0 HG) as H.
  assert (E2 : demo_m_queues (NMbSend 0x5000) = []) by (vm_compute; reflexivity).
  assert (E3 : mb_contents (mbox demo_r 0x5000) = [42]) by (vm_compute; reflexivity).
  rewrite E2, E3 in H. destruct H as (k1 & Q1 & _ & _ & H1 & H2);
    [discriminate|vm_compute; discriminate|vm_compute; reflexivity|exact Hw|].
  exists k1. split; [exact H2|exact H1].
Defined.
