(* ===== verification/ThreadMemory.v ===== *)
(** * Threads and the heap
    What the thread kernel needs of an allocator, stated as laws of the interface; the
    heap of os/mem.c obeys them.  Against the laws: every thread has its own record and
    its own stack in use, from its creation until the idle thread gives them back. *)

From S2P Require Import Prelude RtList Kernel KernelInv Sched ThreadOps.
From S2P Require Import Heap HeapInv HeapOps HeapSpec.
From S2P Require Import Lifecycle Ipc IpcInv Mailbox System Demo KernelSpec.

(** ** The laws of an allocator *)

(** [al_extent h a n]: a block of [n] bytes at [a] is in use. *)
Class AllocatorLaws (H : Type) `{Allocator H} := {
  al_ok : H -> Prop;
  al_extent : H -> Z -> Z -> Prop;
  al_limit : H -> Z;
  al_range h a n : al_ok h -> al_extent h a n -> 0 < a /\ 0 < n /\ a + n < 2 ^ 32;
  al_disjoint h a n b m : al_ok h -> al_extent h a n -> al_extent h b m ->
    a = b /\ n = m \/ a + n <= b \/ b + m <= a;
  al_malloc n h : al_ok h -> 0 < n <= al_limit h ->
    exists a h', Lifecycle.malloc n h = Some (a, h') /\ al_ok h' /\ al_limit h' = al_limit h /\
      if a =? NULL then forall b m, al_extent h' b m <-> al_extent h b m
      else exists len, n <= len /\ (forall b m, al_extent h' b m <-> al_extent h b m \/ b = a /\ m = len) /\
        forall m, ~ al_extent h a m;
  al_free a n h : al_ok h -> al_extent h a n ->
    exists h', Lifecycle.free a h = Some h' /\ al_ok h' /\ al_limit h' = al_limit h /\
      forall b m, al_extent h' b m <-> al_extent h b m /\ b <> a }.

(** ** The heap of os/mem.c *)

(** More than the number of blocks. *)
Definition heap_fuel (h : heap) : nat := S (Z.to_nat (heap_end h)).

Definition returned {A} (r : outcome A) : option (A * heap) := match r with Ret a h => Some (a, h) | _ => None end.

#[export] Instance heap_allocator : Allocator heap := {|
  Lifecycle.malloc n h := returned (Heap.malloc (heap_fuel h) n h);
  Lifecycle.free a h := snd <$> returned (Heap.free a h) |}.

(** A chain of headers describes one list of blocks. *)
Lemma lay_unique (hd : Z -> heap_mem) (l l' : list seg) : forall p pv,
  lay hd p pv l -> lay hd p pv l' -> total l = total l' -> l = l'.
Proof.
  revert l'. induction l as [|s l IH]; intros [|s' l'] p pv; [done|..].
  - intros _ H Ht. destruct (lay_total _ _ _ _ H) as (_ & _ & Hp). rewrite <- Ht in Hp. by specialize (Hp ltac:(done)).
  - intros H _ Ht. destruct (lay_total _ _ _ _ H) as (_ & _ & Hp). rewrite Ht in Hp. by specialize (Hp ltac:(done)).
  - simpl. intros (E & _ & H) (E' & _ & H') Ht. rewrite E in E'. unfold seg_hdr in E'. injection E' as Eu En.
    destruct s as [u n], s' as [u' n']. simpl in *. assert (n = n') as -> by lia.
    assert (u = u') as -> by (by destruct u, u'). f_equal. by apply (IH l' (p + n') p); [| |lia].
Qed.

Definition heap_ok (h : heap) : Prop := exists l, heap_wf h l.
Definition heap_extent (h : heap) (a n : Z) : Prop :=
  exists l o, heap_wf h l /\ in_use 0 l o (n + 16) /\ a = data_at h o.

Lemma wf_unique (h : heap) (l l' : list seg) : heap_wf h l -> heap_wf h l' -> l = l'.
Proof.
  intros [[] _ _ _ _ _] [[] _ _ _ _ _]. by eapply lay_unique; [| |congruence].
Qed.

(** With the list of blocks at hand. *)
Lemma heap_extent_at (h : heap) (l : list seg) (a n : Z) : heap_wf h l ->
  heap_extent h a n <-> in_use 0 l (a - heap_ptr h - 16) (n + 16).
Proof.
  intros HW. split.
  - intros (l' & o & HW' & Hu & ->). rewrite (wf_unique _ _ _ HW HW'). unfold data_at.
    by replace (heap_ptr h + o + 16 - heap_ptr h - 16) with o by lia.
  - intros Hu. exists l, (a - heap_ptr h - 16). split_and!; [done|done|]. unfold data_at. lia.
Qed.

Lemma blocks_fuel (h : heap) (l : list seg) : laid h l -> (length l < heap_fuel h)%nat.
Proof.
  intros [Hs _ _ He Hl Ht _ _].
  assert (H : forall l p pv, lay (hdr h) p pv l -> Z.of_nat (length l) <= total l).
  { clear. induction l as [|s l IH]; intros p pv; [simpl; lia|]. intros (_ & [Hs _] & Hl). specialize (IH _ _ Hl).
    rewrite length_cons, total_cons. lia. }
  specialize (H _ _ _ Hl). unfold heap_fuel. lia.
Qed.

Lemma heap_range (h : heap) (a n : Z) : heap_ok h -> heap_extent h a n -> 0 < a /\ 0 < n /\ a + n < 2 ^ 32.
Proof.
  intros _ (l & o & HW & Hu & ->). pose proof (hw_laid _ _ HW) as [Hs [Hp1 Hp2] _ He _ Ht _ _].
  destruct (in_use_range _ _ _ _ (wf_ok _ _ HW) Hu) as (H1 & H2 & H3). unfold data_at. lia.
Qed.

Lemma heap_disjoint (h : heap) (a n b m : Z) : heap_ok h -> heap_extent h a n -> heap_extent h b m ->
  a = b /\ n = m \/ a + n <= b \/ b + m <= a.
Proof.
  intros [l HW] Ha Hb. rewrite (heap_extent_at h l) in Ha, Hb by done.
  destruct (in_use_disjoint _ _ _ _ _ _ (wf_ok _ _ HW) Ha Hb) as [[H1 H2]|H]; lia.
Qed.

Lemma heap_malloc (n : Z) (h : heap) : heap_ok h -> 0 < n <= mem_size_aligned h ->
  exists a h', malloc n h = Some (a, h') /\ heap_ok h' /\ mem_size_aligned h' = mem_size_aligned h /\
    if a =? NULL then forall b m, heap_extent h' b m <-> heap_extent h b m
    else exists len, n <= len /\ (forall b m, heap_extent h' b m <-> heap_extent h b m \/ b = a /\ m = len) /\
      forall m, ~ heap_extent h a m.
Proof.
  intros [l HW] Hn. pose proof (hw_laid _ _ HW) as HL. pose proof HL as [Hs [Hp1 Hp2] [_ Hm] _ _ _ _ _].
  assert (Hb : 8 * ((n + 7) / 8) <= mem_size_aligned h) by zlia.
  pose proof (blocks_fuel h l HL) as Hf.
  destruct (malloc_block (heap_fuel h) n h l) as (r & h' & l' & E & HW' & _ & Hptr & Hr); [done|lia|lia|done|done|].
  assert (Hsize : mem_size_aligned h' = mem_size_aligned h).
  { destruct (malloc_ok (heap_fuel h) n h l) as [(? & ? & ? & ? & _ & _ & E1 & _ & [? ? ? ?] & _)|(? & E1 & _ & [? ? ? ?] & _)];
      try done; try lia; congruence. }
  exists r, h'. cbn [Lifecycle.malloc heap_allocator]. rewrite E. split; [done|]. split; [by exists l'|]. split; [done|].
  change NULL with 0. destruct (r =? 0).
  - subst l'. intros b m. rewrite (heap_extent_at h' l), (heap_extent_at h l) by done. by rewrite Hptr.
  - destruct Hr as (_ & o & len & -> & Hlen & Ho & _ & Hiff & Hdis). exists (len - 16). split; [lia|]. split.
    + intros b m. rewrite (heap_extent_at h' l'), (heap_extent_at h l), Hiff, Hptr by done. unfold data_at.
      split; (intros [?|[? ?]]; [by left|right; lia]).
    + intros m Hx. rewrite (heap_extent_at h l) in Hx by done. unfold data_at in Hx.
      replace (heap_ptr h + o + 16 - heap_ptr h - 16) with o in Hx by lia.
      destruct (in_use_range _ _ _ _ (wf_ok _ _ HW) Hx). destruct (Hdis _ _ Hx); lia.
Qed.

Lemma heap_free (a n : Z) (h : heap) : heap_ok h -> heap_extent h a n ->
  exists h', free a h = Some h' /\ heap_ok h' /\ mem_size_aligned h' = mem_size_aligned h /\
    forall b m, heap_extent h' b m <-> heap_extent h b m /\ b <> a.
Proof.
  intros _ (l & o & HW & Hu & ->). destruct (free_block h l o _ HW Hu) as (h' & l' & E & HW' & Hptr & _ & Hiff & _).
  exists h'. cbn [Lifecycle.free heap_allocator]. rewrite E. split; [done|]. split; [by exists l'|]. split.
  - destruct (in_use_split _ _ _ _ Hu) as (l1 & l2 & -> & ->). rewrite Z.add_0_l in E.
    destruct (free_ok h l1 l2 _ HW) as (h2 & E2 & _ & [? ? ? ?] & _). congruence.
  - intros b m. rewrite (heap_extent_at h' l'), (heap_extent_at h l), Hiff, Hptr by done. unfold data_at.
    split; (intros [? ?]; split; [done|lia]).
Qed.

#[export] Instance heap_laws : AllocatorLaws heap := {|
  al_ok := heap_ok; al_extent := heap_extent; al_limit := mem_size_aligned;
  al_range := heap_range; al_disjoint := heap_disjoint; al_malloc := heap_malloc; al_free := heap_free |}.

(** ** Threads *)

Section Threads.
Context {H : Type} `{AllocatorLaws H}.

Fixpoint free_all (l : list Z) (h : H) : option H :=
  match l with
  | [] => Some h
  | a :: l => h ← free a h; free_all l h
  end.

(** A pass of the idle thread that finds closed threads. *)
Definition idle_pass (fuel : nat) (s : threads H) : option (threads H) :=
  match idle_thread_body fuel (tk s) with
  | IdleCleaned k frees => h ← free_all frees (th_heap s); Some (Threads k h (threadIdIndex s))
  | _ => None
  end.

Definition block_used (h : H) (a : Z) : Prop := exists n, al_extent h a n.

(** Every thread has a record and a stack that are its own. *)
Record owned (Q : queues) (s : threads H) : Prop := {
  ow_good : kgood ∅ (tk s) Q;
  ow_heap : al_ok (th_heap s);
  ow_record : forall u, ex Q u -> exists n, SIZEOF_RT_THREAD <= n /\ al_extent (th_heap s) u n;
  ow_stack : forall u, ex Q u ->
    exists n, stack_size (thr (tk s) u) <= n /\ al_extent (th_heap s) (stack_addr (thr (tk s) u)) n;
  ow_apart : forall u v, ex Q u -> ex Q v -> stack_addr (thr (tk s) u) <> v;
  ow_own : forall u v, ex Q u -> ex Q v -> stack_addr (thr (tk s) u) = stack_addr (thr (tk s) v) -> u = v }.

Lemma free_all_ok (l : list Z) : forall h, al_ok h -> NoDup l -> Forall (block_used h) l ->
  exists h', free_all l h = Some h' /\ al_ok h' /\ al_limit h' = al_limit h /\
    forall b m, al_extent h' b m <-> al_extent h b m /\ b ∉ l.
Proof.
  induction l as [|a l IH]; intros h Hok Hnd Hu; cbn [free_all].
  { exists h. split_and!; try done. intros b m. set_solver. }
  apply NoDup_cons in Hnd as [Ha Hnd]. apply Forall_cons in Hu as [[n Hx] Hu].
  destruct (al_free a n h Hok Hx) as (h1 & -> & Hok1 & Hl1 & Hiff1). cbn [mbind option_bind].
  destruct (IH h1) as (h2 & -> & Hok2 & Hl2 & Hiff2); [done|done| |].
  { apply Forall_forall. intros b Hb. destruct (proj1 (Forall_forall _ _) Hu b Hb) as [m Hm]. exists m. apply Hiff1. set_solver. }
  exists h2. split_and!; [done|done|congruence|]. intros b m. rewrite Hiff2, Hiff1. set_solver.
Qed.

Lemma frees_of_spec (k : kernel) (Q : queues) (b : Z) : kgood ∅ k Q -> running k ->
  b ∈ frees_of k (Q NDead) <-> exists u, ex Q u /\ statu_of k u = RT_THREAD_CLOSE /\ (b = u \/ b = stack_addr (thr k u)).
Proof.
  intros HG Hr. unfold frees_of. rewrite list_elem_of_In, in_flat_map. split.
  - intros (n & Hn & Hb). apply list_elem_of_In in Hn. pose proof (kg_wf _ _ _ HG) as HW.
    destruct (W_home _ _ _ _ _ _ HW NDead n) as (u & -> & _); [by apply HW|done|done|].
    apply (dead_closed k Q u HG Hr) in Hn as [Hx Hc]. exists u. split_and!; [done|done|]. simpl in Hb. naive_solver.
  - intros (u & Hx & Hc & Hb). exists (NT u). split; [by apply list_elem_of_In, (dead_closed k Q u HG Hr)|]. simpl. naive_solver.
Qed.

Lemma frees_of_NoDup (Q : queues) (s : threads H) (l : list node) : owned Q s -> NoDup l ->
  (forall n, n ∈ l -> exists u, n = NT u /\ ex Q u) -> NoDup (frees_of (tk s) l).
Proof.
  intros Ho. induction 1 as [|n l Hn _ IH]; intros Hl; [constructor|].
  destruct (Hl n) as (u & -> & Hu); [set_solver|]. cbn [frees_of flat_map app]. fold (frees_of (tk s) l).
  assert (Hother : forall b, b ∈ frees_of (tk s) l -> exists v, ex Q v /\ v <> u /\ (b = v \/ b = stack_addr (thr (tk s) v))).
  { intros b Hb. unfold frees_of in Hb. apply list_elem_of_In, in_flat_map in Hb as (m & Hm & Hb). apply list_elem_of_In in Hm.
    destruct (Hl m) as (v & -> & Hv); [set_solver|]. exists v. split_and!; [done|congruence|]. simpl in Hb. naive_solver. }
  apply NoDup_cons. split; [|apply NoDup_cons; split; [|apply IH; set_solver]].
  - rewrite elem_of_cons. intros [E|(v & Hv & Hne & [E|E])%Hother].
    + by apply (ow_apart _ _ Ho u u).
    + by apply (ow_apart _ _ Ho u v).
    + by apply Hne, (ow_own _ _ Ho).
  - intros (v & Hv & Hne & [E|E])%Hother; [done|]. by apply (ow_apart _ _ Ho v u).
Qed.

Section Creation.
Context (status gp texit : Z) (nm : list Z) (fn userdata stackSize priority runtick : Z).

Lemma owned_ie (Q : queues) (s : threads H) (h : H) (b : bool) : owned Q s -> al_ok h ->
  (forall a n, al_extent h a n <-> al_extent (th_heap s) a n) -> owned Q (Threads (set_ie b (tk s)) h (threadIdIndex s)).
Proof.
  intros [HG Hok Hr Hs Ha Ho] Hok' Hiff. split; simpl; try done.
  - by apply kgood_ie.
  - intros u Hu. destruct (Hr u Hu) as (n & ? & ?). exists n. by rewrite Hiff.
  - intros u Hu. destruct (Hs u Hu) as (n & ? & ?). exists n. by rewrite Hiff.
Qed.

Lemma new_thread_stack (ident stack : Z) : 0 <= stackSize < 2 ^ 32 ->
  let th := new_thread status gp texit nm ident fn userdata stack stackSize priority runtick in
  stack_addr th = stack /\ stack_size th = stackSize.
Proof. intros Hs. split; [done|]. cbn. by apply u32_small. Qed.

(** The record and the stack of a new thread are blocks that no thread has. *)
Lemma enlist_owned (Q : queues) (s : threads H) (t stack : Z) (h : H) (n m : Z) : owned Q s -> al_ok h ->
  let th := new_thread status gp texit nm (threadIdIndex s) fn userdata stack stackSize priority runtick in
  let k' := enlist t (upd_thr t (fun _ => th) (tk s)) in
  0 <= priority < RT_THREAD_PRIORITY_MAX -> 156 < stackSize -> stackSize <= m -> SIZEOF_RT_THREAD <= n ->
  al_extent h t n -> al_extent h stack m -> stack <> t ->
  (forall a k, al_extent (th_heap s) a k -> al_extent h a k) ->
  (forall k, ~ al_extent (th_heap s) t k) -> (forall k, ~ al_extent (th_heap s) stack k) ->
  owned (enlist_queues Q t priority) (Threads k' h (threadIdIndex s +u 1)) /\
  thr k' = fupd (thr (tk s)) t th /\ ~ ex Q t.
Proof.
  intros [HG Hok Hr Hs Ha Ho] Hok' th k' Hp Hsz Hm Hn Ht Hst Hne Hkeep Hnt Hns.
  assert (Hx : ~ ex Q t) by (intros Hx; destruct (Hr t Hx) as (k & _ & Hk); by apply (Hnt k)).
  destruct (al_range h stack m Hok' Hst) as (R1 & _ & R2).
  destruct (new_thread_fields status gp texit nm (threadIdIndex s) fn userdata stack stackSize priority runtick Hp)
    as (F1 & F2 & F3 & F4). fold th in F1, F2, F3, F4.
  assert (Hlt : stack + stackSize < 2 ^ 32) by lia.
  destruct (new_thread_stack (threadIdIndex s) stack) as [E1 E2]; [lia|]. fold th in E1, E2.
  destruct (enlist_fields t priority th (tk s) F1 F2) as (G1 & _). fold k' in G1.
  assert (Hcheck : forall k0, thr k0 t = th -> _rt_scheduler_stack_check k0 t = true)
    by (intros k0 Ek; by apply (new_thread_stack_ok _ _ _ _ _ _ _ _ _ _ _ k0 t R1 Hsz Hlt Ek)).
  pose proof (ex_fresh (tk s) Q t (kg_wf _ _ _ HG) Hx) as HF.
  assert (Hold : forall u, ex Q u -> thr k' u = thr (tk s) u) by (intros u Hu; rewrite G1; apply fupd_ne; congruence).
  assert (Hnew : thr k' t = th) by (rewrite G1; apply fupd_eq).
  assert (Hsplit : forall u, ex (enlist_queues Q t priority) u -> u = t \/ ex Q u) by (intros u; apply enlist_ex).
  split; [|by split]. split; cbn [tk th_heap].
  - by apply create_good.
  - done.
  - intros u [->|Hu]%Hsplit; [by exists n|]. destruct (Hr u Hu) as (k & ? & ?). exists k. auto.
  - intros u [->|Hu]%Hsplit; [rewrite Hnew, E1, E2; by exists m|]. rewrite Hold by done.
    destruct (Hs u Hu) as (k & ? & ?). exists k. auto.
  - intros u v [->|Hu]%Hsplit [->|Hv]%Hsplit; rewrite ?Hnew, ?E1, ?(Hold u) by done; [done| | |by apply Ha].
    + intros ->. destruct (Hr v Hv) as (k & _ & Hk). by apply (Hns k).
    + intros E. destruct (Hs u Hu) as (k & _ & Hk). rewrite E in Hk. by apply (Hnt k).
  - intros u v [->|Hu]%Hsplit [->|Hv]%Hsplit; rewrite ?Hnew, ?E1, ?(Hold u), ?(Hold v) by done; [done| | |by apply Ho].
    + intros E. destruct (Hs v Hv) as (k & _ & Hk). rewrite <- E in Hk. by destruct (Hns k).
    + intros E. destruct (Hs u Hu) as (k & _ & Hk). rewrite E in Hk. by destruct (Hns k).
Qed.

(** A refusal: the kernel as it was, but for the interrupt enable bit. *)
Lemma owned_refused (Q : queues) (s : threads H) (h : H) (b : bool) : owned Q s -> al_ok h ->
  (forall a n, al_extent h a n <-> al_extent (th_heap s) a n) ->
  owned Q (Threads (if b then set_ie false (tk s) else tk s) h (threadIdIndex s)).
Proof.
  intros Ho Hok Hiff. destruct b; [by apply owned_ie|].
  pose proof (owned_ie Q s h (ie (tk s)) Ho Hok Hiff) as Hi. by replace (set_ie (ie (tk s)) (tk s)) with (tk s) in Hi by by destruct (tk s).
Qed.

Lemma join_owned (Q : queues) (s : threads H) : owned Q s -> 0 <= priority < 256 ->
  SIZEOF_RT_THREAD <= al_limit (th_heap s) -> 156 < stackSize < 2 ^ 32 -> stackSize <= al_limit (th_heap s) ->
  exists r s', thread_join_init status gp texit nm fn userdata stackSize priority runtick s = Some (r, s') /\
    al_limit (th_heap s') = al_limit (th_heap s) /\
    if r =? NULL then owned Q s' /\ forall a, block_used (th_heap s') a <-> block_used (th_heap s) a
    else owned (enlist_queues Q r priority) s' /\ ~ ex Q r /\
      forall a, block_used (th_heap s') a <-> block_used (th_heap s) a \/ a = r \/ a = stack_addr (thr (tk s') r).
Proof.
  intros Ho Hp Hl1 Hsz Hl2. pose proof (ow_heap _ _ Ho) as Hok. unfold thread_join_init.
  destruct (priority >? RT_THREAD_PRIORITY_MAX - 1) eqn:Ep.
  { eexists _, _. split; [done|]. split; [done|]. split; [by apply owned_refused|done]. }
  assert (Hpr : 0 <= priority < RT_THREAD_PRIORITY_MAX) by lia.
  destruct (al_malloc SIZEOF_RT_THREAD (th_heap s) Hok) as (t & h1 & -> & Hok1 & Hlim1 & Hr1); [unfold SIZEOF_RT_THREAD in *; lia|].
  destruct (t =? NULL) eqn:Et.
  { eexists _, _. split; [done|]. split; [done|]. split; [by apply owned_refused|]. intros a. unfold block_used. by setoid_rewrite Hr1. }
  destruct Hr1 as (n & Hn & Hiff1 & Hnew1).
  assert (Hs0 : (stackSize =? 0) = false) by lia. rewrite Hs0, (u32_small stackSize) by lia.
  destruct (al_malloc stackSize h1 Hok1) as (stack & h2 & -> & Hok2 & Hlim2 & Hr2); [lia|].
  destruct (stack =? NULL) eqn:Es.
  - assert (Ht : al_extent h2 t n) by (rewrite Hr2, Hiff1; auto).
    destruct (al_free t n h2 Hok2 Ht) as (h3 & -> & Hok3 & Hlim3 & Hiff3).
    assert (Hback : forall a m, al_extent h3 a m <-> al_extent (th_heap s) a m).
    { intros a m. rewrite Hiff3, Hr2, Hiff1. split; [by intros [[?|[? _]] ?]|].
      intros Ha. split; [by left|]. intros ->. by apply (Hnew1 m). }
    eexists _, _. split; [done|]. split; [simpl; congruence|]. split; [by apply owned_refused|].
    intros a. unfold block_used. by setoid_rewrite Hback.
  - destruct Hr2 as (m & Hm & Hiff2 & Hnew2).
    assert (Hne : stack <> t) by (intros ->; apply (Hnew2 n), Hiff1; auto).
    destruct (enlist_owned Q s t stack h2 n m Ho Hok2 Hpr) as (Ho' & Ethr & Hx); try done; try lia.
    { apply Hiff2. left. apply Hiff1. auto. }
    { apply Hiff2. auto. }
    { intros a k Ha. apply Hiff2. left. apply Hiff1. auto. }
    { intros k Hk. apply (Hnew2 k), Hiff1. auto. }
    eexists _, _. split; [done|]. split; [simpl; congruence|]. rewrite Et. split; [|split; [done|]].
    + destruct (negb (rt_current_thread (tk s) =? NULL)); [|done].
      match goal with |- owned _ (Threads ?k _ _) => match type of Ho' with owned _ (Threads ?k' _ _) =>
        replace k with k'; [done|by apply kernel_ext] end end.
    + intros a. cbn [tk th_heap]. unfold block_used. setoid_rewrite Hiff2. setoid_rewrite Hiff1.
      match goal with |- context [thr ?k t] => assert (Ek : stack_addr (thr k t) = stack) end.
      { destruct (negb (rt_current_thread (tk s) =? NULL)); cbn; by rewrite fupd_eq. }
      rewrite Ek. naive_solver.
Qed.
End Creation.

Lemma pass_owned (Q : queues) (s : threads H) (fuel : nat) : owned Q s -> running (tk s) -> Q NDead <> [] ->
  (length (Q NDead) < fuel)%nat ->
  exists s' Q', idle_pass fuel s = Some s' /\ owned Q' s' /\
    (forall u, ex Q' u <-> ex Q u /\ statu_of (tk s) u <> RT_THREAD_CLOSE) /\
    forall a, block_used (th_heap s') a <-> block_used (th_heap s) a /\
      ~ exists u, ex Q u /\ statu_of (tk s) u = RT_THREAD_CLOSE /\ (a = u \/ a = stack_addr (thr (tk s) u)).
Proof.
  intros Ho Hr Hd Hf. pose proof (ow_good _ _ Ho) as HG. pose proof (kg_wf _ _ _ HG) as HW.
  pose proof (idle_body_good fuel (tk s) Q HG Hr Hf) as Hb. rewrite bool_decide_false in Hb by done.
  destruct Hb as (k' & Q' & E & HG' & _ & Ethr & Hex). unfold idle_pass. rewrite E.
  pose proof (fun b => frees_of_spec (tk s) Q b HG Hr) as Hfs.
  destruct (free_all_ok (frees_of (tk s) (Q NDead)) (th_heap s)) as (h' & -> & Hok & _ & Hiff).
  { apply Ho. }
  { apply (frees_of_NoDup Q); [done|eapply qwf_NoDup; [apply HW|by apply HW]|]. intros n Hn.
    destruct (W_home _ _ _ _ _ _ HW NDead n) as (u & -> & Hu); [by apply HW|done|done|]. exists u. split; [done|apply Hu]. }
  { apply Forall_forall. intros b (u & Hu & _ & [->| ->])%Hfs.
    - destruct (ow_record _ _ Ho u Hu) as (n & _ & Hn). by exists n.
    - destruct (ow_stack _ _ Ho u Hu) as (n & _ & Hn). by exists n. }
  cbn [mbind option_bind]. exists (Threads k' h' (threadIdIndex s)), Q'. split; [done|]. split; [|split; [done|]].
  - assert (Hkeep : forall u v, ex Q' u -> ex Q v -> statu_of (tk s) v = RT_THREAD_CLOSE ->
      u <> v /\ u <> stack_addr (thr (tk s) v) /\ stack_addr (thr (tk s) u) <> v /\
      stack_addr (thr (tk s) u) <> stack_addr (thr (tk s) v)).
    { intros u v [Hu Hnc]%Hex Hv Hc. split_and!; [congruence| |by apply (ow_apart _ _ Ho)|].
      - intros Eu. by apply (ow_apart _ _ Ho v u).
      - intros Eu%(ow_own _ _ Ho); [congruence|done|done]. }
    split; cbn [tk th_heap]; rewrite ?Ethr.
    + done.
    + done.
    + intros u Hu. destruct (ow_record _ _ Ho u) as (n & Hn & Hx); [by apply Hex|]. exists n. split; [done|]. apply Hiff.
      split; [done|]. intros (v & Hv & Hc & Hb)%Hfs. destruct (Hkeep u v Hu Hv Hc) as (H2 & H3 & _). naive_solver.
    + intros u Hu. destruct (ow_stack _ _ Ho u) as (n & Hn & Hx); [by apply Hex|]. exists n. split; [done|]. apply Hiff.
      split; [done|]. intros (v & Hv & Hc & Hb)%Hfs. destruct (Hkeep u v Hu Hv Hc) as (_ & _ & H2 & H3). naive_solver.
    + intros u v Hu Hv. apply (ow_apart _ _ Ho); by apply Hex.
    + intros u v Hu Hv. apply (ow_own _ _ Ho); by apply Hex.
  - intros a. cbn [th_heap]. unfold block_used. setoid_rewrite Hiff. rewrite <- Hfs. naive_solver.
Qed.
End Threads.

Section Closing.
Context {H : Type} `{AllocatorLaws H}.

Lemma close_stack (t u : Z) (k : kernel) :
  stack_addr (thr (close_thread t k) u) = stack_addr (thr k u) /\
  stack_size (thr (close_thread t k) u) = stack_size (thr k u).
Proof.
  set (k1 := upd_thr t (t_statu RT_THREAD_CLOSE) k). destruct (timer_stop_fields t k1) as (_ & _ & _ & _ & _ & _ & ET).
  assert (Ecl : close_thread t k = upd_lk (fun L => rt_list_insert_after L NDead (NT t))
      (rt_schedule_remove_thread t (snd (rt_timer_stop t k1)))).
  { unfold close_thread. fold k1. rewrite (surjective_pairing (rt_timer_stop t k1)). reflexivity. }
  destruct (remove_thread_fields t (snd (rt_timer_stop t k1))) as [E _].
  assert (Ethr : forall f k2, thr (upd_lk f k2) = thr k2) by done.
  rewrite Ecl, Ethr, E. destruct (ET u) as (f & -> & _). destruct (decide (u = t)) as [->|Hu].
  - change (thr k1) with (fupd (thr k) t (t_statu RT_THREAD_CLOSE (thr k t))). by rewrite fupd_eq.
  - change (thr k1) with (fupd (thr k) t (t_statu RT_THREAD_CLOSE (thr k t))). by rewrite fupd_ne.
Qed.

Lemma close_owned (Q : queues) (s : threads H) (t : Z) : owned Q s -> ex Q t ->
  owned (close_queues Q t) (Threads (close_thread t (tk s)) (th_heap s) (threadIdIndex s)).
Proof.
  intros [HG Hok Hr Hs Ha Ho] Ht. split; cbn [tk th_heap].
  - by apply close_good.
  - done.
  - intros u. rewrite ex_close. apply Hr.
  - intros u. rewrite ex_close. destruct (close_stack t u (tk s)) as [-> ->]. apply Hs.
  - intros u v. rewrite !ex_close. destruct (close_stack t u (tk s)) as [-> _]. apply Ha.
  - intros u v. rewrite !ex_close. destruct (close_stack t u (tk s)) as [-> _], (close_stack t v (tk s)) as [-> _]. apply Ho.
Qed.
End Closing.

(** C13: over any allocator that obeys the laws, every thread has a record and a stack in
    use that no other thread shares, and the operations keep it so.  A creation returns:
    [NULL], with every block as before, or a new thread, with exactly its record and its
    stack more in use.  A thread that exits or is killed keeps its blocks; a pass of the
    idle thread returns, and takes exactly the blocks of the closed threads out of use. *)
Theorem threads_own_memory {H : Type} `{AllocatorLaws H} (Q : queues) (s : threads H) (Ho : owned Q s) :
  (forall status gp texit nm fn userdata stackSize priority runtick,
     0 <= priority < 256 -> SIZEOF_RT_THREAD <= al_limit (th_heap s) ->
     156 < stackSize < 2 ^ 32 -> stackSize <= al_limit (th_heap s) ->
     exists r s', thread_join_init status gp texit nm fn userdata stackSize priority runtick s = Some (r, s') /\
       al_limit (th_heap s') = al_limit (th_heap s) /\
       if r =? NULL then owned Q s' /\ forall a, block_used (th_heap s') a <-> block_used (th_heap s) a
       else owned (enlist_queues Q r priority) s' /\ ~ ex Q r /\
         forall a, block_used (th_heap s') a <-> block_used (th_heap s) a \/ a = r \/ a = stack_addr (thr (tk s') r)) /\
  (forall t, ex Q t -> owned (close_queues Q t) (Threads (close_thread t (tk s)) (th_heap s) (threadIdIndex s))) /\
  (forall fuel, running (tk s) -> Q NDead <> [] -> (length (Q NDead) < fuel)%nat ->
     exists s' Q', idle_pass fuel s = Some s' /\ owned Q' s' /\
       (forall u, ex Q' u <-> ex Q u /\ statu_of (tk s) u <> RT_THREAD_CLOSE) /\
       forall a, block_used (th_heap s') a <-> block_used (th_heap s) a /\
         ~ exists u, ex Q u /\ statu_of (tk s) u = RT_THREAD_CLOSE /\ (a = u \/ a = stack_addr (thr (tk s) u))).
Proof.
  split_and!.
  - intros. by apply join_owned.
  - intros t Ht. by apply close_owned.
  - intros. by apply pass_owned.
Qed.

(** The idle thread alone, its record at 0x1000 and its stack at 0x10000, in the heap of
    os/mem.c; the block between them belongs to somebody else. *)
Definition heap0 : heap := rt_system_heap_init 0xff0 0x20000 no_heap.
Definition grow (n : Z) (h : heap) : heap := match malloc n h with Some (_, h) => h | None => h end.
Definition lone_heap : heap := grow 2048 (grow 0xef58 (grow SIZEOF_RT_THREAD heap0)).
Definition lone_threads : threads heap := Threads lone lone_heap 1.

Lemma lone_good : kgood ∅ lone lone_queues /\ running lone.
Proof.
  assert (HB : kboot demo_idle (enlist_queues boot_queues IDLE 31)).
  { apply demo_add_boot; [num..|by apply thread_init_boot|eapply not_listed; vm_compute; reflexivity]. }
  assert (Hto : switch_to (thread_start demo_idle) = Some IDLE) by (vm_compute; reflexivity).
  destruct (start_good demo_idle _ HB) as (p & to & rest & _ & _ & _ & E & HG & Ec & Es).
  { intros E. vm_compute in E. discriminate. }
  rewrite E in Hto. injection Hto as ->. split; [exact HG|]. unfold running, lone. by rewrite Ec.
Qed.

(** A request, with the address that it returns. *)
Lemma grown (n a : Z) (h : heap) : heap_ok h -> 0 < n <= mem_size_aligned h -> fst <$> malloc n h = Some a -> a <> 0 ->
  heap_ok (grow n h) /\ mem_size_aligned (grow n h) = mem_size_aligned h /\
  (exists m, n <= m /\ heap_extent (grow n h) a m) /\ forall b m, heap_extent h b m -> heap_extent (grow n h) b m.
Proof.
  intros Hok Hn E Ha. unfold grow. destruct (heap_malloc n h Hok Hn) as (r & h' & E1 & Hok' & L & Hr). rewrite E1 in *.
  injection E as ->. rewrite (proj2 (Z.eqb_neq _ _)) in Hr by done. destruct Hr as (len & Hlen & Hiff & _).
  split_and!; [done|done|exists len; split; [done|]; apply Hiff; auto|]. intros b m Hb. apply Hiff. auto.
Qed.

Lemma lone_owned : owned lone_queues lone_threads.
Proof.
  assert (Hok0 : heap_ok heap0).
  { eexists. apply (heap_init_wf 0xff0 0x20000 no_heap); [lia|lia|reflexivity|reflexivity]. }
  assert (Hlim : mem_size_aligned heap0 = 126960) by (vm_compute; reflexivity).
  destruct (grown SIZEOF_RT_THREAD 0x1000 heap0 Hok0) as (Hok1 & L1 & (n & Hn & H1) & _);
    [unfold SIZEOF_RT_THREAD; lia|vm_compute; reflexivity|done|].
  destruct (grown 0xef58 0x1098 _ Hok1) as (Hok2 & L2 & _ & K2); [lia|vm_compute; reflexivity|done|].
  destruct (grown 2048 0x10000 _ Hok2) as (Hok3 & _ & (m & Hm & H3) & K3); [lia|vm_compute; reflexivity|done|].
  assert (Hx : forall u, ex lone_queues u -> u = IDLE).
  { intros u Hu. unfold ex in Hu.
    assert (E : lone_queues NAll = [NA IDLE]) by (vm_compute; reflexivity). rewrite E in Hu.
    apply list_elem_of_singleton in Hu. injection Hu as ->. done. }
  assert (Es : stack_addr (thr lone IDLE) = 0x10000 /\ stack_size (thr lone IDLE) = 2048) by (split; vm_compute; reflexivity).
  split; cbn [tk th_heap lone_threads].
  - apply lone_good.
  - exact Hok3.
  - intros u ->%Hx. exists n. split; [exact Hn|]. exact (K3 _ _ (K2 _ _ H1)).
  - intros u ->%Hx. destruct Es as [-> ->]. exists m. exact (conj Hm H3).
  - intros u v ->%Hx ->%Hx. by destruct Es as [-> _].
  - intros u v ->%Hx ->%Hx. done.
Qed.

(** A thread of priority 5 beside the idle thread. *)
Lemma threads_own_memory_witness :
  exists r s', thread_join_init 0 0 0 [99] 0x80010000 0 2048 5 5 lone_threads = Some (r, s') /\
    r = 0x10810 /\ owned (enlist_queues lone_queues r 5) s' /\ block_used (th_heap s') r.
Proof.
  destruct (threads_own_memory lone_queues lone_threads lone_owned) as (Hc & _ & _).
  assert (L : al_limit (th_heap lone_threads) = 126960) by (vm_compute; reflexivity).
  destruct (Hc 0 0 0 [99] 0x80010000 0 2048 5 5) as (r & s' & E & _ & Hr);
    [lia|rewrite L; unfold SIZEOF_RT_THREAD; lia|lia|rewrite L; lia|].
  assert (Er : fst <$> thread_join_init 0 0 0 [99] 0x80010000 0 2048 5 5 lone_threads = Some 0x10810) by (vm_compute; reflexivity).
  rewrite E in Er. injection Er as ->. exists 0x10810, s'. split; [exact E|]. split; [reflexivity|].
  destruct Hr as (Ho & _ & Hu). split; [exact Ho|]. apply Hu. right. left. reflexivity.
Defined.
